(* ===== verification/_CoqProject ===== *)
-Q . S2P
Prelude.v
Base.v
Files.v
Format.v
Streams.v
Compress.v
BootHdr.v
BootImg.v
BootOps.v
BootMain.v
OrdMap.v
Persist.v
Resetprop.v
NodeTree.v
Modules.v
Daemon.v
ThreadPool.v
Avtab.v
Sepolicy.v
Xperm.v
PolicyDb.v
PolicyPrint.v
Denylist.v
Sql.v
Db.v
BootConfig.v
Su.v
SuShell.v
SuConnect.v
InitRc.v
ZygiskHook.v
Zygisk.v
Monitor.v
Ptrace.v
InitMount.v
Scripts.v
Applets.v
