(* ===== verification/Prelude.v ===== *)
(** * A verification of the native half of Magisk (the Kitsune fork)

    The program is a root solution for Android.  Its C++ half, under
    [src/native/src], has five parts: [base] (strings, files, streams), [boot] (the
    tool magiskboot, which takes boot images apart and puts them together again),
    [init] (magiskinit, the first process, which prepares the root directory),
    [sepolicy] (live changes of an SELinux policy, over libsepol) and [core] (the
    daemon with its requests, thread pool, modules, deny list, data base, superuser
    command and system properties).
    magiskboot is run by the installer; the daemon is started at boot, mounts the files
    of the modules over the system ("magic mount") and answers the requests of the
    command line tools over a socket.

    The definitions are translated from the source, one per function or method, with
    the names of the source; every one of them can be evaluated.

    ** The files

    - [Prelude] (this file): the outcomes of C++ code, machine words, bytes, shared
      lemmas, tactics and hints.
    - [Base], [Files]: [base/misc.cpp], [base/misc.hpp], [base/files.cpp],
      [base/files.hpp].  Byte views and their patching, number parsing, splitting and
      trimming, alignment, reading of property files.
    - [Streams]: [base/stream.cpp], [base/include/stream.hpp].  The interface
      [out_stream] is the class [OutStream]; [Sink] is what the theorems about filters
      ask of the stream below them.
    - [Format], [Compress]: [boot/format.cpp], [boot/compress.cpp].  Detection of
      formats; one module per codec ([Lz4], [Zopfli], [Gz], [Bz], [Lzma], [Lz4f]) and
      the commands ([Cli]).
    - [BootHdr], [BootImg], [BootOps], [BootMain]: [boot/bootimg.hpp],
      [boot/bootimg.cpp], [boot/main.cpp].  Header structs and their accessors, parsing
      of an image, unpack, repack, sign and verify, the command line.
    - [OrdMap]: [std::map] with string keys.
    - [Persist]: [core/resetprop/persist.rs].  The store of persistent properties, a
      protobuf file with sorted records or a directory of files, over the answers of the
      file system.
    - [Resetprop]: [core/resetprop/resetprop.cpp].
    - [NodeTree]: [core/node.hpp] and the tree half of [core/module.cpp] (the node
      classes, collection of the files of modules, [prepare], the mount phase,
      [load_modules]).
    - [Modules]: the other half of [core/module.cpp] (upgrade, collection, disabling and
      removal of modules).
    - [Daemon]: [core/daemon.cpp] and the socket helpers of [core/include/core.hpp].
    - [ThreadPool]: [core/thread.cpp], as a step relation [step] with an executable
      counterpart [exec_label].
    - [Avtab], [Sepolicy], [Xperm], [PolicyDb], [PolicyPrint]: [sepolicy/sepolicy.cpp] and
      [sepolicy/api.cpp].  The hash table of rules, access vector and type rules with
      their wildcards, extended permission rules, types with attributes, file contexts,
      printing.
    - [Denylist]: [core/deny/utils.cpp], [core/deny/cli.cpp].  The list of hidden
      applications with its views, its data base table, its lookup and its protocol.
    - [Monitor]: [core/deny/logcat.cpp], [core/deny/revert.cpp].  The thread that follows
      the system log for starting processes and takes the mounts down for those on the
      list; unmounting over a namespace given by the laws [MountNs].
    - [Ptrace]: [core/deny/ptrace.cpp].  The thread that traces the zygotes and the
      processes they fork, a state machine over the stops that [waitpid] reports.
    - [ZygiskHook], [Zygisk]: [core/zygisk/hook.cpp], [core/zygisk/module.cpp],
      [core/zygisk/module.hpp], [core/zygisk/entry.cpp].  Hooks of Java and library
      functions; the context of a forked process with its descriptors, the modules it
      loads and the functions they are given, the companion daemon.
    - [Sql], [Db]: [core/sqlite.cpp], [core/db.cpp].  The part of SQL that the program
      uses, statement execution with arguments, the schema and its migrations in both
      openers, settings and strings.
    - [BootConfig]: [init/getinfo.cpp].  The kernel command line, the boot configuration
      and the fixed buffers they are kept in.
    - [InitRc]: [init/rootdir.cpp].  Unpacking of the ramdisk's archives, patching of the
      init scripts, overlay scripts, [/sbin].
    - [InitMount]: [init/mount.cpp].  The block devices, the search for the root partition
      and the mounts magiskinit makes.
    - [Scripts]: [core/scripting.cpp].  The scripts of the boot stages with their timer, and
      the commands given to the shell.
    - [Applets]: [core/applets.cpp], [core/magisk.cpp].  The command line of the binary,
      composed with [Daemon] and [Db].
    - [Su], [SuShell], [SuConnect]: [core/su/su.cpp], [core/su/connect.cpp].  The command
      line of [su] with [getopt_long], the stream protocol between client and daemon and
      the child that becomes the shell, the messages to the manager app.

    ** How C++ is modelled

    A function returns an [outcome]: a result, the end of the process, [Fault] for what
    the language leaves undefined (a read outside of a mapping or through a dangling
    view, an invalid iterator, a signed overflow), or [Loop] when the fuel of a loop ran
    out.  Unsigned arithmetic is written with its wrap-around.  Global state is a record
    that is passed along; output to files and sockets is a list of bytes.  Where the
    code keeps a pointer into a container ([Denylist]: the views of [app_id_to_pkgs])
    the model keeps the address and whether it is still valid.

    Code outside of the repository is a parameter: a section variable or an operation of
    a class, with its documented behaviour as the laws of a second class and a concrete
    instance that satisfies them.  These are the compression libraries ([Compress]), the
    hashes and signatures ([BootOps]), the property area ([PropArea]), the file system
    ([Os]), libsepol's tables and bitmaps ([AvtabLib], [Hashtab], [Ebitmap]), the data base
    of the deny list ([DenyDb]), sqlite ([SqliteLib]), the xz decoder ([XzDec]), a class of the Java
    runtime ([JavaClass]) and a mount namespace ([MountNs]).  The code of a zygisk module is
    a list of steps: calls of the functions it was given, and descriptors it opens and closes.
    The C library of magiskinit is not in the repository: what [InitRc] prints to a stream
    is taken to be written at once.  Allocation is taken to succeed ([Ebitmap]).
    System calls whose effect matters are modelled by the rules of the kernel: descriptors
    and identities in [SuShell].

    ** What the theorems show

    - Boot images.  [parse_image_layout]: the blocks of a parsed image are inside the
      mapping, in order and apart.  [repack_layout]: the image repack writes has the
      layout that the parser recovers, every block with the bytes written for it.
      [header_fields_independent], [header_file_round_trip]: accessors of all header
      classes address fields that do not overlap; the header file restores what it
      holds.  [find_dtb_offset_correct]: termination and correctness of the device tree search.
    - Compression.  [chunk_writes_refine]: chunking does not depend on how the input is
      split.  [lz4_round_trip], [zopfli_run_correct], [compress_decompress_restores]: encoders and
      decoders are inverse, incremental output equals the whole.
      [lz4_decoder_hangs]: an input on which the decoder does not return.
    - Magic mount.  [insert_spec], [collect_keeps], [collect_adds]: who wins when modules
      provide the same file.  [tmpfs_mirrors]: covering a directory loses no file.
      [prepare_total]: preparation ends without an invalid iterator.
      [load_modules_safe]: the calls of the mount phase change nothing but the worker tmpfs
      and what is mounted over existing files that are no links, or the tree could not be
      built and there are no calls.
    - Modules and properties.  [collect_modules_spec], [prepare_modules_spec],
      [disable_modules_effective]: the life cycle.  [persist_props_spec],
      [set_prop_get], [check_legal_property_name_spec]: the persistent store, reading back
      what was set in the property area, the legal names.
    - Daemon.  [handle_request_spec]: who may do what.  [poll_iter_covered]: no handler is
      lost.  [tasks_in_order], [pending_is_taken], [lost_wakeup]: the thread pool is
      right while nothing times out and recv_task has no spurious wake-up, and loses a wake-up when it
      does time out.
    - Policy.  [add_rule_refines], [add_xperm_rule_refines]: a rule changes exactly its
      bits of exactly its keys (an extended rule over several drivers is about all of their
      commands).  [wildcard_rules]: deny all and allow all.
      [printed_rule_round_trip]: a printed rule, carried out,
      gives the rule back, up to permissions without a name.  [strip_dontaudit_spec]: removal during iteration.  [printed_ranges_exact]: the printed ranges.
      [add_typeattribute_spec], [add_type_spec]: the two maps of types stay inverse.
      [filename_key_lost]: transitions are never found again.
    - Deny list.  [deny_ops_safe], [uninstalled_view_dangles]: when views dangle.
      [list_persistent]: memory and data base agree.  [add_list_targets]: what was added
      is a target.  [deny_protocol]: client and daemon agree.  [added_process_is_reverted]:
      from the addition to the log message to the mounts that are taken down.
      [revert_only_isolated]: for whom the monitor takes mounts down, never in the
      namespace of a zygote.  [revert_mounts_clean]:
      what unmounting leaves.  [proc_event_resumes], [proc_event_targets]: no traced process
      is left stopped, and whose mounts are changed.
    - Zygisk.  [zygote_hook_restore]: hooks are undone by the array they leave.
      [child_descriptors]: which descriptors survive in a forked app.  [server_modules]:
      which modules run and which are reported.  [plt_hook_commit_spec]: which hooks are made.
    - Superuser.  [su_args_spec]: what a command line asks for.  [exec_root_shell_spec]: what
      the shell gets, as a composition of the client's and the daemon's side of the
      protocol.  [exec_cmd_calls]: the commands that reach the manager app.
    - Data base.  [open_upgrades], [db_upgrades]: the migrations against the change log, and
      where they lose data.  [get_db_settings_spec]: stored values and defaults.
    - Boot stages.  [post_fs_data_blocking]: scripts run one after the other and never hold
      the boot beyond the deadline.  [applet_dispatch]: the two ways to call an applet.
      [magisk_and_daemon]: the command line, the socket and the daemon composed.
    - magiskinit.  [parse_impl_round_trip], [init_config_spec]: boot parameters, for all
      inputs inside the buffers.  [patch_rc_scripts_spec], [extract_files_spec]: the init
      scripts line by line, the archives byte by byte.  [find_root_terminates]: waiting
      for the root partition ends.

    ** Fuel and bounds

    Fuel is an argument of the loops that do not follow the structure of their data, and
    the theorems say how much is enough: the length of the input for scanners and
    chunked writes, the longest path and the depth of the tree for [prepare], the number
    of poll entries for a round of the poll loop.  Sizes are 32 or 64 bits as in the
    source; a hypothesis such as [zlen s < 2 ^ 31] is the range of the C type that holds
    the value.

    ** Not modelled

    Signal handlers and inotify watches of the tracing monitor and zygisk's search for the
    native bridge, in the registers and the stack of another library, depend on the machine
    below the language; what is left of magiskinit's mounting and of the start of the daemon
    are fixed sequences of system calls without decisions of the program's own; policy files are read and written by libsepol.  Process creation and logging ([base/misc.cpp], [base/xwrap.hpp],
    [base/logging.cpp]) pass on what the kernel answers.
    Files that no build file lists ([module_kitsune.cpp], [nethunter.cpp], [zygisk/hide.cpp]
    and the [*_hide.cpp] and [*_clean.cpp] of the deny list) are in no binary.  The
    directories under [external] are libraries.  Rust, Kotlin and Java are other halves of
    the program; of the Rust half only the store of persistent properties and structures and
    texts that the C++ half shares with it are taken over. *)

From Stdlib Require Export ZArith Lia.
From Stdlib Require Export Strings.Byte.
From stdpp Require Export base list gmap strings.

#[global] Open Scope Z_scope.

Abbreviation byte := Byte.byte.
Abbreviation bytes := (list Byte.byte).

#[global] Instance byte_eq_dec : EqDecision byte := Byte.byte_eq_dec.

Declare Scope kit_scope.
Delimit Scope kit_scope with kit.

(** ** Outcomes of C++ code *)

(** A computation of the program either returns, ends the process with an exit
    status ([exit], [LOGE] in the command line tools), or does something the
    language leaves undefined (an access outside a live object, a division by
    zero, a signed overflow).  [Loop] is not a result: it says that the fuel
    given to a loop ran out before the loop ended. *)
Inductive outcome (A : Type) : Type :=
| Ret (a : A)
| Exit (code : Z)
| Fault
| Loop.
Arguments Ret {A} a.
Arguments Exit {A} code.
Arguments Fault {A}.
Arguments Loop {A}.

Definition obind {A B} (m : outcome A) (f : A -> outcome B) : outcome B :=
  match m with Ret a => f a | Exit c => Exit c | Fault => Fault | Loop => Loop end.

Notation "'let!' x ':=' m 'in' k" := (obind m (fun x => k))
  (at level 10, x pattern, m at level 100, k at level 200) : kit_scope.
#[global] Open Scope kit_scope.

Definition guard_fault (b : bool) : outcome unit := if b then Ret tt else Fault.

Lemma bind_Ret_inv {A B} (m : outcome A) (f : A -> outcome B) b :
  obind m f = Ret b -> exists a, m = Ret a /\ f a = Ret b.
Proof. destruct m; simpl; [eauto|done..]. Qed.

Lemma obind_ext {A B} (m : outcome A) (f g : A -> outcome B) :
  (forall a, f a = g a) -> obind m f = obind m g.
Proof. intros H. destruct m; simpl; [apply H|done..]. Qed.

(** From an evaluated check of a computation to its result. *)
Lemma Ret_check {A} (m : outcome A) (P : A -> bool) :
  match m with Ret a => P a | _ => false end = true -> exists a, m = Ret a /\ P a = true.
Proof. destruct m; [eauto|done..]. Qed.

(** ** Machine integers *)

Definition u8 (z : Z) : Z := z mod 2 ^ 8.
Definition u16 (z : Z) : Z := z mod 2 ^ 16.
Definition u32 (z : Z) : Z := z mod 2 ^ 32.
Definition u64 (z : Z) : Z := z mod 2 ^ 64.
(** two's complement [int] *)
Definition s32 (z : Z) : Z := (z + 2 ^ 31) mod 2 ^ 32 - 2 ^ 31.

Lemma u32_range z : 0 <= u32 z < 2 ^ 32.
Proof. apply Z.mod_pos_bound. lia. Qed.
Lemma u32_id z : 0 <= z < 2 ^ 32 -> u32 z = z.
Proof. apply Z.mod_small. Qed.
Lemma u32_add_l a b : u32 (u32 a + b) = u32 (a + b).
Proof. apply Zplus_mod_idemp_l. Qed.
Lemma u32_idem a : u32 (u32 a) = u32 a.
Proof. apply Zmod_mod. Qed.
Lemma u64_id z : 0 <= z < 2 ^ 64 -> u64 z = z.
Proof. apply Z.mod_small. Qed.
Lemma s32_id z : - 2 ^ 31 <= z < 2 ^ 31 -> s32 z = z.
Proof. unfold s32. intros. rewrite Z.mod_small; lia. Qed.
Lemma u32_s32 z : u32 (s32 z) = u32 z.
Proof.
  unfold u32, s32. rewrite Zminus_mod_idemp_l. f_equal. lia.
Qed.

(** ** Bytes *)

Definition b2z (b : byte) : Z := Z.of_N (Byte.to_N b).
Definition z2b (z : Z) : byte :=
  match Byte.of_N (Z.to_N (u8 z)) with Some b => b | None => x00 end.

Lemma b2z_range b : 0 <= b2z b < 256.
Proof. unfold b2z. pose proof (Byte.to_N_bounded b). lia. Qed.

Lemma z2b_b2z b : z2b (b2z b) = b.
Proof.
  unfold z2b, u8. pose proof (b2z_range b).
  rewrite Z.mod_small by (simpl; lia). unfold b2z.
  by rewrite N2Z.id, Byte.of_to_N.
Qed.

Lemma b2z_z2b z : b2z (z2b z) = z mod 256.
Proof.
  unfold z2b, b2z, u8. change (2 ^ 8) with 256.
  pose proof (Z.mod_pos_bound z 256 ltac:(lia)) as Hz.
  destruct (Byte.of_N (Z.to_N (z mod 256))) as [b|] eqn:E.
  - apply Byte.to_of_N in E. rewrite E. lia.
  - apply Byte.of_N_None_iff in E. lia.
Qed.

Lemma b2z_inj a b : b2z a = b2z b -> a = b.
Proof. intros H. rewrite <- (z2b_b2z a), <- (z2b_b2z b). by rewrite H. Qed.

#[global] Instance byte_countable : Countable byte := inj_countable' b2z z2b z2b_b2z.

Lemma b2z_z2b_small z : 0 <= z < 256 -> b2z (z2b z) = z.
Proof. intros. rewrite b2z_z2b. by apply Z.mod_small. Qed.



(** ** Little and big endian words *)

Fixpoint le_dec (l : bytes) : Z :=
  match l with [] => 0 | b :: t => b2z b + 256 * le_dec t end.

Fixpoint le_enc (n : nat) (z : Z) : bytes :=
  match n with O => [] | S n => z2b z :: le_enc n (z / 256) end.

Definition be_dec (l : bytes) : Z := le_dec (reverse l).
Definition be_enc (n : nat) (z : Z) : bytes := reverse (le_enc n z).

Lemma length_le_enc n z : length (le_enc n z) = n.
Proof. revert z; induction n; intros; simpl; auto. Qed.

Lemma le_dec_bound l : 0 <= le_dec l < 2 ^ (8 * Z.of_nat (length l)).
Proof.
  induction l as [|b l IH]; [simpl; lia|]. cbn [le_dec length].
  pose proof (b2z_range b).
  rewrite Nat2Z.inj_succ, Z.mul_succ_r, Z.pow_add_r by lia.
  change (2 ^ 8) with 256. lia.
Qed.

Lemma le_dec_enc n z : le_dec (le_enc n z) = z mod 2 ^ (8 * Z.of_nat n).
Proof.
  revert z; induction n as [|n IH]; intros; cbn [le_enc le_dec].
  - by rewrite Z.mod_1_r.
  - rewrite IH, b2z_z2b, Nat2Z.inj_succ, Z.mul_succ_r, Z.add_comm, Z.pow_add_r by lia.
    change (2 ^ 8) with 256. rewrite (Z.mul_comm _ 256).
    rewrite Z.rem_mul_r by lia. lia.
Qed.

Lemma le_enc_dec l : le_enc (length l) (le_dec l) = l.
Proof.
  induction l as [|b l IH]; [done|]. cbn [le_enc le_dec length].
  pose proof (b2z_range b). f_equal.
  - apply b2z_inj. rewrite b2z_z2b, Z.mul_comm, Z.mod_add by lia.
    by apply Z.mod_small.
  - rewrite Z.mul_comm, Z.div_add, Z.div_small by lia. by rewrite Z.add_0_l.
Qed.

Lemma le_enc_mod n z m : Z.of_nat n * 8 <= m -> le_enc n (z mod 2 ^ m) = le_enc n z.
Proof.
  revert z m; induction n as [|n IH]; intros z m Hm; [done|]. cbn [le_enc].
  replace (2 ^ m) with (256 * 2 ^ (m - 8)) by (change 256 with (2^8); rewrite <- Z.pow_add_r by lia; f_equal; lia).
  assert (0 < 2 ^ (m - 8)) by (apply Z.pow_pos_nonneg; lia).
  f_equal.
  - apply b2z_inj. rewrite !b2z_z2b, Z.rem_mul_r by lia.
    rewrite Z.mul_comm, Z.mod_add, Zmod_mod by lia. done.
  - rewrite Z.rem_mul_r, Z.mul_comm, Z.div_add by lia.
    rewrite (Z.div_small (_ mod 256)) by (apply Z.mod_pos_bound; lia).
    rewrite Z.add_0_l. apply IH. lia.
Qed.

Lemma length_be_enc n z : length (be_enc n z) = n.
Proof. unfold be_enc. by rewrite length_reverse, length_le_enc. Qed.

Lemma be_dec_enc n z : be_dec (be_enc n z) = z mod 2 ^ (8 * Z.of_nat n).
Proof. unfold be_dec, be_enc. rewrite reverse_involutive. apply le_dec_enc. Qed.

(** ** Buffers *)

(** The length of a buffer as a C++ [size_t]. *)
Definition zlen {A} (l : list A) : Z := Z.of_nat (length l).

(** [len] bytes at offset [off]; total, short near the end of the buffer. *)
Definition sub {A} (l : list A) (off len : Z) : list A :=
  take (Z.to_nat len) (drop (Z.to_nat off) l).

(** Read [len] bytes at [off] of an object: undefined outside it. *)
Definition rd (m : bytes) (off len : Z) : outcome bytes :=
  if (0 <=? off) && (0 <=? len) && (off + len <=? zlen m) then Ret (sub m off len)
  else Fault.

(** Overwrite part of a buffer ([memcpy], [memset], a store through a cast). *)
Definition upd (m : bytes) (off : Z) (v : bytes) : bytes :=
  take (Z.to_nat off) m ++ v ++ drop (Z.to_nat off + length v) m.

Definition wr (m : bytes) (off : Z) (v : bytes) : outcome bytes :=
  if (0 <=? off) && (off + zlen v <=? zlen m) then Ret (upd m off v) else Fault.

Definition zeros (n : Z) : bytes := replicate (Z.to_nat n) x00.

Create HintDb kit discriminated.
Create Rewrite HintDb kit.

Lemma zlen_nonneg {A} (l : list A) : 0 <= zlen l.
Proof. unfold zlen; lia. Qed.
Lemma zlen_app {A} (a b : list A) : zlen (a ++ b) = zlen a + zlen b.
Proof. unfold zlen. rewrite length_app. lia. Qed.
Lemma zlen_cons {A} x (b : list A) : zlen (x :: b) = 1 + zlen b.
Proof. unfold zlen. simpl length. lia. Qed.
Lemma zlen_nil {A} : zlen (@nil A) = 0.
Proof. done. Qed.
Lemma zlen_zeros n : 0 <= n -> zlen (zeros n) = n.
Proof. unfold zlen, zeros. rewrite length_replicate. lia. Qed.
Lemma zlen_le_enc n z : zlen (le_enc n z) = Z.of_nat n.
Proof. unfold zlen. by rewrite length_le_enc. Qed.
Lemma zlen_be_enc n z : zlen (be_enc n z) = Z.of_nat n.
Proof. unfold zlen. by rewrite length_be_enc. Qed.

#[export] Hint Rewrite @zlen_app @zlen_cons @zlen_nil zlen_le_enc zlen_be_enc : kit.
#[export] Hint Rewrite @length_app @length_take @length_drop @length_cons
  @length_replicate length_le_enc length_be_enc @length_reverse : kit.

(** Arithmetic over buffer lengths. *)
Ltac lens :=
  repeat match goal with
  | H : context [zlen _] |- _ => progress (autorewrite with kit in H)
  end;
  autorewrite with kit; unfold zlen in *;
  repeat match goal with
  | H : context [length _] |- _ => progress (autorewrite with kit in H)
  end;
  autorewrite with kit; simpl length in *; try lia.

Section buffers.
Context {A : Type}.
Implicit Types l m : list A.

Lemma length_sub l off len : 0 <= off -> 0 <= len -> off + len <= zlen l ->
  zlen (sub l off len) = len.
Proof. intros. unfold sub. lens. Qed.

Lemma sub_full l : sub l 0 (zlen l) = l.
Proof. unfold sub, zlen. rewrite Nat2Z.id. simpl. by rewrite take_ge. Qed.

Lemma sub_app_l l m off len : 0 <= off -> 0 <= len -> off + len <= zlen l ->
  sub (l ++ m) off len = sub l off len.
Proof.
  intros. unfold sub, zlen in *. rewrite drop_app_le by lia.
  rewrite take_app_le; [done|lens].
Qed.

Lemma sub_app_r l m off len : zlen l <= off ->
  sub (l ++ m) off len = sub m (off - zlen l) len.
Proof.
  intros. unfold sub, zlen in *. rewrite drop_app_ge by lia. do 2 f_equal. lia.
Qed.

Lemma sub_app_exact l m k : sub (l ++ m ++ k) (zlen l) (zlen m) = m.
Proof.
  rewrite sub_app_r by lia. rewrite Z.sub_diag.
  rewrite sub_app_l by (unfold zlen; lia). apply sub_full.
Qed.

Lemma sub_split l off n1 n2 : 0 <= off -> 0 <= n1 -> 0 <= n2 ->
  sub l off (n1 + n2) = sub l off n1 ++ sub l (off + n1) n2.
Proof.
  intros. unfold sub. rewrite !Z2Nat.inj_add by lia.
  rewrite <- drop_drop. generalize (drop (Z.to_nat off) l); intros k.
  revert k; induction (Z.to_nat n1) as [|n IH]; intros [|x k]; simpl; auto.
  - by rewrite !take_nil.
  - by rewrite IH.
Qed.

Lemma sub_sub l o1 n1 o2 n2 : 0 <= o1 -> 0 <= o2 -> 0 <= n2 -> o2 + n2 <= n1 ->
  sub (sub l o1 n1) o2 n2 = sub l (o1 + o2) n2.
Proof.
  intros. unfold sub. rewrite skipn_firstn_comm, take_take, drop_drop.
  f_equal; [lia|f_equal; lia].
Qed.

Lemma sub_sub0 l n o k : 0 <= o -> 0 <= k -> o + k <= n -> sub (sub l 0 n) o k = sub l o k.
Proof. intros. rewrite sub_sub by lia. by rewrite Z.add_0_l. Qed.
End buffers.

Lemma length_upd m off v : 0 <= off -> off + zlen v <= zlen m -> zlen (upd m off v) = zlen m.
Proof. intros. unfold upd. lens. Qed.

Lemma sub_upd_same m off v : 0 <= off -> off + zlen v <= zlen m ->
  sub (upd m off v) off (zlen v) = v.
Proof.
  intros. unfold upd.
  rewrite sub_app_r by lens.
  replace (off - _) with 0 by lens.
  rewrite sub_app_l by (unfold zlen; lia). apply sub_full.
Qed.

Lemma sub_upd_before m off v o n : 0 <= o -> 0 <= n -> o + n <= off ->
  off + zlen v <= zlen m -> sub (upd m off v) o n = sub m o n.
Proof.
  intros. unfold upd. rewrite sub_app_l by lens.
  unfold sub. rewrite skipn_firstn_comm, take_take. f_equal. lia.
Qed.

Lemma sub_upd_after m off v o n : 0 <= off -> off + zlen v <= o ->
  off + zlen v <= zlen m -> sub (upd m off v) o n = sub m o n.
Proof.
  intros. unfold upd. rewrite app_assoc, sub_app_r by lens.
  unfold sub. rewrite drop_drop. do 2 f_equal. lens.
Qed.

Lemma rd_ok m off len : 0 <= off -> 0 <= len -> off + len <= zlen m ->
  rd m off len = Ret (sub m off len).
Proof.
  intros. unfold rd.
  repeat (rewrite (proj2 (Z.leb_le _ _)) by lia). done.
Qed.

Lemma rd_Ret_inv m off len v : rd m off len = Ret v ->
  0 <= off /\ 0 <= len /\ off + len <= zlen m /\ v = sub m off len.
Proof.
  unfold rd. intros H.
  destruct ((0 <=? off) && (0 <=? len) && (off + len <=? zlen m)) eqn:E; [|done].
  injection H as <-. rewrite !andb_true_iff, !Z.leb_le in E. tauto.
Qed.

Lemma wr_ok m off v : 0 <= off -> off + zlen v <= zlen m -> wr m off v = Ret (upd m off v).
Proof.
  intros. unfold wr. repeat (rewrite (proj2 (Z.leb_le _ _)) by lia). done.
Qed.

Lemma wr_Ret_inv m off v r : wr m off v = Ret r ->
  0 <= off /\ off + zlen v <= zlen m /\ r = upd m off v /\ zlen r = zlen m.
Proof.
  unfold wr. destruct ((0 <=? off) && (off + zlen v <=? zlen m)) eqn:E; [|done].
  intros [= <-]. rewrite !andb_true_iff, !Z.leb_le in E. rewrite length_upd; tauto.
Qed.

(** Reading the middle of three adjacent buffers. *)
Lemma rd_mid (a x c : bytes) o n : o = zlen a -> n = zlen x -> rd (a ++ x ++ c) o n = Ret x.
Proof.
  intros -> ->. rewrite rd_ok by (rewrite ?zlen_app; pose proof (zlen_nonneg a); pose proof (zlen_nonneg x);
    pose proof (zlen_nonneg c); lia). by rewrite sub_app_exact.
Qed.

(** Overwriting inside the middle of three adjacent buffers. *)
Lemma wr_mid (a y c x : bytes) off : off = zlen a -> (length x <= length y)%nat ->
  wr (a ++ y ++ c) off x = Ret (a ++ (x ++ drop (length x) y) ++ c).
Proof.
  intros -> Hx. rewrite wr_ok by (unfold zlen; rewrite ?length_app; lia).
  f_equal. unfold upd, zlen. rewrite Nat2Z.id, take_app_length, drop_app_add'; [|done].
  rewrite drop_app_le by lia. by rewrite <- app_assoc.
Qed.

Lemma length_zeros n : length (zeros n) = Z.to_nat n.
Proof. apply length_replicate. Qed.

Lemma drop_zeros k n : drop k (zeros n) = zeros (n - Z.of_nat k).
Proof. unfold zeros. rewrite drop_replicate. f_equal. lia. Qed.

(** ** Counting *)

Section count.
Context {A : Type}.

Fixpoint count (f : A -> bool) (l : list A) : Z :=
  match l with [] => 0 | w :: l => Z.b2z (f w) + count f l end.

Lemma count_app f l k : count f (l ++ k) = count f l + count f k.
Proof. induction l as [|w l IH]; simpl; [done|rewrite IH; lia]. Qed.

Lemma count_cons f x l : count f (x :: l) = Z.b2z (f x) + count f l.
Proof. reflexivity. Qed.

Lemma count_insert f l i w w' : l !! i = Some w ->
  count f (<[i := w']> l) = count f l - Z.b2z (f w) + Z.b2z (f w').
Proof.
  revert i. induction l as [|x l IH]; intros [|i] H; simplify_eq/=; [lia|]. rewrite (IH _ H). lia.
Qed.

Lemma count_nonneg f l : 0 <= count f l.
Proof. induction l as [|w l IH]; simpl; [done|]. destruct (f w); simpl; lia. Qed.

Lemma count_pos f l : 0 < count f l <-> exists i w, l !! i = Some w /\ f w = true.
Proof.
  induction l as [|x l IH]; simpl; [split; [lia|by intros (i & w & H & _)]|].
  pose proof (count_nonneg f l). destruct (f x) eqn:E; simpl.
  - split; [by intros _; exists O, x|lia].
  - rewrite Z.add_0_l, IH. split; intros (i & w & Hl & Hw); [by exists (S i), w|].
    destruct i as [|i]; [simplify_eq/=; congruence|by exists i, w].
Qed.

End count.

(** ** The last that says something *)

Definition last_of {A B} (f : A -> option B) (old : B) (l : list A) : B := default old (last (omap f l)).

Lemma last_of_app {A B} (f : A -> option B) old l1 l2 : last_of f old (l1 ++ l2) = last_of f (last_of f old l1) l2.
Proof. unfold last_of. rewrite omap_app, last_app. by destruct (last (omap f l2)). Qed.
Lemma last_of_cons {A B} (f : A -> option B) old x l : last_of f old (x :: l) = last_of f (default old (f x)) l.
Proof. change (x :: l) with ([x] ++ l). rewrite last_of_app. f_equal. unfold last_of. cbn. by destruct (f x). Qed.
