(* ===== verification/Base.v ===== *)
(** Strings and byte views: [native/src/base/misc.cpp] and [misc.hpp].

    C strings, [std::string] and [byte_view]s are lists of bytes.  A loop of the
    source whose step does not follow the structure of its data takes fuel; the
    theorems show which fuel is enough. *)

From S2P Require Import Prelude.

(** A string literal as bytes, without its terminating NUL. *)
Definition bs (s : string) : bytes := String.list_byte_of_string s.
Arguments bs s%_string.

(** ** The C library searches the code relies on *)

Fixpoint starts_with (p l : bytes) : bool :=
  match p, l with
  | [], _ => true
  | _ :: _, [] => false
  | a :: p, b :: l => Byte.eqb a b && starts_with p l
  end.

(** [memmem]: offset of the first occurrence. *)
Fixpoint memmem (l p : bytes) : option nat :=
  if starts_with p l then Some O
  else match l with [] => None | _ :: t => S <$> memmem t p end.

(** [memcmp(a, b, n) == 0] over two objects. *)
Definition memcmp_eq (a b : bytes) : bool := bool_decide (a = b).

Definition isdigit (b : byte) : bool := (48 <=? b2z b) && (b2z b <=? 57).
Definition isupper (b : byte) : bool := (65 <=? b2z b) && (b2z b <=? 90).
Definition islower (b : byte) : bool := (97 <=? b2z b) && (b2z b <=? 122).
Definition isalpha (b : byte) : bool := isupper b || islower b.
Definition isspace (b : byte) : bool :=
  (b2z b =? 32) || ((9 <=? b2z b) && (b2z b <=? 13)).

(** ** byte_view and byte_data *)

(** A null view and a view of an object. *)
Definition byte_view := option bytes.

Definition bv_sz (v : byte_view) : Z := from_option zlen 0 v.

Definition bv_contains (v pattern : byte_view) : bool :=
  match v with
  | None => false
  | Some buf => bool_decide (is_Some (memmem buf (default [] pattern)))
  end.

Definition bv_equals (v o : byte_view) : bool :=
  (bv_sz v =? bv_sz o) && memcmp_eq (default [] v) (default [] o).

(** [byte_data::patch]: one iteration of the loop finds the next occurrence of
    [from], clears it and copies [to] over it.  A [to] that does not fit in the
    rest of the buffer is an out of bounds [memcpy]. *)
Fixpoint patch_loop (fuel : nat) (buf from to : bytes) (p : nat) (v : list nat)
  : outcome (bytes * list nat) :=
  match fuel with
  | O => Loop
  | S fuel =>
    if bool_decide (p < length buf)%nat then
      match memmem (drop p buf) from with
      | None => Ret (buf, v)
      | Some k =>
        let q := (p + k)%nat in
         let! cleared := wr buf (Z.of_nat q) (zeros (zlen from)) in
         let! buf' := wr cleared (Z.of_nat q) to in
        patch_loop fuel buf' from to (q + length from) (v ++ [q])
      end
    else Ret (buf, v)
  end.

Definition byte_data_patch (fuel : nat) (v : byte_view) (from to : bytes)
  : outcome (byte_view * list nat) :=
  match v with
  | None => Ret (None, [])
  | Some buf => let! (b, l) := patch_loop fuel buf from to 0 [] in Ret (Some b, l)
  end.

(** ** Numbers *)

(** One digit of [parse_num<T, base>]: [-1] stands for "not a digit". *)
Definition digit_value (base : Z) (c : byte) : Z :=
  if isdigit c then b2z c - 48
  else if (10 <? base) && isalpha c then
    if isupper c then b2z c - 55 else b2z c - 87
  else -1.

(** [parse_num<int, base>]: signed overflow of [val] is undefined. *)
Fixpoint parse_num_from (base val : Z) (s : bytes) : outcome Z :=
  match s with
  | [] => Ret val
  | c :: s =>
    let d := digit_value base c in
    if (d <? 0) || (base <=? d) then Ret (-1)
    else
      let v := val * base in
      if (v <? 2 ^ 31) && (v + d <? 2 ^ 31) then parse_num_from base (v + d) s
      else Fault
  end.
Definition parse_num (base : Z) (s : bytes) : outcome Z := parse_num_from base 0 s.
Definition parse_int (s : bytes) : outcome Z := parse_num 10 s.

(** Decimal rendering ([%d] of a non-negative number), least significant digit
    last; 20 digits are enough for 64 bits. *)
Fixpoint dec_digits (fuel : nat) (z : Z) (acc : bytes) : bytes :=
  match fuel with
  | O => acc
  | S fuel =>
    let acc := z2b (48 + z mod 10) :: acc in
    if z / 10 =? 0 then acc else dec_digits fuel (z / 10) acc
  end.
Definition print_dec (z : Z) : bytes := dec_digits 20 z [].

(** ** Strings *)

Definition str_starts (s ss : bytes) : bool := starts_with ss s.
Definition str_contains (s ss : bytes) : bool := bool_decide (is_Some (memmem s ss)).
Definition str_ends (s ss : bytes) : bool :=
  bool_decide (length ss <= length s)%nat &&
  memcmp_eq (drop (length s - length ss) s) ss.

Fixpoint drop_while (f : byte -> bool) (s : bytes) : bytes :=
  match s with
  | [] => []
  | c :: t => if f c then drop_while f t else s
  end.

Definition ltrim (s : bytes) : bytes := drop_while isspace s.
Definition rtrim (s : bytes) : bytes :=
  reverse (drop_while (fun c => isspace c || Byte.eqb c x00) (reverse s)).

(** [replace_all]: [pos] is the scan position. *)
Fixpoint replace_all_from (fuel : nat) (str from to : bytes) (pos : nat) : outcome bytes :=
  match fuel with
  | O => Loop
  | S fuel =>
    match (if bool_decide (pos <= length str)%nat then memmem (drop pos str) from else None) with
    | None => Ret str
    | Some k =>
      let p := (pos + k)%nat in
      replace_all_from fuel (take p str ++ to ++ drop (p + length from) str) from to
        (p + length to)
    end
  end.
Definition replace_all (fuel : nat) (str from to : bytes) : outcome bytes :=
  replace_all_from fuel str from to 0.

Definition is_delim (delims : bytes) (c : byte) : bool := bool_decide (c ∈ delims).

(** [find_first_of(delims)] as an offset. *)
Fixpoint find_first_of (s delims : bytes) : option nat :=
  match s with
  | [] => None
  | c :: t => if is_delim delims c then Some O else S <$> find_first_of t delims
  end.

(** [split_impl]: the loop of the source with its [base] index. *)
Fixpoint split_loop (fuel : nat) (s delims : bytes) (base : nat) (result : list bytes)
  : outcome (list bytes) :=
  match fuel with
  | O => Loop
  | S fuel =>
    match find_first_of (drop base s) delims with
    | None => Ret (result ++ [drop base s])
    | Some k => split_loop fuel s delims (base + k + 1) (result ++ [take k (drop base s)])
    end
  end.
Definition split (s delims : bytes) : outcome (list bytes) :=
  split_loop (S (length s)) s delims 0 [].

(** ** Bounded copies *)

(** The C string at the start of a buffer: everything before the first NUL. *)
Fixpoint cstr (l : bytes) : bytes :=
  match l with
  | [] => []
  | c :: t => if Byte.eqb c x00 then [] else c :: cstr t
  end.

(** [strlcpy(dest, src, size)] for a NUL-free [src]: the new [dest] and the
    length of [src]. *)
Definition strlcpy (dest src : bytes) (size : Z) : outcome (bytes * Z) :=
  if size =? 0 then Ret (dest, zlen src)
  else let! d := wr dest 0 (sub src 0 (Z.min (zlen src) (size - 1)) ++ [x00]) in Ret (d, zlen src).

(** [strscpy]: the number of bytes written, at most [size - 1] (in [size_t]). *)
Definition strscpy (dest src : bytes) (size : Z) : outcome (bytes * Z) :=
  let! (d, n) := strlcpy dest src size in Ret (d, Z.min n (u64 (size - 1))).

(** [vssprintf] once the format has produced [text]: bionic's [vsnprintf] writes
    at most [size - 1] bytes and a NUL and returns the untruncated length. *)
Definition vssprintf (dest text : bytes) (size : Z) : outcome (bytes * Z) :=
  if 0 <? size then
     let! d := wr dest 0 (sub text 0 (Z.min (zlen text) (size - 1)) ++ [x00]) in
    Ret (d, Z.min (zlen text) (s32 size - 1))
  else Ret (dest, -1).

(** ** Lemmas: C strings *)

Lemma eqb_false a b : a <> b -> Byte.eqb a b = false.
Proof.
  intros H. destruct (Byte.eqb a b) eqn:E; [|done]. by apply Byte.byte_dec_bl in E.
Qed.
Lemma eqb_refl a : Byte.eqb a a = true.
Proof. by apply Byte.byte_dec_lb. Qed.

Lemma cstr_take n l : x00 ∈ take n l -> cstr (take n l) = cstr l.
Proof.
  revert l; induction n as [|n IH]; intros [|c l]; simpl; try (by intros ?%not_elem_of_nil).
  intros H. destruct (Byte.eqb c x00) eqn:E; [done|]. f_equal. apply IH.
  apply elem_of_cons in H as [<-|]; done.
Qed.

Lemma cstr_no_nul l : Forall (.≠ x00) (cstr l).
Proof.
  induction l as [|c l IH]; simpl; [constructor|]. destruct (Byte.eqb c x00) eqn:E; [constructor|].
  constructor; [|done]. intros ->. by rewrite eqb_refl in E.
Qed.

Lemma cstr_zeros v k : Forall (.≠ x00) v -> cstr (v ++ zeros k) = v.
Proof.
  intros Hv. induction Hv as [|c v Hc _ IH]; simpl.
  - unfold zeros. by destruct (Z.to_nat k).
  - rewrite eqb_false by done. by rewrite IH.
Qed.

Lemma length_cstr l : (length (cstr l) <= length l)%nat.
Proof. induction l as [|c l IH]; simpl; [lia|]. destruct (Byte.eqb _ _); simpl; lia. Qed.

Lemma length_cstr_lt l : x00 ∈ l -> (length (cstr l) < length l)%nat.
Proof.
  induction l as [|c l IH]; [by intros ?%not_elem_of_nil|]. intros H. simpl.
  destruct (Byte.eqb c x00) eqn:E; simpl; [lia|]. apply elem_of_cons in H as [<-|H]; [done|].
  apply IH in H. lia.
Qed.

Lemma cstr_id l : Forall (.≠ x00) l -> cstr l = l.
Proof. induction 1; simpl; [done|]. rewrite eqb_false by done. congruence. Qed.

(** What a bounded copy leaves in its buffer: as much of the text as fits, and a NUL. *)
Lemma strscpy_spec dest src : Forall (.≠ x00) src -> 0 < zlen dest -> exists b n,
  strscpy dest src (zlen dest) = Ret (b, n) /\ zlen b = zlen dest /\ x00 ∈ b /\ cstr b = take (length dest - 1) src.
Proof.
  intros Hs Hd. unfold strscpy, strlcpy. rewrite (proj2 (Z.eqb_neq _ _)) by lia.
  set (t := sub src 0 _). assert (Ht : t = take (length dest - 1) src).
  { unfold t, sub. change (Z.to_nat 0) with O; rewrite drop_0. unfold zlen in *. destruct (Z.min_spec (Z.of_nat (length src)) (Z.of_nat (length dest) - 1)) as [[? ->]|[? ->]].
    - rewrite !take_ge by lia. done.
    - f_equal. lia. }
  assert (Hl : (length t <= length dest - 1)%nat) by (rewrite Ht, length_take; lia).
  assert (Hz : 0 + zlen (t ++ [x00]) <= zlen dest) by (unfold zlen in *; rewrite length_app; cbn [length]; lia).
  rewrite wr_ok by (done || lia). cbn [obind]. eexists _, _. split; [done|]. unfold upd. change (Z.to_nat 0) with O. rewrite take_0; cbn [app Nat.add]. split_and!.
  - unfold zlen in *. rewrite !length_app, length_drop, ?length_app. cbn [length] in *. clear Ht Hs Hz. clearbody t. lia.
  - set_solver.
  - rewrite <- Ht, <- app_assoc. assert (Hn : Forall (.≠ x00) t) by (rewrite Ht; by apply Forall_take).
    clearbody t. generalize (drop (length (t ++ [x00])) dest). intros r. clear -Hn. induction Hn as [|c t Hc _ IH]; [done|]. cbn [app cstr] in *. by rewrite eqb_false, IH.
Qed.

(** ** Lemmas: prefixes and searches *)

Lemma starts_with_spec p l : starts_with p l = true <-> exists t, l = p ++ t.
Proof.
  revert l; induction p as [|a p IH]; intros l; simpl.
  - split; [by exists l|done].
  - destruct l as [|b l]; [split; [done|by intros [? ?]]|].
    rewrite andb_true_iff, IH. split.
    + intros [E [t ->]]. apply Byte.byte_dec_bl in E. subst. by exists t.
    + intros [t [= -> ->]]. split; [by apply Byte.byte_dec_lb|by exists t].
Qed.

Lemma starts_with_app p t : starts_with p (p ++ t) = true.
Proof. apply starts_with_spec. by exists t. Qed.

Lemma memmem_Some l p k : memmem l p = Some k ->
  (k <= length l)%nat /\ starts_with p (drop k l) = true /\
  forall j, (j < k)%nat -> starts_with p (drop j l) = false.
Proof.
  revert k; induction l as [|a l IH]; intros k; simpl.
  - destruct p; simpl; [|done]. intros [= <-]. split; [lia|]. split; [done|lia].
  - destruct (starts_with p (a :: l)) eqn:E.
    + intros [= <-]. split; [lia|]. split; [done|lia].
    + intros (j & E' & ->)%fmap_Some. destruct (IH _ E') as (? & ? & Hmin).
      split; [lia|]. split; [done|]. intros [|i] ?; [done|]. apply Hmin. lia.
Qed.

Lemma memmem_None l p j : memmem l p = None -> (j <= length l)%nat ->
  starts_with p (drop j l) = false.
Proof.
  revert j; induction l as [|a l IH]; intros j; simpl.
  - destruct (starts_with p []) eqn:E; [done|]. intros _ ?.
    by replace j with O by lia.
  - destruct (starts_with p (a :: l)) eqn:E; [done|].
    intros H%fmap_None ?. destruct j as [|j]; [done|]. apply IH; [done|lia].
Qed.

Lemma memmem_Some_split l p k : memmem l p = Some k ->
  l = take k l ++ p ++ drop (k + length p) l /\ (k + length p <= length l)%nat.
Proof.
  intros (Hk & [t Ht]%starts_with_spec & _)%memmem_Some.
  assert (length (drop k l) = length (p ++ t)) as Hl by congruence.
  rewrite length_drop, length_app in Hl. split; [|lia].
  rewrite <- drop_drop, Ht, drop_app_length, <- Ht. by rewrite take_drop.
Qed.

(** ** byte_data::patch *)

(** The leftmost, non-overlapping replacement of [from] by [to] padded with
    zeros, with the offsets of the replaced occurrences. *)
Inductive patched (from to : bytes) : bytes -> bytes -> list nat -> Prop :=
| patched_nil : patched from to [] [] []
| patched_hit l l' v :
    starts_with from l = true -> patched from to (drop (length from) l) l' v ->
    patched from to l (to ++ zeros (zlen from - zlen to) ++ l')
      (O :: ((fun x => length from + x)%nat <$> v))
| patched_skip b l l' v :
    starts_with from (b :: l) = false -> patched from to l l' v ->
    patched from to (b :: l) (b :: l') (S <$> v).

Lemma patched_none from to l :
  (forall j, (j <= length l)%nat -> starts_with from (drop j l) = false) ->
  patched from to l l [].
Proof.
  induction l as [|b l IH]; intros H; [constructor|].
  change (@nil nat) with (S <$> @nil nat). constructor.
  - apply (H O). lia.
  - apply IH. intros j ?. apply (H (S j)). simpl. lia.
Qed.

Lemma patched_skips from to k l l' v : (k <= length l)%nat ->
  (forall j, (j < k)%nat -> starts_with from (drop j l) = false) ->
  patched from to (drop k l) l' v ->
  patched from to l (take k l ++ l') ((fun x => k + x)%nat <$> v).
Proof.
  revert l; induction k as [|k IH]; intros l Hk Hmin H.
  - change (patched from to l l' (id <$> v)). by rewrite list_fmap_id.
  - destruct l as [|b l]; simpl in Hk; [lia|]. simpl in *.
    replace ((fun x => S (k + x)) <$> v) with (S <$> ((fun x => k + x)%nat <$> v))
      by (rewrite <- list_fmap_compose; done).
    constructor.
    + apply (Hmin O). lia.
    + apply IH; [lia| |done]. intros j ?. apply (Hmin (S j)). lia.
Qed.

Lemma patch_loop_spec from to fuel : from <> [] -> (length to <= length from)%nat ->
  forall pre rest v, (length rest < fuel)%nat ->
  exists rest' v', patch_loop fuel (pre ++ rest) from to (length pre) v =
      Ret (pre ++ rest', v ++ ((fun x => length pre + x)%nat <$> v')) /\
    patched from to rest rest' v' /\ length rest' = length rest.
Proof.
  intros Hne Hto. induction fuel as [|fuel IH]; intros pre rest v Hf; [lia|]. cbn [patch_loop].
  destruct rest as [|b rest].
  { rewrite app_nil_r, bool_decide_eq_false_2 by lia. exists [], [].
    rewrite !app_nil_r. split_and!; [done|constructor|done]. }
  rewrite bool_decide_eq_true_2 by (rewrite length_app; simpl; lia).
  rewrite drop_app_length. remember (b :: rest) as r eqn:Hr. clear b rest Hr.
  destruct (memmem r from) as [k|] eqn:Em.
  2:{ exists r, []. rewrite app_nil_r. split_and!; [done| |done].
      apply patched_none. intros. by eapply memmem_None. }
  destruct (memmem_Some_split _ _ _ Em) as [Hsp Hlen].
  destruct (memmem_Some _ _ _ Em) as (_ & Hst & Hmin).
  set (pre2 := pre ++ take k r). set (tl := drop (k + length from) r) in *.
  assert (length pre2 = length pre + k)%nat as Hp2
    by (unfold pre2; rewrite length_app, length_take; lia).
  assert (pre ++ r = pre2 ++ from ++ tl) as ->
    by (rewrite Hsp at 1; unfold pre2; by rewrite <- app_assoc).
  assert (Hq : Z.of_nat (length pre + k) = zlen pre2) by (unfold zlen; lia).
  assert (Hz : length (zeros (zlen from)) = length from)
    by (rewrite length_zeros; unfold zlen; lia).
  rewrite (wr_mid _ _ _ _ _ Hq) by lia. cbn [obind].
  rewrite Hz, drop_all, app_nil_r.
  rewrite (wr_mid _ _ _ _ _ Hq) by lia. cbn [obind].
  rewrite drop_zeros. fold (zlen to).
  set (mid := to ++ zeros (zlen from - zlen to)).
  assert (length mid = length from) as Hmid
    by (unfold mid; rewrite length_app, length_zeros; unfold zlen; lia).
  destruct (IH (pre2 ++ mid) tl (v ++ [(length pre + k)%nat])) as (r' & v' & E & Hp & Hl).
  { unfold tl. rewrite length_drop. destruct from; [done|simpl in *; lia]. }
  rewrite length_app, Hp2, Hmid, <- app_assoc in E. rewrite E.
  exists (take k r ++ mid ++ r'), ((fun x => k + x)%nat <$> (O :: ((fun x => length from + x)%nat <$> v'))).
  split_and!.
  - f_equal. f_equal; [unfold pre2; by rewrite <- !app_assoc|].
    rewrite <- app_assoc. f_equal. cbn. f_equal; [f_equal; lia|].
    rewrite <- !list_fmap_compose. apply list_fmap_ext. intros; simpl; lia.
  - apply patched_skips; [lia|done|]. unfold mid. rewrite <- app_assoc.
    apply patched_hit; [done|]. by rewrite drop_drop.
  - rewrite !length_app, length_take, Hmid, Hl. unfold tl. rewrite length_drop. lia.
Qed.

(** For a non-empty pattern and a replacement that is not longer,
    [byte_data::patch] terminates without leaving the buffer, keeps its size,
    and performs exactly the leftmost non-overlapping replacements, reporting
    their offsets. *)
Theorem byte_data_patch_correct buf from to :
  from <> [] -> (length to <= length from)%nat ->
  exists buf' v, byte_data_patch (S (length buf)) (Some buf) from to = Ret (Some buf', v) /\
    length buf' = length buf /\ patched from to buf buf' v.
Proof.
  intros Hne Hto.
  destruct (patch_loop_spec from to (S (length buf)) Hne Hto [] buf []) as (b' & v & E & H & Hl);
    [lia|].
  exists b', v. unfold byte_data_patch. simpl length in E. simpl app in E. rewrite E. simpl.
  split_and!; [|done|done]. do 3 f_equal. change (id <$> v = v). apply list_fmap_id.
Qed.

Lemma byte_data_patch_witness :
  bs "ab" <> [] /\ (length (bs "X") <= length (bs "ab"))%nat /\
  exists buf' v, byte_data_patch 7 (Some (bs "cababz")) (bs "ab") (bs "X") = Ret (Some buf', v) /\
    length buf' = 6%nat /\ patched (bs "ab") (bs "X") (bs "cababz") buf' v.
Proof.
  split; [done|]. split; [vm_compute; lia|].
  apply (byte_data_patch_correct (bs "cababz") (bs "ab") (bs "X")); [done|vm_compute; lia].
Defined.

(** A replacement longer than the pattern at the end of the buffer is an out of
    bounds copy. *)
Example patch_overrun : byte_data_patch 9 (Some (bs "cab")) (bs "ab") (bs "XYZ") = Fault.
Proof. reflexivity. Qed.

(** ** split *)

Fixpoint interleave (parts : list bytes) (ds : bytes) : bytes :=
  match parts, ds with
  | p :: ps, d :: ds => p ++ d :: interleave ps ds
  | p :: _, [] => p
  | [], _ => []
  end.

Definition delim_free (delims p : bytes) : Prop := Forall (fun c => c ∉ delims) p.

Lemma find_first_of_None s delims : find_first_of s delims = None -> delim_free delims s.
Proof.
  induction s as [|c s IH]; simpl; [intros _; constructor|].
  unfold is_delim. case_bool_decide; [done|]. intros Hn%fmap_None. constructor; [done|by apply IH].
Qed.

Lemma find_first_of_Some s delims k : find_first_of s delims = Some k ->
  exists d, s = take k s ++ d :: drop (k + 1) s /\ d ∈ delims /\
    delim_free delims (take k s) /\ (k < length s)%nat.
Proof.
  revert k; induction s as [|c s IH]; intros k; simpl; [done|].
  unfold is_delim. case_bool_decide as Hc.
  - intros [= <-]. exists c. simpl. split_and!; [done|done|constructor|lia].
  - intros (j & E & ->)%fmap_Some. destruct (IH _ E) as (d & Hs & Hd & Hf & Hl).
    exists d. simpl. split_and!; [congruence|done|by constructor|lia].
Qed.

Lemma split_loop_spec s delims fuel : forall base acc,
  (base <= length s)%nat -> (length s - base < fuel)%nat ->
  exists parts ds, split_loop fuel s delims base acc = Ret (acc ++ parts) /\
    length parts = S (length ds) /\ Forall (.∈ delims) ds /\
    Forall (delim_free delims) parts /\ interleave parts ds = drop base s.
Proof.
  induction fuel as [|fuel IH]; intros base acc Hb Hf; [lia|]. cbn [split_loop].
  destruct (find_first_of (drop base s) delims) as [k|] eqn:E.
  - destruct (find_first_of_Some _ _ _ E) as (d & Hs & Hd & Hfree & Hk).
    rewrite length_drop in Hk.
    destruct (IH (base + k + 1)%nat (acc ++ [take k (drop base s)])) as (ps & ds & E1 & Hl & Hds & Hps & Hi);
      [lia..|].
    exists (take k (drop base s) :: ps), (d :: ds). rewrite E1, <- app_assoc.
    split_and!; [done|simpl; lia|by constructor|by constructor|].
    simpl. rewrite Hi. etrans; [|symmetry; exact Hs]. rewrite drop_drop.
    by rewrite Nat.add_assoc.
  - exists [drop base s], []. split_and!; [done|done|constructor|repeat constructor|done].
    by apply find_first_of_None.
Qed.

(** [split] always terminates; the pieces contain no delimiter and, put back
    together with the delimiters that separated them, give the input; there is
    one more piece than delimiter. *)
Theorem split_correct s delims :
  exists parts ds, split s delims = Ret parts /\
    length parts = S (length ds) /\ Forall (.∈ delims) ds /\
    Forall (delim_free delims) parts /\ interleave parts ds = s.
Proof.
  destruct (split_loop_spec s delims (S (length s)) 0 []) as (ps & ds & E & ?); [lia..|].
  by exists ps, ds.
Qed.

(** ** parse_int *)

Lemma digit_value_digit z : 0 <= z < 10 -> digit_value 10 (z2b (48 + z)) = z.
Proof.
  intros. unfold digit_value, isdigit. rewrite b2z_z2b_small by lia.
  rewrite !(proj2 (Z.leb_le _ _)) by lia. simpl. lia.
Qed.

Lemma parse_num_digits fuel z acc v :
  0 <= z < 10 ^ Z.of_nat fuel -> 0 <= v -> (fuel > 0)%nat ->
  exists k, dec_digits fuel z acc = k ++ acc /\ k <> [] /\
    forall tl, v * 10 ^ zlen k + z < 2 ^ 31 ->
      parse_num_from 10 v (k ++ tl) = parse_num_from 10 (v * 10 ^ zlen k + z) tl.
Proof.
  revert z acc v; induction fuel as [|fuel IH]; intros z acc v Hz Hv Hf; [lia|]. cbn [dec_digits].
  pose proof (Z.mod_pos_bound z 10 ltac:(lia)) as Hd.
  pose proof (Z.div_mod z 10 ltac:(lia)) as Hdm.
  assert (forall w tl, 0 <= w -> w * 10 + z mod 10 < 2 ^ 31 ->
    parse_num_from 10 w (z2b (48 + z mod 10) :: tl) = parse_num_from 10 (w * 10 + z mod 10) tl) as Hone.
  { intros w tl Hw Hb. cbn [parse_num_from]. rewrite digit_value_digit by lia.
    rewrite (proj2 (Z.ltb_ge _ 0)), (proj2 (Z.leb_gt 10 _)) by lia. simpl orb. cbv iota.
    rewrite !(proj2 (Z.ltb_lt _ _)) by lia. done. }
  destruct (Z.eqb_spec (z / 10) 0) as [E0|E0].
  - exists [z2b (48 + z mod 10)]. split_and!; [done|done|]. intros tl Hb.
    rewrite zlen_cons, zlen_nil in *. change (10 ^ (1 + 0)) with 10 in *. simpl app.
    rewrite Hone by lia. f_equal. lia.
  - destruct fuel as [|fuel].
    { change (10 ^ Z.of_nat 1) with 10 in Hz. rewrite Z.div_small in E0 by lia. lia. }
    destruct (IH (z / 10) (z2b (48 + z mod 10) :: acc) v) as (k & E & Hk & Hp); [|done|lia|].
    { split; [apply Z.div_pos; lia|]. apply Z.div_lt_upper_bound; [lia|].
      rewrite Nat2Z.inj_succ, Z.pow_succ_r in Hz by lia. lia. }
    exists (k ++ [z2b (48 + z mod 10)]). rewrite E, <- app_assoc. split_and!; [done|by destruct k|].
    intros tl Hb. rewrite <- app_assoc. simpl app.
    rewrite zlen_app, zlen_cons, zlen_nil, Z.pow_add_r in * by (pose proof (zlen_nonneg k); lia).
    change (10 ^ (1 + 0)) with 10 in *.
    assert (0 <= v * 10 ^ zlen k) by (apply Z.mul_nonneg_nonneg; [lia|apply Z.pow_nonneg; lia]).
    rewrite Hp by lia. rewrite Hone by lia. f_equal. lia.
Qed.

(** Every non-negative [int] printed in decimal is read back by [parse_int]
    without overflow. *)
Theorem parse_int_print n : 0 <= n < 2 ^ 31 -> parse_int (print_dec n) = Ret n.
Proof.
  intros Hn. unfold parse_int, parse_num, print_dec.
  destruct (parse_num_digits 20 n [] 0) as (k & E & _ & Hp); [simpl; lia|lia|lia|].
  rewrite E, Hp by lia. done.
Qed.

Lemma parse_int_print_witness : 0 <= 2147483647 < 2 ^ 31 /\
  parse_int (print_dec 2147483647) = Ret 2147483647.
Proof. split; [lia|]. apply (parse_int_print 2147483647). lia. Defined.

Lemma parse_num_from_nondigit base s v : parse_num_from base v s = Ret (-1) -> 0 <= v -> 0 < base ->
  Exists (fun c => digit_value base c < 0 \/ base <= digit_value base c) s.
Proof.
  revert v; induction s as [|c s IH]; intros v; simpl; [intros [= ->]; lia|].
  destruct ((digit_value base c <? 0) || (base <=? digit_value base c)) eqn:E.
  - intros _ _ _. apply Exists_cons_hd. apply orb_true_iff in E.
    rewrite Z.ltb_lt, Z.leb_le in E. done.
  - apply orb_false_iff in E as [E1%Z.ltb_ge E2%Z.leb_gt].
    destruct (_ && _); [|done]. intros H ??. apply Exists_cons_tl.
    eapply IH; [done|nia|done].
Qed.

(** A 32-bit overflow of the accumulator is reached on ten-digit input. *)
Example parse_int_overflow : parse_int (bs "2147483648") = Fault.
Proof. reflexivity. Qed.

(** ** Replacing every occurrence *)

Inductive replaced (from to : bytes) : bytes -> bytes -> Prop :=
| replaced_none s : memmem s from = None -> replaced from to s s
| replaced_next s k r : memmem s from = Some k -> replaced from to (drop (k + length from) s) r ->
    replaced from to s (take k s ++ to ++ r).

Lemma replace_all_from_spec from to fuel : from <> [] -> forall pre s, (length s < fuel)%nat -> exists r,
  replace_all_from fuel (pre ++ s) from to (length pre) = Ret (pre ++ r) /\ replaced from to s r.
Proof.
  intros Hf. induction fuel as [|fuel IH]; intros pre s Hl; [lia|]. cbn [replace_all_from].
  rewrite bool_decide_eq_true_2 by (rewrite length_app; lia). rewrite drop_app_length. destruct (memmem s from) as [k|] eqn:E.
  - pose proof (memmem_Some_split _ _ _ E) as [_ Hk]. assert (0 < length from)%nat by (destruct from; [done|cbn; lia]).
    rewrite take_app_add', <- Nat.add_assoc, drop_app_add' by done.
    destruct (IH (pre ++ take k s ++ to) (drop (k + length from) s)) as (r & Er & Hr); [rewrite length_drop; lia|].
    exists (take k s ++ to ++ r). split; [|by econstructor].
    rewrite <- !app_assoc in Er. rewrite !length_app, length_take in Er. rewrite <- !app_assoc.
    replace (length pre + k + length to)%nat with (length pre + (k `min` length s + length to))%nat by lia. exact Er.
  - exists s. split; [done|by constructor].
Qed.

Lemma replace_all_spec from to s : from <> [] -> exists r, replace_all (S (length s)) s from to = Ret r /\ replaced from to s r.
Proof. intros Hf. apply (replace_all_from_spec from to (S (length s)) Hf [] s). lia. Qed.

(** Replacing one character. *)
Lemma memmem_one c s : memmem s [c] = list_find (fun x => x = c) s ≫= (fun p => Some p.1).
Proof.
  induction s as [|x s IH]; [done|]. cbn [memmem starts_with list_find]. rewrite andb_true_r. destruct (decide (x = c)) as [->|N].
  - by rewrite eqb_refl.
  - rewrite eqb_false by congruence. rewrite IH. by destruct (list_find (fun x => x = c) s) as [[i y]|].
Qed.

Definition subst_char (c : byte) (to s : bytes) : bytes := s ≫= (fun x => if bool_decide (x = c) then to else [x]).

Lemma subst_char_none c to s : Forall (.≠ c) s -> subst_char c to s = s.
Proof. unfold subst_char. induction 1 as [|x s Hx _ IH]; [done|]. cbn. rewrite bool_decide_eq_false_2 by done. cbn. by f_equal. Qed.

Lemma replaced_char c to s r : replaced [c] to s r -> r = subst_char c to s.
Proof.
  induction 1 as [s H|s k r H _ ->]; rewrite memmem_one in H.
  - destruct (list_find (fun x => x = c) s) as [[i x]|] eqn:E; [done|]. apply list_find_None in E. by rewrite subst_char_none.
  - destruct (list_find (fun x => x = c) s) as [[i x]|] eqn:E; [|done]. injection H as <-. apply list_find_Some in E as (Hi & -> & Hj).
    rewrite <- (take_drop_middle s i c Hi) at 3. unfold subst_char at 2. rewrite bind_app. cbn [length]. rewrite Nat.add_1_r. f_equal.
    + symmetry. apply subst_char_none, Forall_lookup. intros j y Hy. apply lookup_take_Some in Hy as [Hy Hl]. by apply (Hj j y).
    + cbn. by rewrite bool_decide_eq_true_2.
Qed.

Lemma replace_char c to s : replace_all (S (length s)) s [c] to = Ret (subst_char c to s).
Proof. destruct (replace_all_spec [c] to s) as (r & -> & ->%replaced_char); done. Qed.
