(* ===== verification/Files.v ===== *)
(** Alignment, zero filling and property files: [native/src/base/files.hpp] and
    [files.cpp].  A file is the list of its bytes; [size_t] is 64 bits wide. *)

From S2P Require Import Prelude Base.

(** ** Alignment *)

(** [align_to<size_t>(v, int a)]: [a] is converted to [size_t] before the
    arithmetic, and a zero [a] divides by zero. *)
Definition align_to (v a : Z) : outcome Z :=
  let a := u64 (s32 a) in
  if a =? 0 then Fault else Ret (u64 (u64 (v + a - 1) / a * a)).

(** [align_padding<size_t>]. *)
Definition align_padding (v a : Z) : outcome Z :=
   let! r := align_to v a in Ret (u64 (r - v)).

(** ** write_zero *)

Definition ZERO_BUF : Z := 4096.

Fixpoint write_zero_loop (fuel : nat) (file : bytes) (size : Z) : outcome bytes :=
  match fuel with
  | O => Loop
  | S fuel =>
    if 0 <? size then
      let len := if size <? ZERO_BUF then size else ZERO_BUF in
      write_zero_loop fuel (file ++ zeros len) (size - len)
    else Ret file
  end.
Definition write_zero (file : bytes) (size : Z) : outcome bytes :=
  write_zero_loop (Z.to_nat (size / ZERO_BUF) + 2) file size.

(** ** Lines and properties *)

(** The lines [getline] returns, each with its newline if it has one. *)
Fixpoint getlines (s : bytes) : list bytes :=
  match s with
  | [] => []
  | c :: t =>
    if Byte.eqb c x0a then [c] :: getlines t
    else match getlines t with
         | [] => [[c]]
         | l :: ls => (c :: l) :: ls
         end
  end.

Definition trim_char (c : byte) : bool := Byte.eqb c x0a || Byte.eqb c x0d || Byte.eqb c x20.

(** The string handed to the callback for one line: trimmed on request, and cut
    at the first NUL when it is turned into a [string_view]. *)
Definition line_view (trim : bool) (line : bytes) : bytes :=
  if trim then
    cstr (drop_while (fun c => Byte.eqb c x20) (reverse (drop_while trim_char (reverse line))))
  else cstr line.

Section readline.
Context {St : Type}.

(** [fn] returns the new state and whether to go on. *)
Fixpoint readline_loop (trim : bool) (fn : St -> bytes -> St * bool)
    (ls : list bytes) (st : St) : St :=
  match ls with
  | [] => st
  | l :: ls =>
    let '(st, go) := fn st (line_view trim l) in
    if go then readline_loop trim fn ls st else st
  end.
Definition file_readline (trim : bool) (content : bytes)
    (fn : St -> bytes -> St * bool) (st : St) : St :=
  readline_loop trim fn (getlines content) st.

(** [strchr(line, '=')] and the two early returns of [parse_prop_file]. *)
Definition prop_of_line (line : bytes) : option (bytes * bytes) :=
  match line with
  | x23 :: _ => None
  | _ =>
    match find_first_of line [x3d] with
    | None => None
    | Some O => None
    | Some k => Some (take k line, drop (k + 1) line)
    end
  end.

Definition parse_prop_file (content : bytes)
    (fn : St -> bytes -> bytes -> St * bool) (st : St) : St :=
  file_readline true content
    (fun st line => match prop_of_line line with
                    | None => (st, true)
                    | Some (k, v) => fn st k v
                    end) st.
End readline.

(** [resolve_preinit_dir]: [access p] is [access(p, F_OK) == 0]. *)
Definition resolve_preinit_dir (access : bytes -> bool) (base_dir : bytes) : bytes :=
  if access (base_dir ++ bs "/unencrypted") then base_dir ++ bs "/unencrypted/magisk"
  else if access (base_dir ++ bs "/adb") then base_dir ++ bs "/adb"
  else if access (base_dir ++ bs "/watchdog") then base_dir ++ bs "/watchdog/magisk"
  else base_dir ++ bs "/magisk".

(** ** Lemmas *)

Lemma align_to_spec v a : 0 < a < 2 ^ 31 -> 0 <= v -> v + a <= 2 ^ 64 ->
  exists r, align_to v a = Ret r /\ v <= r < v + a /\ (a | r).
Proof.
  intros Ha Hv Hb. unfold align_to. rewrite s32_id, (u64_id a) by lia.
  destruct (Z.eqb_spec a 0); [lia|]. rewrite (u64_id (v + a - 1)) by lia.
  pose proof (Z.div_mod (v + a - 1) a ltac:(lia)).
  pose proof (Z.mod_pos_bound (v + a - 1) a ltac:(lia)).
  rewrite u64_id by lia.
  exists ((v + a - 1) / a * a). split_and!; [done|lia|lia|]. by apply Z.divide_factor_r.
Qed.

Lemma align_to_mono v a r : 0 < a < 2 ^ 31 -> 0 <= v -> v + a <= 2 ^ 64 ->
  align_to v a = Ret r -> v <= r < v + a /\ (a | r).
Proof.
  intros ??? E. destruct (align_to_spec v a) as (r' & E' & ?); [done..|].
  rewrite E in E'. by injection E' as ->.
Qed.

Lemma align_to_aligned v a : 0 < a < 2 ^ 31 -> 0 <= v -> v + a <= 2 ^ 64 -> (a | v) ->
  align_to v a = Ret v.
Proof.
  intros Ha Hv Hb [q Hq]. destruct (align_to_spec v a) as (r & E & Hr & [q' Hq']); [done..|].
  rewrite E. f_equal. assert (q' < q + 1) by nia. assert (q <= q') by nia.
  subst. f_equal. lia.
Qed.

Lemma align_padding_spec v a : 0 < a < 2 ^ 31 -> 0 <= v -> v + a <= 2 ^ 64 ->
  exists p, align_padding v a = Ret p /\ 0 <= p < a /\ (a | v + p) /\ align_to v a = Ret (v + p).
Proof.
  intros Ha Hv Hb. destruct (align_to_spec v a) as (r & E & Hr & Hd); [done..|].
  unfold align_padding. rewrite E. simpl. rewrite u64_id by lia.
  exists (r - v). replace (v + (r - v)) with r by lia. split_and!; [done|lia|lia|done|done].
Qed.

Lemma write_zero_loop_ok fuel file size : 0 <= size -> (size + 4095) / 4096 < Z.of_nat fuel ->
  write_zero_loop fuel file size = Ret (file ++ zeros size).
Proof.
  revert file size; induction fuel as [|fuel IH]; intros file size Hs Hf.
  { pose proof (Z.div_pos (size + 4095) 4096 ltac:(lia) ltac:(lia)). lia. }
  cbn [write_zero_loop]. unfold ZERO_BUF.
  pose proof (Z.div_mod (size + 4095) 4096 ltac:(lia)).
  pose proof (Z.mod_pos_bound (size + 4095) 4096 ltac:(lia)).
  destruct (Z.ltb_spec 0 size).
  2:{ replace size with 0 by lia. unfold zeros. simpl. by rewrite app_nil_r. }
  destruct (Z.ltb_spec size 4096).
  - rewrite Z.sub_diag, IH by (change ((0 + 4095) / 4096) with 0; lia).
    unfold zeros at 2. simpl. by rewrite app_nil_r.
  - rewrite IH.
    + rewrite <- app_assoc. unfold zeros. rewrite <- replicate_add. do 3 f_equal. lia.
    + lia.
    + replace (size + 4095) with (size - 4096 + 4095 + 1 * 4096) in Hf by lia.
      rewrite Z.div_add in Hf by lia. lia.
Qed.

Lemma write_zero_ok file size : 0 <= size -> write_zero file size = Ret (file ++ zeros size).
Proof.
  intros. apply write_zero_loop_ok; [done|]. unfold ZERO_BUF.
  pose proof (Z.div_mod (size + 4095) 4096 ltac:(lia)).
  pose proof (Z.div_mod size 4096 ltac:(lia)).
  pose proof (Z.mod_pos_bound (size + 4095) 4096 ltac:(lia)).
  pose proof (Z.mod_pos_bound size 4096 ltac:(lia)).
  pose proof (Z.div_pos size 4096 ltac:(lia) ltac:(lia)). lia.
Qed.

(** ** Property files round trip *)

(** How a writer renders one property. *)
Definition prop_line (kv : bytes * bytes) : bytes := kv.1 ++ x3d :: kv.2 ++ [x0a].

(** Keys and values that survive the trimming of [file_readline] and the
    splitting of [parse_prop_file]. *)
Definition last_ok (v : bytes) : Prop := match reverse v with c :: _ => trim_char c = false | [] => True end.
Definition prop_ok (kv : bytes * bytes) : Prop :=
  (exists c k, kv.1 = c :: k /\ c <> x23 /\ c <> x20) /\
  Forall (fun c => c <> x3d /\ c <> x0a /\ c <> x00) kv.1 /\
  Forall (fun c => c <> x0a /\ c <> x00) kv.2 /\ last_ok kv.2.

Lemma getlines_line l s : Forall (.≠ x0a) l -> getlines (l ++ x0a :: s) = (l ++ [x0a]) :: getlines s.
Proof.
  induction 1 as [|c l Hc _ IH]; simpl; [done|].
  rewrite eqb_false by done. by rewrite IH.
Qed.

Lemma drop_while_head f c l : f c = false -> drop_while f (c :: l) = c :: l.
Proof. simpl. by intros ->. Qed.

Lemma find_first_of_app k v : Forall (.≠ x3d) k -> find_first_of (k ++ x3d :: v) [x3d] = Some (length k).
Proof.
  induction 1 as [|c k Hc _ IH]; cbn [find_first_of app]; unfold is_delim.
  - by rewrite bool_decide_eq_true_2 by (by left).
  -  rewrite bool_decide_eq_false_2 by (by intros ->%list_elem_of_singleton). by rewrite IH.
Qed.

Lemma trim_tail l : last_ok l -> reverse (drop_while trim_char (reverse (l ++ [x0a]))) = l.
Proof.
  unfold last_ok. rewrite reverse_snoc. cbn [drop_while]. change (trim_char x0a) with true. cbv iota.
  intros H. rewrite <- (reverse_involutive l) at 2. f_equal.
  destruct (reverse l) as [|d r]; [done|]. by apply drop_while_head.
Qed.

Lemma last_ok_prop k v : last_ok v -> last_ok (k ++ x3d :: v).
Proof.
  unfold last_ok. rewrite reverse_app, reverse_cons, <- app_assoc. by destruct (reverse v).
Qed.

Lemma line_view_prop kv : prop_ok kv -> line_view true ((kv.1 ++ x3d :: kv.2) ++ [x0a]) = kv.1 ++ x3d :: kv.2.
Proof.
  destruct kv as [k v]. intros ((c & k' & Ek & Hc1 & Hc2) & Hk & Hv & Hlast). simpl in *. subst k.
  unfold line_view. rewrite trim_tail by (by apply (last_ok_prop (c :: k'))).
  cbn [app]. rewrite drop_while_head by (by apply eqb_false).
  apply (cstr_id ((c :: k') ++ [x3d] ++ v)). rewrite !Forall_app. split_and!.
  - eapply Forall_impl; [exact Hk|]. naive_solver.
  - by constructor.
  - eapply Forall_impl; [exact Hv|]. naive_solver.
Qed.

Lemma prop_of_line_prop kv : prop_ok kv -> prop_of_line (kv.1 ++ x3d :: kv.2) = Some kv.
Proof.
  destruct kv as [k v]. intros ((c & k' & Ek & Hc1 & Hc2) & Hk & _). simpl in *.
  assert (Forall (.≠ x3d) k) as Hk'.
  { eapply Forall_impl; [exact Hk|]. naive_solver. }
  assert (Hf := find_first_of_app k v Hk').
  assert (prop_of_line (k ++ x3d :: v) =
    match find_first_of (k ++ x3d :: v) [x3d] with
    | None => None | Some O => None
    | Some j => Some (take j (k ++ x3d :: v), drop (j + 1) (k ++ x3d :: v)) end) as ->.
  { subst k. simpl app. by destruct c. }
  rewrite Hf. rewrite Ek at 1. simpl length at 1. cbv iota.
  rewrite take_app_length, drop_app_add'; [done|]. by rewrite Ek.
Qed.

Section prop_round_trip.
Context {St : Type} (fn : St -> bytes -> bytes -> St * bool).
Context (Hgo : forall st k v, (fn st k v).2 = true).

(** Parsing well-formed lines folds the callback over the properties. *)
Lemma parse_prop_file_lines kvs st : Forall prop_ok kvs ->
  parse_prop_file (concat (map prop_line kvs)) fn st =
  fold_left (fun st kv => (fn st kv.1 kv.2).1) kvs st.
Proof using Hgo.
  unfold parse_prop_file, file_readline. intros H. revert st.
  induction H as [|kv kvs Hkv _ IH]; intros st; [done|]. cbn [map concat fold_left].
  unfold prop_line at 1. change (?a :: ?b ++ [x0a]) with ((a :: b) ++ [x0a]).
  rewrite <- !app_assoc. cbn [app].
  replace (kv.1 ++ x3d :: kv.2 ++ x0a :: concat (map prop_line kvs))
    with ((kv.1 ++ x3d :: kv.2) ++ x0a :: concat (map prop_line kvs)) by (by rewrite <- app_assoc).
  rewrite getlines_line.
  2:{ destruct Hkv as (_ & Hk & Hv & _). apply Forall_app. split; [|constructor; [done|]].
      - eapply Forall_impl; [exact Hk|]. naive_solver.
      - eapply Forall_impl; [exact Hv|]. naive_solver. }
  cbn [readline_loop]. rewrite line_view_prop, prop_of_line_prop by done.
  destruct kv as [k v]. specialize (Hgo st k v). simpl.
  destruct (fn st k v) as [st' go]. simpl in *. subst go. apply IH.
Qed.

(** Reading a file made of well-formed [key=value] lines calls the callback
    once per property, in order, with exactly the keys and values written. *)
Theorem parse_prop_file_round_trip kvs st : Forall prop_ok kvs ->
  parse_prop_file (concat (map prop_line kvs)) fn st =
  fold_left (fun st kv => (fn st kv.1 kv.2).1) kvs st.
Proof using Hgo. apply parse_prop_file_lines. Qed.
End prop_round_trip.

Lemma parse_prop_file_round_trip_witness :
  Forall prop_ok [(bs "name", bs "Kit"); (bs "cmdline", bs "a=b c")] /\
  parse_prop_file (bs "name=Kit" ++ x0a :: bs "cmdline=a=b c" ++ [x0a])
    (fun st k v => (st ++ [(k, v)], true)) [] = [(bs "name", bs "Kit"); (bs "cmdline", bs "a=b c")].
Proof.
  assert (H : Forall prop_ok [(bs "name", bs "Kit"); (bs "cmdline", bs "a=b c")]).
  { repeat constructor; simpl; try done; eexists _, _; split_and!; done. }
  split; [exact H|].
  exact (parse_prop_file_round_trip (fun st k v => (st ++ [(k, v)], true)) (fun _ _ _ => eq_refl) _ [] H).
Defined.
