(* ===== verification/Format.v ===== *)
(** Image and compression formats: [native/src/boot/format.hpp] and
    [format.cpp]. *)

From S2P Require Import Prelude Base.

Inductive format_t : Set :=
| UNKNOWN
| CHROMEOS | AOSP | AOSP_VENDOR | DHTB | BLOB
| GZIP | ZOPFLI | XZ | LZMA | BZIP2 | LZ4 | LZ4_LEGACY | LZ4_LG
| LZOP
| MTK | DTB | ZIMAGE.

#[global] Instance format_t_eq_dec : EqDecision format_t.
Proof. solve_decision. Defined.

(** The enumerators in declaration order; the range tests of the macros are on
    their values. *)
Definition all_formats : list format_t :=
  [UNKNOWN; CHROMEOS; AOSP; AOSP_VENDOR; DHTB; BLOB; GZIP; ZOPFLI; XZ; LZMA; BZIP2;
   LZ4; LZ4_LEGACY; LZ4_LG; LZOP; MTK; DTB; ZIMAGE].

Definition fmt_value (f : format_t) : Z :=
  match f with
  | UNKNOWN => 0 | CHROMEOS => 1 | AOSP => 2 | AOSP_VENDOR => 3 | DHTB => 4 | BLOB => 5
  | GZIP => 6 | ZOPFLI => 7 | XZ => 8 | LZMA => 9 | BZIP2 => 10 | LZ4 => 11
  | LZ4_LEGACY => 12 | LZ4_LG => 13 | LZOP => 14 | MTK => 15 | DTB => 16 | ZIMAGE => 17
  end.

Definition COMPRESSED (f : format_t) : bool :=
  (fmt_value GZIP <=? fmt_value f) && (fmt_value f <? fmt_value LZOP).
Definition COMPRESSED_ANY (f : format_t) : bool :=
  (fmt_value GZIP <=? fmt_value f) && (fmt_value f <=? fmt_value LZOP).

(** ** Magic numbers *)

Definition BOOT_MAGIC := bs "ANDROID!".
Definition VENDOR_BOOT_MAGIC := bs "VNDRBOOT".
Definition CHROMEOS_MAGIC := bs "CHROMEOS".
Definition GZIP1_MAGIC : bytes := [x1f; x8b].
Definition GZIP2_MAGIC : bytes := [x1f; x9e].
Definition LZOP_MAGIC : bytes := x89 :: bs "LZO".
Definition XZ_MAGIC : bytes := xfd :: bs "7zXZ".
Definition BZIP_MAGIC := bs "BZh".
Definition LZ4_LEG_MAGIC : bytes := [x02; x21; x4c; x18].
Definition LZ41_MAGIC : bytes := [x03; x21; x4c; x18].
Definition LZ42_MAGIC : bytes := [x04; x22; x4d; x18].
Definition MTK_MAGIC : bytes := [x88; x16; x88; x58].
Definition DTB_MAGIC : bytes := [xd0; x0d; xfe; xed].
Definition LG_BUMP_MAGIC : bytes :=
  [x41; xa9; xe4; x67; x74; x4d; x1d; x1b; xa4; x29; xf2; xec; xea; x65; x52; x79].
Definition DHTB_MAGIC : bytes := [x44; x48; x54; x42; x01; x00; x00; x00].
Definition SEANDROID_MAGIC := bs "SEANDROIDENFORCE".
Definition TEGRABLOB_MAGIC := bs "-SIGNED-BY-SIGNBLOB-".
Definition NOOKHD_RL_MAGIC := bs "Red Loader".
Definition NOOKHD_GL_MAGIC := bs "Green Loader".
Definition NOOKHD_GR_MAGIC := bs "Green Recovery".
Definition NOOKHD_EB_MAGIC := bs "eMMC boot.img+secondloader".
Definition NOOKHD_ER_MAGIC := bs "eMMC recovery.img+secondloader".
Definition NOOKHD_PRE_HEADER_SZ : Z := 1048576.
Definition ACCLAIM_MAGIC := bs "BauwksBoot".
Definition ACCLAIM_PRE_HEADER_SZ : Z := 262144.
Definition AMONET_MICROLOADER_MAGIC := bs "microloader".
Definition AMONET_MICROLOADER_SZ : Z := 1024.
Definition AVB_FOOTER_MAGIC := bs "AVBf".
Definition AVB_MAGIC := bs "AVB0".
Definition ZIMAGE_MAGIC : bytes := [x18; x28; x6f; x01].
Definition LZMA_PREFIX : bytes := [x5d; x00; x00].

(** [BUFFER_MATCH(mem + addr, s)]: reads [s]'s length from memory. *)
Definition buffer_match (mem : bytes) (addr : Z) (s : bytes) : outcome bool :=
   let! v := rd mem addr (zlen s) in Ret (memcmp_eq v s).

(** [CHECKED_MATCH(s)]: guarded by the length the caller claims. *)
Definition checked_match (mem : bytes) (addr len : Z) (s : bytes) : outcome bool :=
  if zlen s <=? len then buffer_match mem addr s else Ret false.

Definition lzma_match (mem : bytes) (addr len : Z) : outcome bool :=
  if 13 <=? len then
     let! m := buffer_match mem addr LZMA_PREFIX in
    if m then
       let! c := rd mem (addr + 12) 1 in Ret (memcmp_eq c [xff] || memcmp_eq c [x00])
    else Ret false
  else Ret false.

Definition zimage_match (mem : bytes) (addr len : Z) : outcome bool :=
  if 0x28 <=? len then buffer_match mem (addr + 0x24) ZIMAGE_MAGIC else Ret false.

(** First test of a chain of [else if]s that succeeds. *)
Fixpoint first_match (tests : list (outcome bool * format_t)) : outcome format_t :=
  match tests with
  | [] => Ret UNKNOWN
  | (t, f) :: rest => let! b := t in if b then Ret f else first_match rest
  end.

Definition fmt_tests (mem : bytes) (addr len : Z) : list (outcome bool * format_t) :=
    [ (checked_match mem addr len CHROMEOS_MAGIC, CHROMEOS);
      (checked_match mem addr len BOOT_MAGIC, AOSP);
      (checked_match mem addr len VENDOR_BOOT_MAGIC, AOSP_VENDOR);
      (checked_match mem addr len GZIP1_MAGIC, GZIP);
      (checked_match mem addr len GZIP2_MAGIC, GZIP);
      (checked_match mem addr len LZOP_MAGIC, LZOP);
      (checked_match mem addr len XZ_MAGIC, XZ);
      (lzma_match mem addr len, LZMA);
      (checked_match mem addr len BZIP_MAGIC, BZIP2);
      (checked_match mem addr len LZ41_MAGIC, LZ4);
      (checked_match mem addr len LZ42_MAGIC, LZ4);
      (checked_match mem addr len LZ4_LEG_MAGIC, LZ4_LEGACY);
      (checked_match mem addr len MTK_MAGIC, MTK);
      (checked_match mem addr len DTB_MAGIC, DTB);
      (checked_match mem addr len DHTB_MAGIC, DHTB);
      (checked_match mem addr len TEGRABLOB_MAGIC, BLOB);
      (zimage_match mem addr len, ZIMAGE) ].

Definition check_fmt (mem : bytes) (addr len : Z) : outcome format_t :=
  first_match (fmt_tests mem addr len).

(** ** Names *)

Definition fmt2name (f : format_t) : string :=
  match f with
  | GZIP => "gzip" | ZOPFLI => "zopfli" | LZOP => "lzop" | XZ => "xz" | LZMA => "lzma"
  | BZIP2 => "bzip2" | LZ4 => "lz4" | LZ4_LEGACY => "lz4_legacy" | LZ4_LG => "lz4_lg"
  | DTB => "dtb" | ZIMAGE => "zimage" | _ => "raw"
  end%string.

Definition fmt2ext (f : format_t) : string :=
  match f with
  | GZIP | ZOPFLI => ".gz" | LZOP => ".lzo" | XZ => ".xz" | LZMA => ".lzma"
  | BZIP2 => ".bz2" | LZ4 | LZ4_LEGACY | LZ4_LG => ".lz4" | _ => ""
  end%string.

Definition name2fmt (name : string) : format_t :=
  if decide (name = "gzip"%string) then GZIP
  else if decide (name = "zopfli"%string) then ZOPFLI
  else if decide (name = "xz"%string) then XZ
  else if decide (name = "lzma"%string) then LZMA
  else if decide (name = "bzip2"%string) then BZIP2
  else if decide (name = "lz4"%string) then LZ4
  else if decide (name = "lz4_legacy"%string) then LZ4_LEGACY
  else if decide (name = "lz4_lg"%string) then LZ4_LG
  else UNKNOWN.

(** ** Lemmas *)

Lemma buffer_match_ok mem addr s : 0 <= addr -> addr + zlen s <= zlen mem ->
  buffer_match mem addr s = Ret (memcmp_eq (sub mem addr (zlen s)) s).
Proof. intros. unfold buffer_match. rewrite rd_ok by (pose proof (zlen_nonneg s); lia). done. Qed.

Lemma checked_match_ok mem addr len s : 0 <= addr -> addr + len <= zlen mem ->
  checked_match mem addr len s =
    Ret ((zlen s <=? len) && memcmp_eq (sub mem addr (zlen s)) s).
Proof.
  intros. unfold checked_match. destruct (Z.leb_spec (zlen s) len); [|done].
  by rewrite buffer_match_ok by lia.
Qed.

Lemma first_match_total tests :
  Forall (fun t : outcome bool * format_t => exists b, t.1 = Ret b) tests ->
  exists f, first_match tests = Ret f /\ (f = UNKNOWN \/ f ∈ tests.*2).
Proof.
  induction 1 as [|[t f] tests [b Hb] _ (f' & E & Hf)]; simpl in *; [by eauto|].
  rewrite Hb. simpl. destruct b; [exists f; split; [done|right; left]|].
  exists f'. split; [done|]. destruct Hf; [by left|right; by right].
Qed.

(** Inside a live object the detection never reads out of bounds. *)
Lemma check_fmt_total mem addr len : 0 <= addr -> addr + len <= zlen mem ->
  exists f, check_fmt mem addr len = Ret f /\ f <> ZOPFLI /\ f <> LZ4_LG.
Proof.
  intros Ha Hl. unfold check_fmt.
  destruct (first_match_total (fmt_tests mem addr len)) as (f & E & Hf).
  - unfold fmt_tests. repeat (apply Forall_cons; split); try (by apply Forall_nil); simpl;
      try (rewrite checked_match_ok by done; by eexists).
    + unfold lzma_match. destruct (Z.leb_spec 13 len); [|by eexists].
      rewrite buffer_match_ok by (vm_compute (zlen LZMA_PREFIX); lia). simpl.
      destruct (memcmp_eq _ _); [|by eexists]. rewrite rd_ok by lia. by eexists.
    + unfold zimage_match. destruct (Z.leb_spec 0x28 len); [|by eexists].
      rewrite buffer_match_ok by (vm_compute (zlen ZIMAGE_MAGIC); lia). by eexists.
  - exists f. split; [done|]. destruct Hf as [->|Hf]; [done|].
    simpl in Hf. split; intros ->; set_solver.
Qed.

(** A magic number is not matched by a buffer that starts with another byte. *)
Lemma checked_match_head c l m s len : c <> m -> 0 <= len <= zlen (c :: l) ->
  checked_match (c :: l) 0 len (m :: s) = Ret false.
Proof.
  intros Hne Hl. rewrite checked_match_ok by lia. f_equal. apply andb_false_iff. right.
  unfold memcmp_eq. apply bool_decide_eq_false_2. intros E.
  assert (Z.to_nat (zlen (m :: s)) = S (length s)) as Hs by (unfold zlen; simpl; lia).
  unfold sub in E. rewrite Hs in E. simpl in E. by injection E.
Qed.

(** Every LZ4 legacy stream is detected as such. *)
Lemma check_fmt_lz4_legacy tl :
  check_fmt (LZ4_LEG_MAGIC ++ tl) 0 (zlen (LZ4_LEG_MAGIC ++ tl)) = Ret LZ4_LEGACY.
Proof.
  set (l := LZ4_LEG_MAGIC ++ tl). pose proof (zlen_nonneg l) as Hl.
  assert (Hf : forall m s, x02 <> m -> checked_match l 0 (zlen l) (m :: s) = Ret false)
    by (intros; by apply checked_match_head).
  assert (Hlz : lzma_match l 0 (zlen l) = Ret false).
  { unfold lzma_match. destruct (Z.leb_spec 13 (zlen l)); [|done].
    rewrite buffer_match_ok by (change (zlen LZMA_PREFIX) with 3; lia). reflexivity. }
  assert (Hm : checked_match l 0 (zlen l) LZ4_LEG_MAGIC = Ret true).
  { rewrite checked_match_ok by lia. unfold l. rewrite zlen_app, sub_app_l, sub_full by
      (rewrite ?zlen_nonneg; change (zlen LZ4_LEG_MAGIC) with 4; lia).
    unfold memcmp_eq. rewrite bool_decide_eq_true_2 by done. rewrite andb_true_r. f_equal.
    apply Z.leb_le. pose proof (zlen_nonneg tl). lia. }
  assert (Hf' : forall s, (match s with m :: _ => x02 <> m | [] => False end) ->
    checked_match l 0 (zlen l) s = Ret false) by (intros [|m s] Hs; [done|by apply Hf]).
  unfold check_fmt, fmt_tests. cbn [first_match]. rewrite Hlz, Hm.
  rewrite (Hf' CHROMEOS_MAGIC), (Hf' BOOT_MAGIC), (Hf' VENDOR_BOOT_MAGIC), (Hf' GZIP1_MAGIC),
    (Hf' GZIP2_MAGIC), (Hf' LZOP_MAGIC), (Hf' XZ_MAGIC), (Hf' BZIP_MAGIC), (Hf' LZ41_MAGIC),
    (Hf' LZ42_MAGIC) by (vm_compute; done).
  reflexivity.
Qed.

(** On a buffer at least as long as the length it is told, [check_fmt] reads
    only inside the buffer and gives one of the formats an image or a
    compressed stream can be recognised as; [ZOPFLI] and [LZ4_LG] are never
    detected (they are told apart from [GZIP] and [LZ4_LEGACY] elsewhere). *)
Theorem check_fmt_in_bounds buf len : 0 <= len <= zlen buf ->
  exists f, check_fmt buf 0 len = Ret f /\ f <> ZOPFLI /\ f <> LZ4_LG.
Proof. intros. apply check_fmt_total; lia. Qed.

Lemma check_fmt_in_bounds_witness : 0 <= 8 <= zlen BOOT_MAGIC /\
  exists f, check_fmt BOOT_MAGIC 0 8 = Ret f /\ f <> ZOPFLI /\ f <> LZ4_LG.
Proof.
  assert (H : 0 <= 8 <= zlen BOOT_MAGIC) by (split; vm_compute; discriminate).
  split; [exact H|]. exact (check_fmt_in_bounds BOOT_MAGIC 8 H).
Defined.

(** The names accepted on the command line and the names printed agree on the
    supported compression formats, and on nothing else. *)
Theorem name2fmt_fmt2name f : name2fmt (fmt2name f) = if COMPRESSED f then f else UNKNOWN.
Proof. by destruct f. Qed.
