(* ===== verification/Streams.v ===== *)
(** Output and input streams: [native/src/base/stream.cpp] and
    [include/stream.hpp].

    [OutStream] is the interface of [out_stream]: a state and a [write] that
    returns the new state and the C++ result.  [chunk_out_stream] is a section
    over the virtual [write_chunk] of its subclasses, which may change the
    chunk size; [file_stream] is driven by the answers of the kernel. *)

From S2P Require Import Prelude Base.

Class OutStream (S : Type) := os_write : S -> bytes -> outcome (S * bool).
#[global] Hint Mode OutStream ! : typeclass_instances.

(** ** chunk_out_stream *)

Record chunk_state (D : Type) := Chunk {
  chunk_sz : Z;
  buf_off : Z;
  data : bytes;            (** the internal [heap_data] *)
  derived : D;             (** the members of the subclass and its base stream *)
}.
Arguments Chunk {D}.
Arguments chunk_sz {D}.
Arguments buf_off {D}.
Arguments data {D}.
Arguments derived {D}.

Section chunk.
Context {D : Type}.

(** [write_chunk chunk_sz derived src len final]: [src] is the object the
    pointer points into, from the pointer on.  Returns the new chunk size, the
    new members and the result. *)
Variable write_chunk : Z -> D -> bytes -> Z -> bool -> outcome (Z * D * bool).

(** The body of the loop of [chunk_out_stream::write]; [inr] leaves the loop. *)
Definition chunk_write_step (st : chunk_state D) (input : bytes)
  : outcome ((chunk_state D * bytes) + (chunk_state D * bool)) :=
  let len := zlen input in
  if chunk_sz st <=? buf_off st + len then
    if negb (buf_off st =? 0) then
      let copy := chunk_sz st - buf_off st in
      let! v := rd input 0 copy in
      let! d := wr (data st) (buf_off st) v in
      let! (c, dv, ok) := write_chunk (chunk_sz st) (derived st) d (chunk_sz st) false in
      let st' := Chunk c 0 d dv in
      if ok then Ret (inl (st', drop (Z.to_nat copy) input)) else Ret (inr (st', false))
    else
      let n := chunk_sz st in
      let! (c, dv, ok) := write_chunk n (derived st) input n false in
      let st' := Chunk c 0 (data st) dv in
      if ok then Ret (inl (st', drop (Z.to_nat n) input)) else Ret (inr (st', false))
  else
    let! d := wr (data st) (buf_off st) input in
    Ret (inr (Chunk (chunk_sz st) (buf_off st + len) d (derived st), true)).

Fixpoint chunk_write_loop (fuel : nat) (st : chunk_state D) (input : bytes)
  : outcome (chunk_state D * bool) :=
  match input with
  | [] => Ret (st, true)
  | _ =>
    match fuel with
    | O => Loop
    | S fuel =>
      let! r := chunk_write_step st input in
      match r with
      | inl (st, rest) => chunk_write_loop fuel st rest
      | inr res => Ret res
      end
    end
  end.

Definition chunk_write (st : chunk_state D) (input : bytes) : outcome (chunk_state D * bool) :=
  chunk_write_loop (length input) st input.

(** [finalize]: a failed last chunk is logged with [LOGE], which ends the command line
    tools with status -1 ([cmdline_logging] sets ExitOnError). *)
Definition chunk_finalize (st : chunk_state D) : outcome (chunk_state D) :=
  if negb (buf_off st =? 0) then
    let! (c, dv, ok) := write_chunk (chunk_sz st) (derived st) (data st) (buf_off st) true in
    if ok then Ret (Chunk c 0 (data st) dv) else Exit (-1)
  else Ret st.

(** Writing a sequence of buffers, stopping at the first failure. *)
Fixpoint chunk_writes (st : chunk_state D) (ws : list bytes) : outcome (chunk_state D * bool) :=
  match ws with
  | [] => Ret (st, true)
  | w :: ws =>
    let! (st, ok) := chunk_write st w in
    if ok then chunk_writes st ws else Ret (st, false)
  end.
End chunk.

(** The default [write_chunk]: hand the chunk to the base stream. *)
Definition base_write_chunk `{OutStream B} (chunk : Z) (b : B) (src : bytes) (len : Z) (_ : bool)
  : outcome (Z * B * bool) :=
  let! v := rd src 0 len in
  let! (b, ok) := os_write b v in Ret (chunk, b, ok).

(** ** byte_stream *)

Record byte_stream := ByteStream {
  bst_data : bytes;  (** the visible part, [_data.sz()] bytes *)
  bst_pos : Z;
  bst_cap : Z;
}.

Fixpoint grow_cap (fuel : nat) (new_sz cap : Z) : outcome Z :=
  match fuel with
  | O => Loop
  | S fuel =>
    if cap <? new_sz then
      grow_cap fuel new_sz
        (if cap =? 0 then 4096 else u64 (u64 (Z.shiftl cap 1) - Z.shiftr cap 1))
    else Ret cap
  end.

(** Number of growth steps: the capacity grows by at least a half each time, so
    this is more than enough for any 62-bit size (see [grow_cap_ok]). *)
Definition grow_fuel : nat := 256.

Definition byte_stream_write (st : byte_stream) (buf : bytes) : outcome (byte_stream * bool) :=
  let! cap := grow_cap grow_fuel (u64 (bst_pos st + zlen buf)) (bst_cap st) in
  let sz := Z.max (zlen (bst_data st)) (bst_pos st + zlen buf) in
  let room := bst_data st ++ zeros (sz - zlen (bst_data st)) in
  let! d := wr room (bst_pos st) buf in
  Ret (ByteStream d (bst_pos st + zlen buf) cap, true).

Definition byte_stream_read (st : byte_stream) (len : Z) : outcome (byte_stream * bytes) :=
  let len := Z.min len (u64 (zlen (bst_data st) - bst_pos st)) in
  let! v := rd (bst_data st) (bst_pos st) len in
  Ret (ByteStream (bst_data st) (bst_pos st + len) (bst_cap st), v).

#[global] Instance byte_stream_out : OutStream byte_stream := byte_stream_write.

(** ** rust_vec_stream *)

Record vec_stream := VecStream { vs_data : bytes; vs_pos : Z }.

(** [ensure_size]: [resize_vec] leaves the new elements unspecified, here zero. *)
Definition ensure_size (d : bytes) (sz : Z) : bytes :=
  if zlen d <? sz then d ++ zeros (sz - zlen d) else d.

Definition vec_stream_write (st : vec_stream) (buf : bytes) : outcome (vec_stream * bool) :=
  let! d := wr (ensure_size (vs_data st) (vs_pos st + zlen buf)) (vs_pos st) buf in
  Ret (VecStream d (vs_pos st + zlen buf), true).

Definition vec_stream_read (st : vec_stream) (len : Z) : outcome (vec_stream * bytes) :=
  let len := Z.min len (u64 (zlen (vs_data st) - vs_pos st)) in
  let! v := rd (vs_data st) (vs_pos st) len in
  Ret (VecStream (vs_data st) (vs_pos st + len), v).

#[global] Instance vec_stream_out : OutStream vec_stream := vec_stream_write.

(** ** file_stream and fd_stream *)

(** What the kernel answers to one [write(2)] or [read(2)]. *)
Inductive sys_answer :=
| Done (n : Z)     (** bytes transferred *)
| EINTR            (** interrupted, [-1] *)
| EIO.             (** any other error, [-1] *)

(** [file_stream::write]: returns the file contents, the result and the answers
    left.  [continue] in a [do] loop jumps to its condition. *)
Fixpoint file_write (answers : list sys_answer) (file buf : bytes) (write_sz : Z)
  : outcome (bytes * bool * list sys_answer) :=
  match answers with
  | [] => Loop
  | Done n :: rest =>
    let part := sub buf write_sz n in
    let write_sz := write_sz + n in
    if negb (write_sz =? zlen buf) && negb (n =? 0) then file_write rest (file ++ part) buf write_sz
    else Ret (file ++ part, true, rest)
  | EINTR :: rest =>
    if negb (write_sz =? zlen buf) then file_write rest file buf write_sz
    else Ret (file, true, rest)
  | EIO :: rest => Ret (file, false, rest)
  end.

(** [in_stream::readFully] over the remaining [input] of a descriptor. *)
Fixpoint read_fully (answers : list sys_answer) (input : bytes) (len read_sz : Z) (acc : bytes)
  : outcome (Z * bytes) :=
  match answers with
  | [] => Loop
  | Done n :: rest =>
    let part := sub input read_sz n in
    let read_sz := read_sz + n in
    if negb (read_sz =? len) && negb (n =? 0) then read_fully rest input len read_sz (acc ++ part)
    else Ret (read_sz, acc ++ part)
  | EINTR :: rest =>
    if negb (read_sz =? len) then read_fully rest input len read_sz acc else Ret (read_sz, acc)
  | EIO :: _ => Ret (-1, acc)
  end.

(** ** chunk_out_stream cuts its input into chunks *)

Section chunk_spec.
Context {D : Type} (wc : Z -> D -> bytes -> Z -> bool -> outcome (Z * D * bool)).
Context (n : Z) (step : D -> bytes -> D) (Hn : 0 < n).

(** A subclass that keeps the chunk size and accepts every full chunk. *)
Context (Hwc : forall d src, n <= zlen src -> wc n d src n false = Ret (n, step d (sub src 0 n), true)).

(** The concrete state holds the pending bytes [p] at the start of its buffer. *)
Definition chunk_inv (st : chunk_state D) (p : bytes) : Prop :=
  chunk_sz st = n /\ buf_off st = zlen p /\ zlen p < n /\ n <= zlen (data st) /\
  sub (data st) 0 (zlen p) = p.

Lemma take_upd_prefix m p v : sub m 0 (zlen p) = p -> zlen p + zlen v <= zlen m ->
  sub (upd m (zlen p) v) 0 (zlen p + zlen v) = p ++ v.
Proof.
  intros Hp Hl. pose proof (zlen_nonneg p). pose proof (zlen_nonneg v).
  rewrite sub_split by lia. rewrite Z.add_0_l. f_equal.
  - rewrite sub_upd_before by lia. done.
  - apply sub_upd_same; lia.
Qed.

(** One iteration of the loop either completes a chunk or buffers the input. *)
Lemma chunk_step_spec st p input : chunk_inv st p -> input <> [] ->
  (exists st' rest c, chunk_write_step wc st input = Ret (inl (st', rest)) /\
     zlen c = n /\ p ++ input = c ++ rest /\ chunk_inv st' [] /\
     derived st' = step (derived st) c /\ (length rest < length input)%nat) \/
  (exists st', chunk_write_step wc st input = Ret (inr (st', true)) /\
     chunk_inv st' (p ++ input) /\ derived st' = derived st).
Proof using Hn Hwc.
  intros (Hc & Ho & Hp & Hd & Hpre) Hne. unfold chunk_write_step.
  rewrite Hc, Ho. pose proof (zlen_nonneg p).
  assert (0 < zlen input) by (unfold zlen; destruct input; [done|simpl; lia]).
  destruct (Z.leb_spec n (zlen p + zlen input)) as [Hle|Hlt].
  - left. destruct (Z.eqb_spec (zlen p) 0) as [E|E]; cbn [negb].
    + assert (p = []) as -> by (destruct p; [done|unfold zlen in E; simpl in E; lia]).
      rewrite zlen_nil in *. rewrite Hwc by lia. cbn [obind].
      eexists _, _, (sub input 0 n). split_and!; [done|apply length_sub; lia| |done..|].
      * unfold sub. simpl. by rewrite take_drop.
      * rewrite length_drop. unfold zlen in *. lia.
    + rewrite rd_ok by lia. cbn [obind].
      assert (Hv : zlen (sub input 0 (n - zlen p)) = n - zlen p) by (apply length_sub; lia).
      rewrite wr_ok by lia. cbn [obind]. rewrite Hwc by (rewrite length_upd; lia). cbn [obind].
      eexists _, _, (p ++ sub input 0 (n - zlen p)). split_and!; [done|lens| | | |].
      * rewrite <- app_assoc. f_equal. unfold sub. simpl. by rewrite take_drop.
      * repeat split; simpl; rewrite ?zlen_nil; try lia. rewrite length_upd; lia.
      * simpl. f_equal. rewrite <- (take_upd_prefix (data st)) by (done || lia).
        f_equal. lia.
      * rewrite length_drop. unfold zlen in *. lia.
  - right. rewrite wr_ok by lia. cbn [obind]. eexists. split; [done|].
    split; [|done]. repeat split; simpl; rewrite ?zlen_app; try lia.
    + rewrite length_upd; lia.
    + apply take_upd_prefix; [done|lia].
Qed.

Lemma chunk_loop_spec fuel : forall st p input, (length input <= fuel)%nat -> chunk_inv st p ->
  exists st' chunks p', chunk_write_loop wc fuel st input = Ret (st', true) /\
    Forall (fun c => zlen c = n) chunks /\ p ++ input = concat chunks ++ p' /\
    chunk_inv st' p' /\ derived st' = fold_left step chunks (derived st).
Proof using Hn Hwc.
  induction fuel as [|fuel IH]; intros st p input Hf Hi.
  - destruct input; [|simpl in Hf; lia]. exists st, [], p. rewrite app_nil_r.
    split_and!; done.
  - destruct input as [|b input]; [exists st, [], p; rewrite app_nil_r; done|].
    cbn [chunk_write_loop].
    destruct (chunk_step_spec st p (b :: input)) as [(st1 & rest & c & E & Hc & Hs & Hi1 & Hd & Hl)|(st1 & E & Hi1 & Hd)];
      [done|done| |]; rewrite E; cbn [obind].
    + destruct (IH st1 [] rest) as (st2 & cs & p2 & E2 & Hcs & Hs2 & Hi2 & Hd2); [simpl in *; lia|done|].
      exists st2, (c :: cs), p2. split_and!; [done|by constructor| |done|].
      * rewrite Hs. simpl in Hs2. rewrite Hs2. simpl. by rewrite app_assoc.
      * simpl. by rewrite <- Hd.
    + exists st1, [], (p ++ b :: input). split_and!; done.
Qed.

(** However the input is split into calls of [write], the chunks handed to
    the subclass are exactly the full chunks of the concatenated input, in
    order, and the remainder (shorter than a chunk) stays buffered; nothing
    is written outside the buffer and every call returns true. *)
Theorem chunk_writes_refine ws st p : chunk_inv st p ->
  exists st' chunks p', chunk_writes wc st ws = Ret (st', true) /\
    Forall (fun c => zlen c = n) chunks /\ zlen p' < n /\
    p ++ concat ws = concat chunks ++ p' /\
    chunk_inv st' p' /\ derived st' = fold_left step chunks (derived st).
Proof using Hn Hwc.
  revert st p; induction ws as [|w ws IH]; intros st p Hi.
  - exists st, [], p. rewrite app_nil_r. split_and!; try done. apply Hi.
  - cbn [chunk_writes]. unfold chunk_write.
    destruct (chunk_loop_spec (length w) st p w) as (st1 & cs & p1 & E & Hcs & Hs & Hi1 & Hd); [done..|].
    rewrite E. cbn [obind].
    destruct (IH st1 p1 Hi1) as (st2 & cs2 & p2 & E2 & Hcs2 & Hp2 & Hs2 & Hi2 & Hd2).
    exists st2, (cs ++ cs2), p2. split_and!; try done.
    + by apply Forall_app.
    + simpl. rewrite app_assoc, Hs, <- app_assoc, Hs2, concat_app. by rewrite app_assoc.
    + by rewrite fold_left_app, <- Hd.
Qed.
End chunk_spec.

(** A subclass that records its chunks, used to instantiate the theorem. *)
Definition record_chunk (c : Z) (d : list bytes) (src : bytes) (len : Z) (_ : bool)
  : outcome (Z * list bytes * bool) :=
  let! v := rd src 0 len in Ret (c, d ++ [v], true).

Lemma chunk_writes_refine_witness :
  exists st' chunks p',
    chunk_writes record_chunk (Chunk 2 0 (zeros 2) []) [bs "abc"; bs "de"] = Ret (st', true) /\
    Forall (fun c => zlen c = 2) chunks /\ zlen p' < 2 /\
    [] ++ concat [bs "abc"; bs "de"] = concat chunks ++ p' /\
    chunk_inv 2 st' p' /\ derived st' = fold_left (fun d c => d ++ [c]) chunks [].
Proof.
  apply (chunk_writes_refine record_chunk 2 (fun d c => d ++ [c])).
  - lia.
  - intros d src H. unfold record_chunk. rewrite rd_ok by lia. reflexivity.
  - repeat split; vm_compute; congruence.
Defined.

Example chunk_writes_run :
  (let! (st, _) := chunk_writes record_chunk (Chunk 2 0 (zeros 2) []) [bs "abc"; bs "de"] in
   let! st := chunk_finalize record_chunk st in Ret (derived st)) = Ret [bs "ab"; bs "cd"; bs "e"].
Proof. reflexivity. Qed.

(** ** byte_stream *)

Lemma grow_cap_ok k : forall fuel new_sz cap, (2 * k + 1 <= fuel)%nat -> 0 < cap < 2 ^ 62 ->
  new_sz < 2 ^ 62 -> new_sz <= cap * 2 ^ Z.of_nat k ->
  exists cap', grow_cap fuel new_sz cap = Ret cap' /\ new_sz <= cap' /\ cap <= cap'.
Proof.
  assert (Hstep : forall cap, 0 < cap < 2 ^ 62 ->
    u64 (u64 (Z.shiftl cap 1) - Z.shiftr cap 1) = 2 * cap - cap / 2).
  { intros cap Hc. rewrite Z.shiftl_mul_pow2, Z.shiftr_div_pow2 by lia.
    change (2 ^ 1) with 2. pose proof (Z.div_mod cap 2 ltac:(lia)).
    pose proof (Z.mod_pos_bound cap 2 ltac:(lia)). rewrite (u64_id (cap * 2)) by lia.
    rewrite u64_id; lia. }
  induction k as [|k IH]; intros fuel new_sz cap Hf Hc Hn Hk; (destruct fuel as [|fuel]; [lia|]);
    cbn [grow_cap]; destruct (Z.ltb_spec cap new_sz) as [Hlt|];
    [|eexists; split; [done|lia]| |eexists; split; [done|lia]].
  - change (2 ^ Z.of_nat 0) with 1 in Hk. lia.
  - rewrite (proj2 (Z.eqb_neq cap 0)), Hstep by lia.
    pose proof (Z.div_mod cap 2 ltac:(lia)). pose proof (Z.mod_pos_bound cap 2 ltac:(lia)).
    set (c1 := 2 * cap - cap / 2) in *.
    destruct fuel as [|fuel]; [lia|]. cbn [grow_cap].
    destruct (Z.ltb_spec c1 new_sz) as [Hlt1|]; [|eexists; split; [done|lia]].
    rewrite (proj2 (Z.eqb_neq c1 0)), Hstep by lia.
    pose proof (Z.div_mod c1 2 ltac:(lia)). pose proof (Z.mod_pos_bound c1 2 ltac:(lia)).
    destruct (Z.lt_ge_cases (2 * c1 - c1 / 2) (2 ^ 62)).
    + destruct (IH fuel new_sz (2 * c1 - c1 / 2)) as (c & E & ? & ?); [lia|lia|done| |].
      { rewrite Nat2Z.inj_succ, Z.pow_succ_r in Hk by lia.
        assert (0 < 2 ^ Z.of_nat k) by (apply Z.pow_pos_nonneg; lia). nia. }
      exists c. split; [done|lia].
    + destruct fuel as [|fuel]; [lia|]. cbn [grow_cap].
      rewrite (proj2 (Z.ltb_ge _ _)) by lia. eexists. split; [done|lia].
Qed.

Lemma grow_cap_total new_sz cap : 0 <= new_sz < 2 ^ 62 -> cap = 0 \/ 4096 <= cap ->
  exists cap', grow_cap grow_fuel new_sz cap = Ret cap' /\ new_sz <= cap' /\ (cap' = 0 \/ 4096 <= cap').
Proof.
  intros Hn Hc. unfold grow_fuel. assert (Hf : (102 <= 256)%nat) by lia.
  revert Hf. generalize 256%nat. intros [|fuel] Hf; [lia|].
  destruct (Z.lt_ge_cases cap new_sz) as [Hlt|Hge].
  2:{ exists cap. cbn [grow_cap]. rewrite (proj2 (Z.ltb_ge _ _)) by lia. done. }
  assert (H : forall f c, (101 <= f)%nat -> 4096 <= c < 2 ^ 62 ->
    exists cap', grow_cap f new_sz c = Ret cap' /\ new_sz <= cap' /\ (cap' = 0 \/ 4096 <= cap')).
  { intros f c Hf' Hc'. destruct (grow_cap_ok 50 f new_sz c) as (c' & E & ? & ?); [lia..|].
    exists c'. split; [done|lia]. }
  destruct Hc as [->|Hc]; [|apply H; lia].
  cbn [grow_cap]. rewrite (proj2 (Z.ltb_lt _ _)) by lia.
  simpl Z.eqb. cbv iota. apply H; lia.
Qed.

Definition byte_stream_inv (st : byte_stream) : Prop :=
  bst_pos st = zlen (bst_data st) /\ (bst_cap st = 0 \/ 4096 <= bst_cap st) /\
  zlen (bst_data st) <= bst_cap st.

Fixpoint byte_stream_writes (st : byte_stream) (ws : list bytes) : outcome byte_stream :=
  match ws with
  | [] => Ret st
  | w :: ws => let! (st, _) := byte_stream_write st w in byte_stream_writes st ws
  end.

Lemma upd_tail d v : upd (d ++ zeros (zlen v)) (zlen d) v = d ++ v.
Proof.
  unfold upd, zlen. rewrite Nat2Z.id, take_app_length, drop_ge, app_nil_r; [done|].
  rewrite length_app, length_zeros. lia.
Qed.

(** Writes to a [byte_stream] append: growing the buffer terminates, keeps
    what was written, and the visible contents are the concatenation of the
    writes. *)
Theorem byte_stream_appends ws st : byte_stream_inv st ->
  zlen (bst_data st ++ concat ws) < 2 ^ 62 ->
  exists st', byte_stream_writes st ws = Ret st' /\ byte_stream_inv st' /\
    bst_data st' = bst_data st ++ concat ws.
Proof.
  revert st; induction ws as [|w ws IH]; intros st (Hp & Hc & Hz) Hb.
  { exists st. by rewrite app_nil_r. }
  cbn [byte_stream_writes concat] in *. unfold byte_stream_write.
  pose proof (zlen_nonneg (bst_data st)). pose proof (zlen_nonneg w). pose proof (zlen_nonneg (concat ws)).
  rewrite !zlen_app in Hb.
  assert (bst_pos st + zlen w < 2 ^ 62) by lia.
  rewrite u64_id by lia.
  destruct (grow_cap_total (bst_pos st + zlen w) (bst_cap st)) as (cap & E & Hcap & Hcap'); [lia|done|].
  rewrite E. cbn [obind]. rewrite Z.max_r by lia.
  replace (bst_pos st + zlen w - zlen (bst_data st)) with (zlen w) by lia.
  rewrite Hp in *. rewrite wr_ok by (rewrite ?zlen_app, ?zlen_zeros; lia). cbn [obind].
  rewrite upd_tail.
  destruct (IH (ByteStream (bst_data st ++ w) (zlen (bst_data st) + zlen w) cap)) as (st' & E' & Hi & Hd).
  { split_and!; simpl; rewrite ?zlen_app; done. }
  { simpl. rewrite !zlen_app. lia. }
  exists st'. simpl in Hd. rewrite <- app_assoc in Hd. by split_and!.
Qed.

Lemma byte_stream_appends_witness :
  byte_stream_inv (ByteStream [] 0 0) /\
  exists st', byte_stream_writes (ByteStream [] 0 0) [bs "ab"; bs "c"] = Ret st' /\
    byte_stream_inv st' /\ bst_data st' = [] ++ concat [bs "ab"; bs "c"].
Proof.
  assert (H : byte_stream_inv (ByteStream [] 0 0)).
  { split_and!; [done|by left|done]. }
  split; [exact H|].
  exact (byte_stream_appends [bs "ab"; bs "c"] _ H ltac:(vm_compute; reflexivity)).
Defined.

(** ** file_stream *)

(** Answers of a kernel that respects the request: at least one byte, at most
    what was asked, or a retryable interruption. *)
Inductive good_answers (total : Z) : Z -> list sys_answer -> Prop :=
| good_nil w : good_answers total w []
| good_done w n l : 0 < n -> w + n <= total -> good_answers total (w + n) l ->
    good_answers total w (Done n :: l)
| good_intr w l : good_answers total w l -> good_answers total w (EINTR :: l).

Fixpoint transferred (answers : list sys_answer) : Z :=
  match answers with
  | [] => 0
  | Done n :: l => n + transferred l
  | _ :: l => transferred l
  end.

Lemma file_write_good buf answers w : good_answers (zlen buf) w answers -> 0 <= w < zlen buf ->
  w + transferred answers = zlen buf ->
  forall file, exists rest, file_write answers file buf w =
    Ret (file ++ sub buf w (zlen buf - w), true, rest).
Proof.
  induction 1 as [w|w n l Hn Hw _ IH|w l _ IH]; intros H0 Ht file; cbn [file_write transferred] in *.
  - lia.
  - rewrite (proj2 (Z.eqb_neq n 0)) by lia. rewrite andb_true_r.
    assert (Hsp : sub buf w (zlen buf - w) = sub buf w n ++ sub buf (w + n) (zlen buf - (w + n))).
    { rewrite <- sub_split by lia. f_equal. lia. }
    destruct (Z.eqb_spec (w + n) (zlen buf)) as [E|E]; simpl negb; cbv iota.
    + exists l. by replace (zlen buf - w) with n by lia.
    + destruct (IH ltac:(lia) ltac:(lia) (file ++ sub buf w n)) as [r E'].
      exists r. by rewrite E', Hsp, app_assoc.
  - rewrite (proj2 (Z.eqb_neq w (zlen buf))) by lia. simpl negb. cbv iota. apply IH; lia.
Qed.

(** When the kernel makes progress on every call that is not interrupted,
    [file_stream::write] keeps retrying, ends as soon as the answers add up to
    the buffer, has then appended the whole buffer to the file, and returns
    true. *)
Theorem file_write_complete buf answers file : buf <> [] ->
  good_answers (zlen buf) 0 answers -> transferred answers = zlen buf ->
  exists rest, file_write answers file buf 0 = Ret (file ++ buf, true, rest).
Proof.
  intros Hne Hg Ht. destruct (file_write_good buf answers 0 Hg) with (file := file) as [r E].
  - unfold zlen. destruct buf; [done|simpl; lia].
  - lia.
  - exists r. by rewrite E, Z.sub_0_r, sub_full.
Qed.

Lemma file_write_complete_witness :
  good_answers (zlen (bs "abc")) 0 [EINTR; Done 2; Done 1] /\
  exists rest, file_write [EINTR; Done 2; Done 1] (bs "x") (bs "abc") 0 =
    Ret (bs "x" ++ bs "abc", true, rest).
Proof.
  assert (H : good_answers (zlen (bs "abc")) 0 [EINTR; Done 2; Done 1]).
  { repeat first [vm_compute; discriminate | constructor]. }
  split; [exact H|].
  apply (file_write_complete (bs "abc") _ (bs "x")); [discriminate|exact H|reflexivity].
Defined.

(** A transfer of zero bytes ends the loop early and is still reported as a
    success. *)
Example file_write_short : file_write [Done 1; Done 0] [] (bs "abc") 0 = Ret (bs "a", true, []).
Proof. reflexivity. Qed.

(** ** Sinks: streams that accept every write and append it *)

(** What the compressors rely on from their base stream. *)
Class Sink (B : Type) `{OutStream B} := {
  sink_ok : B -> Prop;
  sink_bytes : B -> bytes;
  sink_law b v : sink_ok b ->
    exists b', os_write b v = Ret (b', true) /\ sink_ok b' /\ sink_bytes b' = sink_bytes b ++ v;
}.

(** An [fd_stream] on a regular file whose writes complete
    (see [file_write_complete]). *)
Record fd_stream := Fd { fd_file : bytes }.
#[global] Instance fd_stream_out : OutStream fd_stream := fun f v => Ret (Fd (fd_file f ++ v), true).
#[global] Program Instance fd_stream_sink : Sink fd_stream :=
  {| sink_ok _ := True; sink_bytes := fd_file |}.
Next Obligation. intros b v _. by eexists. Qed.

#[global] Program Instance vec_stream_sink : Sink vec_stream :=
  {| sink_ok st := vs_pos st = zlen (vs_data st); sink_bytes := vs_data |}.
Next Obligation.
  intros [d pos] v Hp. simpl in *. subst pos.
  unfold os_write, vec_stream_out, vec_stream_write, ensure_size. simpl.
  pose proof (zlen_nonneg v).
  assert ((if zlen d <? zlen d + zlen v then d ++ zeros (zlen d + zlen v - zlen d) else d)
          = d ++ zeros (zlen v)) as ->.
  { replace (zlen d + zlen v - zlen d) with (zlen v) by lia.
    destruct (Z.ltb_spec (zlen d) (zlen d + zlen v)); [done|].
    replace (zlen v) with 0 by lia. unfold zeros. simpl. by rewrite app_nil_r. }
  rewrite wr_ok by (rewrite ?zlen_app, ?zlen_zeros; unfold zlen; lia). simpl.
  rewrite upd_tail. eexists. split_and!; [done|simpl; by rewrite zlen_app|done].
Qed.

(** ** Feeding a chunk stream whose chunk size changes *)

Section feed.
Context {D : Type} (wc : Z -> D -> bytes -> Z -> bool -> outcome (Z * D * bool)).
(** What [write_chunk] does on an object that ends with the chunk, it does on
    every object that starts with the chunk. *)
Context (Hwc : forall n d c src fin r, zlen c = n -> n <= zlen src -> sub src 0 n = c ->
  wc n d c n fin = Ret r -> wc n d src n fin = Ret r).
Context (cap : Z).

(** [feeds n d s n' d' p]: cutting [s] greedily, the first chunk being [n] bytes
    long, every [write_chunk] succeeds and leaves [n'], [d'] and [p] pending. *)
Inductive feeds : Z -> D -> bytes -> Z -> D -> bytes -> Prop :=
| feeds_rest n d p : zlen p <= cap -> zlen p < n \/ p = [] -> feeds n d p n d p
| feeds_chunk n d c s n1 d1 n' d' p :
    0 < n -> n <= cap -> zlen c = n -> wc n d c n false = Ret (n1, d1, true) ->
    feeds n1 d1 s n' d' p -> feeds n d (c ++ s) n' d' p.

Definition feed_inv (st : chunk_state D) (n : Z) (d : D) (p : bytes) : Prop :=
  chunk_sz st = n /\ derived st = d /\ buf_off st = zlen p /\ zlen p <= cap /\
  (zlen p < n \/ p = []) /\ zlen (data st) = cap /\ sub (data st) 0 (zlen p) = p.

Lemma feeds_split n d a b n' d' r : feeds n d (a ++ b) n' d' r ->
  exists n1 d1 p1, feeds n d a n1 d1 p1 /\ feeds n1 d1 (p1 ++ b) n' d' r.
Proof.
  remember (a ++ b) as s eqn:Es. intros H. revert a b Es.
  induction H as [n d p Hp Hn|n d c s n1 d1 n' d' p H0 Hn Hc Hw Hf IH]; intros a b Es.
  - subst p. exists n, d, a. split; constructor; try done.
    + rewrite zlen_app in Hp. pose proof (zlen_nonneg b). lia.
    + rewrite zlen_app in *. pose proof (zlen_nonneg b). destruct Hn as [|[-> _]%app_nil]; [left; lia|by right].
  - destruct (Z.lt_ge_cases (zlen a) n) as [Hlt|Hge].
    + exists n, d, a. split; [constructor; [lia|by left]|]. rewrite <- Es. by econstructor.
    + destruct (app_eq_inv _ _ _ _ Es) as [(k & -> & ->)|(k & -> & ->)].
      * rewrite zlen_app in Hc. assert (k = []) as ->.
        { destruct k; [done|]. rewrite zlen_cons in Hc. pose proof (zlen_nonneg k). lia. }
        destruct (IH [] s eq_refl) as (n2 & d2 & p2 & Hf1 & Hf2).
        exists n2, d2, p2. rewrite app_nil_r in *. rewrite zlen_nil, Z.add_0_r in Hc.
        split; [|done]. rewrite <- (app_nil_r a). by econstructor.
      * destruct (IH k b eq_refl) as (n2 & d2 & p2 & Hf1 & Hf2).
        exists n2, d2, p2. split; [by econstructor|done].
Qed.

(** Input that does not complete a chunk is buffered. *)
Lemma feed_step_rest st n d p input : feed_inv st n d p -> input <> [] ->
  zlen (p ++ input) <= cap -> zlen (p ++ input) < n ->
  exists st', chunk_write_step wc st input = Ret (inr (st', true)) /\ feed_inv st' n d (p ++ input).
Proof.
  intros (Hcs & Hd & Ho & Hpc & Hpn & Hda & Hpre) Hne Hq Hn. rewrite zlen_app in *.
  pose proof (zlen_nonneg p). unfold chunk_write_step. rewrite Hcs, Ho.
  rewrite (proj2 (Z.leb_gt _ _)) by lia. rewrite wr_ok by lia. cbn [obind].
  eexists. split; [done|]. repeat split; simpl; rewrite ?zlen_app; try done; try lia.
  - rewrite length_upd; lia.
  - apply take_upd_prefix; [done|lia].
Qed.

(** Input that completes a chunk is consumed up to its end. *)
Lemma feed_step_chunk st n d p c2 s n1 d1 : feed_inv st n d p -> c2 <> [] -> n <= cap ->
  zlen (p ++ c2) = n -> wc n d (p ++ c2) n false = Ret (n1, d1, true) ->
  exists st', chunk_write_step wc st (c2 ++ s) = Ret (inl (st', s)) /\ feed_inv st' n1 d1 [].
Proof using Hwc.
  intros (Hcs & Hd & Ho & Hpc & Hpn & Hda & Hpre) Hne Hn Hc Hw. rewrite zlen_app in Hc.
  pose proof (zlen_nonneg p). pose proof (zlen_nonneg s).
  assert (0 < zlen c2) by (destruct c2 as [|x c2]; [done|rewrite zlen_cons; pose proof (zlen_nonneg c2); lia]).
  unfold chunk_write_step. rewrite Hcs, Ho, Hd, zlen_app, (proj2 (Z.leb_le _ _)) by lia.
  assert (Hdrop : drop (Z.to_nat (n - zlen p)) (c2 ++ s) = s).
  { replace (Z.to_nat (n - zlen p)) with (length c2) by (unfold zlen in *; lia). apply drop_app_length. }
  destruct (Z.eqb_spec (zlen p) 0) as [E|E]; cbn [negb].
  - assert (p = []) as -> by (destruct p; [done|rewrite zlen_cons in E; pose proof (zlen_nonneg p); lia]).
    rewrite zlen_nil in *. simpl app in Hw. rewrite Z.sub_0_r in Hdrop.
    assert (sub c2 0 n = c2) as Hsub by (replace n with (zlen c2) by lia; apply sub_full).
    rewrite (Hwc _ _ c2 _ _ (n1, d1, true));
      [|lia|rewrite zlen_app; lia|rewrite sub_app_l by lia; done|done]. cbn [obind]. rewrite Hdrop.
    eexists. split; [done|]. repeat split; simpl; try done; rewrite ?zlen_nil; try lia. by right.
  - rewrite rd_ok by (rewrite ?zlen_app; lia). cbn [obind].
    rewrite sub_app_l by lia. replace (n - zlen p) with (zlen c2) by lia. rewrite sub_full.
    rewrite wr_ok by lia. cbn [obind]. rewrite (Hwc _ _ (p ++ c2) _ _ (n1, d1, true)); cycle 1.
    { rewrite zlen_app. lia. }
    { rewrite length_upd; lia. }
    { replace n with (zlen p + zlen c2) by lia. apply take_upd_prefix; [done|lia]. }
    { done. }
    cbn [obind]. replace (zlen c2) with (n - zlen p) by lia. rewrite Hdrop.
    eexists. split; [done|]. repeat split; simpl; try done; rewrite ?zlen_nil; try lia; [by right|].
    rewrite length_upd; lia.
Qed.

(** The loop of [chunk_out_stream::write] follows [feeds]. *)
Lemma feed_loop n d s n' d' r : feeds n d s n' d' r ->
  forall fuel st p input, (length input <= fuel)%nat -> s = p ++ input -> feed_inv st n d p ->
  exists st', chunk_write_loop wc fuel st input = Ret (st', true) /\ feed_inv st' n' d' r.
Proof using Hwc.
  induction 1 as [n d q Hq Hn|n d c s n1 d1 n' d' r H0 Hn Hc Hw Hf IH]; intros fuel st p input Hfu Es Hi.
  - destruct input as [|b input].
    { rewrite app_nil_r in Es. subst q. exists st. by destruct fuel. }
    destruct fuel as [|fuel]; [simpl in Hfu; lia|]. cbn [chunk_write_loop]. subst q.
    destruct Hn as [Hn|Hn]; [|by destruct p].
    destruct (feed_step_rest st n d p (b :: input)) as (st' & E & Hi'); [done..|].
    rewrite E. by exists st'.
  - assert (zlen p < n) as Hp.
    { destruct Hi as (_ & _ & _ & _ & [?| ->] & _); [done|by rewrite zlen_nil]. }
    assert (exists c2, c = p ++ c2 /\ input = c2 ++ s) as (c2 & -> & ->).
    { destruct (app_eq_inv _ _ _ _ Es) as [(k & -> & ->)|(k & -> & ->)]; [by exists k|].
      rewrite zlen_app in Hp. pose proof (zlen_nonneg k). lia. }
    assert (c2 <> []) as Hne by (intros ->; rewrite app_nil_r in Hc; lia).
    destruct fuel as [|fuel]; [destruct c2; [done|simpl in Hfu; lia]|].
    destruct (feed_step_chunk st n d p c2 s n1 d1) as (st1 & E & Hi1); [done..|].
    assert (chunk_write_loop wc (S fuel) st (c2 ++ s) = chunk_write_loop wc fuel st1 s) as ->.
    { cbn [chunk_write_loop]. rewrite E. by destruct c2. }
    apply (IH fuel st1 []); [|done|done].
    rewrite length_app in Hfu. destruct c2; [done|simpl in Hfu; lia].
Qed.

Lemma feed_writes ws : forall st n d p n' d' r, feed_inv st n d p ->
  feeds n d (p ++ concat ws) n' d' r ->
  exists st', chunk_writes wc st ws = Ret (st', true) /\ feed_inv st' n' d' r.
Proof using Hwc.
  induction ws as [|w ws IH]; intros st n d p n' d' r Hi Hf.
  - simpl in Hf. rewrite app_nil_r in Hf.
    destruct (feed_loop _ _ _ _ _ _ Hf 0 st p []) as (st' & E & Hi'); [done|by rewrite app_nil_r|done|].
    simpl in E. injection E as <-. by exists st.
  - cbn [concat chunk_writes] in *. rewrite app_assoc in Hf.
    destruct (feeds_split _ _ _ _ _ _ _ Hf) as (n1 & d1 & p1 & Hf1 & Hf2).
    destruct (feed_loop _ _ _ _ _ _ Hf1 (length w) st p w) as (st1 & E & Hi1); [done..|].
    unfold chunk_write. rewrite E. cbn [obind]. by eapply IH.
Qed.
End feed.

(** Every string is a sequence of full chunks and a shorter remainder. *)
Lemma cut_chunks {A} (n : Z) (l : list A) : 0 < n ->
  exists cs r, l = concat cs ++ r /\ Forall (fun c => zlen c = n) cs /\ zlen r < n.
Proof.
  intros Hn. induction l as [l IH] using (well_founded_induction (well_founded_ltof _ length)).
  destruct (Z.lt_ge_cases (zlen l) n) as [Hlt|Hge].
  - exists [], l. by split_and!; [|constructor|].
  - destruct (IH (drop (Z.to_nat n) l)) as (cs & r & E & Hc & Hr).
    { unfold ltof, zlen in *. rewrite length_drop. lia. }
    exists (sub l 0 n :: cs), r. split_and!; [|constructor; [apply length_sub; lia|done]|done].
    simpl. rewrite <- app_assoc, <- E. unfold sub. simpl. by rewrite take_drop.
Qed.
