(* ===== verification/Compress.v ===== *)
(** Compression streams of magiskboot: [native/src/boot/compress.cpp].

    The compression libraries (zlib, zopfli, bzip2, liblzma, lz4) are not part
    of the repository: their calls are section variables.  The stream classes
    around them are modelled completely: buffering, framing, mode switches and
    the order of the calls. *)

From S2P Require Import Prelude Base Format Streams.

Definition CHUNK : Z := 0x40000.
Definition LZ4_UNCOMPRESSED : Z := 0x800000.
Definition LZ4_MAGIC_WORD : Z := 0x184C2102.

(** ** LZ4 legacy frames: LZ4_encoder and LZ4_decoder *)

Module Lz4.
Section lz4.
Context {B : Type} `{OutStream B}.

(** [LZ4_COMPRESSBOUND(LZ4_UNCOMPRESSED)] *)
Variable LZ4_COMPRESSED : Z.
(** [LZ4_compress_HC(in, ...)]: the block, empty on failure. *)
Variable LZ4_compress_HC : bytes -> bytes.
(** [LZ4_decompress_safe(in, ..., LZ4_UNCOMPRESSED)]: [None] when negative. *)
Variable LZ4_decompress_safe : bytes -> option bytes.

Record enc := Enc { e_base : B; e_lg : bool; e_in_total : Z }.
Record dec := Dec { d_base : B; d_block_sz : Z }.

(** [LZ4_encoder::write_chunk] *)
Definition enc_write_chunk (chunk : Z) (d : enc) (src : bytes) (len : Z) (_ : bool)
  : outcome (Z * enc * bool) :=
  let! input := rd src 0 len in
  let out := LZ4_compress_HC input in
  let block_sz := u32 (zlen out) in
  if block_sz =? 0 then Ret (chunk, d, false)
  else
    let! (b, ok1) := os_write (e_base d) (le_enc 4 block_sz) in
    if ok1 : bool then
      let! (b, ok2) := os_write b out in
      if ok2 : bool then Ret (chunk, Enc b (e_lg d) (u32 (e_in_total d + len)), true)
      else Ret (chunk, Enc b (e_lg d) (e_in_total d), false)
    else Ret (chunk, Enc b (e_lg d) (e_in_total d), false).

(** The constructor writes the magic number; the destructor flushes the last
    block and, for LG images, the total input size. *)
Definition enc_new (b : B) (lg : bool) : outcome (chunk_state enc) :=
  let! (b, _) := os_write b LZ4_LEG_MAGIC in
  Ret (Chunk LZ4_UNCOMPRESSED 0 (zeros LZ4_UNCOMPRESSED) (Enc b lg 0)).

Definition enc_close (st : chunk_state enc) : outcome B :=
  let! st := chunk_finalize enc_write_chunk st in
  let d := derived st in
  if e_lg d then
    let! (b, _) := os_write (e_base d) (le_enc 4 (e_in_total d)) in Ret b
  else Ret (e_base d).

(** [LZ4_decoder::write_chunk] *)
Definition dec_write_chunk (chunk : Z) (d : dec) (src : bytes) (len : Z) (_ : bool)
  : outcome (Z * dec * bool) :=
  if negb (len =? chunk) then Ret (chunk, d, false)
  else if d_block_sz d =? 0 then
    let! w := rd src 0 4 in
    let block_sz := le_dec w in
    if block_sz =? LZ4_MAGIC_WORD then Ret (4, Dec (d_base d) 0, true)
    else Ret (block_sz, Dec (d_base d) block_sz, true)
  else
    let! input := rd src 0 (d_block_sz d) in
    match LZ4_decompress_safe input with
    | None => Ret (4, Dec (d_base d) 0, false)
    | Some out =>
      let! (b, ok) := os_write (d_base d) out in Ret (4, Dec b 0, ok)
    end.

Definition dec_new (b : B) : chunk_state dec := Chunk 4 0 (zeros LZ4_COMPRESSED) (Dec b 0).

Definition dec_close (st : chunk_state dec) : outcome B :=
  let! st := chunk_finalize dec_write_chunk st in Ret (d_base (derived st)).

(** A whole compression: the constructor, the writes, the destructor. *)
Definition compress (b : B) (lg : bool) (ws : list bytes) : outcome (B * bool) :=
  let! st := enc_new b lg in
  let! (st, ok) := chunk_writes enc_write_chunk st ws in
  let! b := enc_close st in Ret (b, ok).
Definition decompress (b : B) (ws : list bytes) : outcome (B * bool) :=
  let! (st, ok) := chunk_writes dec_write_chunk (dec_new b) ws in
  let! b := dec_close st in Ret (b, ok).
End lz4.
Arguments enc B : clear implicits.
Arguments dec B : clear implicits.
Arguments Enc {B}.
Arguments Dec {B}.
End Lz4.

(** ** Zopfli: gzip files from zopfli_encoder *)

Module Zopfli.
Section zopfli.
Context {B : Type} `{OutStream B}.

Variable ZOPFLI_MASTER_BLOCK_SIZE : Z.
(** zlib's running checksum. *)
Variable crc32 : Z -> bytes -> Z.
(** [ZopfliDeflatePart(&zo, 2, final, in, 0, len, &bp, &out, &outsize)]: the new
    bit position and output buffer. *)
Variable ZopfliDeflatePart : bool -> bytes -> Z * bytes -> Z * bytes.

Record enc := Enc { z_base : B; z_out : bytes; z_crc : Z; z_in_total : Z; z_bp : Z }.

Definition gz_header : bytes := [x1f; x8b; x08; x00; x00; x00; x00; x00; x02; x03].

Definition enc_new (b : B) : chunk_state enc :=
  Chunk ZOPFLI_MASTER_BLOCK_SIZE 0 (zeros ZOPFLI_MASTER_BLOCK_SIZE)
    (Enc b gz_header (crc32 0 []) 0 0).

(** [zopfli_encoder::write_chunk]: everything but the last byte of the output is
    handed on; the last byte may still be filled by the next block. *)
Definition write_chunk (chunk : Z) (d : enc) (src : bytes) (len : Z) (final : bool)
  : outcome (Z * enc * bool) :=
  let! input := rd src 0 len in
  let in_total := u32 (z_in_total d + len) in
  let crc := crc32 (z_crc d) input in
  let '(bp, out) := ZopfliDeflatePart final input (z_bp d, z_out d) in
  let! keep := rd out (zlen out - 1) 1 in
  let! (b, ok) := os_write (z_base d) (sub out 0 (zlen out - 1)) in
  if ok : bool then Ret (chunk, Enc b keep crc in_total bp, true)
  else Ret (chunk, Enc b out crc in_total bp, false).

Definition trailer (crc in_total : Z) : bytes := le_enc 4 crc ++ le_enc 4 in_total.

Definition enc_close (st : chunk_state enc) : outcome B :=
  let! st := chunk_finalize write_chunk st in
  let d := derived st in
  let! (b, _) := os_write (z_base d) (z_out d ++ trailer (z_crc d) (z_in_total d)) in Ret b.
End zopfli.
Arguments enc B : clear implicits.
Arguments Enc {B}.
End Zopfli.

(** ** Filters around a library stream: gz_strm, bz_strm, lzma_strm *)

(** The effect of one library call on its stream. *)
Record zcall (Z : Type) := ZCall {
  zc_state : Z;
  zc_used : BinInt.Z;     (** input bytes consumed *)
  zc_out : bytes;         (** output produced, at most the space given *)
  zc_code : BinInt.Z;
}.
Arguments ZCall {Z}.
Arguments zc_state {Z}.
Arguments zc_used {Z}.
Arguments zc_out {Z}.
Arguments zc_code {Z}.

Module Gz.
Section gz.
Context {B : Type} `{OutStream B}.
Context {zst : Type}.
(** [inflate] and [deflate] of a [z_stream]: state, available input, output
    space, flush mode. *)
Variables inflate deflate : zst -> bytes -> Z -> Z -> zcall zst.
Variable inflateReset : zst -> zst.

Definition Z_NO_FLUSH : Z := 0.
Definition Z_FINISH : Z := 4.
Definition Z_STREAM_END : Z := 1.
Definition Z_STREAM_ERROR : Z := -2.

Inductive mode_t := DECODE | ENCODE | WAIT | COPY.

Record gz_strm := Strm { g_base : B; g_mode : mode_t; g_strm : zst; g_avail_out : Z }.

(** After the end of a member: decode the next one, wait for a second magic
    byte, or stop looking. [inl] goes on with the loop, [inr] returns true. *)
Definition after_member (st : gz_strm) (rest : bytes) : gz_strm + gz_strm :=
  match rest with
  | [] => inr st
  | [c] => if Byte.eqb c x1f then inr (Strm (g_base st) WAIT (g_strm st) (g_avail_out st))
           else inr (Strm (g_base st) COPY (g_strm st) (g_avail_out st))
  | c1 :: c2 :: _ =>
    if Byte.eqb c1 x1f && Byte.eqb c2 x8b then
      inl (Strm (g_base st) DECODE (inflateReset (g_strm st)) 0)
    else inr (Strm (g_base st) COPY (g_strm st) (g_avail_out st))
  end.

Fixpoint do_loop (fuel : nat) (st : gz_strm) (input : bytes) (flush : Z)
  : outcome (gz_strm * bool) :=
  match fuel with
  | O => Loop
  | S fuel =>
    match g_mode st with
    | COPY => Ret (st, true)
    | WAIT => Ret (st, false)
    | (DECODE | ENCODE) as m =>
      let r := match m with ENCODE => deflate | _ => inflate end (g_strm st) input CHUNK flush in
      let st := Strm (g_base st) m (zc_state r) (CHUNK - zlen (zc_out r)) in
      if zc_code r =? Z_STREAM_ERROR then Ret (st, false)
      else
        let! (b, ok) := os_write (g_base st) (zc_out r) in
        let st := Strm b (g_mode st) (g_strm st) (g_avail_out st) in
        let rest := drop (Z.to_nat (zc_used r)) input in
        if negb ok then Ret (st, false)
        else
          match m with
          | DECODE =>
            if zc_code r =? Z_STREAM_END then
              match after_member st rest with
              | inl st => do_loop fuel st rest flush
              | inr st => Ret (st, true)
              end
            else if g_avail_out st =? 0 then do_loop fuel st rest flush else Ret (st, true)
          | _ => if g_avail_out st =? 0 then do_loop fuel st rest flush else Ret (st, true)
          end
    end
  end.

Definition do_write (fuel : nat) (st : gz_strm) (buf : bytes) (flush : Z)
  : outcome (gz_strm * bool) :=
  match g_mode st with
  | WAIT =>
    match buf with
    | [] => Ret (st, true)
    | c :: _ =>
      if Byte.eqb c x8b then
        let r := inflate (inflateReset (g_strm st)) [x1f] (g_avail_out st) flush in
        do_loop fuel (Strm (g_base st) DECODE (zc_state r) (g_avail_out st - zlen (zc_out r))) buf flush
      else Ret (Strm (g_base st) COPY (g_strm st) (g_avail_out st), true)
    end
  | _ => do_loop fuel st buf flush
  end.

Definition write (fuel : nat) (st : gz_strm) (buf : bytes) : outcome (gz_strm * bool) :=
  match buf with
  | [] => Ret (st, true)
  | _ => do_write fuel st buf Z_NO_FLUSH
  end.

Definition close (fuel : nat) (st : gz_strm) : outcome B :=
  let! (st, _) := do_write fuel st [] Z_FINISH in Ret (g_base st).
End gz.
Arguments gz_strm B zst : clear implicits.
Arguments Strm {B zst}.
End Gz.

Module Bz.
Section bz.
Context {B : Type} `{OutStream B}.
Context {bst : Type}.
(** [BZ2_bzDecompress] and [BZ2_bzCompress]. *)
Variable BZ2_bzDecompress : bst -> bytes -> Z -> zcall bst.
Variable BZ2_bzCompress : bst -> bytes -> Z -> Z -> zcall bst.

Definition BZ_RUN : Z := 0.
Definition BZ_FINISH : Z := 2.
Definition BZ_STREAM_END : Z := 4.

Inductive mode_t := DECODE | ENCODE.
Record bz_strm := Strm { b_base : B; b_mode : mode_t; b_strm : bst }.

Fixpoint do_write (fuel : nat) (st : bz_strm) (input : bytes) (flush : Z)
  : outcome (bz_strm * bool) :=
  match fuel with
  | O => Loop
  | S fuel =>
    let r := match b_mode st with
             | DECODE => BZ2_bzDecompress (b_strm st) input CHUNK
             | ENCODE => BZ2_bzCompress (b_strm st) input CHUNK flush
             end in
    let st := Strm (b_base st) (b_mode st) (zc_state r) in
    if zc_code r <? 0 then Ret (st, false)
    else
      let! (b, ok) := os_write (b_base st) (zc_out r) in
      let st := Strm b (b_mode st) (b_strm st) in
      if negb ok then Ret (st, false)
      else if zc_code r =? BZ_STREAM_END then Ret (st, true)
      else if CHUNK - zlen (zc_out r) =? 0 then
        do_write fuel st (drop (Z.to_nat (zc_used r)) input) flush
      else Ret (st, true)
  end.

Definition write (fuel : nat) (st : bz_strm) (buf : bytes) : outcome (bz_strm * bool) :=
  match buf with [] => Ret (st, true) | _ => do_write fuel st buf BZ_RUN end.

Definition close (fuel : nat) (st : bz_strm) : outcome B :=
  match b_mode st with
  | DECODE => Ret (b_base st)
  | ENCODE => let! (st, _) := do_write fuel st [] BZ_FINISH in Ret (b_base st)
  end.
End bz.
Arguments bz_strm B bst : clear implicits.
Arguments Strm {B bst}.
End Bz.

Module Lzma.
Section lzma.
Context {B : Type} `{OutStream B}.
Context {lst : Type}.
(** [lzma_code(&strm, action)] *)
Variable lzma_code : lst -> bytes -> Z -> Z -> zcall lst.

Definition LZMA_RUN : Z := 0.
Definition LZMA_FINISH : Z := 3.
Definition LZMA_OK : Z := 0.
Definition LZMA_STREAM_END : Z := 1.

Record lzma_strm := Strm { l_base : B; l_strm : lst }.

Fixpoint do_write (fuel : nat) (st : lzma_strm) (input : bytes) (flush : Z)
  : outcome (lzma_strm * bool) :=
  match fuel with
  | O => Loop
  | S fuel =>
    let r := lzma_code (l_strm st) input CHUNK flush in
    let st := Strm (l_base st) (zc_state r) in
    if negb (zc_code r =? LZMA_OK) && negb (zc_code r =? LZMA_STREAM_END) then Ret (st, false)
    else
      let! (b, ok) := os_write (l_base st) (zc_out r) in
      let st := Strm b (l_strm st) in
      if negb ok then Ret (st, false)
      else if CHUNK - zlen (zc_out r) =? 0 then
        do_write fuel st (drop (Z.to_nat (zc_used r)) input) flush
      else Ret (st, true)
  end.

Definition write (fuel : nat) (st : lzma_strm) (buf : bytes) : outcome (lzma_strm * bool) :=
  match buf with [] => Ret (st, true) | _ => do_write fuel st buf LZMA_RUN end.

Definition close (fuel : nat) (st : lzma_strm) : outcome B :=
  let! (st, _) := do_write fuel st [] LZMA_FINISH in Ret (l_base st).
End lzma.
Arguments lzma_strm B lst : clear implicits.
Arguments Strm {B lst}.
End Lzma.

(** LZ4 frames: LZ4F_decoder and LZ4F_encoder *)
Module Lz4f.
Section lz4f.
Context {B : Type} `{OutStream B}.
Context {dctx cctx : Type}.

Inductive block_size_id := LZ4F_default | LZ4F_max64KB | LZ4F_max256KB | LZ4F_max1MB | LZ4F_max4MB.

(** [LZ4F_getFrameInfo]: the block size and the header bytes consumed. *)
Variable LZ4F_getFrameInfo : dctx -> bytes -> dctx * block_size_id * Z.
(** [LZ4F_decompress]: [None] is an error; otherwise context, bytes read, output. *)
Variable LZ4F_decompress : dctx -> bytes -> Z -> option (dctx * Z * bytes).
Variable LZ4F_compressBound : Z -> Z.
Variable LZ4F_compressBegin : cctx -> cctx * bytes.
Variable LZ4F_compressUpdate : cctx -> bytes -> option (cctx * bytes).
Variable LZ4F_compressEnd : cctx -> option bytes.

Definition outCapacity_of (id : block_size_id) : Z :=
  match id with
  | LZ4F_default | LZ4F_max64KB => Z.shiftl 1 16
  | LZ4F_max256KB => Z.shiftl 1 18
  | LZ4F_max1MB => Z.shiftl 1 20
  | LZ4F_max4MB => Z.shiftl 1 22
  end.

(** [outCapacity] is meaningful once [outbuf] is allocated. *)
Record dec := Dec { fd_base : B; fd_ctx : dctx; fd_outCapacity : option Z }.

Fixpoint dec_loop (fuel : nat) (st : dec) (cap : Z) (input : bytes) : outcome (dec * bool) :=
  match fuel with
  | O => Loop
  | S fuel =>
    match LZ4F_decompress (fd_ctx st) input cap with
    | None => Ret (st, false)
    | Some (ctx, read, out) =>
      let rest := drop (Z.to_nat read) input in
      let! (b, ok) := os_write (fd_base st) out in
      let st := Dec b ctx (fd_outCapacity st) in
      if negb ok then Ret (st, false)
      else if negb (zlen rest =? 0) || negb (zlen out =? 0) then dec_loop fuel st cap rest
      else Ret (st, true)
    end
  end.

Definition dec_write (fuel : nat) (st : dec) (buf : bytes) : outcome (dec * bool) :=
  match fd_outCapacity st with
  | Some cap => dec_loop fuel st cap buf
  | None =>
    let '(ctx, id, read) := LZ4F_getFrameInfo (fd_ctx st) buf in
    let cap := outCapacity_of id in
    dec_loop fuel (Dec (fd_base st) ctx (Some cap)) cap (drop (Z.to_nat read) buf)
  end.

Definition BLOCK_SZ : Z := Z.shiftl 1 22.

Record enc := Enc { fe_base : B; fe_ctx : cctx; fe_outCapacity : option Z }.

Fixpoint enc_loop (fuel : nat) (st : enc) (input : bytes) : outcome (enc * bool) :=
  match fuel with
  | O => Loop
  | S fuel =>
    let read := if BLOCK_SZ <? zlen input then BLOCK_SZ else zlen input in
    match LZ4F_compressUpdate (fe_ctx st) (sub input 0 read) with
    | None => Ret (st, false)
    | Some (ctx, out) =>
      let! (b, ok) := os_write (fe_base st) out in
      let st := Enc b ctx (fe_outCapacity st) in
      if negb ok then Ret (st, false)
      else
        let rest := drop (Z.to_nat read) input in
        if negb (zlen rest =? 0) then enc_loop fuel st rest else Ret (st, true)
    end
  end.

Definition enc_write (fuel : nat) (st : enc) (buf : bytes) : outcome (enc * bool) :=
  let! (st, ok) :=
    match fe_outCapacity st with
    | Some _ => Ret (st, true)
    | None =>
      let '(ctx, out) := LZ4F_compressBegin (fe_ctx st) in
      let! (b, ok) := os_write (fe_base st) out in
      Ret (Enc b ctx (Some (LZ4F_compressBound BLOCK_SZ)), ok)
    end in
  if negb ok then Ret (st, false)
  else match buf with [] => Ret (st, true) | _ => enc_loop fuel st buf end.

(** The destructor: a failure to end the frame is logged with [LOGE]. *)
Definition enc_close (st : enc) : outcome B :=
  match LZ4F_compressEnd (fe_ctx st) with
  | None => Exit (-1)
  | Some out =>
    let! (b, ok) := os_write (fe_base st) out in
    if ok : bool then Ret b else Exit (-1)
  end.
End lz4f.
End Lz4f.

(** ** Choosing a stream *)

(** The classes [get_encoder] and [get_decoder] construct. *)
Inductive encoder_class := xz_encoder | lzma_encoder | bz_encoder | LZ4F_encoder
  | LZ4_encoder (lg : bool) | zopfli_encoder | gz_encoder.
Inductive decoder_class := lzma_decoder | bz_decoder | LZ4F_decoder | LZ4_decoder | gz_decoder.

Definition get_encoder (type : format_t) : encoder_class :=
  match type with
  | XZ => xz_encoder
  | LZMA => lzma_encoder
  | BZIP2 => bz_encoder
  | LZ4 => LZ4F_encoder
  | LZ4_LEGACY => LZ4_encoder false
  | LZ4_LG => LZ4_encoder true
  | ZOPFLI => zopfli_encoder
  | GZIP | _ => gz_encoder
  end.

Definition get_decoder (type : format_t) : decoder_class :=
  match type with
  | XZ | LZMA => lzma_decoder
  | BZIP2 => bz_decoder
  | LZ4 => LZ4F_decoder
  | LZ4_LEGACY | LZ4_LG => LZ4_decoder
  | ZOPFLI | GZIP | _ => gz_decoder
  end.

(** ** The compress and decompress commands *)

Module Cli.
Definition STDIO : bytes := bs "-".

(** The working directory and the standard streams. *)
Record world := World { files : gmap (list Byte.byte) (list Byte.byte); stdin : bytes; stdout : bytes }.

(** What reading [infile] to its end gives.  An input that cannot be opened
    leaves [in_fd] at -1; [read] then returns -1, which the loops take for a
    huge length of an uninitialised buffer. *)
Definition read_input (w : world) (infile : bytes) : outcome bytes :=
  if bool_decide (infile = STDIO) then Ret (stdin w)
  else match files w !! infile with Some c => Ret c | None => Fault end.

Definition put_output (w : world) (target out : bytes) : world :=
  if bool_decide (target = STDIO) then World (files w) (stdin w) (stdout w ++ out)
  else World (<[target := out]> (files w)) (stdin w) (stdout w).

Definition remove_input (w : world) (infile : bytes) : world :=
  World (delete infile (files w)) (stdin w) (stdout w).

(** [strrchr(s, '.')]: the offset of the last dot. *)
Fixpoint strrchr (s : bytes) (c : byte) : option nat :=
  match s with
  | [] => None
  | x :: t => match strrchr t c with
              | Some k => Some (S k)
              | None => if Byte.eqb x c then Some O else None
              end
  end.

(** Where [compress] writes, and whether the input is removed afterwards. *)
Definition compress_target (fmt : format_t) (infile : bytes) (outfile : option bytes) : bytes * bool :=
  match outfile with
  | None => if bool_decide (infile = STDIO) then (STDIO, false)
            else (infile ++ bs (fmt2ext fmt), true)
  | Some o => (o, false)
  end.

(** Where [decompress] writes; a name without the extension of the detected
    format is fatal. *)
Definition decompress_target (type : format_t) (infile : bytes) (outfile : option bytes)
  : outcome (bytes * bool) :=
  match outfile with
  | Some o => Ret (o, false)
  | None =>
    if bool_decide (infile = STDIO) then Ret (STDIO, false)
    else match strrchr infile x2e with
         | None => Exit (-1)
         | Some k =>
           if bool_decide (drop k infile = bs (fmt2ext type)) then Ret (take k infile, true)
           else Exit (-1)
         end
  end.

(** The 4096-byte reads of the main loops. *)
Fixpoint reads (fuel : nat) (content : bytes) : list bytes :=
  match fuel, content with
  | O, _ | _, [] => []
  | S fuel, _ => take 4096 content :: reads fuel (drop 4096 content)
  end.

Section commands.
(** Running a whole encoder or decoder over a sequence of writes: the bytes
    written and whether every write succeeded. *)
Variable encode : encoder_class -> list bytes -> outcome (bytes * bool).
Variable decode : decoder_class -> list bytes -> outcome (bytes * bool).

(** [compress(method, infile, outfile)]: the output is opened with [O_TRUNC]
    before the input is read. *)
Definition compress (method : string) (w : world) (infile : bytes) (outfile : option bytes)
  : outcome world :=
  let fmt := name2fmt method in
  if bool_decide (fmt = UNKNOWN) then Exit (-1)
  else
    let '(target, rm_in) := compress_target fmt infile outfile in
    let w := put_output w target [] in
    let! content := read_input w infile in
    let! (out, ok) := encode (get_encoder fmt) (reads (length content) content) in
    if negb ok then Exit (-1)
    else
      let w := put_output w target out in
      Ret (if rm_in then remove_input w infile else w).

(** [decompress(infile, outfile)]: the format is that of the first read.  The
    output is opened after the first read; an [outfile] naming [infile] itself
    is not modelled. *)
Definition decompress (w : world) (infile : bytes) (outfile : option bytes) : outcome world :=
  let! content := read_input w infile in
  match reads (length content) content with
  | [] => Ret w
  | (buf :: _) as bufs =>
    let! type := check_fmt buf 0 (zlen buf) in
    if negb (COMPRESSED type) then Exit (-1)
    else
      let! (target, rm_in) := decompress_target type infile outfile in
      let! (out, ok) := decode (get_decoder type) bufs in
      if negb ok then Exit (-1)
      else
        let w := put_output w target out in
        Ret (if rm_in then remove_input w infile else w)
  end.

(** [decompress(buf, fd)] and the pair [xz]/[unxz] used from Rust: one write,
    the result of which is returned; [None] is [false].  An unsupported input is
    logged with [LOGE], which ends magiskboot. *)
Definition decompress_buf (buf : bytes) : outcome (option bytes) :=
  let! type := check_fmt buf 0 (zlen buf) in
  if negb (COMPRESSED type) then Exit (-1)
  else let! (out, ok) := decode (get_decoder type) [buf] in
       Ret (if ok : bool then Some out else None).
Definition xz (buf : bytes) : outcome (option bytes) :=
  let! (out, ok) := encode (get_encoder XZ) [buf] in Ret (if ok : bool then Some out else None).
Definition unxz (buf : bytes) : outcome (option bytes) :=
  let! type := check_fmt buf 0 (zlen buf) in
  if bool_decide (type <> XZ) then Exit (-1)
  else let! (out, ok) := decode (get_decoder XZ) [buf] in
       Ret (if ok : bool then Some out else None).
End commands.
End Cli.

(** ** LZ4 legacy frames round trip *)

Section lz4_round_trip.
Context {B : Type} `{Sink B}.
Context (LZ4_COMPRESSED : Z) (LZ4_compress_HC : bytes -> bytes)
  (LZ4_decompress_safe : bytes -> option bytes).

(** The documented contract of the library on one block. *)
Context (Hbound : 4 <= LZ4_COMPRESSED < LZ4_MAGIC_WORD).
Context (Hsize : forall x, 0 < zlen x <= LZ4_UNCOMPRESSED -> 0 < zlen (LZ4_compress_HC x) <= LZ4_COMPRESSED).
Context (Hinv : forall x, 0 < zlen x <= LZ4_UNCOMPRESSED -> LZ4_decompress_safe (LZ4_compress_HC x) = Some x).

Notation enc_chunk := (Lz4.enc_write_chunk LZ4_compress_HC).
Notation dec_chunk := (Lz4.dec_write_chunk LZ4_decompress_safe).

(** One block on the wire. *)
Definition lz4_frame (x : bytes) : bytes := le_enc 4 (zlen (LZ4_compress_HC x)) ++ LZ4_compress_HC x.
Definition lz4_frames (xs : list bytes) : bytes := concat (map lz4_frame xs).
Definition lz4_block (x : bytes) : Prop := 0 < zlen x <= LZ4_UNCOMPRESSED.

Lemma enc_chunk_ok n (d : Lz4.enc B) src len fin : sink_ok (Lz4.e_base d) ->
  0 < len <= LZ4_UNCOMPRESSED -> len <= zlen src ->
  exists d', enc_chunk n d src len fin = Ret (n, d', true) /\ sink_ok (Lz4.e_base d') /\
    sink_bytes (Lz4.e_base d') = sink_bytes (Lz4.e_base d) ++ lz4_frame (sub src 0 len) /\
    Lz4.e_lg d' = Lz4.e_lg d /\ Lz4.e_in_total d' = u32 (Lz4.e_in_total d + len).
Proof using Hbound Hsize.
  intros Hok Hlen Hsrc. unfold Lz4.enc_write_chunk. rewrite rd_ok by lia. cbn [obind].
  set (x := sub src 0 len). assert (Hx : lz4_block x).
  { unfold lz4_block, x. rewrite length_sub; lia. }
  specialize (Hsize x Hx). unfold LZ4_MAGIC_WORD in Hbound.
  rewrite u32_id by lia. rewrite (proj2 (Z.eqb_neq _ _)) by lia.
  destruct (sink_law (Lz4.e_base d) (le_enc 4 (zlen (LZ4_compress_HC x))) Hok) as (b1 & E1 & Hok1 & Hb1).
  rewrite E1. cbn [obind].
  destruct (sink_law b1 (LZ4_compress_HC x) Hok1) as (b2 & E2 & Hok2 & Hb2).
  rewrite E2. cbn [obind]. eexists. split_and!; [done|done| |done|done].
  simpl. rewrite Hb2, Hb1. unfold lz4_frame. by rewrite app_assoc.
Qed.

Lemma enc_chunk_local n (d : Lz4.enc B) c src fin r : zlen c = n -> n <= zlen src -> sub src 0 n = c ->
  enc_chunk n d c n fin = Ret r -> enc_chunk n d src n fin = Ret r.
Proof.
  intros Hc Hn Hs. unfold Lz4.enc_write_chunk. pose proof (zlen_nonneg c).
  rewrite !rd_ok by lia. rewrite Hs. replace (sub c 0 n) with c; [done|].
  rewrite <- Hc. by rewrite sub_full.
Qed.

(** The encoder turns full chunks into frames. *)
Lemma enc_feeds cs r : Forall (fun c => zlen c = LZ4_UNCOMPRESSED) cs -> zlen r < LZ4_UNCOMPRESSED ->
  forall d : Lz4.enc B, sink_ok (Lz4.e_base d) ->
  exists d', feeds enc_chunk LZ4_UNCOMPRESSED LZ4_UNCOMPRESSED d (concat cs ++ r) LZ4_UNCOMPRESSED d' r /\
    sink_ok (Lz4.e_base d') /\ Lz4.e_lg d' = Lz4.e_lg d /\
    sink_bytes (Lz4.e_base d') = sink_bytes (Lz4.e_base d) ++ lz4_frames cs /\
    u32 (Lz4.e_in_total d') = u32 (Lz4.e_in_total d + zlen (concat cs)).
Proof using Hbound Hsize.
  intros Hcs Hr. induction Hcs as [|c cs Hc _ IH]; intros d Hok.
  - exists d. simpl. rewrite app_nil_r, zlen_nil, Z.add_0_r. split_and!; try done.
    constructor; [lia|by left].
  - destruct (enc_chunk_ok LZ4_UNCOMPRESSED d c LZ4_UNCOMPRESSED false) as (d1 & E & Hok1 & Hb1 & Hlg1 & Ht1);
      [done|unfold LZ4_UNCOMPRESSED; lia|lia|].
    destruct (IH d1 Hok1) as (d2 & Hf & Hok2 & Hlg2 & Hb2 & Ht2).
    exists d2. split_and!; [|done|congruence| |].
    + simpl. rewrite <- app_assoc. econstructor; [unfold LZ4_UNCOMPRESSED; lia|lia|done|exact E|exact Hf].
    + rewrite Hb2, Hb1, <- app_assoc. do 2 f_equal.
      assert (sub c 0 LZ4_UNCOMPRESSED = c) as -> by (rewrite <- Hc; apply sub_full). done.
    + rewrite Ht2, Ht1, u32_add_l. simpl. rewrite zlen_app, Hc. f_equal. lia.
Qed.

(** The destructor flushes what is pending as a last block. *)
Lemma enc_finalize_ok st (d : Lz4.enc B) r cs bytes0 :
  feed_inv LZ4_UNCOMPRESSED st LZ4_UNCOMPRESSED d r -> zlen r < LZ4_UNCOMPRESSED ->
  sink_ok (Lz4.e_base d) -> sink_bytes (Lz4.e_base d) = bytes0 ++ lz4_frames cs ->
  u32 (Lz4.e_in_total d) = u32 (zlen (concat cs)) -> Forall lz4_block cs ->
  exists st' blocks, chunk_finalize enc_chunk st = Ret st' /\
    sink_ok (Lz4.e_base (derived st')) /\ Lz4.e_lg (derived st') = Lz4.e_lg d /\
    sink_bytes (Lz4.e_base (derived st')) = bytes0 ++ lz4_frames blocks /\
    u32 (Lz4.e_in_total (derived st')) = u32 (zlen (concat blocks)) /\
    concat blocks = concat cs ++ r /\ Forall lz4_block blocks.
Proof using Hbound Hsize.
  intros (Hc & Hd & Ho & _ & _ & Hda & Hpre) Hr Hok Hb Ht Hcs.
  unfold chunk_finalize. rewrite Ho, Hc, Hd. pose proof (zlen_nonneg r).
  destruct (Z.eqb_spec (zlen r) 0) as [E0|E0]; cbn [negb].
  - exists st, cs. rewrite Hd. assert (r = []) as -> by (by destruct r).
    rewrite app_nil_r. split_and!; done.
  - destruct (enc_chunk_ok LZ4_UNCOMPRESSED d (data st) (zlen r) true) as (d3 & E3 & Hok3 & Hb3 & Hlg3 & Ht3);
      [done|lia|lia|].
    rewrite E3. cbn [obind]. eexists _, (cs ++ [r]). split; [done|]. simpl.
    rewrite concat_app. simpl. rewrite app_nil_r. split_and!; [done|congruence| | |done|].
    + rewrite Hb3, Hb, Hpre, <- app_assoc. unfold lz4_frames. rewrite map_app, concat_app. simpl.
      by rewrite app_nil_r.
    + by rewrite Ht3, u32_idem, <- u32_add_l, Ht, u32_add_l, zlen_app.
    + apply Forall_app. split; [done|]. constructor; [|done]. split; lia.
Qed.

(** What the encoder leaves in the base stream. *)
Definition lz4_wire (lg : bool) (blocks : list bytes) : bytes :=
  LZ4_LEG_MAGIC ++ lz4_frames blocks ++ (if lg then le_enc 4 (zlen (concat blocks)) else []).

Lemma compress_wire (b : B) lg ws : sink_ok b ->
  exists b' blocks, Lz4.compress LZ4_compress_HC b lg ws = Ret (b', true) /\ sink_ok b' /\
    sink_bytes b' = sink_bytes b ++ lz4_wire lg blocks /\
    concat blocks = concat ws /\ Forall lz4_block blocks.
Proof using Hbound Hsize.
  intros Hok. unfold Lz4.compress, Lz4.enc_new.
  destruct (sink_law b LZ4_LEG_MAGIC Hok) as (b1 & E1 & Hok1 & Hb1). rewrite E1. cbn [obind].
  destruct (cut_chunks LZ4_UNCOMPRESSED (concat ws)) as (cs & r & Ecs & Hcs & Hr);
    [unfold LZ4_UNCOMPRESSED; lia|].
  destruct (enc_feeds cs r Hcs Hr (Lz4.Enc b1 lg 0) Hok1) as (d2 & Hf & Hok2 & Hlg2 & Hb2 & Ht2).
  simpl in Hlg2, Hb2, Ht2.
  destruct (feed_writes enc_chunk enc_chunk_local LZ4_UNCOMPRESSED ws
    (Chunk LZ4_UNCOMPRESSED 0 (zeros LZ4_UNCOMPRESSED) (Lz4.Enc b1 lg 0))
    LZ4_UNCOMPRESSED (Lz4.Enc b1 lg 0) [] LZ4_UNCOMPRESSED d2 r) as (st & Ew & Hi).
  { split_and!; [done|done|done|by vm_compute|by right|apply zlen_zeros; by vm_compute|done]. }
  { simpl. by rewrite Ecs. }
  rewrite Ew. cbn [obind].
  destruct (enc_finalize_ok st d2 r cs (sink_bytes b1)) as (st' & blocks & Ef & Hok3 & Hlg3 & Hb3 & Ht3 & Hcat & Hbl);
    [done|done|done|done|done| |].
  { eapply Forall_impl; [exact Hcs|]. intros c Hc. unfold lz4_block. rewrite Hc. unfold LZ4_UNCOMPRESSED. lia. }
  rewrite <- Ecs in Hcat. unfold Lz4.enc_close. rewrite Ef. cbn [obind]. rewrite Hlg3, Hlg2.
  unfold lz4_wire. destruct lg.
  - destruct (sink_law _ (le_enc 4 (Lz4.e_in_total (derived st'))) Hok3) as (b4 & E4 & Hok4 & Hb4).
    rewrite E4. cbn [obind]. exists b4, blocks. split_and!; try done.
    rewrite Hb4, Hb3, Hb1, <- !app_assoc. do 3 f_equal.
    rewrite <- (le_enc_mod 4 _ 32), <- (le_enc_mod 4 (zlen _) 32) by lia.
    f_equal. exact Ht3.
  - exists (Lz4.e_base (derived st')), blocks. split_and!; try done.
    rewrite Hb3, Hb1, app_nil_r. by rewrite <- app_assoc.
Qed.

Lemma dec_chunk_local n (d : Lz4.dec B) c src fin r : zlen c = n -> n <= zlen src -> sub src 0 n = c ->
  dec_chunk n d c n fin = Ret r -> dec_chunk n d src n fin = Ret r.
Proof.
  intros Hc Hn Hs. unfold Lz4.dec_write_chunk. rewrite Z.eqb_refl. simpl negb. cbv iota.
  assert (Hrd : forall k v, rd c 0 k = Ret v -> rd src 0 k = Ret v).
  { intros k v (Hk1 & Hk2 & Hk3 & ->)%rd_Ret_inv. rewrite rd_ok by lia. f_equal.
    rewrite <- Hs. by rewrite sub_sub by lia. }
  destruct (Lz4.d_block_sz d =? 0); intros (w & Ew & Er)%bind_Ret_inv; rewrite (Hrd _ _ Ew); exact Er.
Qed.

(** A size word and its block bring the decoder back to its initial state with
    the block's plain text written. *)
Lemma dec_feeds_frames xs : Forall lz4_block xs -> forall b : B, sink_ok b ->
  exists b', sink_ok b' /\ sink_bytes b' = sink_bytes b ++ concat xs /\
    forall s n' d' p, feeds dec_chunk LZ4_COMPRESSED 4 (Lz4.Dec b' 0) s n' d' p ->
      feeds dec_chunk LZ4_COMPRESSED 4 (Lz4.Dec b 0) (lz4_frames xs ++ s) n' d' p.
Proof using Hbound Hinv Hsize.
  induction 1 as [|x xs Hx _ IH]; intros b Hok.
  - exists b. simpl. by rewrite app_nil_r.
  - destruct (sink_law b x Hok) as (b1 & E1 & Hok1 & Hb1).
    destruct (IH b1 Hok1) as (b2 & Hok2 & Hb2 & Hf).
    exists b2. split; [done|]. split; [simpl; by rewrite Hb2, Hb1, <- app_assoc|]. intros s n' d' p Hs.
    specialize (Hsize x Hx). specialize (Hinv x Hx).
    unfold lz4_frames. cbn [map concat]. unfold lz4_frame at 1. rewrite <- !app_assoc.
    set (cx := LZ4_compress_HC x) in *. unfold LZ4_MAGIC_WORD in Hbound.
    eapply feeds_chunk; [lia|lia|apply zlen_le_enc| |].
    { unfold Lz4.dec_write_chunk. simpl (negb _). cbv iota. simpl (Lz4.d_block_sz _ =? 0). cbv iota.
      rewrite rd_ok by (rewrite ?zlen_le_enc; lia). cbn [obind].
      assert (sub (le_enc 4 (zlen cx)) 0 4 = le_enc 4 (zlen cx)) as -> by apply (sub_full (le_enc 4 _)).
      rewrite le_dec_enc, Z.mod_small by (change (2 ^ (8 * Z.of_nat 4)) with (2 ^ 32); lia).
      rewrite (proj2 (Z.eqb_neq _ _)) by (unfold LZ4_MAGIC_WORD; lia). reflexivity. }
    eapply feeds_chunk; [lia|lia|done| |apply Hf, Hs].
    unfold Lz4.dec_write_chunk. rewrite Z.eqb_refl. simpl negb. cbv iota. cbn [Lz4.d_block_sz Lz4.d_base].
    rewrite (proj2 (Z.eqb_neq _ _)), rd_ok by lia. cbn [obind]. rewrite sub_full, Hinv, E1. reflexivity.
Qed.

(** The trailing size word of LG images leaves nothing pending. *)
Lemma dec_feeds_tail (lg : bool) t (b : B) : exists n d,
  feeds dec_chunk LZ4_COMPRESSED 4 (Lz4.Dec b 0) (if lg then le_enc 4 t else []) n d [] /\
  Lz4.d_base d = b.
Proof using Hbound.
  destruct lg.
  - assert (exists n d, dec_chunk 4 (Lz4.Dec b 0) (le_enc 4 t) 4 false = Ret (n, d, true) /\ Lz4.d_base d = b)
      as (n & d & E & Hd).
    { unfold Lz4.dec_write_chunk. simpl negb. cbv iota. simpl (Lz4.d_block_sz _ =? 0). cbv iota.
      rewrite rd_ok by (rewrite ?zlen_le_enc; lia). cbn [obind].
      destruct (le_dec _ =? _); by eexists _, _. }
    exists n, d. split; [|done]. rewrite <- (app_nil_r (le_enc 4 t)).
    eapply feeds_chunk; [lia|lia|apply zlen_le_enc|exact E|]. constructor; [unfold zlen; simpl; lia|by right].
  - exists 4, (Lz4.Dec b 0). split; [|done]. constructor; [unfold zlen; simpl; lia|by right].
Qed.

(** C5: for LZ4 legacy and LG streams, decoding what was encoded gives the
    input back, however the input and the compressed stream are split into
    calls of [write], provided the block codec inverts itself within its
    documented bounds.  Every write and both destructors succeed. *)
Theorem lz4_round_trip (b b' : B) lg ws : sink_ok b -> sink_bytes b = [] -> sink_ok b' ->
  exists e, Lz4.compress LZ4_compress_HC b lg ws = Ret (e, true) /\
    forall ws', concat ws' = sink_bytes e ->
    exists o, Lz4.decompress LZ4_COMPRESSED LZ4_decompress_safe b' ws' = Ret (o, true) /\
      sink_bytes o = sink_bytes b' ++ concat ws.
Proof using Hbound Hinv Hsize.
  intros Hok Hnil Hok'. destruct (compress_wire b lg ws Hok) as (e & blocks & Ec & Hoke & Hbe & Hcat & Hbl).
  exists e. split; [done|]. intros ws' Hws'. rewrite Hnil in Hbe. simpl in Hbe.
  destruct (dec_feeds_frames blocks Hbl b' Hok') as (b1 & Hok1 & Hb1 & Hfr).
  destruct (dec_feeds_tail lg (zlen (concat blocks)) b1) as (n & d & Htl & Hd).
  assert (Hf : feeds dec_chunk LZ4_COMPRESSED 4 (Lz4.Dec b' 0) (lz4_wire lg blocks) n d []).
  { unfold lz4_wire. eapply feeds_chunk; [lia|lia|done| |apply Hfr, Htl]. reflexivity. }
  destruct (feed_writes dec_chunk dec_chunk_local LZ4_COMPRESSED ws' (Lz4.dec_new LZ4_COMPRESSED b')
    4 (Lz4.Dec b' 0) [] n d []) as (st & Ew & Hi).
  { split_and!; [done|done|done|unfold zlen; simpl; lia|by right|apply zlen_zeros; lia|done]. }
  { simpl. by rewrite Hws', Hbe. }
  destruct Hi as (_ & Hder & Ho & _). unfold Lz4.decompress. rewrite Ew. cbn [obind].
  unfold Lz4.dec_close, chunk_finalize. rewrite Ho, zlen_nil. simpl. rewrite Hder, Hd.
  exists b1. split; [done|]. by rewrite Hb1, Hcat.
Qed.
End lz4_round_trip.

(** The identity on blocks satisfies the contract of the block codec. *)
Lemma lz4_round_trip_witness :
  exists e, Lz4.compress (fun x => x) (Fd []) true [bs "kernel "; bs "image"] = Ret (e, true) /\
    forall ws', concat ws' = fd_file e ->
    exists o, Lz4.decompress 0x900000 Some (Fd (bs "> ")) ws' = Ret (o, true) /\
      fd_file o = bs "> " ++ concat [bs "kernel "; bs "image"].
Proof.
  refine (lz4_round_trip (B := fd_stream) 0x900000 (fun x => x) Some _ _ _
    (Fd []) (Fd (bs "> ")) true [bs "kernel "; bs "image"] I eq_refl I); try done.
  intros x Hx. unfold LZ4_UNCOMPRESSED in Hx. lia.
Defined.

(** ** Malformed LZ4 streams *)

(** Two consecutive zero size words make [LZ4_decoder] loop forever: once the
    decoder expects a block of size zero it re-reads the next word without
    consuming it. *)
Theorem lz4_decoder_hangs {B} `{OutStream B} (safe : bytes -> option bytes) (b : B) dat rest :
  forall fuel, chunk_write_loop (Lz4.dec_write_chunk safe) fuel (Chunk 0 0 dat (Lz4.Dec b 0))
    ([x00; x00; x00; x00] ++ rest) = Loop.
Proof.
  induction fuel as [|fuel IH]; [done|]. cbn [chunk_write_loop app].
  assert (chunk_write_step (Lz4.dec_write_chunk safe) (Chunk 0 0 dat (Lz4.Dec b 0))
    (x00 :: x00 :: x00 :: x00 :: rest) =
    Ret (inl (Chunk 0 0 dat (Lz4.Dec b 0), x00 :: x00 :: x00 :: x00 :: rest))) as ->; [|exact IH].
  unfold chunk_write_step. cbn [chunk_sz buf_off].
  rewrite (proj2 (Z.leb_le _ _)) by (pose proof (zlen_nonneg (x00 :: x00 :: x00 :: x00 :: rest)); lia).
  cbn [negb Z.eqb derived data]. unfold Lz4.dec_write_chunk. cbn [negb Z.eqb Lz4.d_block_sz].
  rewrite rd_ok; [|lia|lia|rewrite !zlen_cons; pose proof (zlen_nonneg rest); lia].
  reflexivity.
Qed.

Example lz4_decoder_hang_reached :
  (let! (st, ok) := chunk_write (Lz4.dec_write_chunk Some) (Chunk 4 0 (zeros 16) (Lz4.Dec (Fd []) 0))
     (LZ4_LEG_MAGIC ++ [x00; x00; x00; x00]) in Ret (chunk_sz st, Lz4.d_block_sz (derived st), ok))
  = Ret (0, 0, true).
Proof. reflexivity. Qed.

(** A size word larger than the buffer makes [chunk_out_stream::write] copy past
    its end as soon as a block arrives in more pieces than the buffer can hold. *)
Example lz4_decoder_overflow :
  chunk_writes (Lz4.dec_write_chunk Some) (Chunk 4 0 (zeros 16) (Lz4.Dec (Fd []) 0))
    [LZ4_LEG_MAGIC; le_enc 4 64; bs "sixteen bytes..."; bs "and one more"] = Fault.
Proof. reflexivity. Qed.

(** ** Zopfli streams *)

Section zopfli_theorems.
Context {B : Type} `{Sink B}.
Context (MASTER : Z) (crc32 : Z -> bytes -> Z)
  (deflate : bool -> bytes -> Z * bytes -> Z * bytes) (HM : 0 < MASTER).

(** [ZopfliDeflatePart] only appends to its output and fills the last byte. *)
Context (Happ : forall fin x bp pre last, exists bp' out,
  deflate fin x (bp, [last]) = (bp', out) /\ out <> [] /\
  deflate fin x (bp, pre ++ [last]) = (bp', pre ++ out)).

(** The reference encoder keeps all output in memory. *)
Definition zopfli_ref (parts : list (bool * bytes)) (st : Z * bytes) : Z * bytes :=
  fold_left (fun st p => deflate p.1 p.2 st) parts st.

Lemma split_last (l : bytes) : l <> [] -> exists x, l = sub l 0 (zlen l - 1) ++ [x] /\
  rd l (zlen l - 1) 1 = Ret [x].
Proof.
  intros Hne. destruct (exists_last Hne) as (k & x & ->). exists x.
  assert (zlen (k ++ [x]) = zlen k + 1) as Hz by (rewrite zlen_app; done).
  rewrite Hz. replace (zlen k + 1 - 1) with (zlen k) by lia.
  pose proof (zlen_nonneg k). rewrite sub_app_l, sub_full by lia. split; [done|].
  rewrite rd_ok by lia.
  rewrite sub_app_r, Z.sub_diag by lia. done.
Qed.

Notation wchunk := (Zopfli.write_chunk crc32 deflate).

(** [d] agrees with the reference encoder after [parts]. *)
Definition zopfli_agrees (d : Zopfli.enc B) (parts : list (bool * bytes)) : Prop :=
  sink_ok (Zopfli.z_base d) /\ Zopfli.z_out d <> [] /\
  (Zopfli.z_bp d, sink_bytes (Zopfli.z_base d) ++ Zopfli.z_out d) = zopfli_ref parts (0, Zopfli.gz_header) /\
  Zopfli.z_crc d = fold_left crc32 parts.*2 (crc32 0 []) /\
  u32 (Zopfli.z_in_total d) = u32 (zlen (concat parts.*2)).

(** One chunk: what was written plus what is kept is what the reference encoder
    would hold. *)
Lemma zopfli_chunk_ok n (d : Zopfli.enc B) parts src len fin :
  zopfli_agrees d parts -> 0 <= len <= zlen src ->
  exists d', wchunk n d src len fin = Ret (n, d', true) /\
    zopfli_agrees d' (parts ++ [(fin, sub src 0 len)]).
Proof using Happ.
  intros (Hok & Hout & Href & Hcrc & Htot) Hlen. unfold Zopfli.write_chunk.
  rewrite rd_ok by lia. cbn [obind]. set (x := sub src 0 len).
  destruct (exists_last Hout) as (pre & last & Eo). rewrite Eo in *.
  destruct (Happ fin x (Zopfli.z_bp d) pre last) as (bp' & out & E1 & Hne & E2).
  destruct (Happ fin x (Zopfli.z_bp d) (sink_bytes (Zopfli.z_base d) ++ pre) last) as (bp2 & out2 & E1' & _ & E3).
  rewrite E1 in E1'. injection E1' as <- <-. rewrite E2.
  assert (Hpo : pre ++ out <> []) by (intros [_ ?]%app_nil; done).
  destruct (split_last (pre ++ out) Hpo) as (y & Ey & Er). rewrite Er. cbn [obind].
  destruct (sink_law (Zopfli.z_base d) (sub (pre ++ out) 0 (zlen (pre ++ out) - 1)) Hok) as (b1 & Ew & Hok1 & Hb1).
  rewrite Ew. cbn [obind]. eexists. split; [done|]. repeat split; simpl.
  - done.
  - done.
  - unfold zopfli_ref in *. rewrite fold_left_app, <- Href. simpl.
    rewrite app_assoc, E3, Hb1, <- !app_assoc. by rewrite <- Ey.
  - by rewrite fmap_app, fold_left_app, Hcrc.
  - rewrite u32_idem, <- u32_add_l, Htot, u32_add_l, fmap_app, concat_app, zlen_app. simpl.
    rewrite app_nil_r. unfold x. by rewrite length_sub by lia.
Qed.

Lemma zopfli_chunk_local n (d : Zopfli.enc B) c src fin r : zlen c = n -> n <= zlen src -> sub src 0 n = c ->
  wchunk n d c n fin = Ret r -> wchunk n d src n fin = Ret r.
Proof.
  intros Hc Hn Hs. unfold Zopfli.write_chunk. pose proof (zlen_nonneg c).
  rewrite !rd_ok by lia. rewrite Hs. replace (sub c 0 n) with c; [done|].
  rewrite <- Hc. by rewrite sub_full.
Qed.

Lemma zopfli_feeds cs r : Forall (fun c => zlen c = MASTER) cs -> zlen r < MASTER ->
  forall (d : Zopfli.enc B) parts, zopfli_agrees d parts ->
  exists d', feeds wchunk MASTER MASTER d (concat cs ++ r) MASTER d' r /\
    zopfli_agrees d' (parts ++ map (pair false) cs).
Proof using Happ HM.
  intros Hcs Hr. induction Hcs as [|c cs Hc _ IH]; intros d parts Hd.
  - exists d. simpl. rewrite app_nil_r. split; [|done]. constructor; [lia|by left].
  - destruct (zopfli_chunk_ok MASTER d parts c MASTER false Hd) as (d1 & E & Hd1); [lia|].
    destruct (IH d1 _ Hd1) as (d2 & Hf & Hd2). exists d2. split.
    + simpl. rewrite <- app_assoc. econstructor; [lia|lia|done|exact E|exact Hf].
    + assert (sub c 0 MASTER = c) as Hsub by (rewrite <- Hc; apply sub_full).
      rewrite Hsub, <- app_assoc in Hd2. exact Hd2.
Qed.

(** The whole life of a [zopfli_encoder]. *)
Definition zopfli_run (b : B) (ws : list bytes) : outcome B :=
  let! (st, _) := chunk_writes wchunk (Zopfli.enc_new MASTER crc32 b) ws in
  Zopfli.enc_close crc32 deflate st.

(** The deflate calls made for an input cut into full master blocks and a
    remainder: only a non-empty remainder is marked final. *)
Definition zopfli_parts (cs : list bytes) (r : bytes) : list (bool * bytes) :=
  map (pair false) cs ++ (if zlen r =? 0 then [] else [(true, r)]).

Definition gzip_file (parts : list (bool * bytes)) (total : Z) : bytes :=
  (zopfli_ref parts (0, Zopfli.gz_header)).2 ++
  Zopfli.trailer (fold_left crc32 parts.*2 (crc32 0 [])) (u32 total).

(** The file a whole run writes, for every split of the input. *)
Lemma zopfli_run_spec (b : B) ws : sink_ok b -> sink_bytes b = [] ->
  exists o cs r, zopfli_run b ws = Ret o /\
    concat ws = concat cs ++ r /\ Forall (fun c => zlen c = MASTER) cs /\ zlen r < MASTER /\
    sink_bytes o = gzip_file (zopfli_parts cs r) (zlen (concat ws)).
Proof using Happ HM.
  intros Hok Hnil. destruct (cut_chunks MASTER (concat ws) HM) as (cs & r & Ecs & Hcs & Hr).
  assert (Hd0 : zopfli_agrees (Zopfli.Enc b Zopfli.gz_header (crc32 0 []) 0 0) []).
  { repeat split; simpl; try done. by rewrite Hnil. }
  destruct (zopfli_feeds cs r Hcs Hr _ _ Hd0) as (d & Hf & Hd). simpl in Hd.
  destruct (feed_writes wchunk zopfli_chunk_local MASTER ws (Zopfli.enc_new MASTER crc32 b)
    MASTER (Zopfli.Enc b Zopfli.gz_header (crc32 0 []) 0 0) [] MASTER d r) as (st & Ew & Hi).
  { split_and!; [done|done|done|unfold zlen; simpl; lia|by right|apply zlen_zeros; lia|done]. }
  { simpl. by rewrite Ecs. }
  assert (exists st', chunk_finalize wchunk st = Ret st' /\ zopfli_agrees (derived st') (zopfli_parts cs r))
    as (st' & Ef & Hd').
  { destruct Hi as (Hc & Hder & Ho & _ & _ & Hda & Hpre). unfold chunk_finalize, zopfli_parts.
    rewrite Ho, Hc, Hder. pose proof (zlen_nonneg r). destruct (Z.eqb_spec (zlen r) 0); cbn [negb].
    - exists st. rewrite app_nil_r. by subst d.
    - destruct (zopfli_chunk_ok MASTER d _ (data st) (zlen r) true Hd) as (d2 & E2 & Hd2); [lia|].
      rewrite E2. cbn [obind]. eexists. split; [done|]. simpl. by rewrite Hpre in Hd2. }
  unfold zopfli_run. rewrite Ew. cbn [obind]. unfold Zopfli.enc_close. rewrite Ef. cbn [obind].
  destruct Hd' as (Hok' & _ & Href & Hcrc & Htot).
  destruct (sink_law _ (Zopfli.z_out (derived st') ++
    Zopfli.trailer (Zopfli.z_crc (derived st')) (Zopfli.z_in_total (derived st'))) Hok') as (o & Eo & _ & Hbo).
  rewrite Eo. cbn [obind]. exists o, cs, r. split_and!; try done.
  rewrite Hbo, app_assoc. unfold gzip_file. rewrite <- Href, <- Hcrc. simpl. f_equal.
  unfold Zopfli.trailer. f_equal. rewrite <- (le_enc_mod 4 (Zopfli.z_in_total _) 32) by lia.
  fold (u32 (Zopfli.z_in_total (derived st'))). rewrite Htot. f_equal. f_equal. f_equal.
  rewrite Ecs. unfold zopfli_parts. rewrite fmap_app, concat_app. f_equal.
  - f_equal. change ((map (pair false) cs).*2) with (snd <$> (pair false <$> cs)).
    rewrite <- list_fmap_compose. apply list_fmap_id.
  - destruct (Z.eqb_spec (zlen r) 0); [by destruct r|]. simpl. by rewrite app_nil_r.
Qed.

(** Flushing all but the last output byte after every block is equivalent to
    keeping the whole output in memory: the file is the gzip header, the
    deflate parts of the master blocks of the input, the checksum and the
    input size, for every split of the input into writes. *)
Theorem zopfli_run_correct (b : B) ws : sink_ok b -> sink_bytes b = [] ->
  exists o cs r, zopfli_run b ws = Ret o /\
    concat ws = concat cs ++ r /\ Forall (fun c => zlen c = MASTER) cs /\ zlen r < MASTER /\
    sink_bytes o = gzip_file (zopfli_parts cs r) (zlen (concat ws)).
Proof using Happ HM. apply zopfli_run_spec. Qed.

(** When the input is empty or ends exactly on a master block, no deflate
    call is marked final, so the gzip member has no final deflate block. *)
Theorem zopfli_no_final_block (b : B) ws n : sink_ok b -> sink_bytes b = [] ->
  0 <= n -> zlen (concat ws) = n * MASTER ->
  exists o cs, zopfli_run b ws = Ret o /\ concat cs = concat ws /\
    sink_bytes o = gzip_file (map (pair false) cs) (zlen (concat ws)).
Proof using Happ HM.
  intros Hok Hnil Hn Hlen.
  destruct (zopfli_run_spec b ws Hok Hnil) as (o & cs & r & Er & Ecs & Hcs & Hr & Ho).
  assert (zlen (concat cs) = Z.of_nat (length cs) * MASTER) as Hcl.
  { clear -Hcs. induction Hcs as [|c cs Hc _ IH]; [done|].
    cbn [concat length]. rewrite zlen_app, IH, Hc. lia. }
  assert (zlen r = 0) as Hr0.
  { rewrite Ecs, zlen_app, Hcl in Hlen. pose proof (zlen_nonneg r).
    assert (n = Z.of_nat (length cs)) by nia. nia. }
  exists o, cs. split_and!; [done| |].
  - rewrite Ecs. destruct r; [by rewrite app_nil_r|done].
  - rewrite Ho. unfold zopfli_parts. rewrite Hr0. simpl. by rewrite app_nil_r.
Qed.
End zopfli_theorems.

(** A toy deflate that marks its last part, to instantiate the theorems. *)
Definition toy_deflate (fin : bool) (x : bytes) (st : Z * bytes) : Z * bytes :=
  (st.1, st.2 ++ (if fin then x01 else x00) :: x).

Lemma toy_deflate_appends fin x bp pre last : exists bp' out,
  toy_deflate fin x (bp, [last]) = (bp', out) /\ out <> [] /\
  toy_deflate fin x (bp, pre ++ [last]) = (bp', pre ++ out).
Proof. eexists _, _. split_and!; [done|done|]. unfold toy_deflate. simpl. by rewrite <- app_assoc. Qed.

Lemma zopfli_run_correct_witness :
  exists o cs r, zopfli_run 4 (fun c x => c + zlen x) toy_deflate (Fd []) [bs "abc"; bs "def"] = Ret o /\
    concat [bs "abc"; bs "def"] = concat cs ++ r /\ Forall (fun c => zlen c = 4) cs /\ zlen r < 4 /\
    fd_file o = gzip_file (fun c x => c + zlen x) toy_deflate (zopfli_parts cs r) 6.
Proof.
  exact (zopfli_run_correct (B := fd_stream) 4 (fun c x => c + zlen x) toy_deflate eq_refl
    toy_deflate_appends (Fd []) [bs "abc"; bs "def"] I eq_refl).
Defined.

Lemma zopfli_no_final_block_witness :
  exists o cs, zopfli_run 4 (fun c x => c + zlen x) toy_deflate (Fd []) [bs "abcd"] = Ret o /\
    concat cs = concat [bs "abcd"] /\
    fd_file o = gzip_file (fun c x => c + zlen x) toy_deflate (map (pair false) cs) 4.
Proof.
  refine (zopfli_no_final_block (B := fd_stream) 4 (fun c x => c + zlen x) toy_deflate eq_refl
    toy_deflate_appends (Fd []) [bs "abcd"] 1 I eq_refl _ eq_refl). lia.
Defined.

(** ** gzip members *)

Section gz_theorems.
Context {B zst : Type} `{Sink B}.
Context (inflate deflate : zst -> bytes -> Z -> Z -> zcall zst) (inflateReset : zst -> zst).

Notation gz_write := (Gz.write inflate deflate inflateReset).
Notation gz_close := (Gz.close inflate deflate inflateReset).

Lemma gz_copy_drops (st : Gz.gz_strm B zst) fuel buf : Gz.g_mode st = Gz.COPY ->
  gz_write (S fuel) st buf = Ret (st, true) /\ gz_close (S fuel) st = Ret (Gz.g_base st).
Proof.
  intros Hm. unfold Gz.write, Gz.close, Gz.do_write. rewrite Hm. cbn [Gz.do_loop]. rewrite Hm.
  split; [by destruct buf|done].
Qed.

(** When a gzip member ends and at least two bytes follow that are not the
    magic of another member, the decoder writes the member's output, and then
    discards those bytes and everything written later, always reporting
    success. *)
Theorem gz_trailing_data_discarded (st : Gz.gz_strm B zst) fuel buf r c1 c2 tl later :
  sink_ok (Gz.g_base st) -> Gz.g_mode st = Gz.DECODE -> buf <> [] ->
  inflate (Gz.g_strm st) buf CHUNK Gz.Z_NO_FLUSH = r -> zc_code r = Gz.Z_STREAM_END ->
  drop (Z.to_nat (zc_used r)) buf = c1 :: c2 :: tl -> ~ (c1 = x1f /\ c2 = x8b) ->
  exists st', gz_write (S fuel) st buf = Ret (st', true) /\
    sink_bytes (Gz.g_base st') = sink_bytes (Gz.g_base st) ++ zc_out r /\
    gz_write (S fuel) st' later = Ret (st', true) /\ gz_close (S fuel) st' = Ret (Gz.g_base st').
Proof.
  intros Hok Hm Hb Hr Hc Hd Hmag.
  destruct (sink_law (Gz.g_base st) (zc_out r) Hok) as (b & Ew & _ & Hbb).
  assert (exists st', gz_write (S fuel) st buf = Ret (st', true) /\ Gz.g_mode st' = Gz.COPY /\
    Gz.g_base st' = b) as (st' & E & Hm' & Hb').
  { unfold Gz.write. destruct buf as [|x buf]; [done|]. unfold Gz.do_write. rewrite Hm.
    cbn [Gz.do_loop]. rewrite Hm, Hr, Hc. simpl (_ =? Gz.Z_STREAM_ERROR). cbv iota.
    cbn [Gz.g_base]. rewrite Ew. cbn [obind negb Gz.g_base Gz.g_mode]. rewrite Hd, Z.eqb_refl.
    unfold Gz.after_member.
    destruct (Byte.eqb c1 x1f && Byte.eqb c2 x8b) eqn:Eq.
    - apply andb_true_iff in Eq as [E1%Byte.byte_dec_bl E2%Byte.byte_dec_bl]. by destruct Hmag.
    - eexists. split_and!; done. }
  exists st'. split; [done|]. rewrite Hb'. split; [done|]. rewrite <- Hb'. by apply gz_copy_drops.
Qed.
End gz_theorems.

(** A one-byte "member": everything else of the buffer is left over. *)
Definition toy_inflate (z : unit) (input : bytes) (_ _ : Z) : zcall unit :=
  ZCall tt 1 (take 1 input) Gz.Z_STREAM_END.

Lemma gz_trailing_data_discarded_witness :
  exists st', Gz.write toy_inflate toy_inflate id 1 (Gz.Strm (Fd []) Gz.DECODE tt CHUNK) (bs "Mxy") = Ret (st', true) /\
    fd_file (Gz.g_base st') = [] ++ bs "M" /\
    Gz.write toy_inflate toy_inflate id 1 st' (bs "more") = Ret (st', true) /\
    Gz.close toy_inflate toy_inflate id 1 st' = Ret (Gz.g_base st').
Proof.
  exact (gz_trailing_data_discarded (B := fd_stream) toy_inflate toy_inflate id
    (Gz.Strm (Fd []) Gz.DECODE tt CHUNK) 0 (bs "Mxy") _ x78 x79 [] (bs "more") I eq_refl
    ltac:(discriminate) eq_refl eq_refl eq_refl ltac:(by intros [? _])).
Defined.

(** ** The command line round trip *)

Lemma reads_concat fuel content : (length content <= fuel)%nat -> concat (Cli.reads fuel content) = content.
Proof.
  revert content; induction fuel as [|fuel IH]; intros content Hf.
  - destruct content; [done|simpl in Hf; lia].
  - destruct content as [|c content]; [done|]. cbn [Cli.reads concat].
    rewrite IH; [apply take_drop|]. rewrite length_drop. simpl in *. lia.
Qed.

Lemma strrchr_none s c : Forall (.≠ c) s -> Cli.strrchr s c = None.
Proof.
  induction 1 as [|x s Hx _ IH]; [done|]. cbn [Cli.strrchr]. rewrite IH.
  destruct (Byte.eqb x c) eqn:E; [|done]. by apply Byte.byte_dec_bl in E.
Qed.

Lemma strrchr_suffix s c ext : Forall (.≠ c) ext -> Cli.strrchr (s ++ c :: ext) c = Some (length s).
Proof.
  intros He. induction s as [|x s IH]; cbn [app Cli.strrchr length].
  - rewrite strrchr_none by done. by rewrite (Byte.byte_dec_lb eq_refl).
  - by rewrite IH.
Qed.

(** The extensions of the compressed formats: a dot and a dotless name. *)
Lemma fmt2ext_dot f : COMPRESSED f = true ->
  exists e, bs (fmt2ext f) = x2e :: e /\ Forall (.≠ x2e) e /\ e <> [].
Proof. destruct f; try done; intros _; eexists; split_and!; try reflexivity; repeat constructor; done. Qed.

Section cli_round_trip.
Context (encode : encoder_class -> list bytes -> outcome (bytes * bool))
  (decode : decoder_class -> list bytes -> outcome (bytes * bool)).
Context (method : string) (type : format_t).
Context (Hfmt : COMPRESSED (name2fmt method) = true) (Htype : COMPRESSED type = true).
Context (Hext : fmt2ext type = fmt2ext (name2fmt method)).

(** The stream pair inverts itself and its output is recognised as [type]. *)
Context (Hcodec : forall ws, exists out, encode (get_encoder (name2fmt method)) ws = Ret (out, true) /\
  out <> [] /\ check_fmt (take 4096 out) 0 (zlen (take 4096 out)) = Ret type /\
  forall ws', concat ws' = out -> decode (get_decoder type) ws' = Ret (concat ws, true)).

(** [compress] on a file followed by [decompress] of the file it produced
    restores the directory exactly: names, contents and the removal of the
    inputs agree. *)
Theorem compress_decompress_restores (w : Cli.world) infile content :
  infile <> Cli.STDIO -> Cli.files w !! infile = Some content ->
  Cli.files w !! (infile ++ bs (fmt2ext type)) = None ->
  exists w', Cli.compress encode method w infile None = Ret w' /\
    Cli.decompress decode w' (infile ++ bs (fmt2ext type)) None = Ret w.
Proof using Hcodec Hext Hfmt Htype.
  intros Hin Hc Hno. destruct (fmt2ext_dot type Htype) as (e & He & Hdot & Hne).
  set (target := infile ++ bs (fmt2ext type)) in *.
  assert (Ht : target <> Cli.STDIO).
  { unfold target. rewrite He. intros E. assert (length (infile ++ x2e :: e) = 1)%nat as El by (by rewrite E).
    rewrite length_app in El. simpl in El. destruct e; [done|simpl in El; lia]. }
  assert (Hti : target <> infile).
  { intros E. assert (length target = length infile) as El by congruence.
    unfold target in El. rewrite He, length_app in El. simpl in El. lia. }
  destruct (Hcodec (Cli.reads (length content) content)) as (out & Eenc & Hout & Hchk & Hdec).
  rewrite reads_concat in Hdec by lia.
  unfold Cli.compress, Cli.compress_target, Cli.put_output, Cli.read_input.
  rewrite (bool_decide_eq_false_2 (_ = UNKNOWN)) by (intros E; by rewrite E in Hfmt).
  rewrite (bool_decide_eq_false_2 (infile = _)) by done. rewrite <- Hext. fold target.
  rewrite (bool_decide_eq_false_2 (target = _)) by done. cbn [Cli.files Cli.stdin Cli.stdout].
  rewrite lookup_insert_ne, Hc by done. cbn [obind]. rewrite Eenc. cbn [obind negb].
  eexists. split; [done|]. unfold Cli.remove_input. cbn [Cli.files Cli.stdin Cli.stdout].
  unfold Cli.decompress, Cli.read_input. rewrite bool_decide_eq_false_2 by done. cbn [Cli.files].
  rewrite lookup_delete_ne, lookup_insert_eq by done. cbn [obind].
  destruct out as [|o1 out]; [done|]. remember (o1 :: out) as o eqn:Eo.
  assert (Cli.reads (length o) o = take 4096 o :: Cli.reads (length out) (drop 4096 o)) as ->
    by (by rewrite Eo).
  rewrite Hchk. cbn [obind]. rewrite Htype. cbn [negb].
  unfold Cli.decompress_target. rewrite bool_decide_eq_false_2 by done.
  unfold target at 1. rewrite He, strrchr_suffix by done.
  rewrite bool_decide_eq_true_2.
  2:{ unfold target. rewrite drop_app_length, He. done. }
  cbn [obind]. rewrite Hdec.
  2:{ cbn [concat]. rewrite reads_concat; [by rewrite take_drop|]. rewrite length_drop, Eo. simpl. lia. }
  assert (take (length infile) target = infile) as -> by apply take_app_length.
  cbn [obind negb]. f_equal.
  unfold Cli.put_output, Cli.remove_input. rewrite bool_decide_eq_false_2 by done. cbn [Cli.files Cli.stdin Cli.stdout].
  destruct w as [fs si so]. cbn [Cli.files Cli.stdin Cli.stdout] in *. f_equal.
  apply map_eq. intros k. destruct (decide (k = target)) as [->|Hk].
  - rewrite lookup_delete_eq. done.
  - rewrite lookup_delete_ne by done. destruct (decide (k = infile)) as [->|Hki].
    + by rewrite lookup_insert_eq.
    + by rewrite !lookup_insert_ne, lookup_delete_ne, !lookup_insert_ne by done.
Qed.
End cli_round_trip.

(** A codec that prefixes its input with the LZ4 legacy magic. *)
Definition toy_encode (_ : encoder_class) (ws : list bytes) : outcome (bytes * bool) :=
  Ret (LZ4_LEG_MAGIC ++ concat ws, true).
Definition toy_decode (_ : decoder_class) (ws : list bytes) : outcome (bytes * bool) :=
  Ret (drop 4 (concat ws), true).

Lemma compress_decompress_restores_witness :
  exists w', Cli.compress toy_encode "lz4_legacy" (Cli.World {[ bs "k" := bs "data" ]} [] []) (bs "k") None = Ret w' /\
    Cli.decompress toy_decode w' (bs "k.lz4") None = Ret (Cli.World {[ bs "k" := bs "data" ]} [] []).
Proof.
  refine (compress_decompress_restores toy_encode toy_decode "lz4_legacy" LZ4_LEGACY eq_refl eq_refl eq_refl _
    (Cli.World {[ bs "k" := bs "data" ]} [] []) (bs "k") (bs "data") _ eq_refl eq_refl); [|discriminate].
  intros ws. eexists. split; [reflexivity|]. split; [discriminate|]. split.
  - exact (check_fmt_lz4_legacy (take 4092 (concat ws))).
  - intros ws' Hw. unfold toy_decode. rewrite Hw. reflexivity.
Defined.
