(* ===== verification/BootHdr.v ===== *)
(** The Android boot image headers: [native/src/boot/bootimg.hpp] and the
    [dyn_img_hdr] methods of [bootimg.cpp].  A packed struct is the list of its
    members with their sizes; a header object is its dynamic class and the bytes
    copied from the image, and the virtual accessors are resolved by the class. *)

From S2P Require Import Prelude Base Files Format.

(** ** Packed structs *)

Module Fld.
(** Every member name of the boot image headers. *)
Inductive t :=
| magic | kernel_size | kernel_addr | ramdisk_size | ramdisk_addr | second_size | second_addr
| tags_addr | unknown | page_size | header_version | extra_size | os_version | name | cmdline | id
| extra_cmdline | recovery_dtbo_size | recovery_dtbo_offset | header_size | dtb_size | dtb_addr
| reserved | signature_size | vendor_ramdisk_table_size | vendor_ramdisk_table_entry_num
| vendor_ramdisk_table_entry_size | bootconfig_size.

#[export] Instance t_eq_dec : EqDecision t.
Proof. solve_decision. Defined.

Definition all : list t :=
  [magic; kernel_size; kernel_addr; ramdisk_size; ramdisk_addr; second_size; second_addr;
   tags_addr; unknown; page_size; header_version; extra_size; os_version; name; cmdline; id;
   extra_cmdline; recovery_dtbo_size; recovery_dtbo_offset; header_size; dtb_size; dtb_addr;
   reserved; signature_size; vendor_ramdisk_table_size; vendor_ramdisk_table_entry_num;
   vendor_ramdisk_table_entry_size; bootconfig_size].
End Fld.
Export (hints) Fld.

(** The names of one member (several for an anonymous union) and its size. *)
Definition layout := list (list Fld.t * Z).

Definition size_of (l : layout) : Z := foldr (fun m n => m.2 + n) 0 l.

Fixpoint offset_of (l : layout) (f : Fld.t) : option (Z * Z) :=
  match l with
  | [] => None
  | (names, sz) :: l =>
    if decide (f ∈ names) then Some (0, sz)
    else (fun p => (sz + p.1, p.2)) <$> offset_of l f
  end.

Definition BOOT_NAME_SIZE : Z := 16.
Definition BOOT_ID_SIZE : Z := 32.
Definition BOOT_ARGS_SIZE : Z := 512.
Definition BOOT_EXTRA_ARGS_SIZE : Z := 1024.
Definition VENDOR_BOOT_ARGS_SIZE : Z := 2048.

Definition boot_img_hdr_v0_common : layout :=
  [([Fld.magic], 8); ([Fld.kernel_size], 4); ([Fld.kernel_addr], 4); ([Fld.ramdisk_size], 4);
   ([Fld.ramdisk_addr], 4); ([Fld.second_size], 4); ([Fld.second_addr], 4)].
Definition boot_img_hdr_v0 : layout := boot_img_hdr_v0_common ++
  [([Fld.tags_addr], 4); ([Fld.unknown; Fld.page_size], 4); ([Fld.header_version; Fld.extra_size], 4);
   ([Fld.os_version], 4); ([Fld.name], BOOT_NAME_SIZE); ([Fld.cmdline], BOOT_ARGS_SIZE);
   ([Fld.id], BOOT_ID_SIZE); ([Fld.extra_cmdline], BOOT_EXTRA_ARGS_SIZE)].
Definition boot_img_hdr_v1 : layout := boot_img_hdr_v0 ++
  [([Fld.recovery_dtbo_size], 4); ([Fld.recovery_dtbo_offset], 8); ([Fld.header_size], 4)].
Definition boot_img_hdr_v2 : layout := boot_img_hdr_v1 ++ [([Fld.dtb_size], 4); ([Fld.dtb_addr], 8)].
Definition boot_img_hdr_pxa : layout := boot_img_hdr_v0_common ++
  [([Fld.extra_size], 4); ([Fld.unknown], 4); ([Fld.tags_addr], 4); ([Fld.page_size], 4);
   ([Fld.name], 24); ([Fld.cmdline], BOOT_ARGS_SIZE); ([Fld.id], BOOT_ID_SIZE);
   ([Fld.extra_cmdline], BOOT_EXTRA_ARGS_SIZE)].
Definition boot_img_hdr_v3 : layout :=
  [([Fld.magic], 8); ([Fld.kernel_size], 4); ([Fld.ramdisk_size], 4); ([Fld.os_version], 4);
   ([Fld.header_size], 4); ([Fld.reserved], 16); ([Fld.header_version], 4);
   ([Fld.cmdline], BOOT_ARGS_SIZE + BOOT_EXTRA_ARGS_SIZE)].
Definition boot_img_hdr_vnd_v3 : layout :=
  [([Fld.magic], 8); ([Fld.header_version], 4); ([Fld.page_size], 4); ([Fld.kernel_addr], 4);
   ([Fld.ramdisk_addr], 4); ([Fld.ramdisk_size], 4); ([Fld.cmdline], VENDOR_BOOT_ARGS_SIZE);
   ([Fld.tags_addr], 4); ([Fld.name], BOOT_NAME_SIZE); ([Fld.header_size], 4);
   ([Fld.dtb_size], 4); ([Fld.dtb_addr], 8)].
Definition boot_img_hdr_v4 : layout := boot_img_hdr_v3 ++ [([Fld.signature_size], 4)].
Definition boot_img_hdr_vnd_v4 : layout := boot_img_hdr_vnd_v3 ++
  [([Fld.vendor_ramdisk_table_size], 4); ([Fld.vendor_ramdisk_table_entry_num], 4);
   ([Fld.vendor_ramdisk_table_entry_size], 4); ([Fld.bootconfig_size], 4)].

(** ** The polymorphic header *)

Inductive hdr_class :=
| dyn_img_v0 | dyn_img_v1 | dyn_img_v2 | dyn_img_pxa | dyn_img_v3 | dyn_img_v4
| dyn_img_vnd_v3 | dyn_img_vnd_v4.

#[export] Instance hdr_class_eq_dec : EqDecision hdr_class.
Proof. solve_decision. Defined.

Definition all_classes : list hdr_class :=
  [dyn_img_v0; dyn_img_v1; dyn_img_v2; dyn_img_pxa; dyn_img_v3; dyn_img_v4; dyn_img_vnd_v3; dyn_img_vnd_v4].

Record dyn_img_hdr := Hdr { cls : hdr_class; raw : bytes }.

(** The struct copied by the constructor, [sizeof] of which is [hdr_size()]. *)
Definition struct_of (c : hdr_class) : layout :=
  match c with
  | dyn_img_v0 => boot_img_hdr_v0 | dyn_img_v1 => boot_img_hdr_v1 | dyn_img_v2 => boot_img_hdr_v2
  | dyn_img_pxa => boot_img_hdr_pxa | dyn_img_v3 => boot_img_hdr_v3 | dyn_img_v4 => boot_img_hdr_v4
  | dyn_img_vnd_v3 => boot_img_hdr_vnd_v3 | dyn_img_vnd_v4 => boot_img_hdr_vnd_v4
  end.
Definition hdr_size (c : hdr_class) : Z := size_of (struct_of c).

Definition is_vendor (c : hdr_class) : bool :=
  match c with dyn_img_vnd_v3 | dyn_img_vnd_v4 => true | _ => false end.

(** The accessors each class overrides ([impl_val] and [impl_var]), inherited
    ones included. *)
Definition impl_common : list Fld.t := [Fld.kernel_size; Fld.ramdisk_size; Fld.second_size].
Definition impl_v0 : list Fld.t := impl_common ++
  [Fld.page_size; Fld.extra_size; Fld.os_version; Fld.name; Fld.cmdline; Fld.id; Fld.extra_cmdline].
Definition impl_v1 : list Fld.t := filter (fun f => f <> Fld.extra_size) impl_v0 ++
  [Fld.header_version; Fld.recovery_dtbo_size; Fld.recovery_dtbo_offset; Fld.header_size].
Definition impl_v2 : list Fld.t := impl_v1 ++ [Fld.dtb_size].
Definition impl_pxa : list Fld.t := impl_common ++
  [Fld.extra_size; Fld.page_size; Fld.name; Fld.cmdline; Fld.id; Fld.extra_cmdline].
Definition impl_v3 : list Fld.t :=
  [Fld.kernel_size; Fld.ramdisk_size; Fld.os_version; Fld.header_size; Fld.header_version; Fld.cmdline;
   Fld.extra_cmdline].
Definition impl_v4 : list Fld.t := impl_v3 ++ [Fld.signature_size].
Definition impl_vnd_v3 : list Fld.t :=
  [Fld.header_version; Fld.page_size; Fld.ramdisk_size; Fld.cmdline; Fld.name; Fld.header_size; Fld.dtb_size;
   Fld.extra_cmdline].
Definition impl_vnd_v4 : list Fld.t := impl_vnd_v3 ++
  [Fld.vendor_ramdisk_table_size; Fld.vendor_ramdisk_table_entry_num; Fld.vendor_ramdisk_table_entry_size;
   Fld.bootconfig_size].

Definition impl (c : hdr_class) : list Fld.t :=
  match c with
  | dyn_img_v0 => impl_v0 | dyn_img_v1 => impl_v1 | dyn_img_v2 => impl_v2 | dyn_img_pxa => impl_pxa
  | dyn_img_v3 => impl_v3 | dyn_img_v4 => impl_v4
  | dyn_img_vnd_v3 => impl_vnd_v3 | dyn_img_vnd_v4 => impl_vnd_v4
  end.

(** The struct the union member used by the accessors points to. *)
Definition view_of (c : hdr_class) : layout :=
  match c with
  | dyn_img_v0 | dyn_img_v1 | dyn_img_v2 => boot_img_hdr_v2
  | dyn_img_pxa => boot_img_hdr_pxa
  | dyn_img_v3 | dyn_img_v4 => boot_img_hdr_v4
  | dyn_img_vnd_v3 | dyn_img_vnd_v4 => boot_img_hdr_vnd_v4
  end.

(** [extra_cmdline()] of the v3 classes points into [cmdline]. *)
Definition extra_inside (c : hdr_class) : bool :=
  match c with dyn_img_v3 | dyn_img_v4 | dyn_img_vnd_v3 | dyn_img_vnd_v4 => true | _ => false end.

(** Where an accessor points, with the number of bytes the code accesses
    through it; [None] for an accessor that is not overridden. *)
Definition region (c : hdr_class) (f : Fld.t) : option (Z * Z) :=
  if decide (f ∈ impl c) then
    match f with
    | Fld.name => (fun p => (p.1, BOOT_NAME_SIZE)) <$> offset_of (view_of c) f
    | Fld.cmdline => (fun p => (p.1, BOOT_ARGS_SIZE)) <$> offset_of (view_of c) f
    | Fld.extra_cmdline =>
      if extra_inside c then (fun p => (p.1 + BOOT_ARGS_SIZE, BOOT_EXTRA_ARGS_SIZE)) <$> offset_of (view_of c) Fld.cmdline
      else offset_of (view_of c) f
    | _ => offset_of (view_of c) f
    end
  else None.

(** [const] accessor of a number: 0 where it is not overridden, 4096 for the
    page size of the v3 and v4 classes. *)
Definition get (h : dyn_img_hdr) (f : Fld.t) : Z :=
  match region (cls h) f with
  | Some (off, w) => le_dec (sub (raw h) off w)
  | None => match f, cls h with
            | Fld.page_size, (dyn_img_v3 | dyn_img_v4) => 4096
            | _, _ => 0
            end
  end.

(** A store through the reference an accessor returns; the junk references
    [j32] and [j64] are reset by every call, so a store to them is lost. *)
Definition set (h : dyn_img_hdr) (f : Fld.t) (v : Z) : dyn_img_hdr :=
  match region (cls h) f with
  | Some (off, w) => Hdr (cls h) (upd (raw h) off (le_enc (Z.to_nat w) v))
  | None => h
  end.

Definition hdr_space (h : dyn_img_hdr) : outcome Z :=
  if is_vendor (cls h) then align_to (hdr_size (cls h)) (get h Fld.page_size)
  else Ret (get h Fld.page_size).

(** The constructor: [memcpy(raw, ptr, sizeof(hdr))]. *)
Definition new_hdr (c : hdr_class) (mem : bytes) (ptr : Z) : outcome dyn_img_hdr :=
  let! b := rd mem ptr (hdr_size c) in Ret (Hdr c b).
Definition clone (h : dyn_img_hdr) : dyn_img_hdr := Hdr (cls h) (raw h).

(** ** Text *)

(** [%s] of a pointer into the header: undefined without a NUL before the end
    of the allocation. *)
Definition cstr_at (m : bytes) (off : Z) : outcome bytes :=
  let s := drop (Z.to_nat off) m in
  if bool_decide (x00 ∈ s) then Ret (cstr s) else Fault.

(** [%.*s]: at most [n] bytes, stopping at a NUL. *)
Definition prec_str (m : bytes) (off n : Z) : outcome bytes :=
  let! s := rd m off n in Ret (cstr s).

Definition str_ptr (h : dyn_img_hdr) (f : Fld.t) : option Z := fst <$> region (cls h) f.

Definition name_text (h : dyn_img_hdr) : outcome (option bytes) :=
  match str_ptr h Fld.name with
  | None => Ret None
  | Some p => let! s := cstr_at (raw h) p in Ret (Some s)
  end.

Definition cmdline_text (h : dyn_img_hdr) : outcome bytes :=
  match str_ptr h Fld.cmdline, str_ptr h Fld.extra_cmdline with
  | Some p, Some q =>
    let! a := prec_str (raw h) p BOOT_ARGS_SIZE in
    let! b := prec_str (raw h) q BOOT_EXTRA_ARGS_SIZE in
    Ret (a ++ b)
  | _, _ => Fault
  end.

(** [%02d] of a non-negative number. *)
Definition print_02d (z : Z) : bytes :=
  if z <? 10 then bs "0" ++ print_dec z else print_dec z.

(** The packed version word: [A[31:25] B[24:18] C[17:11] (Y-2000)[10:4] M[3:0]]. *)
Definition version_text (os_ver : Z) : bytes :=
  let version := Z.shiftr os_ver 11 in
  print_dec (Z.land (Z.shiftr version 14) 0x7f) ++ bs "." ++
  print_dec (Z.land (Z.shiftr version 7) 0x7f) ++ bs "." ++ print_dec (Z.land version 0x7f).
Definition patch_text (os_ver : Z) : bytes :=
  let patch_level := Z.land os_ver 0x7ff in
  print_dec (Z.shiftr patch_level 4 + 2000) ++ bs "-" ++ print_02d (Z.land patch_level 0xf).

(** [print()]: the lines written to [stderr]. *)
Definition PADDING : nat := 15.
Definition print_line (label text : bytes) : bytes :=
  label ++ replicate (PADDING - length label) x20 ++ bs " [" ++ text ++ bs "]" ++ [x0a].
Definition hex_digit (z : Z) : byte := if z <? 10 then z2b (48 + z) else z2b (87 + z).
Definition print_hex (l : bytes) : bytes :=
  concat (map (fun b => [hex_digit (b2z b / 16); hex_digit (b2z b mod 16)]) l).

Definition print (h : dyn_img_hdr) : outcome bytes :=
  let ver := get h Fld.header_version in
  let vendor := is_vendor (cls h) in
  let num (c : bool) (label : bytes) (f : Fld.t) :=
    if c then print_line label (print_dec (get h f)) else [] in
  let sizes :=
    num true (bs "HEADER_VER") Fld.header_version ++
    num (negb vendor) (bs "KERNEL_SZ") Fld.kernel_size ++
    num true (bs "RAMDISK_SZ") Fld.ramdisk_size ++
    num (ver <? 3) (bs "SECOND_SZ") Fld.second_size ++
    num (ver =? 0) (bs "EXTRA_SZ") Fld.extra_size ++
    num ((ver =? 1) || (ver =? 2)) (bs "RECOV_DTBO_SZ") Fld.recovery_dtbo_size ++
    num ((ver =? 2) || vendor) (bs "DTB_SZ") Fld.dtb_size ++
    num ((ver =? 4) && vendor) (bs "BOOTCONFIG_SZ") Fld.bootconfig_size in
  let os_ver := get h Fld.os_version in
  let os := if negb (os_ver =? 0) then
      print_line (bs "OS_VERSION") (version_text os_ver) ++
      print_line (bs "OS_PATCH_LEVEL") (patch_text os_ver)
    else [] in
  let! nm := name_text h in
  let! cmd := cmdline_text h in
  let! checksum := match str_ptr h Fld.id with
    | None => Ret []
    | Some p => let! s := rd (raw h) p BOOT_ID_SIZE in Ret (print_line (bs "CHECKSUM") (print_hex s))
    end in
  Ret (sizes ++ os ++ num true (bs "PAGESIZE") Fld.page_size ++
       from_option (print_line (bs "NAME")) [] nm ++ print_line (bs "CMDLINE") cmd ++ checksum).

(** ** The header file *)

(** [dump_hdr_file]: the content of [HEADER_FILE]. *)
Definition dump_hdr_file (h : dyn_img_hdr) : outcome bytes :=
  let! nm := name_text h in
  let! cmd := cmdline_text h in
  let ver := get h Fld.os_version in
  Ret (from_option (fun s => bs "name=" ++ s ++ [x0a]) [] nm ++
       bs "cmdline=" ++ cmd ++ [x0a] ++
       (if negb (ver =? 0) then
          bs "os_version=" ++ version_text ver ++ [x0a] ++
          bs "os_patch_level=" ++ patch_text ver ++ [x0a]
        else [])).

(** One [%d] conversion of [sscanf]: white space, an optional sign, digits; a
    result outside [int] is undefined, no digit is a matching failure. *)
Fixpoint span_digits (s : bytes) : bytes * bytes :=
  match s with
  | [] => ([], [])
  | c :: t => if isdigit c then let p := span_digits t in (c :: p.1, p.2) else ([], s)
  end.
Definition digits_value (ds : bytes) : Z := fold_left (fun v c => v * 10 + (b2z c - 48)) ds 0.
Definition scan_int (s : bytes) : outcome (Z * bytes) :=
  let s := drop_while isspace s in
  let '(neg, s) := match s with
    | x2d :: t => (true, t)
    | x2b :: t => (false, t)
    | _ => (false, s)
    end in
  let '(ds, rest) := span_digits s in
  let v := if neg : bool then - digits_value ds else digits_value ds in
  match ds with
  | [] => Fault
  | _ => if (- 2 ^ 31 <=? v) && (v <? 2 ^ 31) then Ret (v, rest) else Fault
  end.
(** A literal character of the format. *)
Definition scan_char (c : byte) (s : bytes) : outcome bytes :=
  match s with
  | d :: t => if Byte.eqb c d then Ret t else Fault
  | [] => Fault
  end.

(** [os_version()] after ["%d.%d.%d"]: a conversion that fails leaves its
    variable uninitialised, and reading it afterwards is undefined. *)
Definition load_os_version (cur : Z) (value : bytes) : outcome Z :=
  let patch_level := Z.land cur 0x7ff in
  let! (a, s) := scan_int value in
  let! s := scan_char x2e s in
  let! (b, s) := scan_int s in
  let! s := scan_char x2e s in
  let! (c, _) := scan_int s in
  Ret (u32 (Z.lor (s32 (Z.shiftl (Z.lor (Z.lor (s32 (Z.shiftl a 14)) (s32 (Z.shiftl b 7))) c) 11)) patch_level)).
Definition load_os_patch_level (cur : Z) (value : bytes) : outcome Z :=
  let os_ver := Z.shiftr cur 11 in
  let! (y, s) := scan_int value in
  let! s := scan_char x2d s in
  let! (m, _) := scan_int s in
  let! _ := guard_fault (- 2 ^ 31 <=? y - 2000) in
  Ret (u32 (Z.lor (Z.lor (s32 (Z.shiftl os_ver 11)) (s32 (Z.shiftl (y - 2000) 4))) m)).

(** [load_hdr_file]: the callback for one property. *)
Definition load_name (h : dyn_img_hdr) (p : Z) (value : bytes) : outcome dyn_img_hdr :=
  let! r := wr (raw h) p (zeros 16) in
  let! r := wr r p (sub value 0 (if 15 <? zlen value then 15 else zlen value)) in
  Ret (Hdr (cls h) r).

Definition load_cmdline (h : dyn_img_hdr) (p q : Z) (value : bytes) : outcome dyn_img_hdr :=
  let! r := wr (raw h) p (zeros BOOT_ARGS_SIZE) in
  let! r := wr r q (zeros BOOT_EXTRA_ARGS_SIZE) in
  if BOOT_ARGS_SIZE <? zlen value then
    let! r := wr r p (sub value 0 BOOT_ARGS_SIZE) in
    let len := Z.min (zlen value - BOOT_ARGS_SIZE) BOOT_EXTRA_ARGS_SIZE in
    let! r := wr r q (sub value BOOT_ARGS_SIZE len) in
    Ret (Hdr (cls h) r)
  else
    let! r := wr r p value in
    Ret (Hdr (cls h) r).

Definition load_prop (h : dyn_img_hdr) (key value : bytes) : outcome dyn_img_hdr :=
  match str_ptr h Fld.name, memcmp_eq key (bs "name") with
  | Some p, true => load_name h p value
  | _, _ =>
    if memcmp_eq key (bs "cmdline") then
      match str_ptr h Fld.cmdline, str_ptr h Fld.extra_cmdline with
      | Some p, Some q => load_cmdline h p q value
      | _, _ => Fault
      end
    else if memcmp_eq key (bs "os_version") then
      let! v := load_os_version (get h Fld.os_version) value in Ret (set h Fld.os_version v)
    else if memcmp_eq key (bs "os_patch_level") then
      let! v := load_os_patch_level (get h Fld.os_version) value in Ret (set h Fld.os_version v)
    else Ret h
  end.

Definition load_hdr_file (h : dyn_img_hdr) (content : bytes) : outcome dyn_img_hdr :=
  parse_prop_file content (fun st key value => ((let! h := st in load_prop h key value), true)) (Ret h).

(** ** Lemmas: the layout *)

Definition hdr_ok (h : dyn_img_hdr) : Prop := zlen (raw h) = hdr_size (cls h).

Lemma Fld_all f : f ∈ Fld.all.
Proof. destruct f; set_solver. Qed.
Lemma all_classes_all c : c ∈ all_classes.
Proof. destruct c; set_solver. Qed.

(** Checked by evaluation: the regions lie inside the struct, and different
    accessors of a class never overlap. *)
Definition inside (c : hdr_class) (r : option (Z * Z)) : bool :=
  match r with Some (o, w) => (0 <=? o) && (0 <? w) && (o + w <=? hdr_size c) | None => true end.
Definition apart (r s : option (Z * Z)) : bool :=
  match r, s with Some (o, w), Some (p, v) => (o + w <=? p) || (p + v <=? o) | _, _ => true end.

Lemma regions_inside : forallb (fun c => forallb (fun f => inside c (region c f)) Fld.all) all_classes = true.
Proof. vm_compute. reflexivity. Qed.
Lemma regions_apart : forallb (fun c => forallb (fun f => forallb (fun g =>
  bool_decide (f = g) || apart (region c f) (region c g)) Fld.all) Fld.all) all_classes = true.
Proof. vm_compute. reflexivity. Qed.

Lemma region_inside c f o w : region c f = Some (o, w) -> 0 <= o /\ 0 < w /\ o + w <= hdr_size c.
Proof.
  intros E. pose proof (proj1 (forallb_forall _ _) regions_inside c) as H.
  specialize (H (proj1 (list_elem_of_In _ _) (all_classes_all c))).
  pose proof (proj1 (forallb_forall _ _) H f (proj1 (list_elem_of_In _ _) (Fld_all f))) as H'.
  cbv beta in H'. rewrite E in H'. simpl in H'. rewrite !andb_true_iff, !Z.leb_le, Z.ltb_lt in H'. lia.
Qed.

Lemma region_apart c f g o w p v : f <> g -> region c f = Some (o, w) -> region c g = Some (p, v) ->
  o + w <= p \/ p + v <= o.
Proof.
  intros Hne E1 E2. pose proof (proj1 (forallb_forall _ _) regions_apart c) as H.
  specialize (H (proj1 (list_elem_of_In _ _) (all_classes_all c))).
  pose proof (proj1 (forallb_forall _ _) H f (proj1 (list_elem_of_In _ _) (Fld_all f))) as H'.
  pose proof (proj1 (forallb_forall _ _) H' g (proj1 (list_elem_of_In _ _) (Fld_all g))) as H''.
  cbv beta in H''. rewrite E1, E2, bool_decide_eq_false_2 in H'' by done. simpl in H''.
  rewrite orb_true_iff, !Z.leb_le in H''. done.
Qed.

(** An update inside one region leaves the other regions alone. *)
Lemma sub_upd_apart m off v o n : 0 <= o -> 0 <= n -> 0 <= off -> off + zlen v <= zlen m ->
  o + n <= off \/ off + zlen v <= o -> sub (upd m off v) o n = sub m o n.
Proof. intros ???? [H|H]; [by apply sub_upd_before|by apply sub_upd_after]. Qed.

Lemma upd_region h f o w v x : hdr_ok h -> region (cls h) f = Some (o, w) -> o <= x -> x + zlen v <= o + w ->
  hdr_ok (Hdr (cls h) (upd (raw h) x v)) /\
  (forall g p n, f <> g -> region (cls h) g = Some (p, n) ->
    sub (upd (raw h) x v) p n = sub (raw h) p n) /\
  (forall g, f <> g -> get (Hdr (cls h) (upd (raw h) x v)) g = get h g).
Proof.
  intros Hok E Hx Hv. pose proof (region_inside _ _ _ _ E). unfold hdr_ok in *. simpl.
  assert (Hs : forall g p n, f <> g -> region (cls h) g = Some (p, n) ->
    sub (upd (raw h) x v) p n = sub (raw h) p n).
  { intros g p n Hne Eg. pose proof (region_inside _ _ _ _ Eg).
    destruct (region_apart _ _ _ _ _ _ _ Hne E Eg);
      apply sub_upd_apart; unfold zlen in *; lia. }
  split_and!; [|done|].
  - rewrite length_upd; unfold zlen in *; lia.
  - intros g Hne. unfold get. simpl. destruct (region (cls h) g) as [[p n]|] eqn:Eg; [|done].
    by rewrite (Hs g).
Qed.

Lemma get_range h f : 0 <= get h f.
Proof.
  unfold get. destruct (region _ _) as [[o w]|].
  - apply (le_dec_bound (sub (raw h) o w)).
  - destruct f; try lia; destruct (cls h); lia.
Qed.

Lemma get_bound h f o w : hdr_ok h -> region (cls h) f = Some (o, w) -> 0 <= get h f < 2 ^ (8 * w).
Proof.
  intros Hok E. pose proof (region_inside _ _ _ _ E). unfold get. rewrite E.
  pose proof (le_dec_bound (sub (raw h) o w)) as Hb.
  replace (8 * w) with (8 * Z.of_nat (length (sub (raw h) o w))); [done|].
  unfold hdr_ok in Hok. pose proof (length_sub (raw h) o w). unfold zlen in *. lia.
Qed.

Lemma set_cls h f v : cls (set h f v) = cls h.
Proof. unfold set. by destruct (region _ _) as [[]|]. Qed.

(** Setting a field that the class has: it reads back truncated to its width,
    and nothing else changes. *)
Lemma set_spec h f v o w : hdr_ok h -> region (cls h) f = Some (o, w) ->
  hdr_ok (set h f v) /\ get (set h f v) f = v mod 2 ^ (8 * w) /\
  (forall g, f <> g -> get (set h f v) g = get h g) /\
  (forall g p n, f <> g -> region (cls h) g = Some (p, n) -> sub (raw (set h f v)) p n = sub (raw h) p n).
Proof.
  intros Hok E. pose proof (region_inside _ _ _ _ E) as Hin.
  assert (Hl : zlen (le_enc (Z.to_nat w) v) = w) by (rewrite zlen_le_enc; lia).
  destruct (upd_region h f o w (le_enc (Z.to_nat w) v) o) as (H1 & H2 & H3); [done|done|lia|lia|].
  unfold set. rewrite E. split_and!; [done| |done|done].
  unfold get. simpl. rewrite E.
  pose proof (sub_upd_same (raw h) o (le_enc (Z.to_nat w) v)) as Hs. rewrite Hl in Hs.
  rewrite Hs by (unfold hdr_ok in Hok; lia).
  rewrite le_dec_enc. do 2 f_equal. lia.
Qed.

(** A field the class does not have reads as zero and swallows writes. *)
Lemma set_absent h f v : region (cls h) f = None -> set h f v = h.
Proof. unfold set. by intros ->. Qed.

(** ** Lemmas: packed versions *)

Lemma lor_shiftl_add a b k : 0 <= k -> 0 <= b < 2 ^ k -> Z.lor (Z.shiftl a k) b = a * 2 ^ k + b.
Proof.
  intros Hk Hb.
  assert (E : Z.land (Z.shiftl a k) b = 0).
  { apply Z.bits_inj'. intros n Hn. rewrite Z.land_spec, Z.bits_0.
    destruct (Z.ltb_spec n k).
    - by rewrite Z.shiftl_spec_low.
    - rewrite <- (Z.mod_small b (2 ^ k)) by done. rewrite Z.mod_pow2_bits_high by lia. by rewrite andb_false_r. }
  rewrite <- Z.lxor_lor, <- Z.add_nocarry_lxor by done. by rewrite Z.shiftl_mul_pow2.
Qed.

Lemma isdigit_z2b d : 0 <= d < 10 -> isdigit (z2b (48 + d)) = true /\ b2z (z2b (48 + d)) - 48 = d.
Proof.
  intros. unfold isdigit. rewrite b2z_z2b_small by lia.
  rewrite !(proj2 (Z.leb_le _ _)) by lia. split; [done|lia].
Qed.

Lemma dec_digits_value fuel z acc : 0 <= z < 10 ^ Z.of_nat fuel -> (0 < fuel)%nat ->
  exists c k, dec_digits fuel z acc = (c :: k) ++ acc /\ Forall (fun c => isdigit c = true) (c :: k) /\
    digits_value (c :: k) = z.
Proof.
  revert z acc; induction fuel as [|fuel IH]; intros z acc Hz Hf; [lia|]. cbn [dec_digits].
  pose proof (Z.mod_pos_bound z 10 ltac:(lia)) as Hd.
  pose proof (Z.div_mod z 10 ltac:(lia)) as Hdm.
  destruct (isdigit_z2b (z mod 10) Hd) as [Hi Hv].
  destruct (Z.eqb_spec (z / 10) 0) as [E0|E0].
  - exists (z2b (48 + z mod 10)), []. split_and!; [done|by constructor|].
    unfold digits_value. cbn [fold_left]. lia.
  - destruct fuel as [|fuel].
    { change (10 ^ Z.of_nat 1) with 10 in Hz. rewrite Z.div_small in E0; lia. }
    destruct (IH (z / 10) (z2b (48 + z mod 10) :: acc)) as (c & k & E & Hk & Hv'); [|lia|].
    { split; [apply Z.div_pos; lia|]. apply Z.div_lt_upper_bound; [lia|].
      rewrite Nat2Z.inj_succ, Z.pow_succ_r in Hz by lia. lia. }
    exists c, (k ++ [z2b (48 + z mod 10)]). rewrite E. split_and!.
    + simpl. by rewrite <- app_assoc.
    + rewrite app_comm_cons. apply Forall_app. split; [done|by constructor].
    + unfold digits_value in *. rewrite app_comm_cons, fold_left_app, Hv'. cbn [fold_left]. lia.
Qed.

Lemma span_digits_app k rest : Forall (fun c => isdigit c = true) k ->
  match rest with c :: _ => isdigit c = false | [] => True end -> span_digits (k ++ rest) = (k, rest).
Proof.
  intros Hk Hr. induction Hk as [|c k Hc _ IH]; simpl.
  - destruct rest; [done|]. simpl. by rewrite Hr.
  - by rewrite Hc, IH.
Qed.

Lemma digit_not_special c : isdigit c = true -> isspace c = false /\ c <> x2d /\ c <> x2b.
Proof. by destruct c. Qed.

Lemma scan_int_digits c k rest : Forall (fun c => isdigit c = true) (c :: k) ->
  0 <= digits_value (c :: k) < 2 ^ 31 ->
  match rest with c :: _ => isdigit c = false | [] => True end ->
  scan_int ((c :: k) ++ rest) = Ret (digits_value (c :: k), rest).
Proof.
  intros Hk Hv Hr. unfold scan_int. inversion Hk as [|? ? Hc _]; subst.
  destruct (digit_not_special c Hc) as (Hs & H1 & H2).
  cbn [app]. rewrite drop_while_head by done.
  pose proof (span_digits_app (c :: k) rest Hk Hr) as Es. cbn [app] in Es.
  assert (E : forall A (x y z : A), match c with x2d => x | x2b => y | _ => z end = z) by (intros; by destruct c).
  replace (match c with x2d => (true, k ++ rest) | x2b => (false, k ++ rest) | _ => (false, c :: k ++ rest) end)
    with (false, c :: k ++ rest) by (by destruct c).
  rewrite Es.
  rewrite (proj2 (Z.leb_le _ _)), (proj2 (Z.ltb_lt _ _)) by lia. done.
Qed.

Lemma scan_int_dec n rest : 0 <= n < 2 ^ 31 ->
  match rest with c :: _ => isdigit c = false | [] => True end ->
  scan_int (print_dec n ++ rest) = Ret (n, rest).
Proof.
  intros Hn Hr. unfold print_dec.
  destruct (dec_digits_value 20 n []) as (c & k & -> & Hk & <-); [simpl; lia|lia|].
  rewrite app_nil_r. by apply scan_int_digits.
Qed.

Lemma scan_int_02d n rest : 0 <= n < 2 ^ 31 ->
  match rest with c :: _ => isdigit c = false | [] => True end ->
  scan_int (print_02d n ++ rest) = Ret (n, rest).
Proof.
  intros Hn Hr. unfold print_02d. destruct (n <? 10); [|by apply scan_int_dec].
  unfold print_dec. destruct (dec_digits_value 20 n []) as (c & k & -> & Hk & <-); [simpl; lia|lia|].
  rewrite app_nil_r.
  change (bs "0" ++ c :: k) with (x30 :: c :: k).
  assert (digits_value (x30 :: c :: k) = digits_value (c :: k)) as <- by done.
  apply scan_int_digits; [by constructor|done|done].
Qed.

Lemma land_7f x : Z.land x 0x7f = x mod 2 ^ 7.
Proof. apply (Z.land_ones x 7). lia. Qed.
Lemma land_7ff x : Z.land x 0x7ff = x mod 2 ^ 11.
Proof. apply (Z.land_ones x 11). lia. Qed.
Lemma land_f x : Z.land x 0xf = x mod 2 ^ 4.
Proof. apply (Z.land_ones x 4). lia. Qed.

(** [s32] of a shifted number is a shifted number. *)
Lemma s32_shiftl v k : 0 <= k <= 32 -> exists v', s32 (Z.shiftl v k) = Z.shiftl v' k /\ v' * 2 ^ k mod 2 ^ 32 = v * 2 ^ k mod 2 ^ 32.
Proof.
  intros Hk. unfold s32. rewrite Z.shiftl_mul_pow2 by lia.
  set (q := (v * 2 ^ k + 2 ^ 31) / 2 ^ 32).
  assert (E : 2 ^ 32 = 2 ^ (32 - k) * 2 ^ k) by (rewrite <- Z.pow_add_r by lia; f_equal; lia).
  exists (v - q * 2 ^ (32 - k)). rewrite Z.shiftl_mul_pow2 by lia.
  assert (E2 : (v - q * 2 ^ (32 - k)) * 2 ^ k = v * 2 ^ k + (- q) * 2 ^ 32) by (rewrite E; ring).
  split.
  - rewrite E2. pose proof (Z.div_mod (v * 2 ^ k + 2 ^ 31) (2 ^ 32) ltac:(lia)). fold q in H. lia.
  - rewrite E2. by rewrite Z.mod_add by lia.
Qed.

Lemma u32_lor_shiftl v b k : 0 <= k <= 32 -> 0 <= b < 2 ^ k ->
  u32 (Z.lor (s32 (Z.shiftl v k)) b) = u32 (v * 2 ^ k + b).
Proof.
  intros Hk Hb. destruct (s32_shiftl v k Hk) as (v' & -> & E).
  rewrite lor_shiftl_add by lia. unfold u32.
  rewrite <- Zplus_mod_idemp_l, E, Zplus_mod_idemp_l. done.
Qed.

Lemma load_version_text w cur : 0 <= w < 2 ^ 32 ->
  load_os_version cur (version_text w) = Ret (u32 (w / 2 ^ 11 * 2 ^ 11 + cur mod 2 ^ 11)).
Proof.
  intros Hw. unfold load_os_version, version_text. change (bs ".") with [x2e]. rewrite !land_7f, land_7ff, !Z.shiftr_div_pow2 by lia.
  set (v := w / 2 ^ 11).
  assert (Hv : 0 <= v < 2 ^ 21) by (split; [apply Z.div_pos; lia|apply Z.div_lt_upper_bound; lia]).
  pose proof (Z.mod_pos_bound (v / 2 ^ 14) (2 ^ 7) ltac:(lia)).
  pose proof (Z.mod_pos_bound (v / 2 ^ 7) (2 ^ 7) ltac:(lia)).
  pose proof (Z.mod_pos_bound v (2 ^ 7) ltac:(lia)).
  pose proof (Z.mod_pos_bound cur (2 ^ 11) ltac:(lia)).
  rewrite scan_int_dec by (lia || done). cbn [obind scan_char app].
  change (Byte.eqb x2e _) with true. cbv iota. cbn [obind].
  rewrite scan_int_dec by (lia || done). cbn [obind scan_char].
  change (Byte.eqb x2e _) with true. cbv iota. cbn [obind].
  rewrite <- (app_nil_r (print_dec (v mod _))), scan_int_dec by (lia || done). cbn [obind]. f_equal.
  rewrite u32_lor_shiftl by lia. do 3 f_equal.
  rewrite !s32_id by (rewrite Z.shiftl_mul_pow2 by lia; lia).
  replace (Z.shiftl (v / 2 ^ 14 mod 2 ^ 7) 14) with (Z.shiftl (Z.shiftl (v / 2 ^ 14 mod 2 ^ 7) 7) 7)
    by (by rewrite Z.shiftl_shiftl by lia).
  rewrite <- Z.shiftl_lor, (lor_shiftl_add _ (v / 2 ^ 7 mod 2 ^ 7)), lor_shiftl_add by lia.
  pose proof (Z.div_mod v (2 ^ 7) ltac:(lia)).
  pose proof (Z.div_mod (v / 2 ^ 7) (2 ^ 7) ltac:(lia)) as Hdd. rewrite Z.div_div in Hdd by lia.
  rewrite (Z.mod_small (v / 2 ^ 14)) by
    (split; [apply Z.div_pos; lia|apply Z.div_lt_upper_bound; lia]).
  change (2 ^ 7 * 2 ^ 7) with (2 ^ 14) in Hdd. lia.
Qed.

Lemma load_patch_text w cur : 0 <= w < 2 ^ 32 -> 0 <= cur < 2 ^ 32 ->
  load_os_patch_level cur (patch_text w) = Ret (cur / 2 ^ 11 * 2 ^ 11 + w mod 2 ^ 11).
Proof.
  intros Hw Hc. unfold load_os_patch_level, patch_text. change (bs "-") with [x2d]. rewrite land_7ff, land_f, !Z.shiftr_div_pow2 by lia.
  set (p := w mod 2 ^ 11).
  assert (Hp : 0 <= p < 2 ^ 11) by (apply Z.mod_pos_bound; lia).
  assert (Hp4 : 0 <= p / 2 ^ 4 < 2 ^ 7) by (split; [apply Z.div_pos; lia|apply Z.div_lt_upper_bound; lia]).
  pose proof (Z.mod_pos_bound p (2 ^ 4) ltac:(lia)).
  rewrite scan_int_dec by (lia || done). cbn [obind scan_char app].
  change (Byte.eqb x2d _) with true. cbv iota. cbn [obind].
  rewrite <- (app_nil_r (print_02d _)), scan_int_02d by (lia || done). cbn [obind].
  replace (p / 2 ^ 4 + 2000 - 2000) with (p / 2 ^ 4) by lia.
  rewrite (proj2 (Z.leb_le _ _)) by lia. cbn [guard_fault obind]. f_equal.
  rewrite <- Z.lor_assoc, (s32_id (Z.shiftl (p / 2 ^ 4) 4)) by (rewrite Z.shiftl_mul_pow2 by lia; lia).
  rewrite lor_shiftl_add by lia. rewrite u32_lor_shiftl by lia.
  pose proof (Z.div_mod p (2 ^ 4) ltac:(lia)).
  pose proof (Z.div_mod cur (2 ^ 11) ltac:(lia)). pose proof (Z.mod_pos_bound cur (2 ^ 11) ltac:(lia)).
  assert (cur / 2 ^ 11 < 2 ^ 21) by (apply Z.div_lt_upper_bound; lia).
  assert (0 <= cur / 2 ^ 11) by (apply Z.div_pos; lia).
  rewrite u32_id by lia. lia.
Qed.

(** ** Lemmas: the header file *)

(** [r] is [h] except for the bytes of the fields [fs]. *)
Definition same_but (fs : list Fld.t) (h r : dyn_img_hdr) : Prop :=
  cls r = cls h /\ hdr_ok r /\
  forall g p n, g ∉ fs -> region (cls h) g = Some (p, n) -> sub (raw r) p n = sub (raw h) p n.

Lemma same_but_refl fs h : hdr_ok h -> same_but fs h h.
Proof. by repeat split. Qed.

Lemma same_but_trans fs1 fs2 h r s : same_but fs1 h r -> same_but fs2 r s -> same_but (fs1 ++ fs2) h s.
Proof.
  intros (E1 & _ & H1) (E2 & Hok & H2). split; [congruence|split; [done|]].
  intros g p n Hg Er. rewrite not_elem_of_app in Hg. destruct Hg.
  rewrite (H2 g), (H1 g); by rewrite ?E1.
Qed.

Lemma same_but_get fs h r g : same_but fs h r -> g ∉ fs -> get r g = get h g.
Proof.
  intros (E & _ & H) Hg. unfold get. rewrite E.
  destruct (region (cls h) g) as [[p n]|] eqn:Er; [|done]. by rewrite (H g).
Qed.

Lemma wr_region h f o w v x : hdr_ok h -> region (cls h) f = Some (o, w) -> o <= x -> x + zlen v <= o + w ->
  wr (raw h) x v = Ret (upd (raw h) x v) /\ same_but [f] h (Hdr (cls h) (upd (raw h) x v)).
Proof.
  intros Hok E Hx Hv. pose proof (region_inside _ _ _ _ E).
  destruct (upd_region h f o w v x) as (H1 & H2 & _); [done..|].
  split; [apply wr_ok; unfold hdr_ok in Hok; lia|].
  split; [done|split; [done|]]. intros g p n Hg. apply H2. intros ->. by apply Hg, list_elem_of_here.
Qed.

Lemma set_same_but h f v : hdr_ok h -> same_but [f] h (set h f v).
Proof.
  intros Hok. destruct (region (cls h) f) as [[o w]|] eqn:E.
  - destruct (set_spec h f v o w Hok E) as (H1 & _ & _ & H2). split; [apply set_cls|split; [done|]].
    intros g p n Hg. apply H2. intros ->. by apply Hg, list_elem_of_here.
  - rewrite set_absent by done. by apply same_but_refl.
Qed.

Lemma cmdline_regions c : exists p q,
  region c Fld.cmdline = Some (p, BOOT_ARGS_SIZE) /\ region c Fld.extra_cmdline = Some (q, BOOT_EXTRA_ARGS_SIZE).
Proof. destruct c; eexists _, _; by vm_compute. Qed.
Lemma name_region c p w : region c Fld.name = Some (p, w) -> w = 16.
Proof. destruct c; vm_compute; congruence. Qed.
Lemma os_region c p w : region c Fld.os_version = Some (p, w) -> w = 4.
Proof. destruct c; vm_compute; congruence. Qed.

(** The texts stored in a header. *)
Definition hdr_name (h : dyn_img_hdr) : option bytes :=
  (fun p => cstr (sub (raw h) p.1 p.2)) <$> region (cls h) Fld.name.
Definition hdr_cmdline (h : dyn_img_hdr) : bytes :=
  from_option (fun p => cstr (sub (raw h) p.1 p.2)) [] (region (cls h) Fld.cmdline) ++
  from_option (fun p => cstr (sub (raw h) p.1 p.2)) [] (region (cls h) Fld.extra_cmdline).

Lemma name_text_ok h : hdr_ok h ->
  (forall o w, region (cls h) Fld.name = Some (o, w) -> x00 ∈ sub (raw h) o w) ->
  name_text h = Ret (hdr_name h).
Proof.
  intros Hok Hn. unfold name_text, str_ptr, hdr_name.
  destruct (region (cls h) Fld.name) as [[o w]|]; [|done]. simpl.
  specialize (Hn _ _ eq_refl). unfold cstr_at, sub in *.
  rewrite bool_decide_eq_true_2.
  - simpl. do 2 f_equal. symmetry. by apply cstr_take.
  - rewrite list_elem_of_lookup in Hn |- *. destruct Hn as [i Hi]. exists i.
    apply lookup_take_Some in Hi. tauto.
Qed.

Lemma cmdline_text_ok h : hdr_ok h -> cmdline_text h = Ret (hdr_cmdline h) /\ zlen (hdr_cmdline h) <= 1536.
Proof.
  intros Hok. unfold cmdline_text, hdr_cmdline, str_ptr, prec_str.
  destruct (cmdline_regions (cls h)) as (p & q & Ep & Eq). rewrite Ep, Eq. simpl.
  pose proof (region_inside _ _ _ _ Ep). pose proof (region_inside _ _ _ _ Eq). unfold hdr_ok in Hok.
  rewrite !rd_ok by lia. simpl. split; [done|].
  pose proof (length_cstr (sub (raw h) p BOOT_ARGS_SIZE)).
  pose proof (length_cstr (sub (raw h) q BOOT_EXTRA_ARGS_SIZE)).
  pose proof (length_sub (raw h) p BOOT_ARGS_SIZE ltac:(lia) ltac:(lia) ltac:(lia)).
  pose proof (length_sub (raw h) q BOOT_EXTRA_ARGS_SIZE ltac:(lia) ltac:(lia) ltac:(lia)).
  rewrite zlen_app. unfold zlen, BOOT_ARGS_SIZE, BOOT_EXTRA_ARGS_SIZE in *. lia.
Qed.

(** Writing a string over [n] cleared bytes. *)
Lemma sub_overwrite m o n v : 0 <= o -> 0 <= n -> o + n <= zlen m -> zlen v <= n ->
  sub m o n = zeros n -> sub (upd m o v) o n = v ++ zeros (n - zlen v).
Proof.
  intros Ho Hn Hm Hv Hs. pose proof (zlen_nonneg v) as Hv0.
  replace n with (zlen v + (n - zlen v)) at 1 by lia.
  rewrite sub_split by lia. rewrite sub_upd_same by lia. f_equal.
  rewrite sub_upd_after by lia.
  rewrite <- (sub_sub _ o n (zlen v)) by lia. rewrite Hs. unfold sub.
  rewrite drop_zeros, take_ge by (rewrite length_zeros; lia). f_equal. lia.
Qed.

Lemma sub_clear m o n : 0 <= o -> 0 <= n -> o + n <= zlen m -> sub (upd m o (zeros n)) o n = zeros n.
Proof.
  intros. assert (Hz := zlen_zeros n ltac:(lia)).
  assert (Hs := sub_upd_same m o (zeros n) ltac:(lia) ltac:(lia)). by rewrite Hz in Hs.
Qed.

Lemma same_but_weaken fs gs h r : same_but fs h r -> fs ⊆ gs -> same_but gs h r.
Proof. intros (A & B & C) Hs. split; [done|split; [done|]]. intros g ?? Hg. apply C. set_solver. Qed.

(** Storing at the start of a region: what the region and the others hold. *)
Lemma put_region h f o w v : hdr_ok h -> region (cls h) f = Some (o, w) -> zlen v <= w ->
  exists r, wr (raw h) o v = Ret (raw r) /\ same_but [f] h r /\
    (sub (raw h) o w = zeros w -> sub (raw r) o w = v ++ zeros (w - zlen v)) /\
    (v = zeros w -> sub (raw r) o w = zeros w).
Proof.
  intros Hok E Hv. pose proof (region_inside _ _ _ _ E).
  destruct (wr_region h f o w v o) as [Ew Hs]; [done|done|lia|lia|].
  exists (Hdr (cls h) (upd (raw h) o v)). unfold hdr_ok in Hok. split_and!; [done|done| |].
  - intros. apply sub_overwrite; done || lia.
  - intros ->. apply sub_clear; lia.
Qed.

(** The same for two regions, one after the other. *)
Lemma put_regions h f g o w p n v1 v2 : hdr_ok h -> f <> g ->
  region (cls h) f = Some (o, w) -> region (cls h) g = Some (p, n) -> zlen v1 <= w -> zlen v2 <= n ->
  exists r, (let! r := wr (raw h) o v1 in wr r p v2) = Ret (raw r) /\ same_but [f; g] h r /\
    (sub (raw h) o w = zeros w -> sub (raw h) p n = zeros n ->
     sub (raw r) o w = v1 ++ zeros (w - zlen v1) /\ sub (raw r) p n = v2 ++ zeros (n - zlen v2)) /\
    (v1 = zeros w -> v2 = zeros n -> sub (raw r) o w = zeros w /\ sub (raw r) p n = zeros n).
Proof.
  intros Hok Hne Ef Eg H1 H2.
  destruct (put_region h f o w v1) as (r1 & -> & S1 & A1 & B1); [done..|]. cbn [obind].
  assert (Ec : cls r1 = cls h) by apply S1.
  destruct (put_region r1 g p n v2) as (r2 & -> & S2 & A2 & B2); [apply S1|by rewrite Ec|done|].
  assert (Ho : sub (raw r2) o w = sub (raw r1) o w) by (apply (proj2 (proj2 S2) f); [set_solver|by rewrite Ec]).
  assert (Hp : sub (raw r1) p n = sub (raw h) p n) by (apply (proj2 (proj2 S1) g); [set_solver|done]).
  exists r2. rewrite Ho. split_and!; [done|by apply (same_but_trans [f] [g] h r1 r2)| |].
  - intros Z1 Z2. rewrite A1, A2 by congruence. done.
  - intros Z1 Z2. rewrite B1, B2 by done. done.
Qed.

Lemma load_name_ok h p value : hdr_ok h -> region (cls h) Fld.name = Some (p, 16) ->
  Forall (.≠ x00) value -> zlen value <= 15 ->
  exists r, load_name h p value = Ret r /\ same_but [Fld.name] h r /\ hdr_name r = Some value.
Proof.
  intros Hok Ep Hv Hl. unfold load_name.
  rewrite (proj2 (Z.ltb_ge _ _)) by lia. rewrite sub_full.
  destruct (put_region h Fld.name p 16 (zeros 16)) as (r1 & -> & S1 & _ & Z1); [done|done|done|]. cbn [obind].
  assert (Ec : cls r1 = cls h) by apply S1.
  destruct (put_region r1 Fld.name p 16 value) as (r2 & -> & S2 & A2 & _); [apply S1|by rewrite Ec|lia|].
  cbn [obind]. assert (Ec2 : cls r2 = cls h) by (rewrite <- Ec; apply S2).
  exists r2. split_and!; [rewrite <- Ec2; by destruct r2| |].
  - eapply same_but_weaken; [by eapply same_but_trans|set_solver].
  - unfold hdr_name. rewrite Ec2, Ep. simpl. rewrite A2 by auto. by rewrite cstr_zeros.
Qed.

(** Both branches of the [cmdline] case write the two halves of the value. *)
Lemma load_cmdline_eq h p q value : hdr_ok h -> region (cls h) Fld.cmdline = Some (p, BOOT_ARGS_SIZE) ->
  region (cls h) Fld.extra_cmdline = Some (q, BOOT_EXTRA_ARGS_SIZE) -> zlen value <= 1536 ->
  load_cmdline h p q value =
    (let! r := (let! r := wr (raw h) p (zeros BOOT_ARGS_SIZE) in wr r q (zeros BOOT_EXTRA_ARGS_SIZE)) in
     let! r := (let! r := wr r p (sub value 0 BOOT_ARGS_SIZE) in wr r q (sub value BOOT_ARGS_SIZE BOOT_EXTRA_ARGS_SIZE)) in
     Ret (Hdr (cls h) r)).
Proof.
  intros Hok Ep Eq Hl. unfold load_cmdline.
  destruct (wr (raw h) p _) as [r0| | |] eqn:E0; try done. cbn [obind].
  destruct (wr r0 q _) as [r| | |] eqn:E1; try done. cbn [obind].
  destruct (Z.ltb_spec BOOT_ARGS_SIZE (zlen value)) as [Hb|Hb].
  - replace (sub value BOOT_ARGS_SIZE _) with (sub value BOOT_ARGS_SIZE BOOT_EXTRA_ARGS_SIZE).
    + by destruct (wr r p _).
    + unfold sub. rewrite Z.min_l by (unfold BOOT_ARGS_SIZE, BOOT_EXTRA_ARGS_SIZE in *; lia).
      unfold zlen, BOOT_ARGS_SIZE, BOOT_EXTRA_ARGS_SIZE in *.
      rewrite !(take_ge (drop _ value)); rewrite ?length_drop; done || lia.
  - replace (sub value BOOT_ARGS_SIZE _) with (@nil byte) by
      (unfold sub; rewrite drop_ge by (unfold zlen, BOOT_ARGS_SIZE in *; lia); by rewrite take_nil).
    replace (sub value 0 BOOT_ARGS_SIZE) with value by
      (unfold sub; change (Z.to_nat 0) with 0%nat; rewrite drop_0, take_ge;
       [done|unfold zlen, BOOT_ARGS_SIZE in *; lia]).
    destruct (wr r p value) as [s| | |] eqn:E; try done. cbn [obind].
    pose proof (region_inside _ _ _ _ Eq). unfold hdr_ok in Hok.
    assert (zlen s = hdr_size (cls h)) as Hs.
    { apply wr_Ret_inv in E0, E1, E. lia. }
    rewrite wr_ok by (rewrite ?zlen_nil; lia). cbn [obind]. do 2 f_equal.
    unfold upd. simpl. by rewrite Nat.add_0_r, take_drop.
Qed.

Lemma sub_halves (value : bytes) : zlen value <= 1536 ->
  sub value 0 BOOT_ARGS_SIZE ++ sub value BOOT_ARGS_SIZE BOOT_EXTRA_ARGS_SIZE = value.
Proof.
  unfold sub, zlen, BOOT_ARGS_SIZE, BOOT_EXTRA_ARGS_SIZE. intros.
  rewrite (take_ge (drop (Z.to_nat 512) value)) by (rewrite length_drop; lia). apply take_drop.
Qed.

Lemma load_cmdline_ok h p q value : hdr_ok h -> region (cls h) Fld.cmdline = Some (p, BOOT_ARGS_SIZE) ->
  region (cls h) Fld.extra_cmdline = Some (q, BOOT_EXTRA_ARGS_SIZE) ->
  Forall (.≠ x00) value -> zlen value <= 1536 ->
  exists r, load_cmdline h p q value = Ret r /\ same_but [Fld.cmdline; Fld.extra_cmdline] h r /\
    hdr_cmdline r = value.
Proof.
  intros Hok Ep Eq Hv Hl. rewrite (load_cmdline_eq h p q value Hok Ep Eq Hl).
  destruct (put_regions h Fld.cmdline Fld.extra_cmdline p BOOT_ARGS_SIZE q BOOT_EXTRA_ARGS_SIZE
    (zeros BOOT_ARGS_SIZE) (zeros BOOT_EXTRA_ARGS_SIZE)) as (r1 & -> & S1 & _ & Z1); [done..|]. cbn [obind].
  assert (Ec : cls r1 = cls h) by apply S1. destruct (Z1 eq_refl eq_refl) as [Za Zb].
  set (v1 := sub value 0 BOOT_ARGS_SIZE). set (v2 := sub value BOOT_ARGS_SIZE BOOT_EXTRA_ARGS_SIZE).
  assert (Ev : v1 ++ v2 = value) by (by apply sub_halves).
  rewrite <- Ev in Hv. apply Forall_app in Hv as [Hv1 Hv2].
  destruct (put_regions r1 Fld.cmdline Fld.extra_cmdline p BOOT_ARGS_SIZE q BOOT_EXTRA_ARGS_SIZE v1 v2)
    as (r2 & -> & S2 & A2 & _); [apply S1|done|by rewrite Ec|by rewrite Ec| | |].
  { unfold v1, sub, zlen, BOOT_ARGS_SIZE. rewrite length_take. lia. }
  { unfold v2, sub, zlen, BOOT_EXTRA_ARGS_SIZE. rewrite length_take. lia. }
  cbn [obind]. assert (Ec2 : cls r2 = cls h) by (rewrite <- Ec; apply S2).
  exists r2. split_and!; [rewrite <- Ec2; by destruct r2| |].
  - eapply same_but_weaken; [by eapply same_but_trans|set_solver].
  - unfold hdr_cmdline. rewrite Ec2, Ep, Eq. cbn [from_option fst snd].
    destruct (A2 Za Zb) as [-> ->]. by rewrite !cstr_zeros.
Qed.

(** Whatever the values are, loading a property touches its own fields only. *)
Lemma wr_same_but h f o w v r : wr (raw h) o v = Ret r -> region (cls h) f = Some (o, w) -> hdr_ok h ->
  zlen v <= w -> same_but [f] h (Hdr (cls h) r).
Proof.
  intros Ew E Hok Hv. destruct (wr_region h f o w v o Hok E) as [Ew' Hs]; [lia|lia|].
  rewrite Ew' in Ew. by injection Ew as <-.
Qed.

Lemma load_name_same h p value r : hdr_ok h -> region (cls h) Fld.name = Some (p, 16) ->
  load_name h p value = Ret r -> same_but [Fld.name] h r.
Proof.
  intros Hok Ep E. unfold load_name in E. apply bind_Ret_inv in E as (r1 & E1 & E).
  apply bind_Ret_inv in E as (r2 & E2 & [= <-]).
  pose proof (wr_same_but h _ _ _ _ _ E1 Ep Hok ltac:(rewrite zlen_zeros; lia)) as S1.
  assert (Hl : zlen (sub value 0 (if 15 <? zlen value then 15 else zlen value)) <= 16).
  { unfold sub, zlen. rewrite length_take, length_drop. destruct (Z.ltb_spec 15 (Z.of_nat (length value))); lia. }
  pose proof (wr_same_but (Hdr (cls h) r1) _ _ _ _ _ E2 Ep (proj1 (proj2 S1)) Hl) as S2.
  eapply same_but_weaken; [by eapply same_but_trans|set_solver].
Qed.

Lemma load_cmdline_same h p q value r : hdr_ok h -> region (cls h) Fld.cmdline = Some (p, BOOT_ARGS_SIZE) ->
  region (cls h) Fld.extra_cmdline = Some (q, BOOT_EXTRA_ARGS_SIZE) ->
  load_cmdline h p q value = Ret r -> same_but [Fld.cmdline; Fld.extra_cmdline] h r.
Proof.
  intros Hok Ep Eq E. unfold load_cmdline in E. apply bind_Ret_inv in E as (r1 & E1 & E).
  apply bind_Ret_inv in E as (r2 & E2 & E).
  pose proof (wr_same_but h _ _ _ _ _ E1 Ep Hok ltac:(rewrite zlen_zeros; unfold BOOT_ARGS_SIZE; lia)) as S1.
  pose proof (wr_same_but (Hdr (cls h) r1) _ _ _ _ _ E2 Eq (proj1 (proj2 S1))
    ltac:(rewrite zlen_zeros; unfold BOOT_EXTRA_ARGS_SIZE; lia)) as S2. cbn [cls] in S2.
  pose proof (same_but_trans _ _ _ _ _ S1 S2) as S12. pose proof (proj1 (proj2 S2)) as Hok2.
  destruct (Z.ltb_spec BOOT_ARGS_SIZE (zlen value)).
  - apply bind_Ret_inv in E as (r3 & E3 & E). apply bind_Ret_inv in E as (r4 & E4 & [= <-]).
    pose proof (wr_same_but (Hdr (cls h) r2) _ _ _ _ _ E3 Ep Hok2
      ltac:(unfold sub, zlen, BOOT_ARGS_SIZE; rewrite length_take; lia)) as S3.
    cbn [cls] in S3. pose proof (wr_same_but (Hdr (cls h) r3) _ _ _ _ _ E4 Eq (proj1 (proj2 S3))
      ltac:(unfold sub, zlen, BOOT_EXTRA_ARGS_SIZE; rewrite length_take; lia)) as S4.
    eapply same_but_weaken; [eapply same_but_trans; [exact S12|by eapply same_but_trans]|set_solver].
  - apply bind_Ret_inv in E as (r3 & E3 & [= <-]).
    pose proof (wr_same_but (Hdr (cls h) r2) _ _ _ _ _ E3 Ep Hok2 ltac:(lia)) as S3.
    eapply same_but_weaken; [by eapply same_but_trans|set_solver].
Qed.

(** The properties a header file holds. *)
Definition header_props (h : dyn_img_hdr) : list (bytes * bytes) :=
  from_option (fun n => [(bs "name", n)]) [] (hdr_name h) ++ [(bs "cmdline", hdr_cmdline h)] ++
  (if get h Fld.os_version =? 0 then []
   else [(bs "os_version", version_text (get h Fld.os_version));
         (bs "os_patch_level", patch_text (get h Fld.os_version))]).

(** Texts that fit on one line of the file and keep their last character. *)
Definition one_line (v : bytes) : Prop := Forall (.≠ x0a) v /\ last_ok v.
Definition name_ok (h : dyn_img_hdr) : Prop :=
  forall o w, region (cls h) Fld.name = Some (o, w) -> x00 ∈ sub (raw h) o w.
Definition texts_ok (h : dyn_img_hdr) : Prop :=
  name_ok h /\ one_line (hdr_cmdline h) /\ from_option one_line True (hdr_name h).

Lemma dump_props h : hdr_ok h -> name_ok h ->
  dump_hdr_file h = Ret (concat (map prop_line (header_props h))).
Proof.
  intros Hok Hn. unfold dump_hdr_file. rewrite name_text_ok by done.
  destruct (cmdline_text_ok h Hok) as [-> _]. cbn [obind]. f_equal. unfold header_props.
  rewrite !map_app, !concat_app. f_equal.
  - destruct (hdr_name h); [|done]. simpl. by rewrite app_nil_r.
  - change (bs "cmdline=") with (bs "cmdline" ++ [x3d]).
    cbn [map concat]. unfold prop_line at 1. cbn [fst snd].
    rewrite app_nil_r, <- !app_assoc. cbn [app]. do 2 f_equal. rewrite <- app_assoc. do 2 f_equal. cbn [app]. f_equal.
    destruct (_ =? 0); [done|]. cbn [negb map concat]. unfold prop_line. cbn [fst snd].
    rewrite app_nil_r, <- !app_assoc. cbn [app]. by rewrite <- !app_assoc.
Qed.

Definition plain (c : byte) : bool := isdigit c || Byte.eqb c x2e || Byte.eqb c x2d.

Lemma plain_ok c : plain c = true -> c <> x0a /\ c <> x00 /\ trim_char c = false.
Proof. by destruct c. Qed.

Lemma print_dec_plain n : 0 <= n < 2 ^ 31 -> Forall (fun c => plain c = true) (print_dec n).
Proof.
  intros. unfold print_dec. destruct (dec_digits_value 20 n []) as (c & k & -> & Hk & _); [simpl; lia|lia|].
  rewrite app_nil_r. eapply Forall_impl; [exact Hk|]. intros d Hd. unfold plain. by rewrite Hd.
Qed.

Lemma version_text_plain w : 0 <= w < 2 ^ 32 -> Forall (fun c => plain c = true) (version_text w).
Proof.
  intros. unfold version_text. rewrite !land_7f.
  assert (Hm : forall x, 0 <= x mod 2 ^ 7 < 2 ^ 31) by (intros x; pose proof (Z.mod_pos_bound x (2 ^ 7)); lia).
  change (bs ".") with [x2e].
  rewrite !Forall_app. split_and!; [by apply print_dec_plain|by constructor|by apply print_dec_plain|
    by constructor|by apply print_dec_plain].
Qed.

Lemma patch_text_plain w : 0 <= w < 2 ^ 32 -> Forall (fun c => plain c = true) (patch_text w).
Proof.
  intros. unfold patch_text. rewrite land_7ff, land_f, Z.shiftr_div_pow2 by lia.
  pose proof (Z.mod_pos_bound w (2 ^ 11) ltac:(lia)).
  pose proof (Z.mod_pos_bound (w mod 2 ^ 11) (2 ^ 4) ltac:(lia)).
  assert (0 <= w mod 2 ^ 11 / 2 ^ 4 < 2 ^ 11) by
    (split; [apply Z.div_pos; lia|apply Z.div_lt_upper_bound; lia]).
  change (bs "-") with [x2d].
  rewrite !Forall_app. split_and!; [apply print_dec_plain; lia|by constructor|].
  unfold print_02d. change (bs "0") with [x30].
  destruct (_ <? 10); [apply Forall_app; split; [by constructor|]|]; apply print_dec_plain; lia.
Qed.

Lemma plain_value v : Forall (fun c => plain c = true) v -> one_line v /\ Forall (.≠ x00) v.
Proof.
  intros H. split; [split|].
  - eapply Forall_impl; [exact H|]. intros c Hc. by apply plain_ok.
  - unfold last_ok. destruct (reverse v) as [|c r] eqn:E; [done|].
    rewrite <- (reverse_involutive v), E in H. rewrite Forall_reverse in H. inversion H; subst. by apply plain_ok.
  - eapply Forall_impl; [exact H|]. intros c Hc. by apply plain_ok.
Qed.

(** Keys made of letters and underscores. *)
Lemma prop_ok_key c k v : c <> x23 -> c <> x20 ->
  Forall (fun c => c <> x3d /\ c <> x0a /\ c <> x00) (c :: k) ->
  one_line v -> Forall (.≠ x00) v -> prop_ok (c :: k, v).
Proof.
  intros H1 H2 Hk [Hv Hl] Hn. split_and!; [by exists c, k|done| |done].
  cbn [snd]. apply Forall_and. done.
Qed.

Lemma header_props_ok h : hdr_ok h -> texts_ok h -> Forall prop_ok (header_props h).
Proof.
  intros Hok (_ & Hc & Hn). unfold header_props. rewrite !Forall_app. split_and!.
  - unfold hdr_name in *. destruct (region (cls h) Fld.name) as [[o w]|]; [|by constructor]. simpl in *.
    constructor; [|constructor]. apply (prop_ok_key x6e _ _); [done|done|by repeat constructor|done|apply cstr_no_nul].
  - constructor; [|constructor]. apply (prop_ok_key x63 _ _); [done|done|by repeat constructor|done|].
    unfold hdr_cmdline. destruct (cmdline_regions (cls h)) as (p & q & -> & ->). cbn [from_option].
    apply Forall_app. split; apply cstr_no_nul.
  - destruct (Z.eqb_spec (get h Fld.os_version) 0) as [|Hos]; [constructor|].
    assert (0 <= get h Fld.os_version < 2 ^ 32) as Hr.
    { destruct (region (cls h) Fld.os_version) as [[o w]|] eqn:E.
      - pose proof (os_region _ _ _ E); subst w. apply (get_bound h _ o 4 Hok E).
      - exfalso. apply Hos. unfold get. rewrite E. by destruct (cls h). }
    destruct (plain_value _ (version_text_plain _ Hr)) as [A B].
    destruct (plain_value _ (patch_text_plain _ Hr)) as [C D].
    constructor; [|constructor; [|constructor]].
    + apply (prop_ok_key x6f _ _); [done|done|by repeat constructor|done|done].
    + apply (prop_ok_key x6f _ _); [done|done|by repeat constructor|done|done].
Qed.

Lemma load_os_props h w : hdr_ok h -> is_Some (region (cls h) Fld.os_version) -> 0 <= w < 2 ^ 32 ->
  exists r, (let! h1 := load_prop h (bs "os_version") (version_text w) in
             load_prop h1 (bs "os_patch_level") (patch_text w)) = Ret r /\
    same_but [Fld.os_version] h r /\ get r Fld.os_version = w.
Proof.
  intros Hok [[o n] E] Hw. pose proof (os_region _ _ _ E); subst n. unfold load_prop.
  assert (Hstep : forall hh k v x, hdr_ok hh -> cls hh = cls h -> memcmp_eq k (bs "name") = false ->
    match str_ptr hh Fld.name, memcmp_eq k (bs "name") with
    | Some p, true => load_name hh p v | _, _ => x end = x).
  { intros hh k v x _ _ ->. by destruct (str_ptr hh Fld.name). }
  rewrite Hstep by done.
  change (memcmp_eq (bs "os_version") (bs "cmdline")) with false.
  change (memcmp_eq (bs "os_version") (bs "os_version")) with true. cbv iota.
  rewrite load_version_text by done. cbn [obind]. set (v1 := u32 _).
  destruct (set_spec h Fld.os_version v1 o 4 Hok E) as (Hok1 & Hg1 & _ & _).
  rewrite Hstep by (done || apply set_cls).
  change (memcmp_eq (bs "os_patch_level") (bs "cmdline")) with false.
  change (memcmp_eq (bs "os_patch_level") (bs "os_version")) with false.
  change (memcmp_eq (bs "os_patch_level") (bs "os_patch_level")) with true. cbv iota.
  assert (Hv1 : 0 <= v1 < 2 ^ 32) by apply u32_range.
  rewrite Hg1, Z.mod_small by done. rewrite load_patch_text by done. cbn [obind].
  assert (Ev : v1 / 2 ^ 11 * 2 ^ 11 + w mod 2 ^ 11 = w).
  { unfold v1. set (g := get h Fld.os_version). pose proof (Z.mod_pos_bound g (2 ^ 11) ltac:(lia)).
    pose proof (Z.div_mod w (2 ^ 11) ltac:(lia)). pose proof (Z.mod_pos_bound w (2 ^ 11) ltac:(lia)).
    rewrite u32_id by lia. rewrite Z.div_add_l, (Z.div_small (g mod _)) by lia. lia. }
  rewrite Ev. eexists. split; [done|].
  pose proof (set_same_but h Fld.os_version v1 Hok) as S1.
  pose proof (set_same_but (set h Fld.os_version v1) Fld.os_version w Hok1) as S2. split.
  - eapply same_but_weaken; [by eapply same_but_trans|set_solver].
  - destruct (set_spec (set h Fld.os_version v1) Fld.os_version w o 4 Hok1) as (_ & -> & _); [by rewrite set_cls|].
    by apply Z.mod_small.
Qed.

Lemma load_cmdline_prop h value : hdr_ok h -> Forall (.≠ x00) value -> zlen value <= 1536 ->
  exists r, load_prop h (bs "cmdline") value = Ret r /\
    same_but [Fld.cmdline; Fld.extra_cmdline] h r /\ hdr_cmdline r = value.
Proof.
  intros Hok Hv Hl. destruct (cmdline_regions (cls h)) as (p & q & Ep & Eq).
  destruct (load_cmdline_ok h p q value) as (r & Er & Hs & Hc); [done..|]. exists r. split; [|done].
  unfold load_prop, str_ptr. rewrite Ep, Eq. by destruct (region (cls h) Fld.name).
Qed.

Lemma same_but_name fs h r : same_but fs h r -> Fld.name ∉ fs -> hdr_name r = hdr_name h.
Proof.
  intros (Ec & _ & H) Hn. unfold hdr_name. rewrite Ec.
  destruct (region (cls h) Fld.name) as [[o w]|] eqn:E; [|done]. simpl. by rewrite (H Fld.name).
Qed.
Lemma same_but_cmdline fs h r : same_but fs h r -> Fld.cmdline ∉ fs -> Fld.extra_cmdline ∉ fs ->
  hdr_cmdline r = hdr_cmdline h.
Proof.
  intros (Ec & _ & H) Hn1 Hn2. unfold hdr_cmdline. rewrite Ec.
  destruct (cmdline_regions (cls h)) as (p & q & Ep & Eq). rewrite Ep, Eq. simpl.
  by rewrite (H Fld.cmdline), (H Fld.extra_cmdline).
Qed.

(** Loading the properties of [h] into [h']. *)
Lemma load_props h h' : hdr_ok h -> name_ok h -> hdr_ok h' -> cls h = cls h' ->
  exists r, fold_left (fun st kv => let! h := st in load_prop h kv.1 kv.2) (header_props h) (Ret h') = Ret r /\
    same_but [Fld.name; Fld.cmdline; Fld.extra_cmdline; Fld.os_version] h' r /\
    hdr_name r = hdr_name h /\ hdr_cmdline r = hdr_cmdline h /\
    (get h Fld.os_version <> 0 -> get r Fld.os_version = get h Fld.os_version).
Proof.
  intros Hok Hn Hok' Ec. unfold header_props. rewrite fold_left_app.
  assert (exists r1, fold_left (fun st kv => let! h := st in load_prop h kv.1 kv.2)
    (from_option (fun n => [(bs "name", n)]) [] (hdr_name h)) (Ret h') = Ret r1 /\
    same_but [Fld.name] h' r1 /\ hdr_name r1 = hdr_name h) as (r1 & -> & S1 & N1).
  { destruct (region (cls h) Fld.name) as [[o w]|] eqn:E.
    - pose proof (name_region _ _ _ E); subst w. specialize (Hn _ _ E).
      assert (hdr_name h = Some (cstr (sub (raw h) o 16))) as -> by (unfold hdr_name; by rewrite E).
      cbn [from_option fold_left fst snd obind].
      pose proof (length_cstr_lt _ Hn). pose proof (region_inside _ _ _ _ E). unfold hdr_ok in Hok.
      pose proof (length_sub (raw h) o 16 ltac:(lia) ltac:(lia) ltac:(lia)).
      destruct (load_name_ok h' o (cstr (sub (raw h) o 16))) as (r & Er & Hr & Nr);
        [done|by rewrite <- Ec|apply cstr_no_nul|unfold zlen in *; lia|].
      exists r. split; [|done]. unfold load_prop, str_ptr. rewrite <- Ec, E. exact Er.
    - assert (hdr_name h = None) as -> by (unfold hdr_name; by rewrite E).
      exists h'. split_and!; [done|by apply same_but_refl|]. unfold hdr_name. by rewrite <- Ec, E. }
  cbn [app fold_left fst snd obind].
  destruct (load_cmdline_prop r1 (hdr_cmdline h)) as (r2 & E2 & S2 & C2); [apply S1| |by apply cmdline_text_ok|].
  { unfold hdr_cmdline. destruct (cmdline_regions (cls h)) as (p & q & -> & ->). simpl.
    apply Forall_app. split; apply cstr_no_nul. }
  rewrite E2. pose proof (same_but_trans _ _ _ _ _ S1 S2) as S12. cbn [app] in S12.
  assert (N2 : hdr_name r2 = hdr_name h) by (rewrite <- N1; eapply same_but_name; [exact S2|set_solver]).
  destruct (Z.eqb_spec (get h Fld.os_version) 0) as [E0|E0]; cbn [fold_left fst snd obind].
  { exists r2. split_and!; [done|eapply same_but_weaken; [exact S12|set_solver]|done|done|done]. }
  destruct (region (cls h) Fld.os_version) as [[o w]|] eqn:E.
  2:{ exfalso. apply E0. unfold get. rewrite E. by destruct (cls h). }
  pose proof (os_region _ _ _ E); subst w.
  destruct (load_os_props r2 (get h Fld.os_version)) as (r3 & E3 & S3 & G3);
    [apply S12|rewrite (proj1 S12), <- Ec, E; by eexists|by apply (get_bound h _ o 4 Hok E)|].
  exists r3. rewrite E3. split_and!; [done| | | |done].
  - eapply same_but_weaken; [by eapply same_but_trans|set_solver].
  - rewrite <- N2. eapply same_but_name; [exact S3|set_solver].
  - rewrite <- C2. eapply same_but_cmdline; [exact S3|set_solver..].
Qed.

(** ** The header theorems *)

(** C40: the accessors of every header class address disjoint parts of its
    struct.  Assigning to a field the class has keeps the size of the header, is read
    back truncated to the width of the field and changes no other field;
    assigning to a field the class does not have changes nothing. *)
Theorem header_fields_independent h f v : hdr_ok h ->
  hdr_ok (set h f v) /\ cls (set h f v) = cls h /\
  (forall g, g <> f -> get (set h f v) g = get h g) /\
  match region (cls h) f with
  | Some (o, w) => get (set h f v) f = v mod 2 ^ (8 * w) /\ 0 <= o /\ o + w <= hdr_size (cls h)
  | None => set h f v = h
  end.
Proof.
  intros Hok. split_and!; [|apply set_cls|..].
  - by apply (set_same_but h f v Hok).
  - intros g Hne. eapply same_but_get; [by apply set_same_but|]. by intros ->%list_elem_of_singleton.
  - destruct (region (cls h) f) as [[o w]|] eqn:E; [|by apply set_absent].
    destruct (set_spec h f v o w Hok E) as (_ & -> & _). pose proof (region_inside _ _ _ _ E). lia.
Qed.

Lemma header_fields_independent_witness :
  hdr_ok (Hdr dyn_img_v2 (zeros 1660)) /\
  get (set (Hdr dyn_img_v2 (zeros 1660)) Fld.recovery_dtbo_offset (2 ^ 40)) Fld.header_size = 0.
Proof.
  assert (H : hdr_ok (Hdr dyn_img_v2 (zeros 1660))) by (vm_compute; reflexivity).
  split; [exact H|].
  destruct (header_fields_independent (Hdr dyn_img_v2 (zeros 1660)) Fld.recovery_dtbo_offset (2 ^ 40) H)
    as (_ & _ & Hg & _).
  rewrite (Hg Fld.header_size ltac:(discriminate)). vm_compute. reflexivity.
Defined.

(** The header file round trip.  Loading the file dumped from one header into
    another header of the same class restores the product name, the kernel command
    line and, when the image has one, the packed OS version and patch level; no
    other field changes. *)
Theorem header_file_round_trip h h' : hdr_ok h -> texts_ok h -> hdr_ok h' -> cls h = cls h' ->
  exists f r, dump_hdr_file h = Ret f /\ load_hdr_file h' f = Ret r /\
    cls r = cls h' /\ hdr_ok r /\
    hdr_name r = hdr_name h /\ hdr_cmdline r = hdr_cmdline h /\
    (get h Fld.os_version <> 0 -> get r Fld.os_version = get h Fld.os_version) /\
    (forall g, g ∉ [Fld.name; Fld.cmdline; Fld.extra_cmdline; Fld.os_version] -> get r g = get h' g).
Proof.
  intros Hok Ht Hok' Ec. destruct (load_props h h') as (r & Er & Hs & Hn & Hc & Ho); [done|apply Ht|done|done|].
  exists (concat (map prop_line (header_props h))), r.
  split; [apply dump_props; [done|apply Ht]|]. split_and!; [|apply Hs|apply Hs|done|done|done|].
  - unfold load_hdr_file. rewrite parse_prop_file_lines; [exact Er|done|by apply header_props_ok].
  - intros g Hg. by eapply same_but_get.
Qed.

Lemma header_file_round_trip_witness :
  let h := set (Hdr dyn_img_v2 (upd (zeros 1660) 64 (bs "quiet androidboot.mode=normal"))) Fld.os_version 369099094 in
  exists f r, dump_hdr_file h = Ret f /\ load_hdr_file (Hdr dyn_img_v2 (zeros 1660)) f = Ret r /\
    hdr_cmdline r = bs "quiet androidboot.mode=normal" /\ get r Fld.os_version = 369099094.
Proof.
  intros h.
  assert (Hok : hdr_ok h) by (vm_compute; reflexivity).
  assert (Ec : hdr_cmdline h = bs "quiet androidboot.mode=normal") by (vm_compute; reflexivity).
  assert (Ht : texts_ok h).
  { split; [|split].
    - intros o w E. apply (bool_decide_eq_true_1 (x00 ∈ sub (raw h) o w)).
      assert (E' : region (cls h) Fld.name = Some (48, 16)) by (vm_compute; reflexivity).
      rewrite E' in E. injection E as <- <-. vm_compute. reflexivity.
    - rewrite Ec. split; [|vm_compute; reflexivity].
      apply (bool_decide_eq_true_1 (Forall (.≠ x0a) (bs "quiet androidboot.mode=normal"))). vm_compute. reflexivity.
    - assert (E' : hdr_name h = Some []) by (vm_compute; reflexivity). rewrite E'. split; [constructor|exact I]. }
  destruct (header_file_round_trip h (Hdr dyn_img_v2 (zeros 1660)) Hok Ht ltac:(vm_compute; reflexivity) eq_refl)
    as (f & r & Ef & Er & _ & _ & _ & Hc & Ho & _).
  exists f, r. split; [exact Ef|]. split; [exact Er|]. split; [by rewrite Hc, Ec|].
  rewrite Ho; vm_compute; congruence.
Defined.

(** A vendor header has 2048 bytes of command line, of which the header file
    carries the first 1536: the last 512 are neither dumped nor loaded. *)
Example vendor_cmdline_truncated :
  let h := Hdr dyn_img_vnd_v3 (upd (zeros 2112) 28 (replicate 2048 x61)) in
  hdr_cmdline h = replicate 1536 x61.
Proof. vm_compute. reflexivity. Qed.
