(* ===== verification/BootImg.v ===== *)
(** Parsing a boot image: [boot_img] of [native/src/boot/bootimg.cpp].  The image
    is mapped at address 0; the mapping is the file followed by zeros up to the
    end of its last page, and an access outside it is undefined.  A pointer into
    the mapping is its offset. *)

From S2P Require Import Prelude Base Files Format Streams Compress BootHdr.

(** ** Packed helper structs *)

Definition sizeof_mtk_hdr : Z := 4 + 4 + 32 + 472.
Definition sizeof_dhtb_hdr : Z := 8 + 40 + 4 + 460.
Definition sizeof_blob_hdr : Z := 20 + 4 + 4 + 16 + 4 + 4 + 4 + 4 + 4 * 7 + 4 + 4 + 4 + 4.
Definition sizeof_AvbFooter : Z := 4 + 4 + 4 + 8 + 8 + 8 + 28.
(** offsets inside them *)
Definition mtk_size_off : Z := 4.
Definition mtk_name_off : Z := 8.
Definition dhtb_checksum_off : Z := 8.
Definition dhtb_size_off : Z := 48.
Definition blob_size_off : Z := 20 + 4 + 4 + 16 + 4 + 4 + 4 + 4 + 4 * 7 + 4 + 4.
Definition footer_image_size_off : Z := 12.
Definition footer_vbmeta_offset_off : Z := 20.
Definition footer_vbmeta_size_off : Z := 28.
Definition vbmeta_flags_off : Z := 4 + 4 + 4 + 8 + 8 + 4 + 8 * 11.
Definition zimage_start_off : Z := 40.
Definition zimage_end_off : Z := 44.

(** [vendor_ramdisk_table_entry_v4]. *)
Definition sizeof_table_entry : Z := 4 + 4 + 4 + 32 + 4 * 16.
Definition te_size_off : Z := 0.
Definition te_offset_off : Z := 4.
Definition te_type_off : Z := 8.
Definition te_name_off : Z := 12.

Definition rd_le (mem : bytes) (addr w : Z) : outcome Z := let! b := rd mem addr w in Ret (le_dec b).
Definition rd_be (mem : bytes) (addr w : Z) : outcome Z := let! b := rd mem addr w in Ret (be_dec b).

(** ** Flags and state *)

Inductive flag :=
| MTK_KERNEL | MTK_RAMDISK | CHROMEOS_FLAG | DHTB_FLAG | SEANDROID_FLAG | LG_BUMP_FLAG | SHA256_FLAG
| BLOB_FLAG | NOOKHD_FLAG | ACCLAIM_FLAG | AMONET_FLAG | AVB1_SIGNED_FLAG | AVB_FLAG | ZIMAGE_KERNEL.
#[export] Instance flag_eq_dec : EqDecision flag.
Proof. solve_decision. Defined.

(** The flags that are set. *)
Definition flags_t := list flag.
Definition on (fl : flags_t) (f : flag) : bool := bool_decide (f ∈ fl).

(** Pointers to the blocks, in the order of the image. *)
Record blocks_t := Blocks {
  kernel : Z; ramdisk : Z; second : Z; extra : Z; recovery_dtbo : Z; dtb : Z;
  signature : Z; vendor_ramdisk_table : Z; bootconfig : Z }.

(** A [byte_view] into the mapping: address and size. *)
Definition view : Type := Z * Z.

Record boot_img := Boot {
  map_data : bytes;
  hdr : dyn_img_hdr;
  flags : flags_t;
  k_fmt : format_t; r_fmt : format_t; e_fmt : format_t;
  payload : view; tail : view;
  k_hdr : option Z; r_hdr : option Z;
  z_hdr : option Z; z_hdr_sz : Z; z_tail : view;
  avb_footer : option Z; vbmeta : option Z;
  blocks : blocks_t;
  kernel_dtb : view }.

(** ** Device trees in the kernel *)

Definition sizeof_fdt_header : Z := 40.
Definition FDT_BEGIN_NODE : Z := 1.

(** The checks on a candidate at [curr] with [left] bytes up to the end. *)
Definition fdt_valid (mem : bytes) (curr left : Z) : outcome bool :=
  let! totalsize := rd_be mem (curr + 4) 4 in
  if left <? totalsize then Ret false else
  let! off_dt_struct := rd_be mem (curr + 8) 4 in
  if left <? off_dt_struct then Ret false else
  let! tag := rd_be mem (curr + off_dt_struct) 4 in
  Ret (tag =? FDT_BEGIN_NODE).

(** [p] is [curr - buf]; every round moves it by at least [sizeof(fdt_header)]. *)
Fixpoint find_dtb_loop (fuel : nat) (mem : bytes) (buf sz p : Z) : outcome Z :=
  match fuel with
  | O => Loop
  | S fuel =>
    if p <? sz then
      let! hay := rd mem (buf + p) (sz - p) in
      match memmem hay DTB_MAGIC with
      | None => Ret (-1)
      | Some k =>
        let curr := p + Z.of_nat k in
        let! ok := fdt_valid mem (buf + curr) (sz - curr) in
        if ok : bool then Ret (s32 curr) else find_dtb_loop fuel mem buf sz (curr + sizeof_fdt_header)
      end
    else Ret (-1)
  end.
Definition find_dtb_offset (mem : bytes) (buf sz : Z) : outcome Z :=
  find_dtb_loop (S (Z.to_nat sz)) mem buf sz 0.

(** ** LZ4_LG detection *)

(** [off] is a [uint32_t]: [off + block_sz] wraps, [off + sizeof(block_sz)] does not. *)
Fixpoint lg_loop (fuel : nat) (mem : bytes) (buf sz off : Z) : outcome format_t :=
  match fuel with
  | O => Loop
  | S fuel =>
    if off + 4 <=? sz then
      let! block_sz := rd_le mem (buf + off) 4 in
      let off := u32 (off + 4) in
      if sz <? u32 (off + block_sz) then Ret LZ4_LG
      else lg_loop fuel mem buf sz (u32 (off + block_sz))
    else Ret LZ4_LEGACY
  end.
Definition check_fmt_lg (fuel : nat) (mem : bytes) (buf sz : Z) : outcome format_t :=
  let! fmt := check_fmt mem buf sz in
  match fmt with
  | LZ4_LEGACY => lg_loop fuel mem buf sz 4
  | _ => Ret fmt
  end.

(** ** Finding the header *)

Definition off_header_version : Z := 40.
Definition off_page_size : Z := 36.
Definition off_v0_name : Z := 48.
Definition off_v0_cmdline : Z := 64.
Definition off_vnd_header_version : Z := 8.

(** The lambda [make_hdr]: [None] is the null pointer. *)
Definition make_hdr (mem : bytes) (ptr : Z) : outcome (option dyn_img_hdr) :=
  let! m := buffer_match mem ptr BOOT_MAGIC in
  if negb m then Ret None else
  let! v := rd_le mem (ptr + off_header_version) 4 in
  let c := if v =? 1 then dyn_img_v1 else if v =? 2 then dyn_img_v2 else if v =? 3 then dyn_img_v3
           else if v =? 4 then dyn_img_v4 else dyn_img_v0 in
  let! h := new_hdr c mem ptr in Ret (Some h).

Definition buffer_contain (mem : bytes) (addr sz : Z) (s : bytes) : outcome bool :=
  let! hay := rd mem addr sz in Ret (bool_decide (is_Some (memmem hay s))).

(** The AMONET case: the header follows a microloader and is copied into a
    cleared buffer of one page. *)
Definition amonet_hdr (mem : bytes) (addr : Z) : outcome (option dyn_img_hdr) :=
  let h := addr + AMONET_MICROLOADER_SZ in
  let! page_size := rd_le mem (h + off_page_size) 4 in
  let real_hdr_sz := u32 (page_size - AMONET_MICROLOADER_SZ) in
  let! src := rd mem h real_hdr_sz in
  let! copy := wr (zeros page_size) 0 src in
  make_hdr copy 0.

(** [CMD_MATCH] for the five NOOKHD loaders, in order. *)
Fixpoint any_match (mem : bytes) (addr : Z) (ms : list bytes) : outcome bool :=
  match ms with
  | [] => Ret false
  | m :: ms => let! r := buffer_match mem addr m in if r : bool then Ret true else any_match mem addr ms
  end.
Definition nookhd_magics : list bytes :=
  [NOOKHD_RL_MAGIC; NOOKHD_GL_MAGIC; NOOKHD_GR_MAGIC; NOOKHD_EB_MAGIC; NOOKHD_ER_MAGIC].

(** [create_hdr] for a boot (not vendor_boot) image. *)
Definition create_boot_hdr (mem : bytes) (addr : Z) (fl : flags_t)
    : outcome (Z * option dyn_img_hdr * flags_t) :=
  let! page_size := rd_le mem (addr + off_page_size) 4 in
  if 0x02000000 <=? page_size then
    let! h := new_hdr dyn_img_pxa mem addr in Ret (addr, Some h, fl)
  else
    let! amonet := buffer_contain mem addr AMONET_MICROLOADER_SZ AMONET_MICROLOADER_MAGIC in
    let! shifted := (if amonet : bool then buffer_match mem (addr + AMONET_MICROLOADER_SZ) BOOT_MAGIC else Ret false) in
    if shifted : bool then
      let! h := amonet_hdr mem addr in Ret (addr, h, AMONET_FLAG :: fl)
    else
      let! nook := any_match mem (addr + off_v0_cmdline) nookhd_magics in
      if nook : bool then
        let addr := addr + NOOKHD_PRE_HEADER_SZ in
        let! h := make_hdr mem addr in Ret (addr, h, NOOKHD_FLAG :: fl)
      else
        let! acclaim := buffer_match mem (addr + off_v0_name) ACCLAIM_MAGIC in
        let (addr, fl) := if acclaim : bool then (addr + ACCLAIM_PRE_HEADER_SZ, ACCLAIM_FLAG :: fl) else (addr, fl) in
        let! h := make_hdr mem addr in Ret (addr, h, fl).

(** [create_hdr]: the base address, the header and the new flags. *)
Definition create_hdr (mem : bytes) (addr : Z) (type : format_t) (fl : flags_t)
    : outcome (Z * option dyn_img_hdr * flags_t) :=
  match type with
  | AOSP_VENDOR =>
    let! v := rd_le mem (addr + off_vnd_header_version) 4 in
    let! h := new_hdr (if v =? 4 then dyn_img_vnd_v4 else dyn_img_vnd_v3) mem addr in
    Ret (addr, Some h, fl)
  | _ => create_boot_hdr mem addr fl
  end.

(** ** Blocks *)

(** The size accessors [get_block] uses, in the order of the calls. *)
Definition block_fields : list Fld.t :=
  [Fld.kernel_size; Fld.ramdisk_size; Fld.second_size; Fld.extra_size; Fld.recovery_dtbo_size; Fld.dtb_size;
   Fld.signature_size; Fld.vendor_ramdisk_table_size; Fld.bootconfig_size].

(** [get_block] for each field: the block starts at [base + off], [off] moves to
    the next page boundary after it, and [assert_off] rejects the image ([None])
    when that is past the end of the mapping. *)
Fixpoint get_blocks (h : dyn_img_hdr) (base map_end off : Z) (fs : list Fld.t)
    : outcome (option (list Z * Z)) :=
  match fs with
  | [] => Ret (Some ([], off))
  | f :: fs =>
    let start := base + off in
    let! off := align_to (u64 (off + get h f)) (get h Fld.page_size) in
    if map_end <? base + off then Ret None
    else
      let! r := get_blocks h base map_end off fs in
      Ret ((fun '(l, o) => (start :: l, o)) <$> r)
  end.

Definition blocks_of (l : list Z) : blocks_t :=
  Blocks (nth 0 l 0) (nth 1 l 0) (nth 2 l 0) (nth 3 l 0) (nth 4 l 0) (nth 5 l 0) (nth 6 l 0) (nth 7 l 0) (nth 8 l 0).

Section parse.
(** Fuel for [check_fmt_lg], which may not terminate. *)
Context (lgfuel : nat).
Context (mem : bytes).

(** ** The kernel *)

Record kernel_info := KInfo {
  ki_hdr : dyn_img_hdr; ki_flags : flags_t; ki_kernel : Z; ki_fmt : format_t;
  ki_dtb : view; ki_mtk : option Z; ki_z_hdr : option Z; ki_z_sz : Z; ki_z_tail : view }.

(** Search for the compressed payload of a zImage. *)
Fixpoint find_piggy (fuel : nat) (k ksize pos : Z) : outcome (option Z) :=
  match fuel with
  | O => Loop
  | S fuel =>
    if pos <? k + ksize then
      let! f := check_fmt_lg lgfuel mem pos (u32 (ksize - (pos - k))) in
      if bool_decide (f <> UNKNOWN) then Ret (Some pos) else find_piggy fuel k ksize (pos + 1)
    else Ret None
  end.

(** The last of the sixteen words that looks like the end of the payload. *)
Fixpoint piggy_end_of (zsize : Z) (rev_offsets : list Z) : Z :=
  match rev_offsets with
  | [] => zsize
  | o :: os => if (u32 (zsize - 0xFF) <? o) && (o <? zsize) then o else piggy_end_of zsize os
  end.
Fixpoint words (n : nat) (b : bytes) : list Z :=
  match n with O => [] | S n => le_dec (take 4 b) :: words n (drop 4 b) end.

Definition parse_zimage (ki : kernel_info) : outcome kernel_info :=
  let k := ki_kernel ki in
  let ksize := get (ki_hdr ki) Fld.kernel_size in
  let! found := find_piggy (S (Z.to_nat ksize)) k ksize (k + 0x28) in
  match found with
  | None => Ret (KInfo (ki_hdr ki) (ki_flags ki) k (ki_fmt ki) (ki_dtb ki) (ki_mtk ki) (Some k) 0 (0, 0))
  | Some pos =>
    let hdr_sz := u32 (pos - k) in
    let! zend := rd_le mem (k + zimage_end_off) 4 in
    let! zstart := rd_le mem (k + zimage_start_off) 4 in
    let zsize := u32 (zend - zstart) in
    let! offsets := rd mem (k + zsize - 64) 64 in
    let piggy_end := piggy_end_of zsize (reverse (words 16 offsets)) in
    if piggy_end =? zsize then
      Ret (KInfo (ki_hdr ki) (ki_flags ki) k (ki_fmt ki) (ki_dtb ki) (ki_mtk ki) (Some k) hdr_sz (0, 0))
    else
      let h := set (ki_hdr ki) Fld.kernel_size (piggy_end - hdr_sz) in
      let! f := check_fmt_lg lgfuel mem (k + hdr_sz) (get h Fld.kernel_size) in
      Ret (KInfo h (ZIMAGE_KERNEL :: ki_flags ki) (k + hdr_sz) f (ki_dtb ki) (ki_mtk ki) (Some k) hdr_sz
             (k + piggy_end, u32 (ksize - piggy_end)))
  end.

(** The kernel block: split off an appended device tree, skip an MTK header,
    look into a zImage. *)
Definition parse_mtk (ki : kernel_info) : outcome kernel_info :=
  match ki_fmt ki with
  | MTK =>
    let k := ki_kernel ki in
    let! _ := rd_le mem (k + mtk_size_off) 4 in
    let! _ := cstr_at mem (k + mtk_name_off) in
    let h := set (ki_hdr ki) Fld.kernel_size (get (ki_hdr ki) Fld.kernel_size - sizeof_mtk_hdr) in
    let! f := check_fmt_lg lgfuel mem (k + sizeof_mtk_hdr) (get h Fld.kernel_size) in
    Ret (KInfo h (MTK_KERNEL :: ki_flags ki) (k + sizeof_mtk_hdr) f (ki_dtb ki) (Some k) None 0 (0, 0))
  | _ => Ret ki
  end.

Definition parse_kernel (h : dyn_img_hdr) (fl : flags_t) (k : Z) : outcome kernel_info :=
  let size := get h Fld.kernel_size in
  if size =? 0 then Ret (KInfo h fl k UNKNOWN (0, 0) None None 0 (0, 0)) else
  let! dtb_off := find_dtb_offset mem k size in
  let (h, dt) := if 0 <? dtb_off then (set h Fld.kernel_size dtb_off, (k + dtb_off, size - dtb_off))
                 else (h, (0, 0)) in
  let! f := check_fmt_lg lgfuel mem k (get h Fld.kernel_size) in
  let! ki := parse_mtk (KInfo h fl k f dt None None 0 (0, 0)) in
  match ki_fmt ki with ZIMAGE => parse_zimage ki | _ => Ret ki end.

(** ** The ramdisk *)

(** The loop over the vendor ramdisk table, which only prints. *)
Fixpoint print_table (n : nat) (rd_addr entry : Z) : outcome unit :=
  match n with
  | O => Ret tt
  | S n =>
    let! size := rd_le mem (entry + te_size_off) 4 in
    let! off := rd_le mem (entry + te_offset_off) 4 in
    let! _ := check_fmt_lg lgfuel mem (rd_addr + off) size in
    let! _ := cstr_at mem (entry + te_name_off) in
    let! _ := rd_le mem (entry + te_type_off) 4 in
    print_table n rd_addr (entry + sizeof_table_entry)
  end.

Definition parse_ramdisk (h : dyn_img_hdr) (fl : flags_t) (r table : Z)
    : outcome (dyn_img_hdr * flags_t * Z * format_t * option Z) :=
  let size := get h Fld.ramdisk_size in
  if size =? 0 then Ret (h, fl, r, UNKNOWN, None) else
  if negb (get h Fld.vendor_ramdisk_table_size =? 0) then
    if negb (get h Fld.vendor_ramdisk_table_entry_size =? sizeof_table_entry) then Exit 1
    else
      let! _ := print_table (Z.to_nat (get h Fld.vendor_ramdisk_table_entry_num)) r table in
      Ret (h, fl, r, UNKNOWN, None)
  else
    let! f := check_fmt_lg lgfuel mem r size in
    match f with
    | MTK =>
      let! _ := rd_le mem (r + mtk_size_off) 4 in
      let! _ := cstr_at mem (r + mtk_name_off) in
      let h := set h Fld.ramdisk_size (get h Fld.ramdisk_size - sizeof_mtk_hdr) in
      let! f := check_fmt_lg lgfuel mem (r + sizeof_mtk_hdr) (get h Fld.ramdisk_size) in
      Ret (h, MTK_RAMDISK :: fl, r + sizeof_mtk_hdr, f, Some r)
    | _ => Ret (h, fl, r, f, None)
    end.

(** ** The tail *)

Context (verify_boot_image : bytes -> bytes -> option bytes -> bool).

(** [boot_img::verify]: hands the payload and the tail to the Rust side. *)
Definition verify_view (pl tl : view) (cert : option bytes) : outcome bool :=
  let! p := rd mem pl.1 pl.2 in
  let! t := rd mem tl.1 tl.2 in
  Ret (verify_boot_image p t cert).

Definition parse_tail (base : Z) (pl tl : view) (fl : flags_t)
    : outcome (flags_t * option Z * option Z) :=
  if tl.2 =? 0 then Ret (fl, None, None) else
  let! sea := (if 16 <=? tl.2 then buffer_match mem tl.1 SEANDROID_MAGIC else Ret false) in
  let! bump := (if sea : bool then Ret false else
                if 16 <=? tl.2 then buffer_match mem tl.1 LG_BUMP_MAGIC else Ret false) in
  let fl := if sea : bool then SEANDROID_FLAG :: fl else if bump : bool then LG_BUMP_FLAG :: fl else fl in
  let! signed := verify_view pl tl None in
  let fl := if signed : bool then AVB1_SIGNED_FLAG :: fl else fl in
  let footer := tl.1 + tl.2 - sizeof_AvbFooter in
  let! f := buffer_match mem footer AVB_FOOTER_MAGIC in
  if f : bool then
    let! off := rd_be mem (footer + footer_vbmeta_offset_off) 8 in
    let meta := base + off in
    let! m := buffer_match mem meta AVB_MAGIC in
    if m : bool then Ret (AVB_FLAG :: fl, Some footer, Some meta) else Ret (fl, Some footer, None)
  else Ret (fl, None, None).
End parse.

(** ** parse_image and the constructor *)

Section image.
Context (lgfuel : nat) (pagesize : Z).
Context (verify_boot_image : bytes -> bytes -> option bytes -> bool).

(** The mapping of a file of [zlen img] bytes. *)
Definition map_end (img : bytes) : outcome Z := align_to (zlen img) pagesize.
Definition mapping (img : bytes) : outcome bytes :=
  let! e := map_end img in Ret (img ++ zeros (e - zlen img)).

(** The words of the id that a SHA1 digest does not reach. *)
Definition has_sha256 (h : dyn_img_hdr) : outcome bool :=
  match str_ptr h Fld.id with
  | None => Ret false
  | Some p => let! s := rd (raw h) (p + 24) 8 in Ret (existsb (fun b => negb (Byte.eqb b x00)) s)
  end.

(** [inr fl]: the image is rejected, the flags set so far stay. *)
Definition parse_image (img mem : bytes) (p : Z) (type : format_t) (fl : flags_t)
    : outcome (boot_img + flags_t) :=
  let! (base, ho, fl) := create_hdr mem p type fl in
  match ho with
  | None => Ret (inr fl)
  | Some h =>
    let! sha := has_sha256 h in
    let fl := if sha : bool then SHA256_FLAG :: fl else fl in
    let! _ := print h in
    let! mend := map_end img in
    let! off0 := hdr_space h in
    let! r := get_blocks h base mend off0 block_fields in
    match r with
    | None => Ret (inr fl)
    | Some (l, off) =>
      let bl := blocks_of l in
      let pl := (base, off) in
      let tl := (base + off, mend - (base + off)) in
      let! ki := parse_kernel lgfuel mem h fl (kernel bl) in
      let! (h, fl, rp, rf, rh) :=
        parse_ramdisk lgfuel mem (ki_hdr ki) (ki_flags ki) (ramdisk bl) (vendor_ramdisk_table bl) in
      let! ef := (if get h Fld.extra_size =? 0 then Ret UNKNOWN
                  else check_fmt_lg lgfuel mem (extra bl) (get h Fld.extra_size)) in
      let! (fl, footer, meta) := parse_tail mem verify_boot_image base pl tl fl in
      Ret (inl (Boot img h fl (ki_fmt ki) rf ef pl tl (ki_mtk ki) rh (ki_z_hdr ki) (ki_z_sz ki) (ki_z_tail ki)
             footer meta
             (Blocks (ki_kernel ki) rp (second bl) (extra bl) (recovery_dtbo bl) (dtb bl) (signature bl)
                (vendor_ramdisk_table bl) (bootconfig bl))
             (ki_dtb ki)))
    end
  end.

(** The constructor: try every address; [exit(1)] when none works. *)
Fixpoint boot_img_loop (fuel : nat) (img mem : bytes) (addr : Z) (fl : flags_t) : outcome boot_img :=
  match fuel with
  | O => Loop
  | S fuel =>
    if addr <? zlen img then
      let! fmt := check_fmt mem addr (zlen img) in
      match fmt with
      | CHROMEOS => boot_img_loop fuel img mem (addr + 65535 + 1) (CHROMEOS_FLAG :: fl)
      | DHTB => boot_img_loop fuel img mem (addr + (sizeof_dhtb_hdr - 1) + 1) (SEANDROID_FLAG :: DHTB_FLAG :: fl)
      | BLOB => boot_img_loop fuel img mem (addr + (sizeof_blob_hdr - 1) + 1) (BLOB_FLAG :: fl)
      | AOSP | AOSP_VENDOR =>
        let! r := parse_image img mem addr fmt fl in
        match r with
        | inl b => Ret b
        | inr fl => boot_img_loop fuel img mem (addr + 1) fl
        end
      | _ => boot_img_loop fuel img mem (addr + 1) fl
      end
    else Exit 1
  end.
Definition boot_img_new (img : bytes) : outcome boot_img :=
  let! mem := mapping img in boot_img_loop (S (length img)) img mem 0 [].
End image.

(** ** Lemmas: blocks *)

(** Consecutive blocks: each starts at [base + off], the next one at the first
    page boundary after its end, and nothing passes [last]. *)
Fixpoint laid_out (base ps last off : Z) (starts sizes : list Z) (o : Z) : Prop :=
  match starts, sizes with
  | [], [] => o = off
  | a :: starts, s :: sizes =>
    a = base + off /\
    exists off', off + s <= off' < off + s + ps /\ (ps | off') /\ base + off' <= last /\
      laid_out base ps last off' starts sizes o
  | _, _ => False
  end.

Lemma get_blocks_spec h base mend fs off l o : 0 < get h Fld.page_size < 2 ^ 31 -> 0 <= base -> 0 <= off ->
  off < 2 ^ 62 -> mend < 2 ^ 62 -> Forall (fun f => get h f < 2 ^ 32) fs ->
  get_blocks h base mend off fs = Ret (Some (l, o)) ->
  laid_out base (get h Fld.page_size) mend off l (map (get h) fs) o /\ off <= o.
Proof.
  intros Hps Hb Ho Hob Hm Hfs. revert off l o Ho Hob.
  induction Hfs as [|f fs Hf _ IH]; intros off l o Ho Hob E; cbn [get_blocks] in E.
  { injection E as <- <-. split; [done|lia]. }
  pose proof (get_range h f) as Hg.
  apply bind_Ret_inv in E as (off' & Ea & E).
  rewrite u64_id in Ea by lia.
  apply align_to_mono in Ea as [Hr Hd]; [|lia..].
  destruct (Z.ltb_spec mend (base + off')); [done|].
  apply bind_Ret_inv in E as ([[l' o']|] & E1 & E2); [|done]. injection E2 as <- <-.
  apply IH in E1 as [E1 ?]; [|lia..]. split; [|lia]. cbn [laid_out map]. split; [done|].
  exists off'. done.
Qed.

(** What the layout says of the first block and of the rest. *)
Lemma laid_out_bounds base ps last off starts sizes o : 0 < ps -> 0 <= off -> base + off <= last ->
  Forall (Z.le 0) sizes -> laid_out base ps last off starts sizes o ->
  off <= o /\ base + o <= last /\
  forall i a s, starts !! i = Some a -> sizes !! i = Some s -> base + off <= a /\ a + s <= base + o.
Proof.
  intros Hps Ho Hl Hs. revert starts off Ho Hl. induction Hs as [|s sizes Hs _ IH]; intros [|a starts] off Ho Hl H;
    cbn [laid_out] in H; try done.
  - subst. split_and!; [lia|lia|]. intros i a s E. by destruct i.
  - destruct H as (-> & off' & Hr & _ & Hb & H). destruct (IH starts off') as (H1 & H2 & H3); [lia|lia|done|].
    split_and!; [lia|lia|]. intros [|i] a' s' Ea Es; simpl in Ea, Es.
    + injection Ea as <-. injection Es as <-. lia.
    + destruct (H3 i a' s' Ea Es). lia.
Qed.

(** Blocks do not overlap. *)
Lemma laid_out_ordered base ps last off starts sizes o : 0 < ps -> 0 <= off -> base + off <= last ->
  Forall (Z.le 0) sizes -> laid_out base ps last off starts sizes o ->
  forall i j a b s t, (i < j)%nat -> starts !! i = Some a -> starts !! j = Some b -> sizes !! i = Some s ->
  sizes !! j = Some t -> a + s <= b.
Proof.
  intros Hps Ho Hl Hs. revert starts off Ho Hl. induction Hs as [|s sizes Hs Hss IH]; intros [|a starts] off Ho Hl H;
    cbn [laid_out] in H; try done.
  destruct H as (-> & off' & Hr & _ & Hb & H).
  intros [|i] [|j] a' b' s' t' Hij Ea Eb Es Et; simpl in *; try lia.
  - injection Ea as <-. injection Es as <-.
    destruct (laid_out_bounds base ps last off' starts sizes o) as (_ & _ & H3); [lia|lia|lia|done|done|].
    destruct (H3 j b' t' Eb Et). lia.
  - eapply (IH starts off' ltac:(lia) ltac:(lia) H i j); eauto with lia.
Qed.

(** Every header built by [create_hdr] has the size of its struct. *)
Lemma new_hdr_ok c mem p h : new_hdr c mem p = Ret h -> hdr_ok h /\ cls h = c.
Proof.
  unfold new_hdr. intros E. apply bind_Ret_inv in E as (b & Eb & [= <-]).
  apply rd_Ret_inv in Eb as (? & ? & ? & ->). unfold hdr_ok. simpl. split; [|done]. apply length_sub; lia.
Qed.

Lemma make_hdr_ok mem p h : make_hdr mem p = Ret (Some h) -> hdr_ok h.
Proof.
  unfold make_hdr. intros E. apply bind_Ret_inv in E as ([] & _ & E); [|done].
  apply bind_Ret_inv in E as (v & _ & E). apply bind_Ret_inv in E as (h' & E & [= <-]).
  by eapply new_hdr_ok.
Qed.

Lemma create_hdr_ok mem p type fl base h fl' : 0 <= p ->
  create_hdr mem p type fl = Ret (base, Some h, fl') -> hdr_ok h /\ p <= base.
Proof.
  intros Hp E. unfold create_hdr in E.
  assert (Hv : forall c, (let! h := new_hdr c mem p in Ret (p, Some h, fl)) = Ret (base, Some h, fl') ->
    hdr_ok h /\ p <= base).
  { intros c Ec. apply bind_Ret_inv in Ec as (h0 & Ec & [= <- <- <-]). split; [by eapply new_hdr_ok|lia]. }
  assert (Hm : forall q f, p <= q -> (let! h := make_hdr mem q in Ret (q, h, f)) = Ret (base, Some h, fl') ->
    hdr_ok h /\ p <= base).
  { intros q f Hq Ec. apply bind_Ret_inv in Ec as (h0 & Ec & [= <- -> <-]). split; [by eapply make_hdr_ok|done]. }
  destruct (decide (type = AOSP_VENDOR)) as [->|Hne].
  { apply bind_Ret_inv in E as (v & _ & E). eauto. }
  assert (E' : create_boot_hdr mem p fl = Ret (base, Some h, fl')) by (by destruct type).
  clear E. unfold create_boot_hdr in E'. apply bind_Ret_inv in E' as (page & _ & E). destruct (_ <=? page); [eauto|].
  apply bind_Ret_inv in E as (am & _ & E). apply bind_Ret_inv in E as (sh & _ & E). destruct sh.
  { apply bind_Ret_inv in E as (h0 & Ec & [= <- -> <-]). split; [|lia]. unfold amonet_hdr in Ec.
    apply bind_Ret_inv in Ec as (? & _ & Ec). apply bind_Ret_inv in Ec as (? & _ & Ec).
    apply bind_Ret_inv in Ec as (? & _ & Ec). by eapply make_hdr_ok. }
  apply bind_Ret_inv in E as (nk & _ & E). destruct nk.
  { eapply Hm; [|exact E]. unfold NOOKHD_PRE_HEADER_SZ. lia. }
  apply bind_Ret_inv in E as (ac & _ & E). destruct ac; eapply Hm; [|exact E| |exact E].
  - unfold ACCLAIM_PRE_HEADER_SZ. lia.
  - lia.
Qed.

(** Parsing the kernel and the ramdisk only touches their sizes in the header. *)
Lemma parse_mtk_hdr lgfuel mem ki ki' : hdr_ok (ki_hdr ki) -> parse_mtk lgfuel mem ki = Ret ki' ->
  same_but [Fld.kernel_size] (ki_hdr ki) (ki_hdr ki').
Proof.
  intros Hok E. unfold parse_mtk in E. destruct (decide (ki_fmt ki = MTK)) as [Em|Em].
  - rewrite Em in E. apply bind_Ret_inv in E as (? & _ & E). apply bind_Ret_inv in E as (? & _ & E).
    apply bind_Ret_inv in E as (? & _ & [= <-]). by apply set_same_but.
  - assert (ki' = ki) as -> by (by destruct (ki_fmt ki); congruence). by apply same_but_refl.
Qed.

Lemma parse_zimage_hdr lgfuel mem ki ki' : hdr_ok (ki_hdr ki) -> parse_zimage lgfuel mem ki = Ret ki' ->
  same_but [Fld.kernel_size] (ki_hdr ki) (ki_hdr ki').
Proof.
  intros Hok E. unfold parse_zimage in E. apply bind_Ret_inv in E as ([pos|] & _ & E).
  - apply bind_Ret_inv in E as (? & _ & E). apply bind_Ret_inv in E as (? & _ & E).
    apply bind_Ret_inv in E as (? & _ & E). destruct (_ =? _); [injection E as <-; by apply same_but_refl|].
    apply bind_Ret_inv in E as (? & _ & [= <-]). by apply set_same_but.
  - injection E as <-. by apply same_but_refl.
Qed.

Lemma same_but_idem f h r s : same_but [f] h r -> same_but [f] r s -> same_but [f] h s.
Proof. intros H1 H2. eapply same_but_weaken; [by eapply same_but_trans|set_solver]. Qed.

Lemma parse_kernel_hdr lgfuel mem h fl k ki : hdr_ok h -> parse_kernel lgfuel mem h fl k = Ret ki ->
  same_but [Fld.kernel_size] h (ki_hdr ki).
Proof.
  intros Hok E. unfold parse_kernel in E. destruct (_ =? 0); [injection E as <-; by apply same_but_refl|].
  apply bind_Ret_inv in E as (d & _ & E).
  set (p := if 0 <? d then _ else _) in E.
  assert (Hp : same_but [Fld.kernel_size] h p.1).
  { unfold p. destruct (0 <? d); [by apply set_same_but|by apply same_but_refl]. }
  destruct p as [h1 dt]. simpl in Hp. apply bind_Ret_inv in E as (f & _ & E).
  apply bind_Ret_inv in E as (ki1 & E1 & E). apply parse_mtk_hdr in E1; [|apply Hp]. cbn [ki_hdr] in E1.
  eapply same_but_idem; [exact Hp|]. eapply same_but_idem; [exact E1|].
  destruct (decide (ki_fmt ki1 = ZIMAGE)) as [Ez|Ez].
  - rewrite Ez in E. eapply parse_zimage_hdr; [apply E1|done].
  - assert (ki = ki1) as -> by (by destruct (ki_fmt ki1); congruence). apply same_but_refl, E1.
Qed.

Lemma parse_ramdisk_hdr lgfuel mem h fl r t h' fl' r' f x : hdr_ok h ->
  parse_ramdisk lgfuel mem h fl r t = Ret (h', fl', r', f, x) -> same_but [Fld.ramdisk_size] h h'.
Proof.
  intros Hok E. unfold parse_ramdisk in E. destruct (_ =? 0); [injection E as <- _ _ _ _; by apply same_but_refl|].
  destruct (negb _).
  - destruct (negb _); [done|]. apply bind_Ret_inv in E as (? & _ & [= <- _ _ _ _]). by apply same_but_refl.
  - apply bind_Ret_inv in E as (f0 & _ & E). destruct (decide (f0 = MTK)) as [->|Hne].
    + apply bind_Ret_inv in E as (? & _ & E). apply bind_Ret_inv in E as (? & _ & E).
      apply bind_Ret_inv in E as (? & _ & [= <- _ _ _ _]). by apply set_same_but.
    + assert (h' = h) as -> by (destruct f0; congruence). by apply same_but_refl.
Qed.

(** A kernel that is neither wrapped in an MTK header nor a zImage stays where it is,
    and a device tree that is split off only makes it shorter. *)
Lemma find_dtb_loop_bound fuel mem buf sz p r : 0 <= p -> sz < 2 ^ 32 ->
  find_dtb_loop fuel mem buf sz p = Ret r -> 0 < r -> r <= sz.
Proof.
  intros Hp Hsz. revert p Hp. induction fuel as [|fuel IH]; intros p Hp E Hr; [done|]. cbn [find_dtb_loop] in E.
  destruct (Z.ltb_spec p sz); [|injection E as <-; lia].
  apply bind_Ret_inv in E as (hay & (_ & _ & _ & ->)%rd_Ret_inv & E).
  destruct (memmem _ _) as [k|] eqn:Em; [|injection E as <-; lia].
  apply memmem_Some in Em as (Hk & _). apply bind_Ret_inv in E as (ok & _ & E). destruct ok.
  - injection E as <-. unfold sub in Hk. rewrite length_take in Hk. unfold s32 in *. 
    assert (Hc : 0 <= p + Z.of_nat k <= sz) by lia. revert Hr Hc. generalize (p + Z.of_nat k). intros c Hr Hc.
    destruct (Z.lt_ge_cases c (2 ^ 31)); [rewrite Z.mod_small by lia; lia|].
    replace (c + 2 ^ 31) with (c - 2 ^ 31 + 1 * 2 ^ 32) by lia. rewrite Z.mod_add, Z.mod_small by lia. lia.
  - apply (IH (p + Z.of_nat k + sizeof_fdt_header)); [unfold sizeof_fdt_header; lia|done..].
Qed.

Lemma set_kernel_size h v : hdr_ok h -> get h Fld.kernel_size <> 0 -> 0 <= v < 2 ^ 32 ->
  get (set h Fld.kernel_size v) Fld.kernel_size = v.
Proof.
  intros Hok Hn Hv. destruct (region (cls h) Fld.kernel_size) as [[o w]|] eqn:E.
  - assert (w = 4) as -> by (destruct (cls h); vm_compute in E; congruence).
    destruct (set_spec h _ v _ _ Hok E) as (_ & Hg & _). rewrite Hg. by apply Z.mod_small.
  - exfalso. apply Hn. unfold get. by rewrite E.
Qed.

Definition wrapped (fl : flags_t) : Prop := MTK_KERNEL ∈ fl \/ ZIMAGE_KERNEL ∈ fl \/ MTK_RAMDISK ∈ fl.

Lemma parse_kernel_plain lgfuel mem h fl k ki : hdr_ok h -> get h Fld.kernel_size < 2 ^ 32 ->
  parse_kernel lgfuel mem h fl k = Ret ki -> ~ wrapped (ki_flags ki) ->
  ki_kernel ki = k /\ get (ki_hdr ki) Fld.kernel_size <= get h Fld.kernel_size.
Proof.
  intros Hok Hb E Hw. unfold wrapped in Hw. unfold parse_kernel in E.
  destruct (Z.eqb_spec (get h Fld.kernel_size) 0) as [|Hne]; [injection E as <-; done|].
  apply bind_Ret_inv in E as (d & Ed & E).
  set (p := if 0 <? d then _ else _) in E.
  assert (Hp : get p.1 Fld.kernel_size <= get h Fld.kernel_size).
  { unfold p. destruct (Z.ltb_spec 0 d); [|cbn; lia]. cbn. apply find_dtb_loop_bound in Ed; [|lia..].
    rewrite set_kernel_size by (done || lia). lia. }
  destruct p as [h1 dt]. cbn [fst] in Hp. apply bind_Ret_inv in E as (f & _ & E).
  apply bind_Ret_inv in E as (ki1 & E1 & E). unfold parse_mtk in E1. cbn [ki_fmt] in E1.
  assert (Hz : ki_flags ki1 ⊆ ki_flags ki).
  { destruct (decide (ki_fmt ki1 = ZIMAGE)) as [Ez|Ez]; [|by assert (ki = ki1) as -> by (by destruct (ki_fmt ki1); congruence)].
    rewrite Ez in E. unfold parse_zimage in E. apply bind_Ret_inv in E as ([pos|] & _ & E); [|by injection E as <-].
    do 3 apply bind_Ret_inv in E as (? & _ & E). destruct (_ =? _); [by injection E as <-|].
    apply bind_Ret_inv in E as (? & _ & [= <-]). cbn. set_solver. }
  assert (ki1 = KInfo h1 fl k f dt None None 0 (0, 0)) as ->.
  { destruct (decide (f = MTK)) as [->|Hf]; [|destruct f; congruence].
    do 3 apply bind_Ret_inv in E1 as (? & _ & E1). injection E1 as <-. exfalso. apply Hw. left. apply Hz. cbn. set_solver. }
  cbn [ki_fmt] in E. destruct (decide (f = ZIMAGE)) as [->|Hf].
  - unfold parse_zimage in E. apply bind_Ret_inv in E as ([pos|] & _ & E); [|by injection E as <-].
    do 3 apply bind_Ret_inv in E as (? & _ & E). destruct (_ =? _); [by injection E as <-|].
    apply bind_Ret_inv in E as (? & _ & [= <-]). exfalso. apply Hw. right. left. cbn. set_solver.
  - assert (ki = KInfo h1 fl k f dt None None 0 (0, 0)) as -> by (destruct f; congruence). done.
Qed.

Lemma parse_ramdisk_plain lgfuel mem h fl r t h' fl' r' f x :
  parse_ramdisk lgfuel mem h fl r t = Ret (h', fl', r', f, x) ->
  fl ⊆ fl' /\ (~ wrapped fl' -> r' = r /\ h' = h).
Proof.
  intros E. unfold parse_ramdisk in E. destruct (_ =? 0); [by injection E as <- <- <- _ _|].
  destruct (negb _).
  - destruct (negb _); [done|]. by apply bind_Ret_inv in E as (? & _ & [= <- <- <- _ _]).
  - apply bind_Ret_inv in E as (f0 & _ & E). destruct (decide (f0 = MTK)) as [->|Hne].
    + do 3 apply bind_Ret_inv in E as (? & _ & E). injection E as <- <- <- _ _.
      split; [set_solver|]. intros Hw. exfalso. apply Hw. right. right. set_solver.
    + assert (fl' = fl /\ r' = r /\ h' = h) as (-> & -> & ->) by (destruct f0; naive_solver). done.
Qed.

Lemma parse_tail_flags mem verify base pl tl fl fl' a b :
  parse_tail mem verify base pl tl fl = Ret (fl', a, b) -> fl ⊆ fl'.
Proof.
  intros E. unfold parse_tail in E. destruct (_ =? 0); [by injection E as <- _ _|].
  apply bind_Ret_inv in E as (sea & _ & E). apply bind_Ret_inv in E as (bump & _ & E).
  apply bind_Ret_inv in E as (sg & _ & E). apply bind_Ret_inv in E as (ft & _ & E).
  destruct ft; [apply bind_Ret_inv in E as (o & _ & E); apply bind_Ret_inv in E as (m & _ & E); destruct m|];
    injection E as <- _ _; destruct sea, bump, sg; set_solver.
Qed.

Lemma block_fields_32 h f : hdr_ok h -> f ∈ block_fields -> get h f < 2 ^ 32.
Proof.
  intros Hok Hf. destruct (region (cls h) f) as [[o w]|] eqn:E.
  - pose proof (get_bound h f o w Hok E) as Hb.
    assert (w = 4) as ->; [|apply Hb]. clear Hb Hok.
    unfold block_fields in Hf. rewrite !elem_of_cons, elem_of_nil in Hf.
    destruct_or! Hf; subst f; destruct (cls h); vm_compute in E; congruence.
  - unfold get. rewrite E. destruct f; try lia. by destruct (cls h).
Qed.

Lemma hdr_space_bound h off : hdr_ok h -> 0 < get h Fld.page_size < 2 ^ 31 -> hdr_space h = Ret off ->
  0 <= off < 2 ^ 32 /\ (get h Fld.page_size | off).
Proof.
  intros Hok Hp E. unfold hdr_space in E.
  assert (0 <= hdr_size (cls h) <= 4096) by (destruct (cls h); vm_compute; split; congruence).
  destruct (is_vendor (cls h)).
  - apply align_to_mono in E as [? ?]; [|lia..]. split; [lia|done].
  - injection E as <-. split; [lia|done].
Qed.

Lemma mapping_len pagesize img mem : 0 < pagesize < 2 ^ 31 -> zlen img < 2 ^ 61 -> mapping pagesize img = Ret mem ->
  exists e, map_end pagesize img = Ret e /\ zlen mem = e /\ zlen img <= e < 2 ^ 62 /\ mem = img ++ zeros (e - zlen img).
Proof.
  intros Hp Hl E. apply bind_Ret_inv in E as (e & Ee & [= <-]). exists e. split; [done|].
  pose proof (zlen_nonneg img). apply align_to_mono in Ee as [? ?]; [|lia..].
  rewrite zlen_app, zlen_zeros by lia. split_and!; [lia|lia|lia|done].
Qed.

(** Blocks one after the other between [lo] and [hi]. *)
Fixpoint in_order (lo : Z) (l : list (Z * Z)) (hi : Z) : Prop :=
  match l with
  | [] => lo <= hi
  | (a, s) :: l => lo <= a /\ 0 <= s /\ in_order (a + s) l hi
  end.

Lemma in_order_weaken lo lo' l hi : lo' <= lo -> in_order lo l hi -> in_order lo' l hi.
Proof. destruct l as [|[a s] l]; simpl; intuition lia. Qed.

Lemma laid_out_in_order base ps last off starts sizes o : 0 < ps -> 0 <= off -> Forall (Z.le 0) sizes ->
  (ps | off) -> laid_out base ps last off starts sizes o ->
  in_order (base + off) (zip starts sizes) (base + o) /\ Forall (fun a => (ps | a - base)) starts.
Proof.
  intros Hps Ho Hs. revert starts off Ho. induction Hs as [|s sizes Hs _ IH]; intros [|a starts] off Ho Hd H;
    cbn [laid_out zip zip_with in_order] in *; try done.
  - subst. split; [lia|done].
  - destruct H as (-> & off' & Hr & Hd' & Hb & H). destruct (IH starts off') as [H1 H2]; [lia|done|done|].
    split; [|constructor; [|done]].
    + split_and!; [lia|lia|]. eapply in_order_weaken; [|exact H1]. lia.
    + by replace (base + off - base) with off by lia.
Qed.

(** The blocks after the ramdisk, with the sizes the header gives them. *)
Definition rest_blocks (b : boot_img) : list (Z * Z) :=
  [(second (blocks b), get (hdr b) Fld.second_size); (extra (blocks b), get (hdr b) Fld.extra_size);
   (recovery_dtbo (blocks b), get (hdr b) Fld.recovery_dtbo_size); (dtb (blocks b), get (hdr b) Fld.dtb_size);
   (signature (blocks b), get (hdr b) Fld.signature_size);
   (vendor_ramdisk_table (blocks b), get (hdr b) Fld.vendor_ramdisk_table_size);
   (bootconfig (blocks b), get (hdr b) Fld.bootconfig_size)].

Lemma laid_out_length base ps last off starts sizes o :
  laid_out base ps last off starts sizes o -> length starts = length sizes.
Proof.
  revert starts off; induction sizes as [|s sizes IH]; intros [|a starts] off; simpl; try done.
  intros (_ & off' & _ & _ & _ & H). by rewrite (IH _ _ H).
Qed.

(** All nine. *)
Definition all_blocks (b : boot_img) : list (Z * Z) :=
  (kernel (blocks b), get (hdr b) Fld.kernel_size) :: (ramdisk (blocks b), get (hdr b) Fld.ramdisk_size) :: rest_blocks b.

(** C3: what a parsed image guarantees, when the page size of its header is between 1
    and 2^31 - 1.  The payload starts at or after the address the magic was found at, the
    tail is everything from its end to the end of the mapping, and the seven blocks after
    the ramdisk lie inside the payload, one after the other without overlap, each on a
    page boundary of the image.  When the kernel is neither in an MTK header nor a zImage
    and the ramdisk is not in an MTK header, this holds of all nine blocks, the kernel
    without the device tree that is split off. *)
Theorem parse_image_layout lgfuel pagesize verify img mem p type fl b :
  0 < pagesize < 2 ^ 31 -> zlen img < 2 ^ 61 -> mapping pagesize img = Ret mem -> 0 <= p ->
  parse_image lgfuel pagesize verify img mem p type fl = Ret (inl b) ->
  0 < get (hdr b) Fld.page_size < 2 ^ 31 ->
  p <= (payload b).1 /\ 0 <= (payload b).2 /\
  (tail b).1 = (payload b).1 + (payload b).2 /\ 0 <= (tail b).2 /\ (tail b).1 + (tail b).2 = zlen mem /\
  in_order (payload b).1 (rest_blocks b) ((payload b).1 + (payload b).2) /\
  Forall (fun '(a, _) => (get (hdr b) Fld.page_size | a - (payload b).1)) (rest_blocks b) /\
  (MTK_KERNEL ∉ flags b -> ZIMAGE_KERNEL ∉ flags b -> MTK_RAMDISK ∉ flags b ->
   in_order (payload b).1 (all_blocks b) ((payload b).1 + (payload b).2) /\
   Forall (fun '(a, _) => (get (hdr b) Fld.page_size | a - (payload b).1)) (all_blocks b)).
Proof.
  intros Hpg Hl Hmap Hp E Hps. destruct (mapping_len _ _ _ Hpg Hl Hmap) as (e & Ee & Hme & He & _).
  unfold parse_image in E. apply bind_Ret_inv in E as ([[base [h|]] fl1] & Ec & E); [|done].
  destruct (create_hdr_ok _ _ _ _ _ _ _ Hp Ec) as [Hok Hbase].
  apply bind_Ret_inv in E as (sha & _ & E). apply bind_Ret_inv in E as (? & _ & E).
  rewrite Ee in E. cbn [obind] in E. apply bind_Ret_inv in E as (off0 & Eo & E).
  apply bind_Ret_inv in E as ([[l o]|] & Eb & E); [|done].
  apply bind_Ret_inv in E as (ki & Ek & E). apply bind_Ret_inv in E as ([[[[h2 fl2] rp] rf] rh] & Er & E).
  apply bind_Ret_inv in E as (ef & _ & E). apply bind_Ret_inv in E as ([[fl3 footer] meta] & Et & E).
  injection E as <-. cbn [hdr] in Hps.
  pose proof (parse_kernel_hdr _ _ _ _ _ _ Hok Ek) as S1.
  pose proof (parse_ramdisk_hdr _ _ _ _ _ _ _ _ _ _ _ (proj1 (proj2 S1)) Er) as S2.
  pose proof (same_but_trans _ _ _ _ _ S1 S2) as S. cbn [app] in S.
  assert (Hg : forall g, g <> Fld.kernel_size -> g <> Fld.ramdisk_size -> get h2 g = get h g)
    by (intros g Hg1 Hg2; apply (same_but_get _ _ _ _ S); rewrite !not_elem_of_cons; split_and!; [done|done|apply not_elem_of_nil]).
  rewrite (Hg Fld.page_size) in Hps by done.
  destruct (hdr_space_bound _ _ Hok Hps Eo) as [Hoff Hdiv].
  destruct (get_blocks_spec h base e block_fields off0 l o) as [Hlay Ho]; [done|lia|lia|lia|lia| |done|].
  { apply Forall_forall. intros f Hf. by apply block_fields_32. }
  assert (Hsz : Forall (Z.le 0) (map (get h) block_fields)).
  { apply Forall_forall. intros z Hz. apply list_elem_of_fmap in Hz as (f & -> & _). apply get_range. }
  destruct (laid_out_in_order _ _ _ _ _ _ _ (proj1 Hps) (proj1 Hoff) Hsz Hdiv Hlay) as [Hord Hal].
  pose proof (laid_out_length _ _ _ _ _ _ _ Hlay) as Hlen. change (length (map _ _)) with 9%nat in Hlen.
  do 9 (destruct l as [|? l]; [discriminate Hlen|]). destruct l; [|discriminate Hlen].
  unfold all_blocks, rest_blocks. cbn [hdr flags blocks payload tail kernel ramdisk second extra recovery_dtbo dtb signature vendor_ramdisk_table
    bootconfig blocks_of nth fst snd].
  rewrite !(Hg Fld.second_size), !(Hg Fld.extra_size), !(Hg Fld.recovery_dtbo_size), !(Hg Fld.dtb_size),
    !(Hg Fld.signature_size), !(Hg Fld.vendor_ramdisk_table_size), !(Hg Fld.bootconfig_size), !(Hg Fld.page_size) by done.
  assert (base + o <= e) as Hbo.
  { simpl in Hlay. destruct_and! Hlay. repeat (destruct_and?; match goal with H : exists _, _ |- _ => destruct H end).
    lia. }
  cbn [block_fields map zip zip_with] in Hord. destruct Hord as (H1 & H2 & H3 & H4 & H5).
  repeat (apply Forall_cons in Hal as [? Hal]).
  split_and!; [lia|lia|lia|lia|lia| |by repeat constructor|].
  - eapply in_order_weaken; [|exact H5]. lia.
  - intros Hf1 Hf2 Hf3. cbn [blocks_of nth] in Ek, Er.
    destruct (parse_ramdisk_plain _ _ _ _ _ _ _ _ _ _ _ Er) as [Hs2 Hr]. pose proof (parse_tail_flags _ _ _ _ _ _ _ _ _ Et) as Hs3.
    assert (Hw2 : ~ wrapped fl2) by (unfold wrapped; set_solver). destruct (Hr Hw2) as [-> ->].
    destruct (parse_kernel_plain _ _ _ _ _ _ Hok (block_fields_32 h Fld.kernel_size Hok ltac:(unfold block_fields; set_solver)) Ek) as [-> Hks];
      [unfold wrapped in *; set_solver|].
    rewrite (same_but_get _ _ _ Fld.ramdisk_size S1) by (rewrite list_elem_of_singleton; done).
    split; [|by repeat constructor]. pose proof (get_range (ki_hdr ki) Fld.kernel_size).
    change (kernel _) with z. change (ramdisk _) with z0.
    split; [lia|]. split; [lia|]. split; [lia|]. split; [lia|]. exact H5.
Qed.

(** A small v0 image: one page of header, a kernel, a ramdisk and a second stage. *)
Definition sample_hdr : dyn_img_hdr :=
  set (set (set (set (Hdr dyn_img_v0 (upd (zeros 1632) 0 BOOT_MAGIC)) Fld.page_size 2048)
    Fld.kernel_size 5) Fld.ramdisk_size 3) Fld.second_size 2.
Definition sample_img : bytes :=
  raw sample_hdr ++ zeros (2048 - 1632) ++ bs "Image" ++ zeros 2043 ++ bs "rrr" ++ zeros 2045 ++ bs "2s" ++ zeros 2046.
Definition sample_verify (_ _ : bytes) (_ : option bytes) : bool := false.

Lemma parse_image_layout_witness :
  exists b, parse_image 10 4096 sample_verify sample_img sample_img 0 AOSP [] = Ret (inl b) /\
    second (blocks b) = 6144 /\ in_order (payload b).1 (all_blocks b) ((payload b).1 + (payload b).2).
Proof.
  assert (Hs : match parse_image 10 4096 sample_verify sample_img sample_img 0 AOSP [] with
    | Ret (inl b) => (second (blocks b), get (hdr b) Fld.page_size,
        on (flags b) MTK_KERNEL || on (flags b) ZIMAGE_KERNEL || on (flags b) MTK_RAMDISK)
    | _ => (0, 0, true) end = (6144, 2048, false))
    by (vm_compute; reflexivity).
  destruct (parse_image 10 4096 sample_verify sample_img sample_img 0 AOSP []) as [[b|]| | |] eqn:Hp;
    try discriminate Hs.
  injection Hs as Hs Hps Hfl. rewrite !orb_false_iff in Hfl. destruct Hfl as [[Hf1 Hf2] Hf3].
  exists b. split; [reflexivity|]. split; [exact Hs|].
  assert (Hl : (zlen sample_img <? 2 ^ 61) = true) by (vm_compute; reflexivity).
  assert (Hm : mapping 4096 sample_img = Ret sample_img) by (vm_compute; reflexivity).
  destruct (parse_image_layout 10 4096 sample_verify sample_img sample_img 0 AOSP [] b ltac:(lia)
    (proj1 (Z.ltb_lt _ _) Hl) Hm ltac:(lia) Hp ltac:(rewrite Hps; lia)) as (_ & _ & _ & _ & _ & _ & _ & H).
  apply H; eapply bool_decide_eq_false_1; eassumption.
Defined.

(** ** LZ4_LG detection *)

(** [check_fmt_lg] never returns on an LZ4 legacy stream whose first block
    size is [0xfffffffc]: [off + block_sz] wraps around to the offset the loop started
    from. *)
Theorem check_fmt_lg_hangs fuel tl :
  let buf := LZ4_LEG_MAGIC ++ [xfc; xff; xff; xff] ++ tl in
  check_fmt_lg fuel buf 0 (zlen buf) = Loop.
Proof.
  intros buf. unfold check_fmt_lg, buf. rewrite check_fmt_lz4_legacy. cbn [obind]. fold buf.
  assert (Hl : 8 <= zlen buf) by (unfold buf; rewrite !zlen_app; pose proof (zlen_nonneg tl);
    change (zlen LZ4_LEG_MAGIC) with 4; change (zlen [xfc; xff; xff; xff]) with 4; lia).
  induction fuel as [|fuel IH]; [done|]. cbn [lg_loop].
  rewrite (proj2 (Z.leb_le _ _)) by lia. unfold rd_le. rewrite rd_ok by lia. cbn [obind].
  replace (le_dec (sub buf (0 + 4) 4)) with 4294967292 by done.
  change (u32 (u32 (4 + 4) + 4294967292)) with 4. rewrite (proj2 (Z.ltb_ge _ _)) by lia. exact IH.
Qed.

Section lg.
Context (LZ4_COMPRESSED : Z) (LZ4_compress_HC : bytes -> bytes).
Context (Hbound : 4 <= LZ4_COMPRESSED < LZ4_MAGIC_WORD).
Context (Hsize : forall x, 0 < zlen x <= LZ4_UNCOMPRESSED -> 0 < zlen (LZ4_compress_HC x) <= LZ4_COMPRESSED).

(** The loop skips whole frames. *)
Lemma lg_loop_frames xs : Forall lz4_block xs -> forall fuel pre post,
  zlen (pre ++ lz4_frames LZ4_compress_HC xs ++ post) < 2 ^ 32 ->
  lg_loop (length xs + fuel) (pre ++ lz4_frames LZ4_compress_HC xs ++ post) 0
    (zlen (pre ++ lz4_frames LZ4_compress_HC xs ++ post)) (zlen pre) =
  lg_loop fuel (pre ++ lz4_frames LZ4_compress_HC xs ++ post) 0
    (zlen (pre ++ lz4_frames LZ4_compress_HC xs ++ post)) (zlen (pre ++ lz4_frames LZ4_compress_HC xs)).
Proof using Hbound Hsize.
  induction 1 as [|x xs Hx _ IH]; intros fuel pre post Hl.
  { unfold lz4_frames. simpl. by rewrite app_nil_r. }
  specialize (Hsize x Hx) as Hc. set (c := LZ4_compress_HC x) in *.
  set (mem := pre ++ lz4_frames LZ4_compress_HC (x :: xs) ++ post) in *.
  assert (Em : mem = pre ++ le_enc 4 (zlen c) ++ c ++ lz4_frames LZ4_compress_HC xs ++ post).
  { unfold mem, lz4_frames. cbn [map concat]. unfold lz4_frame. fold c. by rewrite <- !app_assoc. }
  assert (Hm : zlen mem = zlen pre + 4 + zlen c + zlen (lz4_frames LZ4_compress_HC xs) + zlen post).
  { rewrite Em, !zlen_app, zlen_le_enc. lia. }
  pose proof (zlen_nonneg pre). pose proof (zlen_nonneg (lz4_frames LZ4_compress_HC xs)). pose proof (zlen_nonneg post).
  cbn [length plus lg_loop]. rewrite (proj2 (Z.leb_le _ _)) by lia. unfold rd_le.
  rewrite Em at 1. rewrite rd_mid by (rewrite ?zlen_le_enc; lia). cbn [obind].
  rewrite le_dec_enc, Z.mod_small by (change (8 * Z.of_nat 4) with 32; lia).
  rewrite (u32_id (zlen pre + 4)) by lia. rewrite u32_id by lia.
  rewrite (proj2 (Z.ltb_ge _ _)) by lia.
  specialize (IH fuel (pre ++ le_enc 4 (zlen c) ++ c) post).
  assert (Em' : (pre ++ le_enc 4 (zlen c) ++ c) ++ lz4_frames LZ4_compress_HC xs ++ post = mem)
    by (rewrite Em; by rewrite <- !app_assoc).
  rewrite Em' in IH. rewrite !zlen_app, zlen_le_enc in IH.
  replace (zlen pre + 4 + zlen c) with (zlen pre + (Z.of_nat 4 + zlen c)) by lia. rewrite IH by done.
  f_equal. rewrite zlen_app. unfold lz4_frames at 2. cbn [map concat]. unfold lz4_frame at 1. fold c.
  rewrite !zlen_app, zlen_le_enc. unfold lz4_frames. lia.
Qed.

Lemma lz4_frames_length xs : (length xs <= length (lz4_frames LZ4_compress_HC xs))%nat.
Proof.
  unfold lz4_frames. induction xs as [|x xs IH]; [done|]. cbn [map concat length].
  unfold lz4_frame at 1. rewrite !length_app, length_le_enc. lia.
Qed.

(** The LG variant is told apart.  The stream the LZ4 encoder writes for a
    non-empty input is recognised as [LZ4_LG] when the encoder appended the total size
    and as [LZ4_LEGACY] otherwise, as long as sizes stay below 4 GiB. *)
Theorem check_fmt_lg_detects lg ws : concat ws <> [] ->
  exists e, Lz4.compress LZ4_compress_HC (Fd []) lg ws = Ret (e, true) /\
    forall fuel, (length (fd_file e) <= fuel)%nat -> zlen (fd_file e) + zlen (concat ws) < 2 ^ 32 ->
    check_fmt_lg fuel (fd_file e) 0 (zlen (fd_file e)) = Ret (if lg then LZ4_LG else LZ4_LEGACY).
Proof using Hbound Hsize.
  intros Hne. destruct (compress_wire LZ4_COMPRESSED LZ4_compress_HC Hbound Hsize (Fd []) lg ws)
    as (e & blocks & E & _ & Hb & Hcat & Hbl); [done|]. simpl in Hb.
  exists e. split; [done|]. intros fuel Hf Hlen. rewrite Hb in *. unfold lz4_wire in *.
  rewrite !length_app in Hf. pose proof (lz4_frames_length blocks). change (length LZ4_LEG_MAGIC) with 4%nat in Hf.
  unfold check_fmt_lg. rewrite check_fmt_lz4_legacy. cbn [obind].
  replace fuel with (length blocks + (fuel - length blocks))%nat by lia.
  set (tl := if lg then _ else _) in *.
  pose proof (lg_loop_frames blocks Hbl (fuel - length blocks) LZ4_LEG_MAGIC tl) as Hloop.
  change (zlen LZ4_LEG_MAGIC) with 4 in Hloop. pose proof (zlen_nonneg (concat ws)). rewrite Hloop by lia.
  destruct (fuel - length blocks)%nat as [|n] eqn:En; [lia|]. cbn [lg_loop].
  set (pre := LZ4_LEG_MAGIC ++ lz4_frames LZ4_compress_HC blocks).
  replace (LZ4_LEG_MAGIC ++ lz4_frames LZ4_compress_HC blocks ++ tl) with (pre ++ tl) in * by
    (unfold pre; by rewrite <- app_assoc).
  rewrite zlen_app in *. pose proof (zlen_nonneg pre). destruct lg; unfold tl in *.
  - rewrite zlen_le_enc in *. rewrite (proj2 (Z.leb_le _ _)) by lia. unfold rd_le.
    rewrite <- (app_nil_r (le_enc 4 _)), rd_mid by (rewrite ?zlen_le_enc; lia). cbn [obind].
    rewrite Hcat in *. rewrite le_dec_enc, Z.mod_small by (change (8 * Z.of_nat 4) with 32; lia).
    assert (0 < zlen (concat ws)) by (destruct (concat ws); [done|rewrite zlen_cons; pose proof (zlen_nonneg l); lia]).
    rewrite (u32_id (zlen pre + 4)), u32_id by lia. by rewrite (proj2 (Z.ltb_lt _ _)) by lia.
  - rewrite zlen_nil. by rewrite (proj2 (Z.leb_gt _ _)) by lia.
Qed.
End lg.

(** ** Device trees *)

Section dtb.
Context (mem : bytes) (buf sz : Z).
Context (Hbuf : 0 <= buf) (Hsz : 0 <= sz < 2 ^ 31) (Hmem : buf + sz + 8 <= zlen mem).

(** The magic is at offset [d] of the buffer. *)
Definition magic_at (d : Z) : Prop := starts_with DTB_MAGIC (drop (Z.to_nat d) (sub mem buf sz)) = true.
(** A device tree [find_dtb_offset] would accept at [d]. *)
Definition dtb_at (d : Z) : Prop := magic_at d /\ fdt_valid mem (buf + d) (sz - d) = Ret true.
(** Every acceptable device tree in [lo, hi) starts inside the header of an
    earlier candidate. *)
Definition none_between (lo hi : Z) : Prop :=
  forall d, lo <= d < hi -> dtb_at d -> exists e, lo <= e < d /\ d < e + sizeof_fdt_header /\ magic_at e.

Lemma fdt_valid_total d : 0 <= d -> d + 4 <= sz -> exists b, fdt_valid mem (buf + d) (sz - d) = Ret b.
Proof using Hbuf Hmem Hsz.
  intros Hd Hl. unfold fdt_valid, rd_be. rewrite !rd_ok by lia. cbn [obind].
  set (t := be_dec (sub mem (buf + d + 4) 4)). set (o := be_dec (sub mem (buf + d + 8) 4)).
  destruct (Z.ltb_spec (sz - d) t); [by eexists|]. destruct (Z.ltb_spec (sz - d) o); [by eexists|].
  assert (0 <= o) by apply le_dec_bound. rewrite rd_ok by lia. by eexists.
Qed.

Lemma find_dtb_loop_spec fuel p : 0 <= p -> Z.max 0 (sz - p) < Z.of_nat fuel ->
  exists r, find_dtb_loop fuel mem buf sz p = Ret r /\
    (r = -1 /\ none_between p sz \/ p <= r < sz /\ dtb_at r /\ none_between p r).
Proof using Hbuf Hmem Hsz.
  revert p; induction fuel as [|fuel IH]; intros p Hp Hf; cbn [find_dtb_loop].
  - lia.
  - destruct (Z.ltb_spec p sz) as [Hlt|]; [|eexists; split; [done|left; split; [done|intros d ?; lia]]].
    rewrite rd_ok by lia. cbn [obind].
    assert (Eh : sub mem (buf + p) (sz - p) = drop (Z.to_nat p) (sub mem buf sz)).
    { unfold sub. rewrite skipn_firstn_comm, drop_drop. f_equal; [lia|f_equal; lia]. }
    assert (Hh : length (sub mem buf sz) = Z.to_nat sz)
      by (pose proof (length_sub mem buf sz); unfold zlen in *; lia).
    rewrite Eh. destruct (memmem _ DTB_MAGIC) as [k|] eqn:Em.
    2:{ eexists. split; [done|]. left. split; [done|]. intros d Hd [Hm _]. exfalso. unfold magic_at in Hm.
        pose proof (memmem_None _ _ (Z.to_nat (d - p)) Em) as Hn. rewrite length_drop, drop_drop, Hh in Hn.
        replace (Z.to_nat p + Z.to_nat (d - p))%nat with (Z.to_nat d) in Hn by lia.
        rewrite Hn in Hm by lia. done. }
    destruct (memmem_Some_split _ _ _ Em) as [_ Hkl]. rewrite length_drop, Hh in Hkl.
    change (length DTB_MAGIC) with 4%nat in Hkl. apply memmem_Some in Em as (_ & Hm & Hno).
    rewrite drop_drop in Hm. set (c := p + Z.of_nat k).
    assert (Hc : magic_at c) by (unfold magic_at; by replace (Z.to_nat c) with (Z.to_nat p + k)%nat by lia).
    assert (Hbefore : forall d, p <= d < c -> ~ magic_at d).
    { intros d Hd. unfold magic_at. specialize (Hno (Z.to_nat (d - p))). rewrite drop_drop in Hno.
      replace (Z.to_nat p + Z.to_nat (d - p))%nat with (Z.to_nat d) in Hno by lia.
      rewrite Hno by lia. done. }
    destruct (fdt_valid_total c) as [ok Eok]; [lia|lia|]. rewrite Eok. cbn [obind]. destruct ok.
    + exists c. rewrite s32_id by lia. split; [done|]. right. split_and!; [lia|lia|by split|].
      intros d Hd [Hd' _]. by apply Hbefore in Hd.
    + unfold sizeof_fdt_header in *. destruct (IH (c + 40)) as (r & Er & Hr); [lia|lia|]. exists r. split; [done|].
      assert (Hext : forall hi, none_between (c + 40) hi -> none_between p hi).
      { intros hi Hn d Hd [Hdm Hdv]. unfold sizeof_fdt_header in *. destruct (Z.lt_ge_cases d c).
        - exfalso. by apply (Hbefore d); [lia|].
        - destruct (decide (d = c)) as [->|]; [congruence|]. destruct (Z.lt_ge_cases d (c + 40)).
          + exists c. split_and!; [lia|lia|lia|done].
          + destruct (Hn d) as (e & ? & ? & ?); [lia|done|]. unfold sizeof_fdt_header in *. exists e. split_and!; [lia|lia|lia|done]. }
      destruct Hr as [[-> Hr]|(Hr1 & Hr2 & Hr3)]; [left|right]; split_and!; auto; lia.
Qed.

(** With eight readable bytes after the buffer, [find_dtb_offset] terminates
    and reads only mapped memory.  A non-negative result is the offset of a device tree:
    the magic is there, its total size and structure offset fit in the rest of the
    buffer and its first tag opens a node.  A device tree before the result (or, when
    the result is -1, any device tree) is only missed when it starts within the 40 bytes of an
    earlier candidate's header. *)
Theorem find_dtb_offset_correct :
  exists r, find_dtb_offset mem buf sz = Ret r /\
    (r = -1 /\ none_between 0 sz \/ 0 <= r < sz /\ dtb_at r /\ none_between 0 r).
Proof using Hbuf Hmem Hsz. apply find_dtb_loop_spec; lia. Qed.
End dtb.

(** A tree of two words after the header: the root node and its end. *)
Definition sample_fdt : bytes :=
  DTB_MAGIC ++ be_enc 4 48 ++ be_enc 4 40 ++ zeros 28 ++ be_enc 4 1 ++ be_enc 4 2.

Lemma find_dtb_offset_correct_witness :
  exists r, find_dtb_offset (bs "kernel" ++ sample_fdt ++ zeros 8) 0 54 = Ret r /\ r = 6 /\
    dtb_at (bs "kernel" ++ sample_fdt ++ zeros 8) 0 54 r.
Proof.
  destruct (find_dtb_offset_correct (bs "kernel" ++ sample_fdt ++ zeros 8) 0 54 ltac:(lia) ltac:(lia)
    ltac:(vm_compute; congruence)) as (r & Er & Hr).
  assert (E6 : find_dtb_offset (bs "kernel" ++ sample_fdt ++ zeros 8) 0 54 = Ret 6) by (vm_compute; reflexivity).
  rewrite E6 in Er. injection Er as <-. exists 6. split; [exact E6|]. split; [reflexivity|].
  destruct Hr as [[Hr _]|(_ & Hr & _)]; [discriminate Hr|exact Hr].
Defined.

(** Without those bytes a magic number at the very end makes it read past the
    mapping. *)
Example find_dtb_overread : find_dtb_offset (zeros 12 ++ DTB_MAGIC) 0 16 = Fault.
Proof. reflexivity. Qed.

(** The constructor tests every address against the length of the whole file, so
    it reads past the mapping for a file that ends on a page boundary and has no
    image in it. *)
Example boot_img_overread : boot_img_new 10 16 sample_verify (zeros 16) = Fault.
Proof. reflexivity. Qed.

(** A zero page size in a vendor header is divided by. *)
Example page_size_zero :
  parse_image 10 4096 sample_verify (VENDOR_BOOT_MAGIC ++ zeros 4088) (VENDOR_BOOT_MAGIC ++ zeros 4088) 0 AOSP_VENDOR []
  = Fault.
Proof. vm_compute. reflexivity. Qed.

(** A kernel block shorter than the MTK header it claims: the size wraps. *)
Example mtk_size_wraps :
  let h := set (Hdr dyn_img_v0 (zeros 1632)) Fld.kernel_size 100 in
  match parse_kernel 10 (MTK_MAGIC ++ zeros 1000) h [] 0 with
  | Ret ki => get (ki_hdr ki) Fld.kernel_size = 2 ^ 32 - 412
  | _ => False
  end.
Proof. vm_compute. reflexivity. Qed.
