(* ===== verification/BootOps.v ===== *)
(** The boot image commands: [split_image_dtb], [unpack], [repack], [verify] and
    [sign] of [native/src/boot/bootimg.cpp].  The working directory is a map from
    paths to file contents.  The compression streams, the digests and the AVB1 code
    (which is Rust) are parameters.  A file being written is its bytes, and the file
    position is at its end. *)

From S2P Require Import Prelude Base Files Format Streams Compress BootHdr BootImg.

Abbreviation dir_t := (gmap (list Byte.byte) (list Byte.byte)).

Definition HEADER_FILE : bytes := bs "header".
Definition KERNEL_FILE : bytes := bs "kernel".
Definition RAMDISK_FILE : bytes := bs "ramdisk.cpio".
Definition VND_RAMDISK_DIR : bytes := bs "vendor_ramdisk".
Definition SECOND_FILE : bytes := bs "second".
Definition EXTRA_FILE : bytes := bs "extra".
Definition KER_DTB_FILE : bytes := bs "kernel_dtb".
Definition RECV_DTBO_FILE : bytes := bs "recovery_dtbo".
Definition DTB_FILE : bytes := bs "dtb".
Definition BOOTCONFIG_FILE : bytes := bs "bootconfig".

(** [mmap_data m(path)]: empty when the path cannot be mapped. *)
Definition map_file (d : dir_t) (path : bytes) : bytes := default [] (d !! path).

Section ops.
Context (encode : encoder_class -> list bytes -> outcome (bytes * bool)).
Context (decode : decoder_class -> list bytes -> outcome (bytes * bool)).
Context (lgfuel : nat) (pagesize : Z).
Context (verify_boot_image : bytes -> bytes -> option bytes -> bool).

(** The local [decompress]: one write and the destructor, the result ignored. *)
Definition decompress_to (type : format_t) (input : bytes) : outcome bytes :=
  let! (out, _) := decode (get_decoder type) [input] in Ret out.

(** The local [compress]: what the encoder appends to the file. *)
Definition compress_to (type : format_t) (input : bytes) : outcome bytes :=
  let! (out, _) := encode (get_encoder type) [input] in Ret out.

(** [dump]: nothing for an empty block, not even an empty file. *)
Definition dump (mem : bytes) (buf size : Z) (filename : bytes) (d : dir_t) : outcome dir_t :=
  if size =? 0 then Ret d else let! b := rd mem buf size in Ret (<[filename := b]> d).

(** Dump a block, decompressed when its format is known and it is not skipped. *)
Definition dump_block (skip : bool) (fmt : format_t) (mem : bytes) (buf size : Z) (filename : bytes) (d : dir_t)
    : outcome dir_t :=
  if negb skip && COMPRESSED fmt then
    if negb (size =? 0) then
      let! b := rd mem buf size in
      let! o := decompress_to fmt b in Ret (<[filename := o]> d)
    else Ret d
  else dump mem buf size filename d.

(** ** split_image_dtb *)

Definition split_image_dtb (d : dir_t) (filename : bytes) (skip_decomp : bool) : outcome (dir_t * Z) :=
  let img := map_file d filename in
  let! mem := mapping pagesize img in
  let! off := find_dtb_offset mem 0 (u32 (zlen img)) in
  if 0 <? off then
    let! fmt := check_fmt_lg lgfuel mem 0 (u32 (zlen img)) in
    let! d := dump_block skip_decomp fmt mem 0 off KERNEL_FILE d in
    let! d := dump mem off (zlen img - off) KER_DTB_FILE d in
    Ret (d, 0)
  else Ret (d, 1).

(** ** unpack *)

(** The name of the file of one vendor ramdisk, in a buffer of [n] bytes. *)
Definition ramdisk_file_name (mem : bytes) (entry n : Z) : outcome bytes :=
  let! c := rd mem (entry + te_name_off) 1 in
  if memcmp_eq c [x00] then
    let! (b, _) := strscpy (zeros n) RAMDISK_FILE n in Ret (cstr b)
  else
    let! s := cstr_at mem (entry + te_name_off) in
    let! (b, _) := vssprintf (zeros n) (s ++ bs ".cpio") n in Ret (cstr b).

Fixpoint dump_table (n : nat) (skip : bool) (mem : bytes) (rd_addr entry : Z) (d : dir_t) : outcome dir_t :=
  match n with
  | O => Ret d
  | S n =>
    let! file_name := ramdisk_file_name mem entry 40 in
    let path := VND_RAMDISK_DIR ++ bs "/" ++ file_name in
    let! size := rd_le mem (entry + te_size_off) 4 in
    let! off := rd_le mem (entry + te_offset_off) 4 in
    let! fmt := check_fmt_lg lgfuel mem (rd_addr + off) size in
    let! b := rd mem (rd_addr + off) size in
    let! o := (if negb skip && COMPRESSED fmt then decompress_to fmt b else Ret b) in
    dump_table n skip mem rd_addr (entry + sizeof_table_entry) (<[path := o]> d)
  end.

(** The ramdisk part of [unpack]. *)
Definition unpack_ramdisk (skip : bool) (mem : bytes) (b : boot_img) (d : dir_t) : outcome dir_t :=
  if negb (get (hdr b) Fld.vendor_ramdisk_table_size =? 0) then
    dump_table (Z.to_nat (get (hdr b) Fld.vendor_ramdisk_table_entry_num)) skip mem
      (ramdisk (blocks b)) (vendor_ramdisk_table (blocks b)) d
  else dump_block skip (r_fmt b) mem (ramdisk (blocks b)) (get (hdr b) Fld.ramdisk_size) RAMDISK_FILE d.

(** Everything [unpack] writes for a parsed image. *)
Definition unpack_boot (skip hdr_file : bool) (mem : bytes) (b : boot_img) (d : dir_t) : outcome dir_t :=
  let h := hdr b in let bl := blocks b in
  let! d := (if hdr_file then let! t := dump_hdr_file h in Ret (<[HEADER_FILE := t]> d) else Ret d) in
  let! d := dump_block skip (k_fmt b) mem (kernel bl) (get h Fld.kernel_size) KERNEL_FILE d in
  let! d := dump mem (kernel_dtb b).1 (kernel_dtb b).2 KER_DTB_FILE d in
  let! d := unpack_ramdisk skip mem b d in
  let! d := dump mem (second bl) (get h Fld.second_size) SECOND_FILE d in
  let! d := dump_block skip (e_fmt b) mem (extra bl) (get h Fld.extra_size) EXTRA_FILE d in
  let! d := dump mem (recovery_dtbo bl) (get h Fld.recovery_dtbo_size) RECV_DTBO_FILE d in
  let! d := dump mem (dtb bl) (get h Fld.dtb_size) DTB_FILE d in
  dump mem (bootconfig bl) (get h Fld.bootconfig_size) BOOTCONFIG_FILE d.

Definition unpack (d : dir_t) (image : bytes) (skip_decomp hdr_file : bool) : outcome (dir_t * Z) :=
  let img := map_file d image in
  let! mem := mapping pagesize img in
  let! b := boot_img_new lgfuel pagesize verify_boot_image img in
  let! d := unpack_boot skip_decomp hdr_file mem b d in
  Ret (d, if on (flags b) CHROMEOS_FLAG then 2 else 0).

(** ** repack: writing the blocks *)

Record offsets := Off {
  o_header : Z; o_kernel : Z; o_ramdisk : Z; o_second : Z; o_extra : Z; o_dtb : Z; o_total : Z; o_vbmeta : Z }.

(** The file written so far and the new header. *)
Record wstate := W { out : bytes; nh : dyn_img_hdr }.

(** [lseek(fd, 0, SEEK_CUR)] kept in a [uint32_t]. *)
Definition cur (s : wstate) : Z := u32 (zlen (out s)).
Definition put (s : wstate) (b : bytes) : wstate := W (out s ++ b) (nh s).
Definition put_from (s : wstate) (mem : bytes) (addr size : Z) : outcome wstate :=
  let! b := rd mem addr size in Ret (put s b).
Definition set_size (s : wstate) (f : Fld.t) (v : Z) : wstate := W (out s) (set (nh s) f v).

(** [align_padding<off_t>(v, int a)], converted to [size_t]. *)
Definition off_padding (v a : Z) : outcome Z :=
  let a := s32 a in
  if a =? 0 then Fault else Ret (u64 (Z.quot (v + a - 1) a * a - v)).
Definition file_align_with (s : wstate) (header page_size : Z) : outcome wstate :=
  let! p := off_padding (zlen (out s) - header) page_size in
  let! o := write_zero (out s) p in Ret (W o (nh s)).

(** The new header: a copy with the sizes reset, then the header file. *)
Definition repack_hdr (b : boot_img) (d : dir_t) : outcome dyn_img_hdr :=
  let h := clone (hdr b) in
  let h := set h Fld.kernel_size 0 in
  let h := set h Fld.ramdisk_size 0 in
  let h := set h Fld.second_size 0 in
  let h := set h Fld.dtb_size 0 in
  let h := set h Fld.bootconfig_size 0 in
  match d !! HEADER_FILE with
  | Some t => load_hdr_file h t
  | None => Ret h
  end.

(** What precedes the header in images of some vendors. *)
Definition repack_head (mem : bytes) (b : boot_img) (h : dyn_img_hdr) : outcome wstate :=
  let s := W [] h in
  if on (flags b) DHTB_FLAG then let! o := write_zero [] sizeof_dhtb_hdr in Ret (W o h)
  else if on (flags b) BLOB_FLAG then put_from s mem 0 sizeof_blob_hdr
  else if on (flags b) NOOKHD_FLAG then put_from s mem 0 NOOKHD_PRE_HEADER_SZ
  else if on (flags b) ACCLAIM_FLAG then put_from s mem 0 ACCLAIM_PRE_HEADER_SZ
  else Ret s.

(** Write a file, compressed when the original block was and the file is not. *)
Definition put_file (skip : bool) (fmt : format_t) (s : wstate) (m : bytes) : outcome (wstate * Z) :=
  let! f := check_fmt m 0 (zlen m) in
  if negb skip && negb (COMPRESSED_ANY f) && COMPRESSED fmt then
    let! c := compress_to fmt m in Ret (put s c, zlen c)
  else Ret (put s m, zlen m).

(** The zero padding after a recompressed zImage payload: the difference of two
    [uint32_t] minus a [size_t]. *)
Definition zimage_pad (old new : Z) : Z := u64 (u32 (old - new) - 4).

(** The kernel file, kept at its original size inside a zImage.  [GZIP] is
    replaced by [ZOPFLI] there; both are compressed formats. *)
Definition repack_kernel_file (skip : bool) (mem : bytes) (b : boot_img) (s : wstate) (m : bytes) : outcome wstate :=
  let zimg := on (flags b) ZIMAGE_KERNEL in
  let old := get (hdr b) Fld.kernel_size in
  let fmt := if zimg && bool_decide (k_fmt b = GZIP) then ZOPFLI else k_fmt b in
  let! (s, n) := put_file skip fmt s m in
  let s := set_size s Fld.kernel_size n in
  if zimg then
    let new := get (nh s) Fld.kernel_size in
    let! s := (if old <? new then
        put_from (W (take (Z.to_nat (zlen (out s) - new)) (out s)) (nh s)) mem (kernel (blocks b)) old
      else if negb skip then
        let! o := write_zero (out s) (zimage_pad old new) in
        Ret (put (W o (nh s)) (le_enc 4 (u32 (zlen m))))
      else Ret s) in
    Ret (set_size s Fld.kernel_size old)
  else Ret s.

Definition add_size (s : wstate) (f : Fld.t) (n : Z) : wstate := set_size s f (get (nh s) f + n).

Definition repack_kernel (skip : bool) (mem : bytes) (b : boot_img) (d : dir_t) (header : Z) (s : wstate)
    : outcome wstate :=
  let! s := (match k_hdr b with
    | Some k => if on (flags b) MTK_KERNEL then put_from s mem k sizeof_mtk_hdr else Ret s
    | None => Ret s end) in
  let zimg := on (flags b) ZIMAGE_KERNEL in
  let! s := (match z_hdr b with
    | Some z => if zimg then put_from s mem z (z_hdr_sz b) else Ret s
    | None => Ret s end) in
  let! s := (match d !! KERNEL_FILE with
    | Some m => repack_kernel_file skip mem b s m
    | None =>
      let old := get (hdr b) Fld.kernel_size in
      if negb (old =? 0) then
        let! s := put_from s mem (kernel (blocks b)) old in Ret (set_size s Fld.kernel_size old)
      else Ret s
    end) in
  let! s := (if zimg then
      let s := add_size s Fld.kernel_size (z_hdr_sz b) in
      let! s := put_from s mem (z_tail b).1 (z_tail b).2 in
      Ret (add_size s Fld.kernel_size (z_tail b).2)
    else Ret s) in
  let s := (match d !! KER_DTB_FILE with
    | Some m => add_size (put s m) Fld.kernel_size (zlen m)
    | None => s end) in
  file_align_with s header (get (hdr b) Fld.page_size).

(** The loop over the vendor ramdisk table: the path mapped is the one of the
    directory, [file_name] is not used.  [off] is the running [ramdisk_offset]; the
    new table is returned. *)
Fixpoint repack_table (n : nat) (skip : bool) (mem : bytes) (d : dir_t) (rd_addr entry off : Z) (s : wstate)
    (table : bytes) : outcome (wstate * bytes * Z) :=
  match n with
  | O => Ret (s, table, off)
  | S n =>
    let! _ := ramdisk_file_name mem entry 64 in
    let m := map_file d VND_RAMDISK_DIR in
    let! e := rd mem entry sizeof_table_entry in
    let! e_size := rd_le e te_size_off 4 in
    let! e_off := rd_le e te_offset_off 4 in
    let! fmt := check_fmt_lg lgfuel mem (rd_addr + e_off) e_size in
    let! e := wr e te_offset_off (le_enc 4 off) in
    let! (s, sz) := put_file skip fmt s m in
    let! e := wr e te_size_off (le_enc 4 sz) in
    repack_table n skip mem d rd_addr (entry + sizeof_table_entry) (u32 (off + u32 sz)) s (table ++ e)
  end.

(** The ramdisk part; returns the new table as well. *)
Definition repack_ramdisk (skip : bool) (mem : bytes) (b : boot_img) (d : dir_t) (header : Z) (s : wstate)
    : outcome (wstate * bytes) :=
  let! s := (match r_hdr b with
    | Some r => if on (flags b) MTK_RAMDISK then put_from s mem r sizeof_mtk_hdr else Ret s
    | None => Ret s end) in
  if negb (get (hdr b) Fld.vendor_ramdisk_table_size =? 0) then
    let! (s, table, off) := repack_table (Z.to_nat (get (hdr b) Fld.vendor_ramdisk_table_entry_num)) skip mem d
      (ramdisk (blocks b)) (vendor_ramdisk_table (blocks b)) 0 s [] in
    let! s := file_align_with (set_size s Fld.ramdisk_size off) header (get (hdr b) Fld.page_size) in
    Ret (s, table)
  else match d !! RAMDISK_FILE with
  | Some m =>
    let fmt := if negb skip && negb (is_vendor (cls (nh s))) && (get (nh s) Fld.header_version =? 4)
                  && bool_decide (r_fmt b <> LZ4_LEGACY)
               then LZ4_LEGACY else r_fmt b in
    let! (s, n) := put_file skip fmt s m in
    let! s := file_align_with (set_size s Fld.ramdisk_size n) header (get (hdr b) Fld.page_size) in
    Ret (s, [])
  | None => Ret (s, [])
  end.

(** [restore] of an optional file, its size recorded in [f], and [file_align]. *)
Definition repack_file (f : Fld.t) (file : bytes) (d : dir_t) (header ps : Z) (s : wstate) : outcome wstate :=
  match d !! file with
  | Some m => file_align_with (set_size (put s m) f (zlen m)) header ps
  | None => Ret s
  end.

Definition repack_extra (skip : bool) (b : boot_img) (d : dir_t) (header : Z) (s : wstate) : outcome wstate :=
  match d !! EXTRA_FILE with
  | Some m =>
    let! (s, n) := put_file skip (e_fmt b) s m in
    file_align_with (set_size s Fld.extra_size n) header (get (hdr b) Fld.page_size)
  | None => Ret s
  end.

Definition repack_recovery_dtbo (d : dir_t) (header ps : Z) (s : wstate) : outcome wstate :=
  match d !! RECV_DTBO_FILE with
  | Some m =>
    let s := set_size s Fld.recovery_dtbo_offset (zlen (out s)) in
    file_align_with (set_size (put s m) Fld.recovery_dtbo_size (zlen m)) header ps
  | None => Ret s
  end.

(** The blocks after the ramdisk, up to the bootconfig; also the offsets of the
    second stage, the extra blob and the device tree. *)
Definition repack_rest (skip : bool) (mem : bytes) (b : boot_img) (d : dir_t) (header : Z) (s : wstate) (table : bytes)
    : outcome (wstate * (Z * Z * Z)) :=
  let ps := get (hdr b) Fld.page_size in
  let osecond := cur s in
  let! s := repack_file Fld.second_size SECOND_FILE d header ps s in
  let oextra := cur s in
  let! s := repack_extra skip b d header s in
  let! s := repack_recovery_dtbo d header ps s in
  let odtb := cur s in
  let! s := repack_file Fld.dtb_size DTB_FILE d header ps s in
  let sig := get (hdr b) Fld.signature_size in
  let! s := (if negb (sig =? 0) then
      let! s := put_from s mem (signature (blocks b)) sig in file_align_with s header ps
    else Ret s) in
  let! s := (match table with [] => Ret s | _ => file_align_with (put s table) header ps end) in
  let! s := repack_file Fld.bootconfig_size BOOTCONFIG_FILE d header ps s in
  Ret (s, (osecond, oextra, odtb)).

(** Trailers, vbmeta and the padding to the original size. *)
Definition repack_tail (mem : bytes) (b : boot_img) (header : Z) (s : wstate) : outcome (wstate * Z * Z) :=
  let fl := flags b in
  let s := if on fl SEANDROID_FLAG then
             put (put s SEANDROID_MAGIC) (if on fl DHTB_FLAG then [xff; xff; xff; xff] else [])
           else if on fl LG_BUMP_FLAG then put s LG_BUMP_MAGIC else s in
  let total := cur s in
  let! s := file_align_with s header (get (hdr b) Fld.page_size) in
  let! (s, vb) := (match avb_footer b, vbmeta b with
    | Some footer, Some meta =>
      if on fl AVB_FLAG then
        let! s := file_align_with s header 4096 in
        let vb := cur s in
        let! size := rd_be mem (footer + footer_vbmeta_size_off) 8 in
        let! s := put_from s mem meta size in Ret (s, vb)
      else Ret (s, 0)
    | _, _ => Ret (s, 0) end) in
  let! s := (if on fl CHROMEOS_FLAG then Ret s
    else if zlen (out s) <? zlen (map_data b) then
      let! o := write_zero (out s) (zlen (map_data b) - zlen (out s)) in Ret (W o (nh s))
    else Ret s) in
  Ret (s, total, vb).

(** All the blocks: the file, the new header and the offsets. *)
Definition repack_write (skip : bool) (mem : bytes) (b : boot_img) (d : dir_t) : outcome (wstate * offsets) :=
  let! h := repack_hdr b d in
  let! s := repack_head mem b h in
  let oheader := cur s in
  let! space := hdr_space h in
  let! s := put_from s mem (payload b).1 space in
  let okernel := cur s in
  let! s := repack_kernel skip mem b d oheader s in
  let oramdisk := cur s in
  let! (s, table) := repack_ramdisk skip mem b d oheader s in
  let! (s, (osecond, oextra, odtb)) := repack_rest skip mem b d oheader s table in
  let! (s, total, vb) := repack_tail mem b oheader s in
  Ret (s, Off oheader okernel oramdisk osecond oextra odtb total vb).

(** ** repack: patching the image *)

Context (sha1 sha256 : bytes -> bytes).
Context (sign_boot_image : bytes -> bytes -> option bytes -> option bytes -> bytes).
Context (patch_vbmeta_flag : bool).

(** The output mapped read-write: [o] is the mapping, [n] the size of the file. *)
Definition patch_mtk (fl : flags_t) (off : offsets) (o : bytes) (h : dyn_img_hdr) : outcome (bytes * dyn_img_hdr) :=
  let! (o, h) := (if on fl MTK_KERNEL then
      let! o := wr o (o_kernel off + mtk_size_off) (le_enc 4 (get h Fld.kernel_size)) in
      Ret (o, set h Fld.kernel_size (get h Fld.kernel_size + sizeof_mtk_hdr))
    else Ret (o, h)) in
  if on fl MTK_RAMDISK then
    let! o := wr o (o_ramdisk off + mtk_size_off) (le_enc 4 (get h Fld.ramdisk_size)) in
    Ret (o, set h Fld.ramdisk_size (get h Fld.ramdisk_size + sizeof_mtk_hdr))
  else Ret (o, h).

(** One pair of [ctx->update] calls: a block and its size. *)
Definition digest_block (o : bytes) (addr size : Z) : outcome bytes :=
  let! b := rd o addr size in Ret (b ++ le_enc 4 size).

(** Everything hashed for the id, in order. *)
Definition digest_input (off : offsets) (o : bytes) (h : dyn_img_hdr) : outcome bytes :=
  let! k := digest_block o (o_kernel off) (get h Fld.kernel_size) in
  let! r := digest_block o (o_ramdisk off) (get h Fld.ramdisk_size) in
  let! s := digest_block o (o_second off) (get h Fld.second_size) in
  let! e := (if get h Fld.extra_size =? 0 then Ret [] else digest_block o (o_extra off) (get h Fld.extra_size)) in
  let ver := get h Fld.header_version in
  let! v := (if (ver =? 1) || (ver =? 2) then
      digest_block o (get h Fld.recovery_dtbo_offset) (get h Fld.recovery_dtbo_size) else Ret []) in
  let! t := (if ver =? 2 then digest_block o (o_dtb off) (get h Fld.dtb_size) else Ret []) in
  Ret (k ++ r ++ s ++ e ++ v ++ t).

Definition patch_id (fl : flags_t) (off : offsets) (o : bytes) (h : dyn_img_hdr) : outcome dyn_img_hdr :=
  match str_ptr h Fld.id with
  | None => Ret h
  | Some p =>
    let! i := digest_input off o h in
    let! r := wr (raw h) p (zeros BOOT_ID_SIZE) in
    let! r := wr r p ((if on fl SHA256_FLAG then sha256 else sha1) i) in
    Ret (Hdr (cls h) r)
  end.

Definition patch_hdr (fl : flags_t) (off : offsets) (o : bytes) (h : dyn_img_hdr) : outcome bytes :=
  if on fl AMONET_FLAG then
    let! space := hdr_space h in
    let real_hdr_sz := Z.min (u64 (space - AMONET_MICROLOADER_SZ)) (hdr_size (cls h)) in
    let! b := rd (raw h) 0 real_hdr_sz in
    wr o (o_header off + AMONET_MICROLOADER_SZ) b
  else wr o (o_header off) (raw h).

(** The AVB footer goes to the last 64 bytes of the file. *)
Definition patch_avb (mem : bytes) (b : boot_img) (off : offsets) (n : Z) (o : bytes) : outcome bytes :=
  match avb_footer b with
  | Some f =>
    if on (flags b) AVB_FLAG then
      let footer := n - sizeof_AvbFooter in
      let! fb := rd mem f sizeof_AvbFooter in
      let! o := wr o footer fb in
      let! o := wr o (footer + footer_image_size_off) (be_enc 8 (o_total off)) in
      let! o := wr o (footer + footer_vbmeta_offset_off) (be_enc 8 (o_vbmeta off)) in
      if patch_vbmeta_flag then wr o (o_vbmeta off + vbmeta_flags_off) (be_enc 4 3) else Ret o
    else Ret o
  | None => Ret o
  end.

Definition patch_vendor (fl : flags_t) (off : offsets) (o : bytes) : outcome bytes :=
  if on fl DHTB_FLAG then
    let! o := wr o 0 DHTB_MAGIC in
    let size := u32 (o_total off - sizeof_dhtb_hdr) in
    let! o := wr o dhtb_size_off (le_enc 4 size) in
    let! b := rd o sizeof_dhtb_hdr size in
    wr o dhtb_checksum_off (sha256 b)
  else if on fl BLOB_FLAG then
    wr o blob_size_off (le_enc 4 (u32 (o_total off - sizeof_blob_hdr)))
  else Ret o.

(** [lseek(fd, off)] and a write through the descriptor. *)
Definition write_at (file : bytes) (off : Z) (v : bytes) : bytes :=
  take (Z.to_nat off) file ++ v ++ drop (Z.to_nat off + length v) file.

Definition patch_sign (fl : flags_t) (off : offsets) (o file : bytes) : outcome bytes :=
  if on fl AVB1_SIGNED_FLAG then
    let! pl := rd o (o_header off) (u32 (o_total off - o_header off)) in
    let sig := sign_boot_image pl (bs "/boot") None None in
    Ret (match sig with [] => file | _ => write_at file (o_total off) sig end)
  else Ret file.

(** The whole patching phase on the file [f]; stores into the last page after the
    end of the file are lost. *)
Definition repack_patch (mem : bytes) (b : boot_img) (f : bytes) (h : dyn_img_hdr) (off : offsets) : outcome bytes :=
  let! o := mapping pagesize f in
  let! (o, h) := patch_mtk (flags b) off o h in
  let h := set h Fld.header_size (hdr_size (cls h)) in
  let! h := patch_id (flags b) off o h in
  let! _ := print h in
  let! o := patch_hdr (flags b) off o h in
  let! o := patch_avb mem b off (zlen f) o in
  let! o := patch_vendor (flags b) off o in
  patch_sign (flags b) off o (take (length f) o).

(** [repack(src_img, out_img, skip_comp)]: the file written; [out_img] is taken to
    be none of the files read. *)
Definition repack_output (d : dir_t) (src_img : bytes) (skip_comp : bool) : outcome bytes :=
  let img := map_file d src_img in
  let! mem := mapping pagesize img in
  let! b := boot_img_new lgfuel pagesize verify_boot_image img in
  let! (s, off) := repack_write skip_comp mem b d in
  repack_patch mem b (out s) (nh s) off.
Definition repack (d : dir_t) (src_img out_img : bytes) (skip_comp : bool) : outcome dir_t :=
  let! f := repack_output d src_img skip_comp in Ret (<[out_img := f]> d).

(** ** verify and sign *)

Definition verify (d : dir_t) (image : bytes) (cert : option bytes) : outcome Z :=
  let img := map_file d image in
  let! mem := mapping pagesize img in
  let! b := boot_img_new lgfuel pagesize verify_boot_image img in
  match cert with
  | None => Ret (if on (flags b) AVB1_SIGNED_FLAG then 0 else 1)
  | Some _ =>
    let! ok := verify_view mem verify_boot_image (payload b) (tail b) cert in Ret (if ok : bool then 0 else 1)
  end.

Definition sign (d : dir_t) (image name : bytes) (cert key : option bytes) : outcome (dir_t * Z) :=
  let img := map_file d image in
  let! mem := mapping pagesize img in
  let! b := boot_img_new lgfuel pagesize verify_boot_image img in
  let! pl := rd mem (payload b).1 (payload b).2 in
  let sig := sign_boot_image pl name cert key in
  match sig with
  | [] => Ret (d, 1)
  | _ =>
    let eof := (tail b).1 in
    let file := write_at (img ++ zeros (eof - zlen img)) eof sig in
    let pos := eof + zlen sig in
    let! file := (if pos <? zlen img then
        let! z := write_zero [] (zlen img - pos) in Ret (write_at file pos z)
      else Ret file) in
    Ret (<[image := file]> d, 0)
  end.
End ops.

(** ** Lemmas: writing blocks *)

Lemma off_padding_spec v a : 0 < a < 2 ^ 31 -> 0 <= v -> v + a < 2 ^ 63 ->
  exists p, off_padding v a = Ret p /\ 0 <= p < a /\ (a | v + p).
Proof.
  intros Ha Hv Hb. unfold off_padding. rewrite s32_id by lia.
  destruct (Z.eqb_spec a 0); [lia|]. rewrite Z.quot_div_nonneg by lia.
  pose proof (Z.div_mod (v + a - 1) a ltac:(lia)).
  pose proof (Z.mod_pos_bound (v + a - 1) a ltac:(lia)).
  exists ((v + a - 1) / a * a - v). rewrite u64_id by lia. split_and!; [done|lia|lia|].
  replace (v + ((v + a - 1) / a * a - v)) with ((v + a - 1) / a * a) by lia. apply Z.divide_factor_r.
Qed.

Lemma file_align_ok s header ps : 0 < ps < 2 ^ 31 -> header <= zlen (out s) -> 0 <= header -> zlen (out s) < 2 ^ 62 ->
  exists p, file_align_with s header ps = Ret (W (out s ++ zeros p) (nh s)) /\
    0 <= p < ps /\ (ps | zlen (out s) + p - header).
Proof.
  intros Hps Hh Hh0 Hl. unfold file_align_with.
  destruct (off_padding_spec (zlen (out s) - header) ps) as (p & -> & Hp & Hd); [lia..|]. cbn [obind].
  rewrite write_zero_ok by lia. exists p. split_and!; [done|lia|lia|].
  by replace (zlen (out s) + p - header) with (zlen (out s) - header + p) by lia.
Qed.

(** [bls] are the blocks written for the fields [fs], each followed by zeros up to
    the next page boundary of the image, and the header records their sizes. *)
Inductive written (header ps : Z) (pre : bytes) : list (Fld.t * bytes) -> wstate -> Prop :=
| written_nil s : out s = pre -> (ps | zlen pre - header) -> written header ps pre [] s
| written_snoc bls s f b p h :
    written header ps pre bls s -> 0 <= p < ps -> (ps | zlen (out s) + zlen b + p - header) ->
    get h f = zlen b -> (forall g, g ∈ bls.*1 -> get h g = get (nh s) g) ->
    written header ps pre (bls ++ [(f, b)]) (W (out s ++ b ++ zeros p) h).

Lemma written_sizes header ps pre bls s : written header ps pre bls s ->
  Forall (fun '(f, b) => get (nh s) f = zlen b) bls.
Proof.
  induction 1 as [|bls s f b p h Hw IH Hp Hd Hf Hg]; [constructor|]. apply Forall_app. split; [|by constructor].
  rewrite Forall_forall in IH |- *. intros [g c] Hin. specialize (IH _ Hin). simpl in *.
  rewrite Hg; [done|]. apply list_elem_of_fmap. by exists (g, c).
Qed.

(** Reading one block back is one step of [get_blocks]. *)
Lemma get_blocks_app h base mend off fs1 fs2 l1 o1 l2 o2 :
  get_blocks h base mend off fs1 = Ret (Some (l1, o1)) ->
  get_blocks h base mend o1 fs2 = Ret (Some (l2, o2)) ->
  get_blocks h base mend off (fs1 ++ fs2) = Ret (Some (l1 ++ l2, o2)).
Proof.
  revert off l1; induction fs1 as [|f fs1 IH]; intros off l1 E1 E2; cbn [get_blocks app] in *.
  - injection E1 as <- <-. done.
  - apply bind_Ret_inv in E1 as (off' & -> & E1). cbn [obind]. destruct (mend <? base + off'); [done|].
    apply bind_Ret_inv in E1 as ([[l o]|] & E1 & Ex); [|done]. injection Ex as <- <-.
    by rewrite (IH _ _ E1 E2).
Qed.

Lemma get_blocks_ext h h' base mend off fs : get h Fld.page_size = get h' Fld.page_size ->
  Forall (fun f => get h f = get h' f) fs -> get_blocks h base mend off fs = get_blocks h' base mend off fs.
Proof.
  intros Hp Hf. revert off. induction Hf as [|f fs Hf _ IH]; intros off; [done|]. cbn [get_blocks].
  rewrite Hp, Hf. destruct (align_to _ _); try done. cbn [obind]. by rewrite IH.
Qed.

(** The reader finds what the writer wrote. *)
Lemma written_get_blocks header ps pre bls s h :
  written header ps pre bls s -> 0 < ps < 2 ^ 31 -> 0 <= header <= zlen pre -> zlen (out s) < 2 ^ 62 ->
  get h Fld.page_size = ps -> Forall (fun '(f, b) => get h f = zlen b) bls ->
  (exists suf, out s = pre ++ suf) /\
  forall mend, zlen (out s) <= mend ->
  exists starts, get_blocks h header mend (zlen pre - header) bls.*1 = Ret (Some (starts, zlen (out s) - header)) /\
    Forall2 (fun a '(_, b) => 0 <= a /\ a + zlen b <= zlen (out s) /\ sub (out s) a (zlen b) = b) starts bls.
Proof.
  intros Hw Hps Hh. induction Hw as [s Ho Hd|bls s f b p h0 Hw IH Hp Hd Hf Hg]; intros Hl Hpg Hsz.
  - subst pre. split; [exists []; by rewrite app_nil_r|]. intros mend Hm. exists []. by split.
  - cbn [out] in *. rewrite !zlen_app, zlen_zeros in * by lia.
    apply Forall_app in Hsz as [Hsz Hb]. apply Forall_cons in Hb as [Hb _].
    pose proof (zlen_nonneg b). destruct IH as [[suf Hsuf] IH]; [lia|done|done|].
    assert (zlen pre <= zlen (out s)) by (rewrite Hsuf, zlen_app; pose proof (zlen_nonneg suf); lia).
    split; [exists (suf ++ b ++ zeros p); by rewrite Hsuf, <- app_assoc|]. intros mend Hm.
    destruct (IH mend) as (starts & E & HF); [lia|].
    exists (starts ++ [zlen (out s)]). split.
    + rewrite fmap_app. eapply get_blocks_app; [exact E|]. cbn [fmap list_fmap fst get_blocks].
      rewrite Hb, Hpg, u64_id by lia.
      assert (Ea : align_to (zlen (out s) - header + zlen b) ps = Ret (zlen (out s) - header + zlen b + p)).
      { destruct (align_to_spec (zlen (out s) - header + zlen b) ps) as (r & Er & Hr & Hrd); [lia..|].
        rewrite Er. f_equal.
        assert (Hd' : (ps | zlen (out s) - header + zlen b + p))
          by (by replace (zlen (out s) - header + zlen b + p) with (zlen (out s) + zlen b + p - header) by lia).
        destruct Hrd as [q Hq], Hd' as [q' Hq']. assert (q = q') by nia. nia. }
      rewrite Ea. cbn [obind]. rewrite (proj2 (Z.ltb_ge _ _)) by lia. cbn [obind fmap option_fmap option_map].
      do 3 f_equal; [f_equal; lia|lia].
    + apply Forall2_app.
      * eapply Forall2_impl; [exact HF|]. intros a [g c] (Ha & Hc & Hs). split_and!; [done|lia|].
        rewrite sub_app_l by (pose proof (zlen_nonneg c); lia). done.
      * constructor; [|constructor]. split_and!; [apply zlen_nonneg|lia|]. apply sub_app_exact.
Qed.

Lemma load_prop_same h k v r : hdr_ok h -> load_prop h k v = Ret r ->
  same_but [Fld.name; Fld.cmdline; Fld.extra_cmdline; Fld.os_version] h r.
Proof.
  intros Hok E. unfold load_prop in E.
  assert (Hos : forall x, same_but [Fld.name; Fld.cmdline; Fld.extra_cmdline; Fld.os_version] h (set h Fld.os_version x)).
  { intros x. eapply same_but_weaken; [by apply set_same_but|set_solver]. }
  assert (Hrest : (if memcmp_eq k (bs "cmdline") then
      match str_ptr h Fld.cmdline, str_ptr h Fld.extra_cmdline with
      | Some p, Some q => load_cmdline h p q v | _, _ => Fault end
    else if memcmp_eq k (bs "os_version") then
      let! x := load_os_version (get h Fld.os_version) v in Ret (set h Fld.os_version x)
    else if memcmp_eq k (bs "os_patch_level") then
      let! x := load_os_patch_level (get h Fld.os_version) v in Ret (set h Fld.os_version x)
    else Ret h) = Ret r -> same_but [Fld.name; Fld.cmdline; Fld.extra_cmdline; Fld.os_version] h r).
  { clear E. intros E. destruct (memcmp_eq k (bs "cmdline")).
    - unfold str_ptr in E. destruct (cmdline_regions (cls h)) as (p & q & Ep & Eq). rewrite Ep, Eq in E. simpl in E.
      eapply same_but_weaken; [by eapply load_cmdline_same|set_solver].
    - destruct (memcmp_eq k (bs "os_version")); [apply bind_Ret_inv in E as (x & _ & [= <-]); done|].
      destruct (memcmp_eq k (bs "os_patch_level")); [apply bind_Ret_inv in E as (x & _ & [= <-]); done|].
      injection E as <-. by apply same_but_refl. }
  destruct (str_ptr h Fld.name) as [p|] eqn:En; [|exact (Hrest E)].
  destruct (memcmp_eq k (bs "name")); [|exact (Hrest E)].
  unfold str_ptr in En. destruct (region (cls h) Fld.name) as [[o w]|] eqn:Er; [|done]. simpl in En. injection En as <-.
  pose proof (name_region _ _ _ Er); subst w.
  eapply same_but_weaken; [by eapply load_name_same|set_solver].
Qed.

Definition load_fields : list Fld.t := [Fld.name; Fld.cmdline; Fld.extra_cmdline; Fld.os_version].

Lemma load_hdr_file_same h t r : hdr_ok h -> load_hdr_file h t = Ret r -> same_but load_fields h r.
Proof.
  unfold load_hdr_file, parse_prop_file, file_readline. intros Hok.
  assert (Hstuck : forall ls (st : outcome dyn_img_hdr) r, (forall h, st <> Ret h) ->
    readline_loop true (fun st line => match prop_of_line line with
      | None => (st, true) | Some (k, v) => ((let! h := st in load_prop h k v), true) end) ls st <> Ret r).
  { induction ls as [|l ls IH]; intros st r0 Hst; [apply Hst|]. cbn [readline_loop].
    destruct (prop_of_line _) as [[k v]|]; apply IH; [|done]. intros x. destruct st; try done. by destruct (Hst a). }
  generalize (getlines t). intros ls. revert h Hok. induction ls as [|l ls IH]; intros h Hok E; cbn [readline_loop] in E.
  { injection E as <-. by apply same_but_refl. }
  destruct (prop_of_line _) as [[k v]|]; [|by apply IH]. cbn [obind] in E.
  destruct (load_prop h k v) as [h1| | |] eqn:E1; try (exfalso; eapply Hstuck; [|exact E]; done).
  apply load_prop_same in E1; [|done].
  eapply same_but_weaken; [eapply same_but_trans; [exact E1|apply IH; [apply E1|exact E]]|].
  unfold load_fields. set_solver.
Qed.

(** The fields [repack_hdr] clears. *)
Definition reset_fields : list Fld.t :=
  [Fld.kernel_size; Fld.ramdisk_size; Fld.second_size; Fld.dtb_size; Fld.bootconfig_size].

Lemma get_set_zero h f : hdr_ok h -> f <> Fld.page_size -> get (set h f 0) f = 0.
Proof.
  intros Hok Hf. destruct (region (cls h) f) as [[o w]|] eqn:E.
  - destruct (set_spec h f 0 o w Hok E) as (_ & -> & _). by rewrite Zmod_0_l.
  - rewrite set_absent by done. unfold get. rewrite E. destruct f; done.
Qed.

Lemma reset_spec fs : Fld.page_size ∉ fs -> forall h, hdr_ok h ->
  same_but fs h (fold_left (fun h f => set h f 0) fs h) /\
  forall f, f ∈ fs -> get (fold_left (fun h f => set h f 0) fs h) f = 0.
Proof.
  induction fs as [|g fs IH]; intros Hp h Hok; cbn [fold_left].
  { split; [by apply same_but_refl|]. intros f Hf. by apply not_elem_of_nil in Hf. }
  apply not_elem_of_cons in Hp as [Hg Hp]. pose proof (set_same_but h g 0 Hok) as S1.
  destruct (IH Hp (set h g 0) (proj1 (proj2 S1))) as [S2 H2].
  split; [by apply (same_but_trans [g] fs h (set h g 0))|].
  intros f Hf. destruct (decide (f ∈ fs)); [by apply H2|].
  apply elem_of_cons in Hf as [->|]; [|done]. rewrite (same_but_get _ _ _ _ S2) by done.
  by apply get_set_zero.
Qed.

Lemma repack_hdr_spec b d h0 : hdr_ok (hdr b) -> repack_hdr b d = Ret h0 ->
  hdr_ok h0 /\ cls h0 = cls (hdr b) /\
  (forall f, f ∈ reset_fields -> get h0 f = 0) /\
  (forall f, f ∉ reset_fields -> f ∉ load_fields -> get h0 f = get (hdr b) f).
Proof.
  intros Hok E. unfold repack_hdr in E.
  change (set (set (set (set (set (clone (hdr b)) Fld.kernel_size 0) Fld.ramdisk_size 0) Fld.second_size 0)
    Fld.dtb_size 0) Fld.bootconfig_size 0) with (fold_left (fun h f => set h f 0) reset_fields (clone (hdr b))) in E.
  assert (Hc : clone (hdr b) = hdr b) by (by destruct (hdr b)). rewrite Hc in E.
  destruct (reset_spec reset_fields ltac:(unfold reset_fields; set_solver) (hdr b) Hok) as [S1 Hz].
  set (h1 := fold_left _ _ _) in *.
  assert (S2 : same_but load_fields h1 h0).
  { destruct (d !! HEADER_FILE); [eapply load_hdr_file_same; [apply S1|done]|].
    injection E as <-. apply same_but_refl, S1. }
  split_and!; [apply S2|rewrite (proj1 S2); apply S1| |].
  - intros f Hf. rewrite (same_but_get _ _ _ _ S2); [by apply Hz|]. revert Hf. unfold reset_fields, load_fields.
    rewrite !elem_of_cons, elem_of_nil. naive_solver.
  - intros f H1 H2. rewrite (same_but_get _ _ _ _ S2) by done. by rewrite (same_but_get _ _ _ _ S1).
Qed.

(** A size of 32 bits reads back, also zero in a class without the field. *)
Lemma set_get_sized h f v : hdr_ok h -> f <> Fld.page_size -> 0 <= v < 2 ^ 32 ->
  (v <> 0 -> exists o, region (cls h) f = Some (o, 4)) -> get (set h f v) f = v.
Proof.
  intros Hok Hp Hv Hsz. destruct (decide (v = 0)) as [->|Hne]; [by apply get_set_zero|].
  destruct (Hsz Hne) as [o E]. destruct (set_spec h f v o 4 Hok E) as (_ & -> & _). by apply Z.mod_small.
Qed.

(** ** Lemmas: the blocks of repack *)

Section layout.
Context (encode : encoder_class -> list bytes -> outcome (bytes * bool)).
Context (lgfuel : nat) (skip : bool) (mem : bytes) (b : boot_img) (d : dir_t) (h0 : dyn_img_hdr) (header : Z) (pre : bytes).
Notation ps := (get (hdr b) Fld.page_size).
Context (Hps : 0 < ps < 2 ^ 31) (Hh0 : hdr_ok h0) (Hheader : 0 <= header <= zlen pre) (Hpre : zlen pre < 2 ^ 40).

(** The image written so far: the blocks [bls], and a header that differs from
    [h0] only in the sizes of those blocks and the recovery_dtbo offset. *)
Definition progress (bls : list (Fld.t * bytes)) (s : wstate) : Prop :=
  written header ps pre bls s /\
  same_but (Fld.recovery_dtbo_offset :: bls.*1) h0 (nh s) /\
  zlen pre <= zlen (out s) <= zlen pre + Z.of_nat (length bls) * 2 ^ 33 /\
  (ps | zlen (out s) - header).

Lemma progress_start s : out s = pre -> nh s = h0 -> (ps | zlen pre - header) -> progress [] s.
Proof using Hps Hh0 Hheader Hpre.
  intros Ho Hn Hd. unfold progress. rewrite Ho, Hn. simpl.
  split_and!; [by constructor|by apply same_but_refl|lia|lia|done].
Qed.

(** A block with nothing to write. *)
Lemma progress_absent bls s f : progress bls s -> get (nh s) f = 0 -> progress (bls ++ [(f, [])]) s.
Proof using Hps Hh0 Hheader Hpre.
  intros (Hw & Hs & Hl & Hd) Hf. unfold progress. rewrite length_app, fmap_app. simpl length.
  split_and!; [|eapply same_but_weaken; [exact Hs|set_solver]|lia|lia|done].
  replace s with (W (out s ++ [] ++ zeros 0) (nh s)) at 1 by (destruct s; simpl; by rewrite app_nil_r).
  apply written_snoc; try done; [lia|]. simpl. by rewrite zlen_nil, !Z.add_0_r.
Qed.

(** A block is appended, its size is in the new header, and the file is aligned. *)
Lemma progress_block bls s f blk h : progress bls s -> (length bls < 20)%nat -> f ∉ bls.*1 ->
  f <> Fld.recovery_dtbo_offset -> zlen blk < 2 ^ 32 ->
  same_but [f] (nh s) h -> get h f = zlen blk ->
  exists s', file_align_with (W (out s ++ blk) h) header ps = Ret s' /\ progress (bls ++ [(f, blk)]) s'.
Proof using Hps Hh0 Hheader Hpre.
  intros (Hw & Hs & Hl & Hd) Hn Hf Hr Hb Hsame Hg. pose proof (zlen_nonneg blk).
  destruct (file_align_ok (W (out s ++ blk) h) header ps) as (p & Ep & Hp & Hpd);
    [lia|simpl; rewrite zlen_app; lia|lia|simpl; rewrite zlen_app; lia|].
  simpl in Ep, Hpd. rewrite zlen_app in Hpd. rewrite <- app_assoc in Ep. eexists. split; [exact Ep|].
  unfold progress. rewrite length_app, fmap_app. cbn [out nh length fmap list_fmap fst].
  rewrite !zlen_app, zlen_zeros by lia. split_and!.
  - apply written_snoc; [done|done|done|done|].
    intros g Hin. apply (same_but_get _ _ _ _ Hsame). intros ->%list_elem_of_singleton. done.
  - eapply same_but_weaken; [by eapply same_but_trans|]. set_solver.
  - lia.
  - lia.
  - by replace (zlen (out s) + (zlen blk + p) - header) with (zlen (out s) + zlen blk + p - header) by lia.
Qed.

(** Fields that can hold a size of 32 bits. *)
Definition sized (f : Fld.t) : Prop := exists o, region (cls h0) f = Some (o, 4).

Lemma progress_sized bls s f blk : progress bls s -> (length bls < 20)%nat -> f ∉ bls.*1 ->
  f <> Fld.recovery_dtbo_offset -> f <> Fld.page_size -> zlen blk < 2 ^ 32 -> (blk <> [] -> sized f) ->
  exists s', file_align_with (set_size (put s blk) f (zlen blk)) header ps = Ret s' /\ progress (bls ++ [(f, blk)]) s'.
Proof using Hps Hh0 Hheader Hpre.
  intros Hpr Hn Hf Hr Hp Hb Hsz. pose proof Hpr as (_ & Hs & _). apply progress_block; try done.
  - apply set_same_but, Hs.
  - cbn [put nh]. pose proof (zlen_nonneg blk). apply set_get_sized; [apply Hs|done|lia|].
    intros Hne. rewrite (proj1 Hs). apply Hsz. by intros ->.
Qed.

Lemma progress_get bls s f : progress bls s -> f ∉ bls.*1 -> f <> Fld.recovery_dtbo_offset -> get (nh s) f = get h0 f.
Proof. intros (_ & Hs & _) Hf Hr. apply (same_but_get _ _ _ _ Hs). rewrite not_elem_of_cons. done. Qed.

(** An optional block: either written and recorded, or absent from a header
    that says so. *)
Lemma progress_opt bls s f (o : option bytes) : progress bls s -> (length bls < 20)%nat -> f ∉ bls.*1 ->
  f <> Fld.recovery_dtbo_offset -> f <> Fld.page_size -> zlen (default [] o) < 2 ^ 32 ->
  (default [] o <> [] -> sized f) -> (o = None -> get h0 f = 0) ->
  exists s', (match o with
    | Some m => file_align_with (set_size (put s m) f (zlen m)) header ps
    | None => Ret s end) = Ret s' /\ progress (bls ++ [(f, default [] o)]) s'.
Proof using Hps Hh0 Hheader Hpre.
  intros Hpr Hn Hf Hr Hp Hl Hsz Hz. destruct o as [m|]; [by apply progress_sized|].
  exists s. split; [done|]. apply progress_absent; [done|]. rewrite (progress_get bls); auto.
Qed.

(** What [put_file] writes. *)
Definition file_block (fmt : format_t) (m : bytes) : outcome bytes :=
  let! f := check_fmt m 0 (zlen m) in
  if negb skip && negb (COMPRESSED_ANY f) && COMPRESSED fmt then compress_to encode fmt m else Ret m.

Lemma put_file_eq fmt s m : put_file encode skip fmt s m = let! c := file_block fmt m in Ret (put s c, zlen c).
Proof.
  unfold put_file, file_block. destruct (check_fmt m 0 (zlen m)); try done. cbn [obind].
  by destruct (_ && _).
Qed.

(** The format [repack] uses for the ramdisk. *)
Definition ramdisk_fmt : format_t :=
  if negb skip && negb (is_vendor (cls h0)) && (get h0 Fld.header_version =? 4) && bool_decide (r_fmt b <> LZ4_LEGACY)
  then LZ4_LEGACY else r_fmt b.

(** The contents [repack] gives to each block. *)
Definition opt_block (fmt : format_t) (o : option bytes) : outcome (option bytes) :=
  match o with Some m => let! c := file_block fmt m in Ret (Some c) | None => Ret None end.

Definition kernel_block : outcome bytes :=
  let old := get (hdr b) Fld.kernel_size in
  let! k := (match d !! KERNEL_FILE with
    | Some m => file_block (k_fmt b) m
    | None => if old =? 0 then Ret [] else rd mem (kernel (blocks b)) old end) in
  Ret (k ++ default [] (d !! KER_DTB_FILE)).

(** No vendor specific wrapping. *)
Definition special : list flag :=
  [MTK_KERNEL; MTK_RAMDISK; DHTB_FLAG; BLOB_FLAG; NOOKHD_FLAG; ACCLAIM_FLAG; AMONET_FLAG; ZIMAGE_KERNEL; AVB_FLAG].
Definition plain_image : Prop := forall f, f ∈ special -> on (flags b) f = false.

Lemma plain_skip {A} (f : flag) (o : option A) (k : A -> outcome wstate) s : plain_image -> f ∈ special ->
  match o with Some x => if on (flags b) f then k x else Ret s | None => Ret s end = Ret s.
Proof. intros Hp Hf. rewrite (Hp f Hf). by destruct o. Qed.

Lemma kernel_written s k : hdr_ok (nh s) -> zlen k < 2 ^ 32 -> get (nh s) Fld.kernel_size = 0 -> plain_image ->
  (match d !! KERNEL_FILE with
   | Some m => file_block (k_fmt b) m
   | None => if get (hdr b) Fld.kernel_size =? 0 then Ret [] else rd mem (kernel (blocks b)) (get (hdr b) Fld.kernel_size)
   end) = Ret k ->
  (k <> [] -> exists o, region (cls (nh s)) Fld.kernel_size = Some (o, 4)) ->
  exists h, (match d !! KERNEL_FILE with
    | Some m => repack_kernel_file encode skip mem b s m
    | None =>
      if negb (get (hdr b) Fld.kernel_size =? 0) then
        let! s := put_from s mem (kernel (blocks b)) (get (hdr b) Fld.kernel_size) in
        Ret (set_size s Fld.kernel_size (get (hdr b) Fld.kernel_size))
      else Ret s
    end) = Ret (W (out s ++ k) h) /\ same_but [Fld.kernel_size] (nh s) h /\ get h Fld.kernel_size = zlen k.
Proof.
  intros Hok Hl Hz Hp E Hsz. pose proof (zlen_nonneg k).
  assert (Hg : get (set (nh s) Fld.kernel_size (zlen k)) Fld.kernel_size = zlen k).
  { apply set_get_sized; [done|done|lia|]. intros Hne. apply Hsz. by intros ->. }
  destruct (d !! KERNEL_FILE) as [m|].
  - unfold repack_kernel_file. rewrite (Hp ZIMAGE_KERNEL) by (unfold special; set_solver). cbn [andb].
    rewrite put_file_eq, E. cbn [obind]. eexists. split; [done|]. cbn [put nh].
    split; [by apply set_same_but|done].
  - destruct (Z.eqb_spec (get (hdr b) Fld.kernel_size) 0); cbn [negb].
    + injection E as <-. exists (nh s). rewrite app_nil_r. split_and!; [by destruct s|by apply same_but_refl|done].
    + unfold put_from. rewrite E. cbn [obind]. eexists. split; [done|]. cbn [put nh].
      apply rd_Ret_inv in E as (? & ? & ? & ->). rewrite length_sub in Hg by lia. rewrite length_sub by lia.
      split; [by apply set_same_but|done].
Qed.

Lemma progress_kernel s kb : progress [] s -> plain_image -> kernel_block = Ret kb -> zlen kb < 2 ^ 32 ->
  (kb <> [] -> sized Fld.kernel_size) -> get h0 Fld.kernel_size = 0 ->
  exists s', repack_kernel encode skip mem b d header s = Ret s' /\ progress [(Fld.kernel_size, kb)] s'.
Proof using Hps Hh0 Hheader Hpre.
  intros Hpr Hp Hk Hl Hsz Hz. pose proof Hpr as (_ & Hs & _).
  unfold kernel_block in Hk. apply bind_Ret_inv in Hk as (k & Hk & [= <-]). set (t := default [] (d !! KER_DTB_FILE)) in *.
  rewrite zlen_app in Hl. pose proof (zlen_nonneg k). pose proof (zlen_nonneg t).
  destruct (kernel_written s k) as (h1 & Ek & S1 & G1); [apply Hs|lia| |done|done| |].
  { rewrite (progress_get []); [done|done|apply not_elem_of_nil|done]. }
  { rewrite (proj1 Hs). intros Hne. apply Hsz. by destruct k. }
  unfold repack_kernel.
  rewrite (plain_skip MTK_KERNEL (k_hdr b)) by (done || unfold special; set_solver). cbn [obind].
  rewrite (plain_skip ZIMAGE_KERNEL (z_hdr b)) by (done || unfold special; set_solver). cbn [obind].
  rewrite Ek. cbn [obind]. rewrite (Hp ZIMAGE_KERNEL) by (unfold special; set_solver). cbn [obind].
  set (s2 := match d !! KER_DTB_FILE with Some m => _ | None => _ end).
  assert (exists h2, s2 = W (out s ++ k ++ t) h2 /\ same_but [Fld.kernel_size] (nh s) h2 /\
    get h2 Fld.kernel_size = zlen (k ++ t)) as (h2 & -> & S2 & G2).
  { unfold s2, t in *. rewrite zlen_app. destruct (d !! KER_DTB_FILE) as [m|]; cbn [default] in *.
    - unfold add_size, put, set_size. cbn [out nh]. rewrite G1, <- app_assoc. eexists. split; [done|]. split.
      + eapply same_but_weaken; [eapply same_but_trans; [exact S1|apply set_same_but, S1]|set_solver].
      + apply set_get_sized; [apply S1|done|lia|]. intros Hne. rewrite (proj1 S1), (proj1 Hs). apply Hsz.
        destruct k; [|done]. by destruct m.
    - rewrite app_nil_r, zlen_nil, Z.add_0_r. by exists h1. }
  apply (progress_block []); try done; [simpl; lia|apply not_elem_of_nil|rewrite zlen_app; lia].
Qed.

Lemma progress_ramdisk bls s o : progress bls s -> plain_image -> (length bls < 20)%nat ->
  Fld.ramdisk_size ∉ bls.*1 -> Fld.header_version ∉ bls.*1 ->
  get (hdr b) Fld.vendor_ramdisk_table_size = 0 -> opt_block ramdisk_fmt (d !! RAMDISK_FILE) = Ret o ->
  zlen (default [] o) < 2 ^ 32 -> (default [] o <> [] -> sized Fld.ramdisk_size) -> get h0 Fld.ramdisk_size = 0 ->
  exists s', repack_ramdisk encode lgfuel skip mem b d header s = Ret (s', []) /\
    progress (bls ++ [(Fld.ramdisk_size, default [] o)]) s'.
Proof using Hps Hh0 Hheader Hpre.
  intros Hpr Hp Hn Hr Hv Ht Eo Hl Hsz Hz. unfold repack_ramdisk.
  rewrite (plain_skip MTK_RAMDISK (r_hdr b)) by (done || unfold special; set_solver). cbn [obind].
  rewrite Ht. cbn [Z.eqb negb]. unfold opt_block in Eo.
  destruct (progress_opt bls s Fld.ramdisk_size o) as (s' & Es & Hs'); [done..|].
  exists s'. split; [|done]. destruct (d !! RAMDISK_FILE) as [m|].
  - apply bind_Ret_inv in Eo as (c & Ec & [= <-]).
    rewrite (progress_get bls s Fld.header_version), (proj1 (proj1 (proj2 Hpr))) by done. fold ramdisk_fmt.
    rewrite put_file_eq, Ec. cbn [obind]. rewrite Es. done.
  - injection Eo as <-. by injection Es as ->.
Qed.

Lemma progress_extra bls s o : progress bls s -> (length bls < 20)%nat -> Fld.extra_size ∉ bls.*1 ->
  opt_block (e_fmt b) (d !! EXTRA_FILE) = Ret o ->
  zlen (default [] o) < 2 ^ 32 -> (default [] o <> [] -> sized Fld.extra_size) -> (o = None -> get h0 Fld.extra_size = 0) ->
  exists s', repack_extra encode skip b d header s = Ret s' /\ progress (bls ++ [(Fld.extra_size, default [] o)]) s'.
Proof using Hps Hh0 Hheader Hpre.
  intros Hpr Hn Hr Eo Hl Hsz Hz. destruct (progress_opt bls s Fld.extra_size o) as (s' & Es & Hs'); [done..|].
  exists s'. split; [|done]. unfold repack_extra, opt_block in *. destruct (d !! EXTRA_FILE) as [m|].
  - apply bind_Ret_inv in Eo as (c & Ec & [= <-]). rewrite put_file_eq, Ec. cbn [obind]. done.
  - by injection Eo as <-.
Qed.

Lemma progress_rdo bls s v : progress bls s -> Fld.recovery_dtbo_offset ∉ bls.*1 ->
  progress bls (set_size s Fld.recovery_dtbo_offset v).
Proof.
  intros (Hw & Hs & Hl & Hd) Hr. pose proof (set_same_but (nh s) Fld.recovery_dtbo_offset v (proj1 (proj2 Hs))) as S2.
  unfold progress. cbn [set_size nh out]. split; [|split; [|by split]].
  - inversion Hw as [s0 Ho Hd0|bls0 s0 f0 b0 p0 h1 Hw0 Hp0 Hd0 Hg0 Hk0]; subst.
    + by constructor.
    + cbn [nh out] in *. rewrite fmap_app, not_elem_of_app in Hr. destruct Hr as [Hr1 Hr2].
      apply written_snoc; try done.
      * rewrite (same_but_get _ _ _ _ S2); [done|]. set_solver.
      * intros g Hg. rewrite <- Hk0 by done. apply (same_but_get _ _ _ _ S2). set_solver.
  - eapply same_but_weaken; [by eapply same_but_trans|set_solver].
Qed.

Lemma progress_recovery bls s : progress bls s -> (length bls < 20)%nat ->
  Fld.recovery_dtbo_size ∉ bls.*1 -> Fld.recovery_dtbo_offset ∉ bls.*1 ->
  zlen (default [] (d !! RECV_DTBO_FILE)) < 2 ^ 32 ->
  (default [] (d !! RECV_DTBO_FILE) <> [] -> sized Fld.recovery_dtbo_size) ->
  (d !! RECV_DTBO_FILE = None -> get h0 Fld.recovery_dtbo_size = 0) ->
  exists s', repack_recovery_dtbo d header ps s = Ret s' /\
    progress (bls ++ [(Fld.recovery_dtbo_size, default [] (d !! RECV_DTBO_FILE))]) s'.
Proof using Hps Hh0 Hheader Hpre.
  intros Hpr Hn Hr Hr2 Hl Hsz Hz. unfold repack_recovery_dtbo. destruct (d !! RECV_DTBO_FILE) as [m|] eqn:E.
  - apply (progress_opt bls (set_size s Fld.recovery_dtbo_offset (zlen (out s))) Fld.recovery_dtbo_size (Some m));
      try done. by apply progress_rdo.
  - by apply (progress_opt bls s Fld.recovery_dtbo_size None).
Qed.

Lemma progress_signature bls s sg : progress bls s -> (length bls < 20)%nat -> Fld.signature_size ∉ bls.*1 ->
  get h0 Fld.signature_size = get (hdr b) Fld.signature_size -> get (hdr b) Fld.signature_size < 2 ^ 32 ->
  (if get (hdr b) Fld.signature_size =? 0 then Ret []
   else rd mem (signature (blocks b)) (get (hdr b) Fld.signature_size)) = Ret sg ->
  exists s', (if negb (get (hdr b) Fld.signature_size =? 0) then
      let! s := put_from s mem (signature (blocks b)) (get (hdr b) Fld.signature_size) in file_align_with s header ps
    else Ret s) = Ret s' /\ progress (bls ++ [(Fld.signature_size, sg)]) s'.
Proof using Hps Hh0 Hheader Hpre.
  intros Hpr Hn Hr Hg Hb E. destruct (Z.eqb_spec (get (hdr b) Fld.signature_size) 0) as [Hz|Hz]; cbn [negb].
  - injection E as <-. exists s. split; [done|]. apply progress_absent; [done|]. rewrite (progress_get bls); [lia|done..].
  - unfold put_from. rewrite E. cbn [obind]. apply rd_Ret_inv in E as (? & ? & ? & ->). pose proof Hpr as (_ & Hs & _).
    apply progress_block; try done.
    + rewrite length_sub; lia.
    + apply same_but_refl, Hs.
    + rewrite (progress_get bls), length_sub by (done || lia). done.
Qed.

Lemma repack_tail_ok s : plain_image -> header <= zlen (out s) -> zlen (out s) < 2 ^ 60 -> zlen (map_data b) < 2 ^ 62 ->
  exists s' total vb suf, repack_tail mem b header s = Ret (s', total, vb) /\ out s' = out s ++ suf /\ nh s' = nh s.
Proof using Hps Hh0 Hheader Hpre.
  intros Hp Hh Hl Hm. unfold repack_tail.
  set (s1 := if on (flags b) SEANDROID_FLAG then _ else _).
  assert (exists x, out s1 = out s ++ x /\ zlen x <= 20 /\ nh s1 = nh s) as (x & Ex & Hx & En).
  { unfold s1. destruct (on (flags b) SEANDROID_FLAG).
    - exists (SEANDROID_MAGIC ++ if on (flags b) DHTB_FLAG then [xff; xff; xff; xff] else []).
      split_and!; [simpl; by rewrite <- app_assoc|destruct (on _ _); vm_compute; congruence|done].
    - destruct (on (flags b) LG_BUMP_FLAG); [exists LG_BUMP_MAGIC|exists []]; split_and!;
        try (by rewrite app_nil_r); try done; vm_compute; congruence. }
  clearbody s1. pose proof (zlen_nonneg x).
  destruct (file_align_ok s1 header ps) as (p & -> & Hpp & _); [done|rewrite Ex, zlen_app; lia|lia|rewrite Ex, zlen_app; lia|].
  cbn [obind]. rewrite (Hp AVB_FLAG) by (unfold special; set_solver).
  assert (Hav : forall s0, match avb_footer b, vbmeta b with Some _, Some _ => Ret (s0, 0) | _, _ => Ret (s0, 0) end
    = Ret (A := wstate * Z) (s0, 0)) by (intros s0; by destruct (avb_footer b), (vbmeta b)).
  rewrite Hav. cbn [obind]. destruct (on (flags b) CHROMEOS_FLAG); cbn [obind].
  { eexists _, _, _, (x ++ zeros p). split; [done|]. simpl. by rewrite Ex, <- app_assoc. }
  destruct (Z.ltb_spec (zlen (out {| out := out s1 ++ zeros p; nh := nh s1 |})) (zlen (map_data b))) as [Hlt|Hge].
  - rewrite write_zero_ok by lia. cbn [obind].
    eexists _, _, _, (x ++ zeros p ++ zeros _). split; [done|]. simpl. rewrite Ex, <- !app_assoc. done.
  - cbn [obind]. eexists _, _, _, (x ++ zeros p). split; [done|]. simpl. by rewrite Ex, <- app_assoc.
Qed.

(** The nine blocks of the new image. *)
Definition new_blocks (kb : bytes) (r e : option bytes) (sg : bytes) : list bytes :=
  [kb; default [] r; default [] (d !! SECOND_FILE); default [] e; default [] (d !! RECV_DTBO_FILE);
   default [] (d !! DTB_FILE); sg; []; default [] (d !! BOOTCONFIG_FILE)].

(** Every block is below 4 GiB, and the header class has a field for it. *)
Definition blocks_fit (blks : list bytes) : Prop :=
  Forall2 (fun f blk => zlen blk < 2 ^ 32 /\ (blk <> [] -> sized f)) block_fields blks.

(** Sizes [repack] does not reset must be those of files that are there. *)
Definition no_stale : Prop :=
  (d !! EXTRA_FILE = None -> get (hdr b) Fld.extra_size = 0) /\
  (d !! RECV_DTBO_FILE = None -> get (hdr b) Fld.recovery_dtbo_size = 0).

Lemma progress_rest s kb r e sg : repack_hdr b d = Ret h0 -> hdr_ok (hdr b) -> no_stale ->
  progress [(Fld.kernel_size, kb); (Fld.ramdisk_size, default [] r)] s ->
  get (hdr b) Fld.vendor_ramdisk_table_size = 0 ->
  opt_block (e_fmt b) (d !! EXTRA_FILE) = Ret e ->
  (if get (hdr b) Fld.signature_size =? 0 then Ret []
   else rd mem (signature (blocks b)) (get (hdr b) Fld.signature_size)) = Ret sg ->
  blocks_fit (new_blocks kb r e sg) ->
  exists s' offs, repack_rest encode skip mem b d header s [] = Ret (s', offs) /\
    progress (zip block_fields (new_blocks kb r e sg)) s'.
Proof using Hps Hh0 Hheader Hpre.
  intros Eh Hok [St1 St2] Hpr Ht Ee Esg Hfit. unfold blocks_fit, new_blocks, block_fields in *.
  repeat match goal with H : Forall2 _ (_ :: _) _ |- _ => apply Forall2_cons in H as [[? ?] H] end.
  destruct (repack_hdr_spec b d h0 Hok Eh) as (_ & _ & Hz & Hk).
  assert (Hz2 : get h0 Fld.second_size = 0) by (apply Hz; unfold reset_fields; set_solver).
  assert (Hz3 : get h0 Fld.dtb_size = 0) by (apply Hz; unfold reset_fields; set_solver).
  assert (Hz4 : get h0 Fld.bootconfig_size = 0) by (apply Hz; unfold reset_fields; set_solver).
  assert (Hk1 : get h0 Fld.extra_size = get (hdr b) Fld.extra_size)
    by (apply Hk; unfold reset_fields, load_fields; set_solver).
  assert (Hk2 : get h0 Fld.recovery_dtbo_size = get (hdr b) Fld.recovery_dtbo_size)
    by (apply Hk; unfold reset_fields, load_fields; set_solver).
  assert (Hk3 : get h0 Fld.signature_size = get (hdr b) Fld.signature_size)
    by (apply Hk; unfold reset_fields, load_fields; set_solver).
  assert (Hk4 : get h0 Fld.vendor_ramdisk_table_size = get (hdr b) Fld.vendor_ramdisk_table_size)
    by (apply Hk; unfold reset_fields, load_fields; set_solver).
  assert (He : e = None -> get h0 Fld.extra_size = 0).
  { intros ->. rewrite Hk1. apply St1. unfold opt_block in Ee. destruct (d !! EXTRA_FILE); [|done].
    by apply bind_Ret_inv in Ee as (? & _ & ?). }
  unfold repack_rest.
  destruct (progress_opt _ s Fld.second_size (d !! SECOND_FILE) Hpr) as (s1 & E1 & P1); [simpl; lia|simpl; set_solver|done..|].
  change (repack_file Fld.second_size SECOND_FILE d header ps s = Ret s1) in E1. rewrite E1. cbn [obind]. clear E1.
  destruct (progress_extra _ s1 e P1) as (s2 & -> & P2); [simpl; lia|simpl; set_solver|done..|]. cbn [obind].
  destruct (progress_recovery _ s2 P2) as (s3 & -> & P3);
    [simpl; lia|simpl; set_solver|simpl; set_solver|done|done|by rewrite Hk2|]. cbn [obind].
  destruct (progress_opt _ s3 Fld.dtb_size (d !! DTB_FILE) P3) as (s4 & E4 & P4); [simpl; lia|simpl; set_solver|done..|].
  change (repack_file Fld.dtb_size DTB_FILE d header ps s3 = Ret s4) in E4. rewrite E4. cbn [obind]. clear E4.
  destruct (progress_signature _ s4 sg P4) as (s5 & -> & P5);
    [simpl; lia|simpl; set_solver|done|by apply block_fields_32; [|unfold block_fields; set_solver]|done|]. cbn [obind].
  assert (P6 := progress_absent _ s5 Fld.vendor_ramdisk_table_size P5
    ltac:(rewrite (progress_get _ s5 _ P5); [lia|simpl; set_solver|done])).
  destruct (progress_opt _ s5 Fld.bootconfig_size (d !! BOOTCONFIG_FILE) P6) as (s7 & E7 & P7);
    [simpl; lia|simpl; set_solver|done..|].
  change (repack_file Fld.bootconfig_size BOOTCONFIG_FILE d header ps s5 = Ret s7) in E7. rewrite E7. cbn [obind].
  eexists s7, _. split; [done|exact P7].
Qed.
End layout.

(** C1: repacking and parsing agree on the layout.  Take an image without vendor wrapping
    (none of the flags of MTK, zImage, DHTB, blob, Nookhd, Acclaim, Amonet and AVB), with a
    page size from 1 to 2^31 - 1 and without a vendor ramdisk table; let the blocks to be
    written be below 4 GiB and have a size field in the class of the header, and let the
    files of the extra block and of the recovery dtbo be in the working directory if the
    header has a size for them (repack does not reset these two sizes, and without the file
    the layout is not recovered).  Let what is copied from the old image be readable and the
    encoders return.  Then [repack] succeeds in writing the blocks, and
    [get_blocks] run with the new header over the new file finds every one of the nine blocks
    with exactly the contents that were written: the kernel (recompressed if the original
    was) followed by the appended device tree, the ramdisk, the other files of the working
    directory, and the copied boot signature. *)
Theorem repack_layout encode lgfuel skip mem b d h0 space pre kb r e sg :
  hdr_ok (hdr b) -> plain_image b -> 0 < get (hdr b) Fld.page_size < 2 ^ 31 ->
  zlen (map_data b) < 2 ^ 62 -> get (hdr b) Fld.vendor_ramdisk_table_size = 0 ->
  repack_hdr b d = Ret h0 -> hdr_space h0 = Ret space -> rd mem (payload b).1 space = Ret pre ->
  kernel_block encode skip mem b d = Ret kb ->
  opt_block encode skip (ramdisk_fmt skip b h0) (d !! RAMDISK_FILE) = Ret r ->
  opt_block encode skip (e_fmt b) (d !! EXTRA_FILE) = Ret e ->
  (if get (hdr b) Fld.signature_size =? 0 then Ret []
   else rd mem (signature (blocks b)) (get (hdr b) Fld.signature_size)) = Ret sg ->
  blocks_fit h0 (new_blocks d kb r e sg) -> no_stale b d ->
  exists s off, repack_write encode lgfuel skip mem b d = Ret (s, off) /\ o_header off = 0 /\
    forall mend, zlen (out s) <= mend ->
    exists starts o, get_blocks (nh s) 0 mend space block_fields = Ret (Some (starts, o)) /\
      Forall2 (fun a blk => sub (out s) a (zlen blk) = blk) starts (new_blocks d kb r e sg).
Proof.
  intros Hok Hp Hps Hmd Ht Eh Esp Epre Ek Er Ee Esg Hfit Hst.
  destruct (repack_hdr_spec b d h0 Hok Eh) as (Hok0 & Hcls & Hz & Hkeep).
  assert (Hpg : get h0 Fld.page_size = get (hdr b) Fld.page_size)
    by (apply Hkeep; unfold reset_fields, load_fields; set_solver).
  destruct (hdr_space_bound h0 space Hok0 ltac:(lia) Esp) as [Hsp Hdiv].
  pose proof (rd_Ret_inv _ _ _ _ Epre) as (H1 & H2 & H3 & Hpre).
  assert (Hlen : zlen pre = space) by (rewrite Hpre; apply length_sub; lia).
  unfold repack_write, repack_head. rewrite Eh. cbn [obind].
  rewrite !(Hp _) by (unfold special; set_solver). cbn [obind]. rewrite Esp. cbn [obind].
  unfold put_from at 1. rewrite Epre. cbn [obind]. change (cur (W [] h0)) with 0.
  assert (P0 : progress b h0 0 pre [] (put (W [] h0) pre)).
  { apply progress_start; try done; try lia. by rewrite Hlen, Z.sub_0_r, <- Hpg. }
  assert (Hz1 : get h0 Fld.kernel_size = 0) by (apply Hz; unfold reset_fields; set_solver).
  assert (Hz2 : get h0 Fld.ramdisk_size = 0) by (apply Hz; unfold reset_fields; set_solver).
  pose proof Hfit as Hfit'. unfold blocks_fit, new_blocks, block_fields in Hfit'.
  apply Forall2_cons in Hfit' as [[F1 F1'] Hfit']. apply Forall2_cons in Hfit' as [[F2 F2'] _].
  destruct (progress_kernel encode skip mem b d h0 0 pre Hps Hok0 ltac:(lia) ltac:(lia) _ kb P0)
    as (s1 & -> & P1); [done..|]. cbn [obind].
  destruct (progress_ramdisk encode lgfuel skip mem b d h0 0 pre Hps Hok0 ltac:(lia) ltac:(lia) _ s1 r P1)
    as (s2 & -> & P2); [done|simpl; lia|simpl; set_solver|simpl; set_solver|done..|]. cbn [obind].
  destruct (progress_rest encode skip mem b d h0 0 pre Hps Hok0 ltac:(lia) ltac:(lia) s2 kb r e sg)
    as (s3 & [[o1 o2] o3] & -> & P3); [done..|]. cbn [obind].
  pose proof P3 as (Hw & Hs & Hb & _). change (length (zip _ _)) with 9%nat in Hb.
  destruct (repack_tail_ok mem b h0 0 pre Hps Hok0 ltac:(lia) ltac:(lia) s3 Hp) as (s4 & tot & vb & suf & -> & Eo & En);
    [lia..|]. cbn [obind].
  eexists s4, _. split; [done|]. split; [done|]. intros mend Hm. rewrite Eo, zlen_app in Hm.
  pose proof (zlen_nonneg suf).
  destruct (written_get_blocks 0 (get (hdr b) Fld.page_size) pre _ s3 (nh s4) Hw Hps ltac:(lia) ltac:(lia))
    as (_ & Hget).
  { rewrite En, (same_but_get _ _ _ _ Hs); [done|]. simpl. set_solver. }
  { rewrite En. by eapply written_sizes. }
  destruct (Hget mend ltac:(lia)) as (starts & Eg & HF). rewrite Z.sub_0_r, Hlen in Eg.
  exists starts. eexists. split; [exact Eg|]. rewrite Eo.
  assert (Ez : (zip block_fields (new_blocks d kb r e sg)).*2 = new_blocks d kb r e sg) by done.
  rewrite <- Ez. apply Forall2_fmap_r. eapply Forall2_impl; [exact HF|].
  intros a [f c] (Ha & Hc & Hsub). simpl. rewrite sub_app_l by (done || apply zlen_nonneg). done.
Qed.

(** The sample image of [BootImg], parsed. *)
Definition sample_boot : boot_img :=
  Boot sample_img sample_hdr [] UNKNOWN UNKNOWN UNKNOWN (0, 8192) (8192, 0) None None None 0 (0, 0) None None
    (Blocks 2048 4096 6144 8192 8192 8192 8192 8192 8192) (0, 0).

Example sample_boot_parsed :
  parse_image 10 4096 sample_verify sample_img sample_img 0 AOSP [] = Ret (inl sample_boot).
Proof. vm_compute. reflexivity. Qed.

Definition sample_dir : dir_t :=
  <[KERNEL_FILE := bs "a new kernel"]> (<[RAMDISK_FILE := bs "a new ramdisk"]> ∅).
Definition sample_hdr0 : dyn_img_hdr :=
  match repack_hdr sample_boot sample_dir with Ret h => h | _ => sample_hdr end.

Lemma repack_layout_witness :
  exists s off, repack_write toy_encode 10 false sample_img sample_boot sample_dir = Ret (s, off) /\ o_header off = 0 /\
    forall mend, zlen (out s) <= mend ->
    exists starts o, get_blocks (nh s) 0 mend 2048 block_fields = Ret (Some (starts, o)) /\
      Forall2 (fun a blk => sub (out s) a (zlen blk) = blk) starts
        (new_blocks sample_dir (bs "a new kernel") (Some (bs "a new ramdisk")) None []).
Proof.
  assert (Hfit : blocks_fit sample_hdr0 (new_blocks sample_dir (bs "a new kernel") (Some (bs "a new ramdisk")) None [])).
  { unfold blocks_fit, block_fields, new_blocks.
    repeat (apply Forall2_cons; split); try apply Forall2_nil; try done; (split; [vm_compute; reflexivity|intros Hne]).
    all: try (by destruct Hne).
    - exists 8. vm_compute. reflexivity.
    - exists 16. vm_compute. reflexivity. }
  assert (Hst : no_stale sample_boot sample_dir) by (split; intros _; vm_compute; reflexivity).
  assert (Hps : 0 < get (hdr sample_boot) Fld.page_size < 2 ^ 31) by (split; vm_compute; reflexivity).
  apply (repack_layout toy_encode 10 false sample_img sample_boot sample_dir sample_hdr0 2048 (sub sample_img 0 2048)
    (bs "a new kernel") (Some (bs "a new ramdisk")) None []); try assumption; vm_compute; reflexivity.
Defined.

(** ** The vendor ramdisk files *)

(** Two working directories with the same files outside [vendor_ramdisk/]. *)
Definition vnd_path (k : bytes) : bool := starts_with (VND_RAMDISK_DIR ++ bs "/") k.
Definition same_outside (d d' : dir_t) : Prop := forall k, vnd_path k = false -> d !! k = d' !! k.

Lemma repack_table_outside encode lgfuel n skip mem d d' : same_outside d d' -> forall ra en off s t,
  repack_table encode lgfuel n skip mem d ra en off s t = repack_table encode lgfuel n skip mem d' ra en off s t.
Proof.
  intros Hd. induction n as [|n IH]; intros; [done|]. cbn [repack_table]. unfold map_file.
  rewrite (Hd VND_RAMDISK_DIR) by done.
  repeat (apply obind_ext; intros []). all: cbn [obind]; try done.
  all: repeat (apply obind_ext; intros ?; try match goal with p : (_ * _)%type |- _ => destruct p end); try apply IH.
Qed.

Lemma repack_ramdisk_outside encode lgfuel skip mem b d d' header s : same_outside d d' ->
  repack_ramdisk encode lgfuel skip mem b d header s = repack_ramdisk encode lgfuel skip mem b d' header s.
Proof.
  intros Hd. unfold repack_ramdisk. apply obind_ext. intros s1. rewrite (Hd RAMDISK_FILE) by done.
  destruct (negb _); [|done]. by rewrite (repack_table_outside _ _ _ _ _ d d' Hd).
Qed.

Lemma repack_write_outside encode lgfuel skip mem b d d' : same_outside d d' ->
  repack_write encode lgfuel skip mem b d = repack_write encode lgfuel skip mem b d'.
Proof.
  intros Hd. unfold repack_write, repack_hdr, repack_kernel, repack_rest, repack_file, repack_extra,
    repack_recovery_dtbo.
  rewrite (Hd HEADER_FILE), (Hd KERNEL_FILE), (Hd KER_DTB_FILE), (Hd SECOND_FILE), (Hd EXTRA_FILE),
    (Hd RECV_DTBO_FILE), (Hd DTB_FILE), (Hd BOOTCONFIG_FILE) by done.
  do 5 (apply obind_ext; intros ?). by rewrite (repack_ramdisk_outside _ _ _ _ _ d d').
Qed.

(** The files [unpack] writes below [vendor_ramdisk/] never influence
    [repack]: two working directories that differ only there give the same image. *)
Theorem vendor_ramdisk_files_ignored encode lgfuel pagesize vrf sha1 sha256 sgn pv d d' src skip :
  same_outside d d' -> vnd_path src = false ->
  repack_output encode lgfuel pagesize vrf sha1 sha256 sgn pv d src skip =
  repack_output encode lgfuel pagesize vrf sha1 sha256 sgn pv d' src skip.
Proof.
  intros Hd Hs. unfold repack_output, map_file. rewrite (Hd src Hs).
  apply obind_ext. intros mem. apply obind_ext. intros b. by rewrite (repack_write_outside _ _ _ _ _ d d' Hd).
Qed.

(** A vendor_boot v4 image with one ramdisk. *)
Definition vendor_hdr : dyn_img_hdr :=
  fold_left (fun h p => set h p.1 p.2)
    [(Fld.header_version, 4); (Fld.page_size, 2048); (Fld.ramdisk_size, 3); (Fld.vendor_ramdisk_table_size, 108);
     (Fld.vendor_ramdisk_table_entry_num, 1); (Fld.vendor_ramdisk_table_entry_size, 108)]
    (Hdr dyn_img_vnd_v4 (upd (zeros 2128) 0 VENDOR_BOOT_MAGIC)).
Definition vendor_img : bytes :=
  raw vendor_hdr ++ zeros (4096 - 2128) ++ bs "old" ++ zeros 2045 ++
  le_enc 4 3 ++ le_enc 4 0 ++ le_enc 4 1 ++ bs "a" ++ zeros 31 ++ zeros 64 ++ zeros (2048 - 108).
Definition vendor_dir (content : bytes) : dir_t :=
  <[bs "vendor_ramdisk/a.cpio" := content]> (<[bs "boot.img" := vendor_img]> ∅).

Lemma vendor_ramdisk_files_ignored_witness :
  repack_output toy_encode 10 4096 sample_verify (fun x => x) (fun x => x) (fun _ _ _ _ => []) false
    (vendor_dir (bs "edited")) (bs "boot.img") false =
  repack_output toy_encode 10 4096 sample_verify (fun x => x) (fun x => x) (fun _ _ _ _ => []) false
    (vendor_dir (bs "original")) (bs "boot.img") false.
Proof.
  apply (vendor_ramdisk_files_ignored toy_encode 10 4096 sample_verify); [|reflexivity].
  intros k Hk. unfold vendor_dir.
  etransitivity; [apply lookup_insert_ne|symmetry; apply lookup_insert_ne]; intros <-; vm_compute in Hk; discriminate Hk.
Defined.

(** On that image the unpacked ramdisk is found, and the repacked one is empty. *)
Example vendor_ramdisk_lost :
  match unpack toy_decode 10 4096 sample_verify (vendor_dir []) (bs "boot.img") false false,
        repack_output toy_encode 10 4096 sample_verify (fun x => x) (fun x => x) (fun _ _ _ _ => []) false
          (vendor_dir (bs "edited")) (bs "boot.img") false with
  | Ret (d, _), Ret f => d !! bs "vendor_ramdisk/a.cpio" = Some (bs "old") /\ le_dec (sub f 24 4) = 0
  | _, _ => False
  end.
Proof. vm_compute. done. Qed.

(** The extra blob of a v0 image that is not in the working directory is not
    written, but the header of the new image still has its size. *)
Definition extra_boot : boot_img :=
  Boot sample_img (set sample_hdr Fld.extra_size 77) [] UNKNOWN UNKNOWN UNKNOWN (0, 8192) (8192, 0) None None None 0
    (0, 0) None None (Blocks 2048 4096 6144 8192 8192 8192 8192 8192 8192) (0, 0).
Example extra_size_stale :
  match repack_write toy_encode 10 false sample_img extra_boot sample_dir with
  | Ret (s, off) => get (nh s) Fld.extra_size = 77 /\ o_extra off = 6144
  | _ => False
  end.
Proof. vm_compute. done. Qed.

(** A recompressed zImage payload that is one to three bytes shorter than the
    original: the padding wraps around. *)
Example zimage_pad_wraps : zimage_pad 1000 998 = 2 ^ 64 - 2.
Proof. reflexivity. Qed.

(** ** Signing *)

Lemma write_at_spec file off v : 0 <= off <= zlen file ->
  sub (write_at file off v) 0 off = sub file 0 off /\
  sub (write_at file off v) off (zlen v) = v /\
  zlen (write_at file off v) = Z.max (zlen file) (off + zlen v).
Proof.
  intros Hoff. unfold write_at.
  assert (Ht : zlen (take (Z.to_nat off) file) = off) by (unfold zlen in *; rewrite length_take; lia).
  split_and!.
  - rewrite sub_app_l by lia. unfold sub. rewrite drop_0, take_take. f_equal. lia.
  - pose proof (sub_app_exact (take (Z.to_nat off) file) v (drop (Z.to_nat off + length v) file)) as Hs.
    by rewrite Ht in Hs.
  - rewrite !zlen_app, Ht. unfold zlen. rewrite length_drop. lia.
Qed.

(** [sign] replaces the tail.  When the image parses, the signer returns a
    signature and the payload ends inside the file, the command succeeds; the new file
    keeps everything up to the end of the payload, continues with the signature, and, when the
    signature fits in the old file, keeps its size and is zero after the signature. *)
Theorem sign_correct lgfuel pagesize vrf sgn d image name cert key mem b pl :
  let img := map_file d image in
  let sig := sgn pl name cert key in
  let e := (tail b).1 in
  mapping pagesize img = Ret mem -> boot_img_new lgfuel pagesize vrf img = Ret b ->
  rd mem (payload b).1 (payload b).2 = Ret pl -> sig <> [] -> 0 <= e <= zlen img ->
  exists file, sign lgfuel pagesize vrf sgn d image name cert key = Ret (<[image := file]> d, 0) /\
    sub file 0 e = sub img 0 e /\ sub file e (zlen sig) = sig /\
    (e + zlen sig <= zlen img ->
     zlen file = zlen img /\ sub file (e + zlen sig) (zlen img - (e + zlen sig)) = zeros (zlen img - (e + zlen sig))).
Proof.
  intros img sig e Hm Hb Hpl Hsig He. unfold sign. fold img. rewrite Hm. cbn [obind]. rewrite Hb. cbn [obind].
  rewrite Hpl. cbn [obind]. fold sig. destruct sig as [|c sg] eqn:Es; [done|]. rewrite <- Es in *.
  fold e. assert (zeros (e - zlen img) = []) as -> by (unfold zeros; by replace (Z.to_nat (e - zlen img)) with 0%nat by lia).
  rewrite app_nil_r. destruct (write_at_spec img e sig He) as (A1 & A2 & A3). pose proof (zlen_nonneg sig).
  destruct (Z.ltb_spec (e + zlen sig) (zlen img)) as [Hlt|Hge].
  - rewrite write_zero_ok by lia. cbn [obind app]. eexists. split; [done|].
    set (z := zeros (zlen img - (e + zlen sig))).
    destruct (write_at_spec (write_at img e sig) (e + zlen sig) z) as (B1 & B2 & B3); [lia|].
    assert (zlen z = zlen img - (e + zlen sig)) as Hz by (apply zlen_zeros; lia). rewrite Hz in B2, B3.
    split_and!.
    + rewrite <- A1, <- (sub_sub0 _ (e + zlen sig) 0 e), B1, sub_sub0 by lia. done.
    + rewrite <- (sub_sub0 _ (e + zlen sig) e) by lia. rewrite B1, sub_sub0 by lia. done.
    + intros _. split; [rewrite B3, A3; lia|done].
  - cbn [obind]. eexists. split; [done|]. split_and!; [done|done|]. intros Hle.
    split; [rewrite A3; lia|]. replace (zlen img - (e + zlen sig)) with 0 by lia. done.
Qed.

Lemma sign_correct_witness :
  let img := sample_img ++ bs "old tail" ++ zeros 4088 in
  exists file, sign 10 4096 sample_verify (fun pl _ _ _ => take 4 pl) (<[bs "boot.img" := img]> ∅) (bs "boot.img")
      (bs "/boot") None None = Ret (<[bs "boot.img" := file]> (<[bs "boot.img" := img]> ∅), 0) /\
    sub file 8192 4 = bs "ANDR" /\ zlen file = zlen img.
Proof.
  intros img. set (d := <[bs "boot.img" := img]> ∅ : dir_t).
  assert (Ei : map_file d (bs "boot.img") = img) by reflexivity.
  assert (Hs : match boot_img_new 10 4096 sample_verify img with
    | Ret b => (payload b, tail b) | _ => ((1, 1), (0, 0)) end = ((0, 8192), (8192, 4096))) by (vm_compute; reflexivity).
  destruct (boot_img_new 10 4096 sample_verify img) as [b| | |] eqn:Eb; try discriminate Hs.
  injection Hs as Hp Ht.
  assert (Hmem : mapping 4096 img = Ret img) by (vm_compute; reflexivity).
  assert (Hrd : rd img 0 8192 = Ret sample_img) by (vm_compute; reflexivity).
  assert (Hl : zlen img = 12288) by (vm_compute; reflexivity).
  destruct (sign_correct 10 4096 sample_verify (fun pl _ _ _ => take 4 pl) d (bs "boot.img") (bs "/boot") None None
    img b sample_img) as (file & Es & _ & H2 & H3);
    [rewrite Ei; exact Hmem|rewrite Ei; exact Eb|rewrite Hp; exact Hrd|discriminate|rewrite Ei, Ht, Hl; cbn [fst]; lia|].
  exists file. split; [exact Es|]. rewrite Ei, Ht in *. cbn [fst] in *. split; [exact H2|].
  apply H3. rewrite Hl. change (zlen (take 4 sample_img)) with 4. lia.
Defined.
