(* ===== verification/BootMain.v ===== *)
(** The magiskboot command line: [native/src/boot/main.cpp].  The argument vector
    is parsed into a command; the commands modelled in this development are then run over the
    working directory, those implemented in Rust are a parameter. *)

From S2P Require Import Prelude Base Files Format Streams Compress BootHdr BootImg BootOps.

Definition NEW_BOOT : bytes := bs "new-boot.img".

Inductive command :=
| Cleanup
| Sha1 (file : bytes)
| Split (file : bytes) (skip_decomp : bool)
| Unpack (file : bytes) (skip_decomp hdr : bool)
| Repack (src out : bytes) (skip_comp : bool)
| Verify (file : bytes) (cert : option bytes)
| Sign (file name : bytes) (cert key : option bytes)
| Decompress (infile : bytes) (outfile : option bytes)
| Compress (method infile : bytes) (outfile : option bytes)
| Hexpatch (file from to : bytes)
| CpioCommands (args : list bytes)
| DtbCommands (args : list bytes)
| Extract (payload partition outfile : bytes).

(** [usage(argv[0])]. *)
Definition usage {A} : outcome A := Exit 1.

(** The flags of [unpack], one cluster of letters after a dash. *)
Fixpoint unpack_flags (fl : bytes) (nodecomp hdr : bool) : outcome (bool * bool) :=
  match fl with
  | [] => Ret (nodecomp, hdr)
  | c :: fl =>
    if Byte.eqb c x6e then unpack_flags fl true hdr
    else if Byte.eqb c x68 then unpack_flags fl nodecomp true
    else usage
  end.
Fixpoint unpack_args (args : list bytes) (nodecomp hdr : bool) : outcome command :=
  match args with
  | [] => usage
  | a :: args =>
    match a with
    | x2d :: fl => let! (n, h) := unpack_flags fl nodecomp hdr in unpack_args args n h
    | _ => Ret (Unpack a nodecomp hdr)
    end
  end.

(** [args] is [argv + 2]; [argc > k + 2] is [k < length args]. *)
Definition dispatch (action : bytes) (args : list bytes) : outcome command :=
  let act (s : string) := memcmp_eq action (bs s) in
  if act "cleanup"%string then Ret Cleanup else
  match args with
  | [] => usage
  | a0 :: rest =>
    if act "sha1"%string then Ret (Sha1 a0)
    else if act "split"%string then
      if memcmp_eq a0 (bs "-n") then match rest with [] => usage | f :: _ => Ret (Split f true) end
      else Ret (Split a0 false)
    else if act "unpack"%string then unpack_args args false false
    else if act "repack"%string then
      if memcmp_eq a0 (bs "-n") then
        match rest with [] => usage | src :: more => Ret (Repack src (default NEW_BOOT (head more)) true) end
      else Ret (Repack a0 (default NEW_BOOT (head rest)) false)
    else if act "verify"%string then Ret (Verify a0 (head rest))
    else if act "sign"%string then
      match rest with
      | [] => Ret (Sign a0 (bs "/boot") None None)
      | [name] => Ret (Sign a0 name None None)
      | [_; _] => usage
      | name :: cert :: key :: _ => Ret (Sign a0 name (Some cert) (Some key))
      end
    else if act "decompress"%string then Ret (Decompress a0 (head rest))
    else if str_starts action (bs "compress") then
      Ret (Compress (match drop 8 action with x3d :: m => m | _ => bs "gzip" end) a0 (head rest))
    else if act "hexpatch"%string && (2 <? zlen args) then
      match rest with from :: to :: _ => Ret (Hexpatch a0 from to) | _ => usage end
    else if act "cpio"%string then Ret (CpioCommands args)
    else if act "dtb"%string then Ret (DtbCommands args)
    else if act "extract"%string then
      Ret (Extract a0 (default [] (head rest)) (default [] (rest !! 1%nat)))
    else usage
  end.

Definition parse_argv (argv : list bytes) : outcome command :=
  match argv with
  | _ :: action :: args =>
    dispatch (if str_starts action (bs "--") then drop 2 action else action) args
  | _ => usage
  end.

(** ** cleanup *)

Definition component_files : list bytes :=
  [HEADER_FILE; KERNEL_FILE; RAMDISK_FILE; SECOND_FILE; KER_DTB_FILE; EXTRA_FILE; RECV_DTBO_FILE; DTB_FILE; BOOTCONFIG_FILE].

(** What [cleanup] removes: the component files and the vendor ramdisk directory. *)
Definition cleaned (k : bytes) : bool := bool_decide (k ∈ component_files) || vnd_path k.
Definition cleanup (d : dir_t) : dir_t := filter (fun kv => cleaned kv.1 = false) d.

(** ** Running a command *)

Section run.
Context (encode : encoder_class -> list bytes -> outcome (bytes * bool)).
Context (decode : decoder_class -> list bytes -> outcome (bytes * bool)).
Context (lgfuel : nat) (pagesize : Z).
Context (verify_boot_image : bytes -> bytes -> option bytes -> bool).
Context (sha1 sha256 : bytes -> bytes).
Context (sign_boot_image : bytes -> bytes -> option bytes -> option bytes -> bytes).
Context (patch_vbmeta_flag : bool).
Context (rust_command : command -> Cli.world -> outcome (Cli.world * Z)).

Definition with_dir (w : Cli.world) (d : dir_t) : Cli.world := Cli.World d (Cli.stdin w) (Cli.stdout w).

(** [print_hex] of a digest on standard output. *)
Definition run (c : command) (w : Cli.world) : outcome (Cli.world * Z) :=
  let d := Cli.files w in
  match c with
  | Cleanup => Ret (with_dir w (cleanup d), 0)
  | Sha1 f =>
    Ret (Cli.World d (Cli.stdin w) (Cli.stdout w ++ print_hex (sha1 (map_file d f)) ++ [x0a]), 0)
  | Split f skip =>
    let! (d, rc) := split_image_dtb decode lgfuel pagesize d f skip in Ret (with_dir w d, rc)
  | Unpack f skip h =>
    let! (d, rc) := unpack decode lgfuel pagesize verify_boot_image d f skip h in Ret (with_dir w d, rc)
  | Repack src o skip =>
    let! d := repack encode lgfuel pagesize verify_boot_image sha1 sha256 sign_boot_image patch_vbmeta_flag d src o skip in
    Ret (with_dir w d, 0)
  | Verify f cert =>
    let! rc := verify lgfuel pagesize verify_boot_image d f cert in Ret (w, rc)
  | Sign f name cert key =>
    let! (d, rc) := sign lgfuel pagesize verify_boot_image sign_boot_image d f name cert key in Ret (with_dir w d, rc)
  | Decompress i o => let! w := Cli.decompress decode w i o in Ret (w, 0)
  | Compress m i o =>
    let! w := Cli.compress encode (String.string_of_list_byte m) w i o in Ret (w, 0)
  | _ => rust_command c w
  end.

Definition main (argv : list bytes) (w : Cli.world) : outcome (Cli.world * Z) :=
  let! c := parse_argv argv in run c w.
End run.

(** ** cleanup undoes unpack *)

(** Only files [cleanup] removes differ. *)
Definition touches (d d' : dir_t) : Prop := forall k, cleaned k = false -> d !! k = d' !! k.

Lemma touches_refl d : touches d d.
Proof. by intros k _. Qed.
Lemma touches_trans d1 d2 d3 : touches d1 d2 -> touches d2 d3 -> touches d1 d3.
Proof. intros H1 H2 k Hk. by rewrite H1, H2. Qed.
Lemma touches_insert d k v : cleaned k = true -> touches d (<[k := v]> d).
Proof. intros Hk k' Hk'. rewrite lookup_insert_ne; [done|]. intros ->. congruence. Qed.

Create HintDb touches discriminated.
#[export] Hint Resolve touches_refl touches_insert : touches.

Lemma dump_touches mem buf size f d d' : cleaned f = true -> dump mem buf size f d = Ret d' -> touches d d'.
Proof.
  intros Hf E. unfold dump in E. destruct (_ =? 0); [injection E as <-; auto with touches|].
  apply bind_Ret_inv in E as (b & _ & [= <-]). auto with touches.
Qed.

Lemma dump_block_touches decode skip fmt mem buf size f d d' : cleaned f = true ->
  dump_block decode skip fmt mem buf size f d = Ret d' -> touches d d'.
Proof.
  intros Hf E. unfold dump_block in E. destruct (_ && _); [|by eapply dump_touches].
  destruct (negb _); [|injection E as <-; auto with touches].
  apply bind_Ret_inv in E as (b & _ & E). apply bind_Ret_inv in E as (o & _ & [= <-]). auto with touches.
Qed.

Lemma cleaned_vnd name : cleaned (VND_RAMDISK_DIR ++ bs "/" ++ name) = true.
Proof. unfold cleaned, vnd_path. rewrite app_assoc, starts_with_app. apply orb_true_r. Qed.
#[export] Hint Resolve cleaned_vnd : touches.

Lemma dump_table_touches decode lgfuel n skip mem : forall ra en d d',
  dump_table decode lgfuel n skip mem ra en d = Ret d' -> touches d d'.
Proof.
  induction n as [|n IH]; intros ra en d d' E; cbn [dump_table] in E; [injection E as <-; auto with touches|].
  do 6 (apply bind_Ret_inv in E as (? & _ & E)). apply IH in E.
  eapply touches_trans; [|exact E]. auto with touches.
Qed.

Lemma unpack_touches decode lgfuel pagesize vrf d image skip h d' rc :
  unpack decode lgfuel pagesize vrf d image skip h = Ret (d', rc) -> touches d d'.
Proof.
  intros E. unfold unpack in E. apply bind_Ret_inv in E as (mem & _ & E). apply bind_Ret_inv in E as (b & _ & E).
  apply bind_Ret_inv in E as (d1 & E & [= <- _]). unfold unpack_boot in E.
  apply bind_Ret_inv in E as (d2 & E2 & E). apply bind_Ret_inv in E as (d3 & E3 & E).
  apply bind_Ret_inv in E as (d4 & E4 & E). apply bind_Ret_inv in E as (d5 & E5 & E).
  apply bind_Ret_inv in E as (d6 & E6 & E). apply bind_Ret_inv in E as (d7 & E7 & E).
  apply bind_Ret_inv in E as (d8 & E8 & E). apply bind_Ret_inv in E as (d9 & E9 & E).
  assert (touches d d2).
  { destruct h; [apply bind_Ret_inv in E2 as (t & _ & [= <-])|injection E2 as <-]; auto with touches. }
  assert (touches d4 d5).
  { unfold unpack_ramdisk in E5. destruct (negb _); [by eapply dump_table_touches|eapply dump_block_touches; [|exact E5]; done]. }
  apply dump_block_touches in E3, E7; [|done..]. apply dump_touches in E4, E6, E8, E9, E; [|done..].
  do 8 (eapply touches_trans; [eassumption|]). exact E.
Qed.

(** [cleanup] undoes [unpack]: in a working directory without component
    files, unpacking any image with any options and cleaning up afterwards gives back the
    directory, the image included. *)
Theorem cleanup_after_unpack decode lgfuel pagesize vrf d image skip h d' rc :
  (forall k, cleaned k = true -> d !! k = None) ->
  unpack decode lgfuel pagesize vrf d image skip h = Ret (d', rc) -> cleanup d' = d.
Proof.
  intros Hd E. apply unpack_touches in E. apply map_eq. intros k. unfold cleanup.
  destruct (cleaned k) eqn:Hk.
  - rewrite (Hd k Hk). apply map_lookup_filter_None. right. intros v _. simpl. congruence.
  - rewrite (E k Hk). destruct (d' !! k) as [v|] eqn:Ev.
    + by apply map_lookup_filter_Some.
    + apply map_lookup_filter_None. by left.
Qed.

Lemma cleanup_after_unpack_witness :
  exists d' rc, unpack toy_decode 10 4096 sample_verify (<[bs "boot.img" := sample_img]> ∅) (bs "boot.img") false true
      = Ret (d', rc) /\ d' !! KERNEL_FILE = Some (bs "Image") /\
    cleanup d' = <[bs "boot.img" := sample_img]> ∅.
Proof.
  assert (Hk : match unpack toy_decode 10 4096 sample_verify (<[bs "boot.img" := sample_img]> ∅) (bs "boot.img") false true
    with Ret (d', _) => d' !! KERNEL_FILE | _ => None end = Some (bs "Image")) by (vm_compute; reflexivity).
  destruct (unpack _ _ _ _ _ _ _ _) as [[d' rc]| | |] eqn:E; try discriminate Hk.
  exists d', rc. split; [reflexivity|]. split; [exact Hk|].
  apply (cleanup_after_unpack toy_decode 10 4096 sample_verify _ (bs "boot.img") false true d' rc); [|exact E].
  intros k Hc. apply lookup_insert_None. split; [apply lookup_empty|]. intros <-. vm_compute in Hc. discriminate Hc.
Defined.
