(* ===== verification/OrdMap.v ===== *)
(** [std::map] with string keys: an association list kept in the order of
    [std::string_view::compare], the order in which the code iterates.  The key
    of an element is read from the element, as in [dir_node::children], whose
    keys are views of the names of the nodes. *)

From Stdlib Require Import Sorted.
From S2P Require Import Prelude Base.

(** ** Order of strings *)

(** [char_traits<char>::lt] compares as [unsigned char]; a proper prefix is smaller. *)
Fixpoint sv_lt (a b : bytes) : bool :=
  match a, b with
  | _, [] => false
  | [], _ :: _ => true
  | x :: a, y :: b => if b2z x =? b2z y then sv_lt a b else b2z x <? b2z y
  end.

Lemma sv_lt_irrefl a : sv_lt a a = false.
Proof. induction a as [|x a IH]; [done|]. simpl. by rewrite Z.eqb_refl. Qed.

Lemma sv_lt_trans a b c : sv_lt a b = true -> sv_lt b c = true -> sv_lt a c = true.
Proof.
  revert b c; induction a as [|x a IH]; intros [|y b] [|z c]; simpl; try done.
  destruct (Z.eqb_spec (b2z x) (b2z y)) as [Exy|Nxy], (Z.eqb_spec (b2z y) (b2z z)) as [Eyz|Nyz];
    rewrite ?Z.ltb_lt; intros.
  - rewrite (proj2 (Z.eqb_eq _ _)) by congruence. eauto.
  - rewrite (proj2 (Z.eqb_neq _ _)) by lia. apply Z.ltb_lt. lia.
  - rewrite (proj2 (Z.eqb_neq _ _)) by lia. apply Z.ltb_lt. lia.
  - rewrite (proj2 (Z.eqb_neq _ _)) by lia. apply Z.ltb_lt. lia.
Qed.

Lemma sv_lt_total a b : sv_lt a b = false -> a <> b -> sv_lt b a = true.
Proof.
  revert b; induction a as [|x a IH]; intros [|y b]; simpl; try done.
  rewrite (Z.eqb_sym (b2z y)).
  destruct (Z.eqb_spec (b2z x) (b2z y)) as [E|N].
  - apply b2z_inj in E as ->. intros ? Hne. apply IH; [done|]. congruence.
  - rewrite Z.ltb_ge, Z.ltb_lt. lia.
Qed.

Lemma sv_lt_ne a b : sv_lt a b = true -> a <> b.
Proof. intros H ->. by rewrite sv_lt_irrefl in H. Qed.

(** ** The map *)

Section ordmap.
Context {V : Type} (key : V -> bytes).
Implicit Types (l : list V) (v : V) (k : bytes).

(** [find] *)
Fixpoint ofind k l : option V :=
  match l with
  | [] => None
  | v :: l => if bool_decide (key v = k) then Some v else ofind k l
  end.

(** [erase] of the element with this key *)
Fixpoint oerase k l : list V :=
  match l with
  | [] => []
  | v :: l => if bool_decide (key v = k) then l else v :: oerase k l
  end.

(** [emplace], [insert]: no effect when the key is present *)
Fixpoint oemplace v l : list V :=
  match l with
  | [] => [v]
  | w :: l' =>
    if bool_decide (key w = key v) then l
    else if sv_lt (key v) (key w) then v :: l
    else w :: oemplace v l'
  end.

(** [merge]: the elements of [l2] whose key is not in [l1] *)
Definition omerge l1 l2 : list V := fold_left (fun l v => oemplace v l) l2 l1.

Definition ordered l : Prop := StronglySorted (fun a b => sv_lt (key a) (key b) = true) l.

Lemma ofind_key k l v : ofind k l = Some v -> key v = k /\ v ∈ l.
Proof.
  induction l as [|w l IH]; simpl; [done|]. case_bool_decide; intros E.
  - injection E as ->. split; [done|by left].
  - destruct (IH E). split; [done|by right].
Qed.

Lemma ofind_None k l : ofind k l = None <-> Forall (fun v => key v <> k) l.
Proof.
  induction l as [|w l IH]; simpl; [by split|]. rewrite Forall_cons. case_bool_decide; naive_solver.
Qed.

Lemma ordered_cons_inv v l : ordered (v :: l) ->
  ordered l /\ Forall (fun w => sv_lt (key v) (key w) = true) l.
Proof. unfold ordered. intros H. by inversion H. Qed.

Lemma ordered_cons v l : ordered l -> Forall (fun w => sv_lt (key v) (key w) = true) l ->
  ordered (v :: l).
Proof. unfold ordered. by constructor. Qed.

Lemma ofind_before k l : Forall (fun w => sv_lt k (key w) = true) l -> ofind k l = None.
Proof.
  intros H. apply ofind_None. eapply Forall_impl; [exact H|]. simpl.
  intros w Hw E. rewrite E, sv_lt_irrefl in Hw. done.
Qed.

Lemma ofind_oemplace k v l : ordered l ->
  ofind k (oemplace v l) =
  if bool_decide (key v = k) then match ofind k l with Some w => Some w | None => Some v end
  else ofind k l.
Proof.
  induction l as [|w l IH]; intros Ho; simpl; [by case_bool_decide|].
  apply ordered_cons_inv in Ho as [Ho Hlt]. specialize (IH Ho).
  destruct (decide (key w = key v)) as [E|N].
  - rewrite bool_decide_eq_true_2 by done. simpl. rewrite E. by repeat case_bool_decide.
  - rewrite bool_decide_eq_false_2 by done. destruct (sv_lt (key v) (key w)) eqn:Hvw; simpl.
    + repeat case_bool_decide; try congruence.
      rewrite ofind_before; [done|]. eapply Forall_impl; [exact Hlt|]. simpl. intros u Hu.
      subst k. by eapply sv_lt_trans.
    + rewrite IH. repeat case_bool_decide; congruence.
Qed.

Lemma Forall_oemplace (P : V -> Prop) v l : P v -> Forall P l -> Forall P (oemplace v l).
Proof.
  intros Hv. induction 1 as [|w l Hw Hl IH]; simpl; [auto|].
  case_bool_decide; [auto|]. destruct (sv_lt _ _); auto.
Qed.

Lemma Forall_oerase (P : V -> Prop) k l : Forall P l -> Forall P (oerase k l).
Proof. induction 1 as [|w l Hw Hl IH]; simpl; [auto|]. case_bool_decide; auto. Qed.

Lemma oemplace_ordered v l : ordered l -> ordered (oemplace v l).
Proof.
  induction l as [|w l IH]; intros Ho; simpl; [by repeat constructor|].
  pose proof (ordered_cons_inv _ _ Ho) as [Ho' Hlt]. case_bool_decide as N; [done|].
  destruct (sv_lt (key v) (key w)) eqn:Hvw.
  - apply ordered_cons; [done|]. constructor; [done|].
    eapply Forall_impl; [exact Hlt|]. simpl. intros u Hu. by eapply sv_lt_trans.
  - apply ordered_cons; [by apply IH|]. apply Forall_oemplace; [|done].
    apply sv_lt_total; [done|congruence].
Qed.

Lemma oerase_ordered k l : ordered l -> ordered (oerase k l).
Proof.
  induction l as [|w l IH]; intros Ho; simpl; [done|].
  pose proof (ordered_cons_inv _ _ Ho) as [Ho' Hlt]. case_bool_decide; [done|].
  apply ordered_cons; [by apply IH|]. by apply Forall_oerase.
Qed.

Lemma ofind_oerase k k' l : ordered l ->
  ofind k (oerase k' l) = if bool_decide (k = k') then None else ofind k l.
Proof.
  induction l as [|w l IH]; intros Ho; simpl; [by case_bool_decide|].
  apply ordered_cons_inv in Ho as [Ho Hlt].
  destruct (decide (key w = k')) as [E|N].
  - rewrite (bool_decide_eq_true_2 (key w = k')) by done. subst k'.
    destruct (decide (k = key w)) as [->|Hk].
    + rewrite (bool_decide_eq_true_2 (key w = key w)) by done. by apply ofind_before.
    + rewrite !bool_decide_eq_false_2; congruence.
  - rewrite (bool_decide_eq_false_2 (key w = k')) by done. simpl. rewrite IH by done.
    repeat case_bool_decide; congruence.
Qed.

Lemma omerge_ordered l1 l2 : ordered l1 -> ordered (omerge l1 l2).
Proof. revert l1; induction l2; simpl; auto using oemplace_ordered. Qed.

(** Merging into an empty map moves every element. *)
Lemma oemplace_last v l : Forall (fun w => sv_lt (key w) (key v) = true) l -> oemplace v l = l ++ [v].
Proof.
  induction 1 as [|w l Hw Hl IH]; simpl; [done|].
  rewrite bool_decide_eq_false_2 by (by apply sv_lt_ne).
  destruct (sv_lt (key v) (key w)) eqn:E; [|by rewrite IH].
  pose proof (sv_lt_trans _ _ _ Hw E) as C. by rewrite sv_lt_irrefl in C.
Qed.

Lemma omerge_nil_app l l0 : ordered (l0 ++ l) -> omerge l0 l = l0 ++ l.
Proof.
  revert l0; induction l as [|v l IH]; intros l0 Ho; simpl; [by rewrite app_nil_r|].
  rewrite oemplace_last.
  - rewrite IH; rewrite <- app_assoc; done.
  - clear IH. induction l0 as [|w l0 IH]; [constructor|].
    apply ordered_cons_inv in Ho as [Ho Hlt]. apply Forall_app in Hlt as [_ Hlt].
    constructor; [by inversion Hlt|auto].
Qed.

Lemma omerge_nil l : ordered l -> omerge [] l = l.
Proof. apply (omerge_nil_app l []). Qed.

(** An ordered map is determined by its lookups. *)
Lemma ofind_elem l v : ordered l -> v ∈ l -> ofind (key v) l = Some v.
Proof.
  induction l as [|w l IH]; intros Ho Hv; [by inversion Hv|].
  apply ordered_cons_inv in Ho as [Ho Hlt]. simpl.
  apply elem_of_cons in Hv as [->|Hv]; [by rewrite bool_decide_eq_true_2|].
  rewrite Forall_forall in Hlt. specialize (Hlt _ Hv).
  rewrite bool_decide_eq_false_2; [auto|]. by apply sv_lt_ne.
Qed.
End ordmap.

#[export] Hint Resolve oemplace_ordered oerase_ordered omerge_ordered : kit.
