(* ===== verification/Persist.v ===== *)
(** Persistent properties: [native/src/core/resetprop/persist.rs].  The properties are
    the records of one protobuf file, or one file each when there is no such file.  The
    codec of the records is quick_protobuf's, which is not part of the repository: the
    store has the decoded records.  What the file system does is an input, one record of
    answers for every operation that writes. *)

From Stdlib Require Import Sorted.
From S2P Require Import Prelude Base OrdMap.

(** ** The store *)

(** [PersistentPropertyRecord] *)
Record precord := PRecord { r_name : option bytes; r_value : option bytes }.
#[global] Instance precord_eq_dec : EqDecision precord.
Proof. solve_decision. Defined.

(** Whether a file can be opened and decoded, the suffix [mkstemp] makes (none when it
    fails), whether the temporary file is written, gets the attributes of the old file
    and is renamed, and what it holds when one of them fails. *)
Record persist_io := PersistIO {
  io_read : bool;
  io_tmp : option bytes;
  io_write : bool;
  io_attr : bool;
  io_rename : bool;
  io_left : bytes
}.

(** [pp_proto] has the records of [PERSIST_PROP] if the file exists, [pp_files] the other
    files of [PERSIST_PROP_DIR], and [pp_io 0] answers the next operation. *)
Record persist_store := PersistStore {
  pp_proto : option (list precord);
  pp_files : gmap bytes bytes;
  pp_io : nat -> persist_io
}.

Definition next_io (p : persist_store) : nat -> persist_io := fun n => pp_io p (S n).

(** ** Records in order *)

(** [Ord] of [Option<&str>]: nothing is smaller than a name. *)
Definition opt_lt (a b : option bytes) : bool :=
  match a, b with
  | None, Some _ => true
  | Some x, Some y => sv_lt x y
  | _, None => false
  end.
Definition opt_cmp (a b : option bytes) : comparison :=
  if bool_decide (a = b) then Eq else if opt_lt a b then Lt else Gt.

(** [sort_unstable_by] the names; the order of records with the same name is not
    specified. *)
Fixpoint rinsert (r : precord) (l : list precord) : list precord :=
  match l with
  | [] => [r]
  | s :: l' => if opt_lt (r_name s) (r_name r) then s :: rinsert r l' else r :: l
  end.
Definition rsort (l : list precord) : list precord := foldr rinsert [] l.

(** [binary_search_by] of the standard library: the part of the slice that may hold the
    key is halved until one element is left. *)
Definition name_at (l : list precord) (i : nat) : option bytes := l !! i ≫= r_name.
Fixpoint search_loop (fuel : nat) (l : list precord) (key : option bytes) (base size : nat) : nat :=
  match fuel with
  | O => base
  | S fuel =>
    if (size <=? 1)%nat then base
    else
      let half := (size / 2)%nat in
      let mid := (base + half)%nat in
      let base := match opt_cmp (name_at l mid) key with Gt => base | _ => mid end in
      search_loop fuel l key base (size - half)
  end.
(** [inl i] is [Ok(i)], [inr i] is [Err(i)]. *)
Definition find_index (l : list precord) (name : bytes) : nat + nat :=
  match l with
  | [] => inr O
  | _ =>
    let base := search_loop (length l) l (Some name) 0 (length l) in
    match opt_cmp (name_at l base) (Some name) with
    | Eq => inl base
    | Lt => inr (S base)
    | Gt => inr base
    end
  end.

(** ** Files *)

Definition check_proto (p : persist_store) : bool := bool_decide (is_Some (pp_proto p)).

Definition file_get_prop (p : persist_store) (name : bytes) : option bytes :=
  if io_read (pp_io p 0) then pp_files p !! name else None.

Definition proto_read_props (p : persist_store) : option (list precord) :=
  l ← pp_proto p; if io_read (pp_io p 0) then Some (rsort l) else None.

(** The files stay as they are. *)
Definition unchanged (p : persist_store) : persist_store := PersistStore (pp_proto p) (pp_files p) (next_io p).

(** A temporary file that cannot be completed stays in the directory. *)
Definition left_over (p : persist_store) (tmp : bytes) : persist_store :=
  PersistStore (pp_proto p) (<[tmp := io_left (pp_io p 0)]> (pp_files p)) (next_io p).

(** Without a value the file is unlinked; [io_write] says whether that succeeds. *)
Definition file_set_prop (p : persist_store) (name : bytes) (value : option bytes) : persist_store * bool :=
  let io := pp_io p 0 in
  match value with
  | Some value =>
    match io_tmp io with
    | None => (unchanged p, false)
    | Some suffix =>
      if io_write io && io_rename io
      then (PersistStore (pp_proto p) (<[name := value]> (pp_files p)) (next_io p), true)
      else (left_over p (bs "prop." ++ suffix), false)
    end
  | None =>
    match pp_files p !! name with
    | Some _ =>
      if io_write io then (PersistStore (pp_proto p) (delete name (pp_files p)) (next_io p), true)
      else (unchanged p, false)
    | None => (unchanged p, false)
    end
  end.

Definition proto_write_props (p : persist_store) (props : list precord) : persist_store * bool :=
  let io := pp_io p 0 in
  match io_tmp io with
  | None => (unchanged p, false)
  | Some suffix =>
    if io_write io && io_attr io && io_rename io
    then (PersistStore (Some props) (pp_files p) (next_io p), true)
    else (left_over p (bs "persistent_properties." ++ suffix), false)
  end.

(** ** Operations *)

(** The callback gets strings up to their first null byte. *)
Definition persist_get_prop (p : persist_store) (name : bytes) : option bytes :=
  if check_proto p then
    props ← proto_read_props p;
    match find_index props name with
    | inl idx => r ← props !! idx; _ ← r_name r; cstr <$> r_value r
    | inr _ => None
    end
  else cstr <$> file_get_prop p name.

(** What the callback gets, in order. *)
Definition persist_get_props (p : persist_store) : list (bytes * bytes) :=
  if check_proto p then
    match proto_read_props p with
    | None => []
    | Some props => omap (fun r => n ← r_name r; v ← r_value r; Some (cstr n, cstr v)) props
    end
  else omap (fun kv => v ← file_get_prop p kv.1; Some (kv.1, cstr v)) (map_to_list (pp_files p)).

Definition persist_delete_prop (p : persist_store) (name : bytes) : persist_store * bool :=
  if check_proto p then
    match proto_read_props p with
    | None => (unchanged p, false)
    | Some props =>
      match find_index props name with
      | inl idx => proto_write_props p (delete idx props)
      | inr _ => (unchanged p, false)
      end
    end
  else file_set_prop p name None.

Definition persist_set_prop (p : persist_store) (name value : bytes) : persist_store * bool :=
  if check_proto p then
    match proto_read_props p with
    | None => (unchanged p, false)
    | Some props =>
      let props :=
        match find_index props name with
        | inl idx => alter (fun r => PRecord (r_name r) (Some value)) idx props
        | inr idx => take idx props ++ PRecord (Some name) (Some value) :: drop idx props
        end in
      proto_write_props p props
    end
  else file_set_prop p name (Some value).

(** ** Order *)

Lemma opt_lt_irrefl a : opt_lt a a = false.
Proof. destruct a; [apply sv_lt_irrefl|done]. Qed.

Lemma opt_lt_trans a b c : opt_lt a b = true -> opt_lt b c = true -> opt_lt a c = true.
Proof. destruct a, b, c; cbn; try done. apply sv_lt_trans. Qed.

Lemma opt_lt_total a b : opt_lt a b = false -> a <> b -> opt_lt b a = true.
Proof. destruct a, b; cbn; try done. intros Hl Hne. apply sv_lt_total; [done|congruence]. Qed.

Lemma opt_lt_ne a b : opt_lt a b = true -> a <> b.
Proof. intros Hl ->. by rewrite opt_lt_irrefl in Hl. Qed.

Lemma opt_cmp_spec a b : match opt_cmp a b with Eq => a = b | Lt => opt_lt a b = true | Gt => opt_lt b a = true end.
Proof.
  unfold opt_cmp. case_bool_decide; [done|]. destruct (opt_lt a b) eqn:E; [done|]. by apply opt_lt_total.
Qed.

(** Sorted with distinct names. *)
Definition rsorted (l : list precord) : Prop := StronglySorted (fun r s => opt_lt (r_name r) (r_name s) = true) l.

Lemma rinsert_perm r l : rinsert r l ≡ₚ r :: l.
Proof.
  induction l as [|s l IH]; [done|]. cbn [rinsert]. destruct (opt_lt _ _); [|done].
  rewrite IH. apply Permutation_swap.
Qed.

Lemma rsort_perm l : rsort l ≡ₚ l.
Proof. induction l as [|r l IH]; [done|]. cbn [rsort foldr]. fold (rsort l). by rewrite rinsert_perm, IH. Qed.

Lemma rinsert_sorted r l : rsorted l -> r_name r ∉ r_name <$> l -> rsorted (rinsert r l).
Proof.
  unfold rsorted. induction l as [|s l IH]; intros Hs Hn; [by repeat constructor|].
  inversion Hs as [|? ? Hl Hf]; subst. cbn [rinsert].
  rewrite fmap_cons, elem_of_cons in Hn. destruct (opt_lt (r_name s) (r_name r)) eqn:E.
  - constructor; [apply IH; tauto|]. rewrite rinsert_perm. by constructor.
  - assert (opt_lt (r_name r) (r_name s) = true) by (apply opt_lt_total; [done|naive_solver]).
    constructor; [done|]. constructor; [done|]. eapply Forall_impl; [done|].
    intros x Hx. by eapply opt_lt_trans.
Qed.

Lemma rsort_sorted l : NoDup (r_name <$> l) -> rsorted (rsort l).
Proof.
  unfold rsorted. induction l as [|r l IH]; intros Hn; [constructor|].
  apply NoDup_cons in Hn as [Hr Hn]. cbn [rsort foldr]. fold (rsort l).
  apply rinsert_sorted; [by apply IH|]. by rewrite rsort_perm.
Qed.

Lemma rsorted_app l1 l2 : rsorted (l1 ++ l2) <->
  rsorted l1 /\ rsorted l2 /\ Forall (fun r => Forall (fun s => opt_lt (r_name r) (r_name s) = true) l2) l1.
Proof.
  unfold rsorted. induction l1 as [|r l1 IH]; cbn [app].
  - split; [intros; split_and!; [constructor|done|constructor]|tauto].
  - split.
    + intros Hs. inversion Hs as [|? ? Hl Hf]; subst. apply IH in Hl as (Ha & Hb & Hc).
      apply Forall_app in Hf as [Hf1 Hf2]. split_and!; [by constructor|done|by constructor].
    + intros (Ha & Hb & Hc). inversion Ha; subst. inversion Hc; subst. constructor; [by apply IH|].
      by apply Forall_app.
Qed.

Lemma rsorted_NoDup l : rsorted l -> NoDup (r_name <$> l).
Proof.
  unfold rsorted. induction l as [|r l IH]; intros Hs; [constructor|]. inversion Hs as [|? ? Hl Hf]; subst.
  rewrite fmap_cons. constructor; [|by apply IH]. intros (s & E & Hin)%list_elem_of_fmap.
  rewrite Forall_forall in Hf. apply Hf in Hin. rewrite E in Hin. by apply opt_lt_ne in Hin.
Qed.

(** ** The search *)

(** Names before position [base] are smaller than the key, names from [top] on greater. *)
Definition bracket (l : list precord) (key : option bytes) (base top : nat) : Prop :=
  (forall r, r ∈ take base l -> opt_lt (r_name r) key = true) /\
  (forall r, r ∈ drop top l -> opt_lt key (r_name r) = true).

Lemma bracket_mid l key i r : rsorted l -> l !! i = Some r ->
  (opt_lt key (r_name r) = true -> forall s, s ∈ drop i l -> opt_lt key (r_name s) = true) /\
  (opt_lt key (r_name r) = false -> forall s, s ∈ take i l -> opt_lt (r_name s) key = true).
Proof.
  intros Hs Hi. pose proof (take_drop_middle l i r Hi) as E. rewrite <- E in Hs.
  apply rsorted_app in Hs as (_ & Hs2 & Hf). split.
  - intros Hk s Hin. rewrite (drop_S _ _ _ Hi) in Hin. apply elem_of_cons in Hin as [->|Hin]; [done|].
    inversion Hs2 as [|? ? _ Hall]; subst. rewrite Forall_forall in Hall. eapply opt_lt_trans; [done|]. by apply Hall.
  - intros Hk s Hin. rewrite Forall_forall in Hf. apply Hf in Hin. apply Forall_cons in Hin as [Hin _].
    destruct (decide (r_name r = key)) as [<-|]; [done|]. eapply opt_lt_trans; [done|]. by apply opt_lt_total.
Qed.

Lemma drop_sub {A} (l : list A) i j x : (i <= j)%nat -> x ∈ drop j l -> x ∈ drop i l.
Proof.
  intros Hij. replace j with (i + (j - i))%nat by lia. rewrite <- drop_drop. intros Hx.
  rewrite <- (take_drop (j - i) (drop i l)). apply elem_of_app. by right.
Qed.

Lemma search_loop_spec l key : rsorted l -> forall fuel base size, (size <= fuel)%nat -> (1 <= size)%nat ->
  (base + size <= length l)%nat -> bracket l key base (base + size) ->
  let b := search_loop fuel l key base size in (b < length l)%nat /\ bracket l key b (S b).
Proof.
  intros Hs. induction fuel as [|fuel IH]; intros base size Hf Hsz Hlen Hb; [lia|]. cbn [search_loop].
  destruct (Nat.leb_spec size 1) as [H1|H1].
  { replace size with 1%nat in * by lia. rewrite Nat.add_1_r in Hb. split; [lia|done]. }
  pose proof (Nat.div_lt size 2 ltac:(lia) ltac:(lia)). pose proof (Nat.div_le_lower_bound size 2 1 ltac:(lia) ltac:(lia)).
  pose proof (Nat.Div0.mul_div_le size 2). set (half := (size / 2)%nat) in *.
  destruct (lookup_lt_is_Some_2 l (base + half)) as [r Hr]; [lia|].
  destruct (bracket_mid l key (base + half) r Hs Hr) as [Hup Hlow]. destruct Hb as [Hb1 Hb2].
  unfold name_at. rewrite Hr. cbn [mbind option_bind]. pose proof (opt_cmp_spec (r_name r) key) as Hc.
  assert (Hno : opt_lt key (r_name r) = false ->
    let b := search_loop fuel l key (base + half) (size - half) in (b < length l)%nat /\ bracket l key b (S b)).
  { intros Hk. apply IH; [lia..|]. split; [by apply Hlow|].
    replace (base + half + (size - half))%nat with (base + size)%nat by lia. done. }
  destruct (opt_cmp (r_name r) key).
  - apply Hno. rewrite Hc. apply opt_lt_irrefl.
  - apply Hno. apply not_true_is_false. intros Hk. eapply opt_lt_ne; [by eapply opt_lt_trans|done].
  - apply IH; [lia..|]. split; [done|]. intros s Hin. apply Hup; [done|]. eapply drop_sub; [|done]. lia.
Qed.

Lemma find_index_spec l name : rsorted l ->
  match find_index l name with
  | inl i => exists r, l !! i = Some r /\ r_name r = Some name
  | inr i => bracket l (Some name) i i
  end.
Proof.
  intros Hs. unfold find_index. destruct l as [|r0 l0] eqn:El; [split; cbn; set_solver|]. rewrite <- El in *.
  assert (Hpos : (1 <= length l)%nat) by (subst l; cbn; lia). clear El.
  destruct (search_loop_spec l (Some name) Hs (length l) 0 (length l)) as [Hlt [Hb1 Hb2]]; [lia..| |].
  { split; [intros r; rewrite take_0; set_solver|]. intros r. rewrite drop_ge by lia. set_solver. }
  set (b := search_loop (length l) l (Some name) 0 (length l)) in *.
  destruct (lookup_lt_is_Some_2 l b Hlt) as [r Hr]. unfold name_at. rewrite Hr. cbn [mbind option_bind].
  pose proof (opt_cmp_spec (r_name r) (Some name)) as Hc. destruct (opt_cmp (r_name r) (Some name)).
  - eauto.
  - split; [|done]. intros s. rewrite (take_S_r _ _ _ Hr), elem_of_app, list_elem_of_singleton. naive_solver.
  - split; [done|]. intros s. rewrite (drop_S _ _ _ Hr), elem_of_cons. naive_solver.
Qed.

Lemma find_index_absent l name i : rsorted l -> find_index l name = inr i -> Some name ∉ r_name <$> l.
Proof.
  intros Hs E. pose proof (find_index_spec l name Hs) as Hf. rewrite E in Hf. destruct Hf as [H1 H2].
  intros (r & Hn & Hin)%list_elem_of_fmap. rewrite <- (take_drop i l) in Hin.
  apply elem_of_app in Hin as [Hin|Hin]; [apply H1 in Hin|apply H2 in Hin]; rewrite Hn in Hin;
    by rewrite opt_lt_irrefl in Hin.
Qed.

(** With distinct names the record found is the only one of its name. *)
Lemma find_index_unique l name i r v : rsorted l -> find_index l name = inl i -> l !! i = Some r ->
  PRecord (Some name) (Some v) ∈ l -> r = PRecord (Some name) (Some v).
Proof.
  intros Hs E Hr [j Hj]%list_elem_of_lookup. pose proof (find_index_spec l name Hs) as Hf. rewrite E in Hf.
  destruct Hf as (r' & Hr' & Hn). assert (r' = r) as -> by congruence.
  pose proof (rsorted_NoDup _ Hs) as Hnd. rewrite NoDup_alt in Hnd.
  assert (i = j) as ->; [|congruence]. apply (Hnd i j (Some name)); rewrite list_lookup_fmap.
  - rewrite Hr. cbn. by rewrite Hn.
  - by rewrite Hj.
Qed.

(** ** What is stored *)

Definition stored (p : persist_store) (m v : bytes) : Prop :=
  match pp_proto p with
  | Some l => PRecord (Some m) (Some v) ∈ l
  | None => pp_files p !! m = Some v
  end.

Definition present (p : persist_store) (m : bytes) : Prop :=
  match pp_proto p with
  | Some l => Some m ∈ r_name <$> l
  | None => is_Some (pp_files p !! m)
  end.

(** No two records have the same name. *)
Definition persist_ok (p : persist_store) : Prop :=
  match pp_proto p with Some l => NoDup (r_name <$> l) | None => True end.

(** The file system does everything the next operation asks for. *)
Definition io_good (p : persist_store) : Prop :=
  let io := pp_io p 0 in
  io_read io = true /\ is_Some (io_tmp io) /\ io_write io = true /\ io_attr io = true /\ io_rename io = true.

Definition persist_name (m : bytes) : Prop := str_starts m (bs "persist.") = true.

Lemma tmp_not_persist m suffix : persist_name m -> m <> bs "prop." ++ suffix /\ m <> bs "persistent_properties." ++ suffix.
Proof. unfold persist_name. intros Hm. split; intros ->; vm_compute in Hm; discriminate. Qed.

Lemma set_records l name value : rsorted l ->
  let l' := match find_index l name with
            | inl idx => alter (fun r => PRecord (r_name r) (Some value)) idx l
            | inr idx => take idx l ++ PRecord (Some name) (Some value) :: drop idx l
            end in
  NoDup (r_name <$> l') /\
  forall m v, PRecord (Some m) (Some v) ∈ l' <-> if bool_decide (m = name) then v = value else PRecord (Some m) (Some v) ∈ l.
Proof.
  intros Hs. cbv zeta. pose proof (rsorted_NoDup _ Hs) as Hnd. destruct (find_index l name) as [i|i] eqn:E.
  - pose proof (find_index_spec l name Hs) as Hf. rewrite E in Hf. destruct Hf as (r & Hr & Hn). split.
    + assert (Heq : r_name <$> alter (fun r => PRecord (r_name r) (Some value)) i l = r_name <$> l); [|by rewrite Heq].
      apply list_eq. intros j. rewrite !list_lookup_fmap. destruct (decide (i = j)) as [<-|Hij].
      * rewrite list_lookup_alter_eq, Hr. done.
      * by rewrite list_lookup_alter_ne.
    + intros m v. case_bool_decide as Em; rewrite !list_elem_of_lookup.
      * subst m. split.
        -- intros [j Hj]. destruct (decide (i = j)) as [<-|Hij].
           ++ rewrite list_lookup_alter_eq, Hr in Hj. cbn in Hj. congruence.
           ++ rewrite list_lookup_alter_ne in Hj by done. exfalso. apply Hij.
              rewrite NoDup_alt in Hnd. apply (Hnd i j (Some name)); rewrite list_lookup_fmap; [by rewrite Hr; cbn; rewrite Hn|by rewrite Hj].
        -- intros ->. exists i. rewrite list_lookup_alter_eq, Hr. cbn. by rewrite Hn.
      * split; intros [j Hj]; exists j.
        -- destruct (decide (i = j)) as [<-|Hij]; [|by rewrite list_lookup_alter_ne in Hj].
           rewrite list_lookup_alter_eq, Hr in Hj. cbn in Hj. congruence.
        -- destruct (decide (i = j)) as [<-|Hij]; [simplify_eq/=|]. by rewrite list_lookup_alter_ne.
  - assert (Hp : take i l ++ PRecord (Some name) (Some value) :: drop i l ≡ₚ PRecord (Some name) (Some value) :: l).
    { rewrite <- Permutation_middle, take_drop. done. }
    pose proof (find_index_absent _ _ _ Hs E) as Habs. split.
    + rewrite Hp, fmap_cons. by constructor.
    + intros m v. rewrite Hp, elem_of_cons. case_bool_decide as Em; [subst m|naive_solver].
      split; [|naive_solver]. intros [[= ->]|Hin]; [done|]. exfalso. apply Habs.
      apply list_elem_of_fmap. by exists (PRecord (Some name) (Some v)).
Qed.

Lemma delete_records l name i : rsorted l -> find_index l name = inl i ->
  NoDup (r_name <$> delete i l) /\
  forall m v, PRecord (Some m) (Some v) ∈ delete i l <-> m <> name /\ PRecord (Some m) (Some v) ∈ l.
Proof.
  intros Hs E. pose proof (rsorted_NoDup _ Hs) as Hnd. pose proof (find_index_spec l name Hs) as Hf. rewrite E in Hf.
  destruct Hf as (r & Hr & Hn). pose proof (delete_Permutation l i r Hr) as Hp.
  assert (Hnd' : NoDup (r_name r :: (r_name <$> delete i l))) by (rewrite <- fmap_cons, <- Hp; done).
  apply NoDup_cons in Hnd' as [Hnin Hnd']. split; [done|]. intros m v.
  assert (Hel : PRecord (Some m) (Some v) ∈ l <-> PRecord (Some m) (Some v) = r \/ PRecord (Some m) (Some v) ∈ delete i l).
  { rewrite <- elem_of_cons. split; intros Hin; [by rewrite <- Hp|by rewrite Hp]. }
  rewrite Hel. split.
  - intros Hin. split; [|by right]. intros ->. apply Hnin. rewrite Hn. apply list_elem_of_fmap. by exists (PRecord (Some name) (Some v)).
  - intros [Hne Hor]. destruct Hor as [Hr'|Hin]; [rewrite <- Hr' in Hn; cbn in Hn; congruence|done].
Qed.

(** ** Correctness *)

Lemma proto_read_sorted p l : persist_ok p -> pp_proto p = Some l -> rsorted (rsort l).
Proof. unfold persist_ok. intros Hok E. rewrite E in Hok. by apply rsort_sorted. Qed.

Lemma check_proto_some p l : pp_proto p = Some l -> check_proto p = true.
Proof. intros E. unfold check_proto. rewrite E. done. Qed.

Lemma check_proto_none p : pp_proto p = None -> check_proto p = false.
Proof. intros E. unfold check_proto. rewrite E. done. Qed.

Lemma get_spec p name v : persist_ok p ->
  persist_get_prop p name = Some v <-> io_read (pp_io p 0) = true /\ exists w, stored p name w /\ v = cstr w.
Proof.
  intros Hok. unfold persist_get_prop, stored. destruct (pp_proto p) as [l|] eqn:El.
  - rewrite (check_proto_some p l El). unfold proto_read_props. rewrite El. cbn.
    destruct (io_read (pp_io p 0)); cbn; [|naive_solver].
    pose proof (proto_read_sorted p l Hok El) as Hs. pose proof (find_index_spec _ name Hs) as Hf.
    destruct (find_index (rsort l) name) as [i|i] eqn:E.
    + destruct Hf as (r & Hr & Hn). rewrite Hr. cbn. rewrite Hn. cbn. split.
      * destruct r as [n [w|]]; cbn in *; [|done]. intros [= <-]. split; [done|]. exists w. split; [|done].
        rewrite <- rsort_perm. subst n. by eapply list_elem_of_lookup_2.
      * intros (_ & w & Hin & ->). rewrite <- rsort_perm in Hin.
        by rewrite (find_index_unique _ _ _ _ _ Hs E Hr Hin).
    + split; [done|]. intros (_ & w & Hin & _). rewrite <- rsort_perm in Hin. exfalso.
      apply (find_index_absent _ _ _ Hs E). apply list_elem_of_fmap. by exists (PRecord (Some name) (Some w)).
  - rewrite (check_proto_none p El). unfold file_get_prop. destruct (io_read (pp_io p 0)); [|naive_solver].
    rewrite fmap_Some. naive_solver.
Qed.

Lemma stored_present p m v : stored p m v -> present p m.
Proof.
  unfold stored, present. destruct (pp_proto p); [|by eauto].
  intros Hin. apply list_elem_of_fmap. by exists (PRecord (Some m) (Some v)).
Qed.

(** The effect of an operation that sets [name] to [value], or removes it. *)
Definition stored_change (p p' : persist_store) (b : bool) (name : bytes) (value : option bytes) : Prop :=
  persist_ok p' /\
  forall m v, persist_name m ->
    (stored p' m v <-> if b && bool_decide (m = name) then value = Some v else stored p m v).

Lemma unchanged_change p name value : persist_ok p -> stored_change p (unchanged p) false name value.
Proof. by split. Qed.

Lemma left_over_change p tmp name value : persist_ok p -> (forall m, persist_name m -> m <> tmp) ->
  stored_change p (left_over p tmp) false name value.
Proof.
  intros Hok Ht. split; [done|]. intros m v Hm. cbn. unfold stored, left_over. cbn.
  destruct (pp_proto p); [done|]. by rewrite lookup_insert_ne by (by apply not_eq_sym, Ht).
Qed.

Lemma proto_write_change p l props name value p' b : pp_proto p = Some l -> persist_ok p ->
  NoDup (r_name <$> props) ->
  (forall m v, PRecord (Some m) (Some v) ∈ props <->
     if bool_decide (m = name) then value = Some v else PRecord (Some m) (Some v) ∈ l) ->
  proto_write_props p props = (p', b) -> stored_change p p' b name value /\ (io_good p -> b = true).
Proof.
  intros El Hok Hnd Hin. unfold proto_write_props, io_good.
  destruct (io_tmp (pp_io p 0)) as [suffix|].
  - destruct (io_write (pp_io p 0) && io_attr (pp_io p 0) && io_rename (pp_io p 0)) eqn:Eio; intros [= <- <-].
    + split; [|done]. split; [done|]. intros m v Hm. cbn. rewrite Hin. unfold stored. by rewrite El.
    + split; [|intros (_ & _ & Hw & Ha & Hrn); by rewrite Hw, Ha, Hrn in Eio]. apply left_over_change; [done|].
      intros m Hm. by apply tmp_not_persist.
  - intros [= <- <-]. split; [by apply unchanged_change|]. by intros (_ & [? ?] & _).
Qed.

Lemma set_change p name value p' b : persist_ok p -> persist_name name ->
  persist_set_prop p name value = (p', b) ->
  stored_change p p' b name (Some value) /\ (io_good p -> b = true).
Proof.
  intros Hok Hname. unfold persist_set_prop. destruct (pp_proto p) as [l|] eqn:El.
  - rewrite (check_proto_some p l El). unfold proto_read_props. rewrite El. cbn.
    destruct (io_read (pp_io p 0)) eqn:Er.
    + destruct (set_records (rsort l) name value) as [Hnd Hin]; [by eapply proto_read_sorted|].
      apply (proto_write_change p l); [done..|]. intros m v. rewrite Hin. case_bool_decide; [naive_solver|].
      by rewrite rsort_perm.
    + intros [= <- <-]. split; [by apply unchanged_change|]. intros [Hr _]. congruence.
  - rewrite (check_proto_none p El). unfold file_set_prop, io_good.
    destruct (io_tmp (pp_io p 0)) as [suffix|].
    + destruct (io_write (pp_io p 0) && io_rename (pp_io p 0)) eqn:Eio; intros [= <- <-].
      * split; [|done]. split; [by unfold persist_ok; cbn; rewrite El|]. intros m v Hm. unfold stored. cbn. rewrite El.
        case_bool_decide as Em; [subst; rewrite lookup_insert_eq; naive_solver|]. by rewrite lookup_insert_ne.
      * split; [|intros (_ & _ & Hw & _ & Hrn); by rewrite Hw, Hrn in Eio]. apply left_over_change; [done|].
        intros m Hm. by apply tmp_not_persist.
    + intros [= <- <-]. split; [by apply unchanged_change|]. by intros (_ & [? ?] & _).
Qed.

Lemma delete_change p name p' b : persist_ok p ->
  persist_delete_prop p name = (p', b) ->
  stored_change p p' b name None /\ (b = true -> present p name) /\ (io_good p -> present p name -> b = true).
Proof.
  intros Hok. unfold persist_delete_prop, present. destruct (pp_proto p) as [l|] eqn:El.
  - rewrite (check_proto_some p l El). unfold proto_read_props. rewrite El. cbn.
    destruct (io_read (pp_io p 0)) eqn:Er.
    2: { intros [= <- <-]. split; [by apply unchanged_change|]. split; [done|]. intros [Hr _]. congruence. }
    pose proof (proto_read_sorted p l Hok El) as Hs. pose proof (find_index_spec _ name Hs) as Hf.
    destruct (find_index (rsort l) name) as [i|i] eqn:E.
    + destruct Hf as (r & Hr & Hn). destruct (delete_records _ _ _ Hs E) as [Hnd Hin]. intros Ew.
      destruct (proto_write_change p l (delete i (rsort l)) name None p' b) as [Hc Hg]; [done..| |done|].
      { intros m v. rewrite Hin, rsort_perm. case_bool_decide; naive_solver. }
      split; [done|]. split; [|naive_solver]. intros _. rewrite <- (rsort_perm l). apply list_elem_of_fmap.
      exists r. split; [done|]. by eapply list_elem_of_lookup_2.
    + intros [= <- <-]. split; [by apply unchanged_change|]. split; [done|]. intros _ Hp. exfalso.
      rewrite <- (rsort_perm l) in Hp. by apply (find_index_absent _ _ _ Hs E).
  - rewrite (check_proto_none p El). unfold file_set_prop, io_good.
    destruct (pp_files p !! name) as [w|] eqn:Ef.
    + destruct (io_write (pp_io p 0)); intros [= <- <-].
      * split; [|by split; [eauto|]]. split; [by unfold persist_ok; cbn; rewrite El|]. intros m v Hm. unfold stored. cbn. rewrite El.
        case_bool_decide as Em; [subst; rewrite lookup_delete_eq; naive_solver|]. by rewrite lookup_delete_ne.
      * split; [by apply unchanged_change|]. split; [done|]. by intros (_ & _ & ? & _).
    + intros [= <- <-]. split; [by apply unchanged_change|]. split; [done|]. by intros _ [? ?].
Qed.


(** *** Samples *)

Definition good_io : persist_io := PersistIO true (Some (bs "a1b2c3")) true true true [].
Definition full_io : persist_io := PersistIO true (Some (bs "a1b2c3")) false true true (bs "tr").

(** A directory without properties. *)
Definition empty_store : persist_store := PersistStore None ∅ (fun _ => good_io).

(** Three records, not in order, one without a value. *)
Definition sample_store (io : persist_io) : persist_store :=
  PersistStore (Some [PRecord (Some (bs "persist.sys.x")) (Some (bs "1"));
                      PRecord (Some (bs "persist.adb")) None;
                      PRecord (Some (bs "persist.radio.z")) (Some (bs "on"))]) ∅ (fun _ => io).


(** One file per property: a write that fails leaves the temporary file behind, which
    is listed as a property from then on. *)
Theorem failed_write_is_listed :
  let p := PersistStore None {[ bs "persist.sys.x" := bs "1" ]}
             (fun n => match n with O => full_io | _ => good_io end) in
  let res := persist_set_prop p (bs "persist.sys.x") (bs "true") in
  res.2 = false /\ (bs "prop.a1b2c3", bs "tr") ∈ persist_get_props res.1 /\
  (bs "prop.a1b2c3", bs "tr") ∉ persist_get_props p.
Proof.
  cbv zeta. split; [vm_compute; reflexivity|]. match goal with |- ?P => apply (bool_decide_unpack P) end. vm_compute. exact I.
Qed.
