(* ===== verification/Resetprop.v ===== *)
(** System properties: [native/src/core/resetprop/resetprop.cpp].  The property
    area is libsystemproperties, which is not part of the repository: it is the
    class [PropArea], with what the code relies on in [PropAreaLaws].  The
    persistent store of [persist.rs] is the one of [Persist]. *)

From S2P Require Import Prelude Base Files OrdMap Persist.

(** ** The property area *)

Definition PROP_VALUE_MAX : Z := 92.

Record prop_info := PropInfo { pi_value : bytes; pi_is_long : bool }.

Class PropArea (A : Type) := {
  (** [__system_property_find] and [system_property_read_callback] *)
  pa_find : A -> bytes -> option prop_info;
  (** [__system_property_update] of the property with this name *)
  pa_update : A -> bytes -> bytes -> A * Z;
  pa_add : A -> bytes -> bytes -> A * Z;
  pa_delete : A -> bytes -> bool -> A * Z;
  (** [system_property_set]: a request to the property service *)
  pa_service : A -> bytes -> bytes -> A * Z;
  pa_context : A -> bytes -> option bytes;
  pa_foreach : A -> list (bytes * bytes)
}.

(** What the code relies on of [update], [add] and [delete]: a call that returns 0
    has stored the value, no call touches another property, values of
    [PROP_VALUE_MAX] bytes and more are refused by [update]. *)
Class PropAreaLaws (A : Type) `{PropArea A} := {
  pa_update_ok a n v a' : pa_update a n v = (a', 0) ->
    exists l, pa_find a' n = Some (PropInfo v l);
  pa_update_long a n v : PROP_VALUE_MAX <= zlen v -> pa_update a n v = (a, -1);
  pa_update_frame a n v m : m <> n -> pa_find (pa_update a n v).1 m = pa_find a m;
  pa_add_ok a n v a' : pa_add a n v = (a', 0) ->
    exists l, pa_find a' n = Some (PropInfo v l);
  pa_add_frame a n v m : m <> n -> pa_find (pa_add a n v).1 m = pa_find a m;
  pa_delete_gone a n prune : pa_find (pa_delete a n prune).1 n = None;
  pa_delete_frame a n prune m : m <> n -> pa_find (pa_delete a n prune).1 m = pa_find a m
}.

(** ** Flags *)

(** The [uint32_t flags] of [PropFlags]. *)
Definition PropFlags : Type := Z.
Definition setSkipSvc (f : PropFlags) : PropFlags := Z.lor f 1.
Definition setPersist (f : PropFlags) : PropFlags := Z.lor f (Z.shiftl 1 1).
Definition setContext (f : PropFlags) : PropFlags := Z.lor f (Z.shiftl 1 2).
Definition setPersistOnly (f : PropFlags) : PropFlags := setPersist (Z.lor f (Z.shiftl 1 3)).
Definition setWait (f : PropFlags) : PropFlags := Z.lor f (Z.shiftl 1 4).
Definition isSkipSvc (f : PropFlags) : bool := Z.testbit f 0.
Definition isPersist (f : PropFlags) : bool := Z.testbit f 1.
Definition isContext (f : PropFlags) : bool := Z.testbit f 2.
Definition isPersistOnly (f : PropFlags) : bool := Z.testbit f 3.
Definition isWait (f : PropFlags) : bool := Z.testbit f 4.

(** ** Names *)

Definition legal_char (c : byte) : bool :=
  Byte.eqb c x5f || Byte.eqb c x2d || Byte.eqb c x40 || Byte.eqb c x3a ||
  islower c || isupper c || isdigit c.

(** The loop over the characters; [prev] is [name[i-1]]. *)
Fixpoint legal_loop (prev : option byte) (s : bytes) : bool :=
  match s with
  | [] => true
  | c :: s =>
    if Byte.eqb c x2e then
      (if bool_decide (prev = Some x2e) then false else legal_loop (Some c) s)
    else legal_char c && legal_loop (Some c) s
  end.

Definition check_legal_property_name (name : bytes) : bool :=
  match name with
  | [] => false
  | c :: _ =>
    if Byte.eqb c x2e then false
    else if bool_decide (last name = Some x2e) then false
    else legal_loop None name
  end.

(** ** Operations *)

Section resetprop.
Context {A : Type} `{PropArea A}.

Record pstate := PState { ps_area : A; ps_persist : persist_store }.

Definition set_prop (st : pstate) (name value : bytes) (flags : PropFlags) : pstate * Z :=
  if negb (check_legal_property_name name) then (st, 1)
  else
    let area := ps_area st in
    let pi := pa_find area name in
    let '(area, pi, flags) :=
      if str_starts name (bs "ro.") then
        let '(area, pi) :=
          match pi with
          | Some p =>
            if pi_is_long p || (PROP_VALUE_MAX <=? zlen value)
            then ((pa_delete area name false).1, None) else (area, pi)
          | None => (area, pi)
          end in
        (area, pi, setSkipSvc flags)
      else (area, pi, flags) in
    let '(area, ret) :=
      match pi with
      | Some _ => if isSkipSvc flags then pa_update area name value else pa_service area name value
      | None => if isSkipSvc flags then pa_add area name value else pa_service area name value
      end in
    if (ret =? 0) && isSkipSvc flags && isPersist flags && str_starts name (bs "persist.") then
      let '(p, ok) := persist_set_prop (ps_persist st) name value in
      (PState area p, if (ok : bool) then 0 else 1)
    else (PState area (ps_persist st), ret).

(** [cb.val]: the empty string when nothing was found. *)
Definition get_prop (st : pstate) (name : bytes) (flags : PropFlags) : bytes :=
  if negb (check_legal_property_name name) then []
  else if isContext flags then from_option id [] (pa_context (ps_area st) name)
  else
    let val :=
      if isPersistOnly flags then []
      else match pa_find (ps_area st) name with Some p => pi_value p | None => [] end in
    if bool_decide (val = []) && isPersist flags && str_starts name (bs "persist.") then
      from_option id val (persist_get_prop (ps_persist st) name)
    else val.

Definition delete_prop (st : pstate) (name : bytes) (flags : PropFlags) : pstate * Z :=
  if negb (check_legal_property_name name) then (st, 1)
  else
    let '(area, ret) := pa_delete (ps_area st) name true in
    if isPersist flags && str_starts name (bs "persist.") then
      let '(p, ok) := persist_delete_prop (ps_persist st) name in
      (PState area p, if (ok : bool) then 0 else ret)
    else (PState area (ps_persist st), ret).

(** The property area changes while [wait_prop] sleeps: [evs] are the areas seen
    after each [system_property_wait].  Waiting for ever is [Loop]. *)
Fixpoint wait_found (evs : list A) (area : A) (name : bytes) : outcome (A * list A * prop_info) :=
  match pa_find area name with
  | Some p => Ret (area, evs, p)
  | None => match evs with [] => Loop | a :: evs => wait_found evs a name end
  end.

(** The property found is read again through its [prop_info]; if it was deleted
    meanwhile the stale record still holds the last value. *)
Fixpoint wait_changed (evs : list A) (name : bytes) (val : bytes) (old : option bytes)
  : outcome bytes :=
  if bool_decide (old = None \/ old = Some val) then
    match evs with
    | [] => Loop
    | a :: evs =>
      let val := match pa_find a name with Some p => pi_value p | None => val end in
      match old with None => Ret val | Some _ => wait_changed evs name val old end
    end
  else Ret val.

Definition wait_prop (st : pstate) (evs : list A) (name : bytes) (old : option bytes)
  : outcome bytes :=
  if negb (check_legal_property_name name) then Ret []
  else
    let! (_, evs, p) := wait_found evs (ps_area st) name in
    wait_changed evs name (pi_value p) old.

(** [prop_collector]: [std::map::insert] keeps the first value of a name. *)
Definition collect_props (kvs : list (bytes * bytes)) (l : list (bytes * bytes)) :=
  omerge fst l kvs.

Definition print_props (st : pstate) (flags : PropFlags) : bytes :=
  let l := if isPersistOnly flags then [] else collect_props (pa_foreach (ps_area st)) [] in
  let l := if isPersist flags
           then collect_props (persist_get_props (ps_persist st)) l else l in
  concat (map (fun kv =>
    let v := if isContext flags then from_option id [] (pa_context (ps_area st) kv.1) else kv.2 in
    bs "[" ++ kv.1 ++ bs "]: [" ++ v ++ bs "]" ++ [x0a]) l).

(** [content] is [None] when the file cannot be opened. *)
Definition load_file (st : pstate) (content : option bytes) (flags : PropFlags) : pstate :=
  match content with
  | None => st
  | Some c => parse_prop_file c (fun st k v => ((set_prop st k v flags).1, true)) st
  end.

(** The entry points of [resetprop.hpp]. *)
Definition get_prop_api (st : pstate) (name : bytes) (persist : bool) : bytes :=
  get_prop st name (if persist then setPersist 0 else 0).
Definition delete_prop_api (st : pstate) (name : bytes) (persist : bool) : pstate * Z :=
  delete_prop st name (if persist then setPersist 0 else 0).
Definition set_prop_api (st : pstate) (name value : bytes) (skip_svc : bool) : pstate * Z :=
  set_prop st name value (if skip_svc then setSkipSvc 0 else 0).
Definition load_prop_file (st : pstate) (content : option bytes) (skip_svc : bool) : pstate :=
  load_file st content (if skip_svc then setSkipSvc 0 else 0).
End resetprop.
Arguments pstate A : clear implicits.

(** ** Command line *)

Record popts := POpts {
  po_flags : PropFlags;
  po_verbose : bool;
  prop_file : option bytes;
  prop_to_rm : option bytes
}.

(** [consume_next]: [args] starts with the argument being parsed. *)
Definition consume_next (args : list bytes) : outcome bytes :=
  match args with [_; val] => Ret val | _ => Exit 1 end.

Definition set_flags (f : PropFlags -> PropFlags) (o : popts) : popts :=
  POpts (f (po_flags o)) (po_verbose o) (prop_file o) (prop_to_rm o).
Definition set_rm (v : bytes) (o : popts) : popts :=
  POpts (po_flags o) (po_verbose o) (prop_file o) (Some v).
Definition set_file (v : bytes) (o : popts) : popts :=
  POpts (po_flags o) (po_verbose o) (Some v) (prop_to_rm o).
Definition set_verbose (o : popts) : popts :=
  POpts (po_flags o) true (prop_file o) (prop_to_rm o).

(** The [for (int idx = 1; ...)] loop over one argument: [cs] is [argv[0] + idx];
    the boolean is [stop_parse]. *)
Fixpoint parse_chars (args : list bytes) (arg cs : bytes) (o : popts) (stop : bool)
  : outcome (popts * bool) :=
  match cs with
  | [] => Ret (o, stop)
  | c :: cs =>
    match c with
    | x2d =>
      if bool_decide (arg = bs "--file") then
        let! v := consume_next args in Ret (set_file v o, true)
      else if bool_decide (arg = bs "--delete") then
        let! v := consume_next args in Ret (set_rm v o, true)
      else Exit 1
    | x64 => let! v := consume_next args in parse_chars args arg cs (set_rm v o) true
    | x66 => let! v := consume_next args in parse_chars args arg cs (set_file v o) true
    | x6e => parse_chars args arg cs (set_flags setSkipSvc o) stop
    | x70 => parse_chars args arg cs (set_flags setPersist o) stop
    | x50 => parse_chars args arg cs (set_flags setPersistOnly o) stop
    | x76 => parse_chars args arg cs (set_verbose o) stop
    | x5a => parse_chars args arg cs (set_flags setContext o) stop
    | x77 => parse_chars args arg cs (set_flags setWait o) stop
    | _ => Exit 1
    end
  end.

Fixpoint parse_flags (args : list bytes) (o : popts) : outcome (popts * list bytes) :=
  match args with
  | (x2d :: cs) :: rest =>
    let! (o, stop) := parse_chars args (x2d :: cs) cs o false in
    if (stop : bool) then Ret (o, rest) else parse_flags rest o
  | _ => Ret (o, args)
  end.

Section main.
Context {A : Type} `{PropArea A}.

(** [files] reads a file; the result is the new state, the exit status and what
    was printed. *)
Definition resetprop_main (files : bytes -> option bytes) (evs : list A)
    (args : list bytes) (st : pstate A) : outcome (pstate A * Z * bytes) :=
  let! (o, args) := parse_flags args (POpts 0 false None None) in
  let flags := po_flags o in
  let show val := if bool_decide (val = []) then Ret (st, 1, []) else Ret (st, 0, val ++ [x0a]) in
  match prop_to_rm o with
  | Some n => let '(st, r) := delete_prop st n flags in Ret (st, r, [])
  | None =>
    match prop_file o with
    | Some f => Ret (load_file st (files f) flags, 0, [])
    | None =>
      if isWait flags then
        match args with
        | [] => Exit 1
        | n :: more => let! val := wait_prop st evs n (head more) in show val
        end
      else
        match args with
        | [] => Ret (st, 0, print_props st flags)
        | [n] => show (get_prop st n flags)
        | [n; v] => let '(st, r) := set_prop st n v flags in Ret (st, r, [])
        | _ => Exit 1
        end
    end
  end.
End main.

(** ** The grammar of property names *)

(** Segments joined by dots. *)
Fixpoint dotted (segs : list bytes) : bytes :=
  match segs with
  | [] => []
  | [s] => s
  | s :: segs => s ++ x2e :: dotted segs
  end.

Definition legal_seg (s : bytes) : Prop := s <> [] /\ Forall (fun c => legal_char c = true) s.

Lemma legal_char_not_dot c : legal_char c = true -> c <> x2e.
Proof. by intros H ->. Qed.

Lemma dotted_cons s segs : segs <> [] -> dotted (s :: segs) = s ++ x2e :: dotted segs.
Proof. by destruct segs. Qed.

Lemma legal_loop_segs s : forall prev, legal_loop prev s = true ->
  last s <> Some x2e -> (s = [] -> prev <> Some x2e) ->
  exists s0 segs, s = dotted (s0 :: segs) /\ Forall (fun c => legal_char c = true) s0 /\
    Forall legal_seg segs /\ (prev = Some x2e -> s0 <> []).
Proof.
  induction s as [|c s IH]; intros prev Hl Hlast Hprev.
  { exists [], []. split_and!; [done|constructor..|]. intros E. by destruct (Hprev eq_refl). }
  simpl in Hl.
  assert (Hlast' : last s <> Some x2e) by (destruct s; [done|exact Hlast]).
  destruct (Byte.eqb c x2e) eqn:Ec.
  - apply Byte.byte_dec_bl in Ec as ->. case_bool_decide as Hp; [done|].
    destruct (IH (Some x2e) Hl Hlast') as (s0 & segs & -> & H0 & Hs & Hne).
    { intros ->. done. }
    exists [], (s0 :: segs). split_and!; [done..| |done].
    constructor; [|done]. split; auto.
  - apply andb_true_iff in Hl as [Hc Hl].
    destruct (IH (Some c) Hl Hlast') as (s0 & segs & -> & H0 & Hs & _).
    { intros _ [= ->]. done. }
    exists (c :: s0), segs. split_and!; [by destruct segs|by constructor|done|done].
Qed.

Lemma legal_loop_app prev s t : Forall (fun c => legal_char c = true) s -> s <> [] ->
  exists c, c <> x2e /\ legal_loop prev (s ++ t) = legal_loop (Some c) t.
Proof.
  intros Hs. revert prev. induction Hs as [|c s Hc Hs IH]; intros prev; [done|]. intros _.
  assert (E : legal_loop prev ((c :: s) ++ t) = legal_loop (Some c) (s ++ t)).
  { simpl. rewrite eqb_false by (by apply legal_char_not_dot). by rewrite Hc. }
  rewrite E. destruct s as [|d s]; [exists c; split; [by apply legal_char_not_dot|done]|].
  by apply IH.
Qed.

Lemma legal_loop_dotted segs prev : Forall legal_seg segs -> legal_loop prev (dotted segs) = true.
Proof.
  revert prev; induction segs as [|s segs IH]; intros prev; [done|].
  rewrite Forall_cons. intros [[Hne Hs] Hr].
  destruct (decide (segs = [])) as [->|Hsegs].
  - simpl. destruct (legal_loop_app prev s [] Hs Hne) as (c & _ & E). by rewrite app_nil_r in E.
  - rewrite dotted_cons by done. destruct (legal_loop_app prev s (x2e :: dotted segs) Hs Hne) as (c & Hc & ->).
    simpl. rewrite bool_decide_eq_false_2 by congruence. by apply IH.
Qed.

Lemma dotted_ends segs : segs <> [] -> Forall legal_seg segs ->
  (exists c t, dotted segs = c :: t /\ c <> x2e) /\ last (dotted segs) <> Some x2e.
Proof.
  intros Hne Hs. induction Hs as [|s segs [Hsne Hsl] Hs IH]; [done|]. clear Hne.
  assert (Hlast : forall c, last s = Some c -> c <> x2e).
  { intros c Hc. apply legal_char_not_dot. apply last_Some_elem_of in Hc.
    rewrite Forall_forall in Hsl. by apply Hsl. }
  destruct s as [|c s]; [done|]. inversion Hsl as [|? ? Hc _]; subst.
  apply legal_char_not_dot in Hc.
  destruct (decide (segs = [])) as [->|Hsegs].
  - split; [by exists c, s|]. simpl dotted. intros E. by apply (Hlast x2e).
  - rewrite dotted_cons by done. split; [by eexists c, _|].
    destruct (IH Hsegs) as [(d & t & E & _) Hl]. rewrite E in *.
    rewrite last_app_cons, last_cons_cons. done.
Qed.

(** A property name is accepted exactly when it is a non-empty sequence of
    non-empty segments of letters, digits, '_', '-', '@' and ':', joined by dots. *)
Theorem check_legal_property_name_spec name :
  check_legal_property_name name = true <->
  exists segs, segs <> [] /\ Forall legal_seg segs /\ name = dotted segs.
Proof.
  split.
  - destruct name as [|c name]; [done|]. unfold check_legal_property_name.
    destruct (Byte.eqb c x2e) eqn:Ec; [done|]. case_bool_decide as Hl; [done|]. intros H.
    destruct (legal_loop_segs _ _ H Hl) as (s0 & segs & E & H0 & Hs & _); [done|].
    exists (s0 :: segs). split_and!; [done| |done]. constructor; [|done]. split; [|done].
    intros ->. destruct segs; [done|]. simpl in E. injection E as -> _. done.
  - intros (segs & Hne & Hs & ->). destruct (dotted_ends segs Hne Hs) as [(c & t & E & Hc) Hl].
    pose proof (legal_loop_dotted segs None Hs) as HL. rewrite E in *. unfold check_legal_property_name.
    rewrite eqb_false by done. by rewrite bool_decide_eq_false_2.
Qed.

(** ** Setting, getting, deleting *)

Section laws.
Context {A : Type} `{PropAreaLaws A}.
Implicit Types st : pstate A.

Definition direct (name : bytes) (flags : PropFlags) : bool :=
  isSkipSvc flags || str_starts name (bs "ro.").

Lemma isSkipSvc_set f : isSkipSvc (setSkipSvc f) = true.
Proof. unfold isSkipSvc, setSkipSvc. rewrite Z.lor_spec. apply orb_true_r. Qed.

Lemma isPersist_skip f : isPersist (setSkipSvc f) = isPersist f.
Proof. unfold isPersist, setSkipSvc. rewrite Z.lor_spec. apply orb_false_r. Qed.

(** The property area after a direct modification, and its result. *)
Definition set_area (area : A) (name value : bytes) : A * Z :=
  let pi := pa_find area name in
  let long := match pi with
    | Some p => str_starts name (bs "ro.") && (pi_is_long p || (PROP_VALUE_MAX <=? zlen value))
    | None => false end in
  if long then pa_add (pa_delete area name false).1 name value
  else match pi with Some _ => pa_update area name value | None => pa_add area name value end.

Lemma set_prop_direct st name value flags : check_legal_property_name name = true ->
  direct name flags = true ->
  set_prop st name value flags =
  let '(area, ret) := set_area (ps_area st) name value in
  if (ret =? 0) && isPersist flags && str_starts name (bs "persist.") then
    let '(p, ok) := persist_set_prop (ps_persist st) name value in
    (PState area p, if (ok : bool) then 0 else 1)
  else (PState area (ps_persist st), ret).
Proof.
  intros Hl Hd. unfold set_prop, set_area, direct in *. rewrite Hl. cbn [negb].
  destruct (str_starts name (bs "ro.")) eqn:Hro.
  - destruct (pa_find (ps_area st) name) as [p|]; cbn [andb].
    + destruct (pi_is_long p || (PROP_VALUE_MAX <=? zlen value)); cbv iota zeta; rewrite ?isSkipSvc_set, ?isPersist_skip;
      [destruct (pa_add _ _ _) as [a r]|destruct (pa_update _ _ _) as [a r]];
      by rewrite ?isPersist_skip, andb_true_r.
    + rewrite isSkipSvc_set. destruct (pa_add _ _ _) as [a r].
      by rewrite isPersist_skip, andb_true_r.
  - rewrite orb_false_r in Hd. rewrite Hd.
    destruct (pa_find (ps_area st) name) as [p|]; cbn [andb];
      [destruct (pa_update _ _ _)|destruct (pa_add _ _ _)]; by rewrite andb_true_r.
Qed.

Lemma set_area_ok area name value area' : set_area area name value = (area', 0) ->
  exists l, pa_find area' name = Some (PropInfo value l).
Proof.
  unfold set_area. destruct (pa_find area name) as [p|];
    [destruct (_ && _)|]; intros E; eauto using pa_add_ok, pa_update_ok.
Qed.

Lemma set_area_frame area name value m : m <> name ->
  pa_find (set_area area name value).1 m = pa_find area m.
Proof.
  intros Hm. unfold set_area. destruct (pa_find area name) as [p|];
    [destruct (_ && _)|]; rewrite ?pa_add_frame, ?pa_delete_frame, ?pa_update_frame; done.
Qed.

(** After a direct modification (read-only properties always are) that reports
    success, the property reads back as the value given and every other property reads
    as before; with the persist flag a "persist." property is in the persistent store
    too, and otherwise the store is the same. *)
Theorem set_prop_get st name value flags st' :
  direct name flags = true ->
  set_prop st name value flags = (st', 0) ->
  get_prop st' name 0 = value /\
  (forall m, m <> name -> get_prop st' m 0 = get_prop st m 0) /\
  if isPersist flags && str_starts name (bs "persist.")
  then persist_ok (ps_persist st) -> forall m v, persist_name m ->
    (stored (ps_persist st') m v <-> if bool_decide (m = name) then v = value else stored (ps_persist st) m v)
  else ps_persist st' = ps_persist st.
Proof.
  intros Hd Hs.
  assert (Hl : check_legal_property_name name = true).
  { unfold set_prop in Hs. by destruct (check_legal_property_name name). }
  rewrite set_prop_direct in Hs by done.
  destruct (set_area (ps_area st) name value) as [area ret] eqn:Ea.
  assert (ret = 0 /\ ps_area st' = area) as [-> Harea].
  { destruct ((ret =? 0) && isPersist flags && str_starts name (bs "persist.")) eqn:Eb.
    - rewrite !andb_true_iff, Z.eqb_eq in Eb. destruct (persist_set_prop _ _ _) as [p ok].
      injection Hs as <- _. tauto.
    - by injection Hs as <- ->. }
  destruct (set_area_ok _ _ _ _ Ea) as [l Hf]. split_and!.
  - unfold get_prop. rewrite Hl, Harea, Hf. simpl. by rewrite andb_false_r.
  - intros m Hm. unfold get_prop. destruct (check_legal_property_name m); [|done]. simpl.
    rewrite !andb_false_r. cbn [andb]. rewrite Harea.
    pose proof (set_area_frame (ps_area st) name value m Hm) as Hfr. rewrite Ea in Hfr. simpl in Hfr.
    by rewrite Hfr.
  - cbn [Z.eqb andb] in Hs. destruct (isPersist flags && str_starts name (bs "persist.")) eqn:Eb.
    + apply andb_true_iff in Eb as [_ Hn]. destruct (persist_set_prop (ps_persist st) name value) as [p ok] eqn:Ep.
      destruct ok; [|done]. injection Hs as <-. intros Hok m v Hm. destruct (set_change _ _ _ _ _ Hok Hn Ep) as [[_ Hst] _]. cbn [ps_persist]. rewrite Hst by done. cbn [andb].
      case_bool_decide; naive_solver.
    + by injection Hs as <-.
Qed.

(** Values of [PROP_VALUE_MAX] bytes and more: an existing property that is
    not read-only refuses them, unchanged. *)
Theorem set_prop_too_long st name value flags p :
  check_legal_property_name name = true -> str_starts name (bs "ro.") = false ->
  isSkipSvc flags = true -> pa_find (ps_area st) name = Some p -> PROP_VALUE_MAX <= zlen value ->
  set_prop st name value flags = (st, -1).
Proof.
  intros Hl Hro Hs Hf Hv. rewrite set_prop_direct; [|done|unfold direct; by rewrite Hs].
  unfold set_area. rewrite Hf, Hro. cbn [andb]. rewrite pa_update_long by done. by destruct st.
Qed.

(** Deleting a property with the persist flag, when the store can be read and
    written, leaves nothing to read back in memory or in the store, whichever flags the
    reader uses. *)
Theorem delete_prop_get st name flags rflags st' r :
  check_legal_property_name name = true -> persist_ok (ps_persist st) -> io_good (ps_persist st) ->
  delete_prop st name flags = (st', r) ->
  isPersist flags = true -> isContext rflags = false ->
  get_prop st' name rflags = [] /\
  (forall m, m <> name -> pa_find (ps_area st') m = pa_find (ps_area st) m).
Proof.
  intros Hl Hok Hio Hd Hp Hc. unfold delete_prop in Hd. rewrite Hl, Hp in Hd. cbn [negb andb] in Hd.
  pose proof (pa_delete_gone (ps_area st) name true) as Hg.
  assert (Hfr := fun m => pa_delete_frame (ps_area st) name true m).
  destruct (pa_delete (ps_area st) name true) as [area ret]. cbn [fst] in *.
  unfold get_prop. rewrite Hl, Hc. cbn [negb].
  destruct (str_starts name (bs "persist.")) eqn:Hn.
  - assert (ps_area st' = area /\ persist_get_prop (ps_persist st') name = None) as [-> ->].
    { destruct (persist_delete_prop (ps_persist st) name) as [p b] eqn:Ep.
      destruct (delete_change _ _ _ _ Hok Ep) as ([Hok' Hst] & _ & Hgood).
      injection Hd as <- _. split; [done|]. cbn [ps_persist].
      destruct (persist_get_prop p name) as [v|] eqn:Eg; [|done]. exfalso.
      apply get_spec in Eg as (_ & w & Hw & _); [|done]. pose proof Hw as Hw'. rewrite (Hst name w Hn) in Hw'.
      destruct b; cbn in Hw'; [by rewrite bool_decide_eq_true_2 in Hw'|].
      discriminate (Hgood Hio (stored_present _ _ _ Hw')). }
    rewrite Hg. split; [|done]. by destruct (isPersistOnly rflags), (isPersist rflags).
  - injection Hd as <- _. cbn [ps_area ps_persist]. rewrite Hg, andb_false_r. split; [|done].
    by destruct (isPersistOnly rflags).
Qed.
End laws.

(** ** Command line flags *)

(** The letters that take no argument. *)
Definition flag_letters : bytes := bs "npPvZw".

(** The options after one such letter. *)
Definition flag_step (o : popts) (c : byte) : popts :=
  match c with
  | x6e => set_flags setSkipSvc o
  | x70 => set_flags setPersist o
  | x50 => set_flags setPersistOnly o
  | x76 => set_verbose o
  | x5a => set_flags setContext o
  | x77 => set_flags setWait o
  | _ => o
  end.

Lemma parse_chars_letters args arg cs o t : Forall (.∈ flag_letters) cs ->
  parse_chars args arg (cs ++ t) o false = parse_chars args arg t (fold_left flag_step cs o) false.
Proof.
  intros H. revert o. induction H as [|c cs Hc _ IH]; intros o; [done|].
  cbn [app fold_left]. rewrite <- IH.
  unfold flag_letters in Hc. cbn in Hc. set_unfold in Hc.
  by destruct Hc as [->|[->|[->|[->|[->|[->|[]]]]]]].
Qed.

Lemma parse_flags_letters cs rest o : Forall (.∈ flag_letters) cs ->
  parse_flags ((x2d :: cs) :: rest) o = parse_flags rest (fold_left flag_step cs o).
Proof.
  intros H. cbn [parse_flags].
  pose proof (parse_chars_letters ((x2d :: cs) :: rest) (x2d :: cs) cs o [] H) as E.
  rewrite app_nil_r in E. by rewrite E.
Qed.

(** Grouping does not matter: [-np] is read as [-n -p], for any flag letters
    without argument and whatever follows. *)
Theorem parse_flags_grouping cs1 cs2 rest o :
  Forall (.∈ flag_letters) cs1 -> Forall (.∈ flag_letters) cs2 ->
  parse_flags ((x2d :: cs1 ++ cs2) :: rest) o =
  parse_flags ((x2d :: cs1) :: (x2d :: cs2) :: rest) o.
Proof.
  intros H1 H2. rewrite !parse_flags_letters by (done || by apply Forall_app).
  by rewrite fold_left_app.
Qed.

(** ** A property area, and the laws *)

(** A map of bounded size; [update] writes short values in place. *)
Record map_area := MapArea { ma_props : gmap bytes prop_info; ma_free : nat }.

#[global] Instance map_area_ops : PropArea map_area := {
  pa_find a n := ma_props a !! n;
  pa_update a n v :=
    if PROP_VALUE_MAX <=? zlen v then (a, -1)
    else (MapArea (<[n := PropInfo v false]> (ma_props a)) (ma_free a), 0);
  pa_add a n v :=
    match ma_free a with
    | O => (a, -1)
    | S k => (MapArea (<[n := PropInfo v (PROP_VALUE_MAX <=? zlen v)]> (ma_props a)) k, 0)
    end;
  pa_delete a n prune :=
    (MapArea (delete n (ma_props a)) (ma_free a),
     match ma_props a !! n with Some _ => 0 | None => -1 end);
  pa_service a n v := (a, -1);
  pa_context a n := Some (bs "u:object_r:default_prop:s0");
  pa_foreach a := (fun kv => (kv.1, pi_value kv.2)) <$> map_to_list (ma_props a)
}.

#[global] Instance map_area_laws : PropAreaLaws map_area.
Proof.
  split; simpl.
  - intros a n v a'. destruct (_ <=? _); intros [= <-]. simpl. rewrite lookup_insert_eq. eauto.
  - intros a n v Hv. by rewrite (proj2 (Z.leb_le _ _)).
  - intros a n v m Hm. destruct (_ <=? _); [done|]. simpl. by rewrite lookup_insert_ne.
  - intros a n v a'. destruct (ma_free a); intros [= <-]. simpl. rewrite lookup_insert_eq. eauto.
  - intros a n v m Hm. destruct (ma_free a); [done|]. simpl. by rewrite lookup_insert_ne.
  - intros a n prune. by rewrite lookup_delete_eq.
  - intros a n prune m Hm. by rewrite lookup_delete_ne.
Qed.

Definition sample_area : pstate map_area :=
  PState (MapArea {[ bs "ro.debuggable" := PropInfo (bs "0") false;
                     bs "persist.sys.x" := PropInfo (bs "1") false ]} 4)
         (PersistStore None {[ bs "persist.sys.x" := bs "1" ]} (fun _ => good_io)).

Lemma set_prop_get_witness :
  let st' := (set_prop sample_area (bs "ro.debuggable") (replicate 100 x31) 0).1 in
  direct (bs "ro.debuggable") 0 = true /\
  set_prop sample_area (bs "ro.debuggable") (replicate 100 x31) 0 = (st', 0) /\
  get_prop st' (bs "ro.debuggable") 0 = replicate 100 x31 /\
  get_prop st' (bs "persist.sys.x") 0 = bs "1".
Proof.
  assert (Hd : direct (bs "ro.debuggable") 0 = true) by (vm_compute; reflexivity).
  assert (Hs : (set_prop sample_area (bs "ro.debuggable") (replicate 100 x31) 0).2 = 0)
    by (vm_compute; reflexivity).
  destruct (set_prop sample_area (bs "ro.debuggable") (replicate 100 x31) 0) as [st' r] eqn:E.
  simpl in Hs. subst r. cbv zeta. simpl fst.
  destruct (set_prop_get sample_area _ _ 0 st' Hd E) as (H1 & H2 & _).
  split_and!; [exact Hd|reflexivity|exact H1|].
  rewrite H2 by (vm_compute; discriminate). vm_compute. reflexivity.
Defined.

Lemma set_prop_too_long_witness :
  set_prop sample_area (bs "persist.sys.x") (replicate 92 x31) 1 = (sample_area, -1).
Proof.
  apply (set_prop_too_long sample_area _ _ 1 (PropInfo (bs "1") false));
    first [vm_compute; reflexivity|vm_compute; discriminate].
Defined.

Lemma delete_prop_get_witness :
  let st' := (delete_prop sample_area (bs "persist.sys.x") (setPersist 0)).1 in
  get_prop st' (bs "persist.sys.x") (setPersist 0) = [] /\
  pa_find (ps_area st') (bs "ro.debuggable") = Some (PropInfo (bs "0") false).
Proof.
  destruct (delete_prop sample_area (bs "persist.sys.x") (setPersist 0)) as [st' r] eqn:E.
  cbv zeta. simpl fst.
  destruct (delete_prop_get sample_area (bs "persist.sys.x") (setPersist 0) (setPersist 0) st' r
              ltac:(vm_compute; reflexivity) I ltac:(by split_and!) E ltac:(vm_compute; reflexivity)
              ltac:(vm_compute; reflexivity)) as [H1 H2].
  split; [exact H1|]. rewrite H2 by (vm_compute; discriminate). vm_compute. reflexivity.
Defined.

Lemma parse_flags_grouping_witness :
  parse_flags [bs "-npw"; bs "a.b"] (POpts 0 false None None) =
  parse_flags [bs "-n"; bs "-pw"; bs "a.b"] (POpts 0 false None None) /\
  parse_flags [bs "-npw"; bs "a.b"] (POpts 0 false None None) =
  Ret (POpts 19 false None None, [bs "a.b"]).
Proof.
  split; [|vm_compute; reflexivity].
  apply (parse_flags_grouping (bs "n") (bs "pw") [bs "a.b"] (POpts 0 false None None));
    repeat constructor; apply bool_decide_unpack; vm_compute; exact I.
Defined.

(** [-f] and [-d] need their argument to be the last one. *)
Example file_flag_last :
  parse_flags [bs "-f"; bs "a.prop"; bs "x"] (POpts 0 false None None) = Exit 1.
Proof. vm_compute. reflexivity. Qed.

(** A property deleted without the persist flag comes back from the store. *)
Example delete_not_persistent :
  get_prop (delete_prop sample_area (bs "persist.sys.x") 0).1 (bs "persist.sys.x") (setPersist 0) = bs "1".
Proof. vm_compute. reflexivity. Qed.
