(* ===== verification/NodeTree.v ===== *)
(** Magic mount: [native/src/core/node.hpp] and the tree part of
    [native/src/core/module.cpp].  A node owns its children, so the tree is a
    value; the parent pointer of a node is passed down by the operations that
    follow it ([node_path], [root], [isa<tmpfs_node>(parent())]).  The real
    filesystem is the class [Os]; mounting yields the list of the system calls
    it makes. *)

From S2P Require Import Prelude Base OrdMap Persist Resetprop.

(** ** Node types *)

Definition DT_CHR : Z := 2.
Definition DT_DIR : Z := 4.
Definition DT_REG : Z := 8.
Definition DT_LNK : Z := 10.
Definition DT_WHT : Z := 14.

Definition TYPE_INTER : Z := Z.shiftl 1 0.
Definition TYPE_TMPFS : Z := Z.shiftl 1 1.
Definition TYPE_MODULE : Z := Z.shiftl 1 2.
Definition TYPE_ROOT : Z := Z.shiftl 1 3.
Definition TYPE_CUSTOM : Z := Z.shiftl 1 4.
Definition TYPE_DIR : Z := Z.lor (Z.lor TYPE_INTER TYPE_TMPFS) TYPE_ROOT.

(** The dynamic class of a node, with the members its class adds. *)
Inductive node_class : Type :=
| inter_node
| tmpfs_node
| module_node (module : bytes)
| root_node (prefix : bytes)
| magisk_node (target : option bytes)
| zygisk_node (is64bit : bool).

(** [_node_type] *)
Definition type_id (c : node_class) : Z :=
  match c with
  | inter_node => TYPE_INTER
  | tmpfs_node => TYPE_TMPFS
  | module_node _ => TYPE_MODULE
  | root_node _ => TYPE_ROOT
  | magisk_node _ | zygisk_node _ => TYPE_CUSTOM
  end.

(** [_name], [_file_type] (type in the low four bits, exist in bit 7, replace in
    bit 6), class, and the children of a [dir_node] in map order. *)
Inductive node : Type :=
| Node (nm : bytes) (ft : Z) (cls : node_class) (children : list node).

Definition name (n : node) : bytes := let '(Node nm _ _ _) := n in nm.
Definition ftype (n : node) : Z := let '(Node _ ft _ _) := n in ft.
Definition cls (n : node) : node_class := let '(Node _ _ c _) := n in c.
Definition children (n : node) : list node := let '(Node _ _ _ ch) := n in ch.
Definition set_ftype (ft : Z) (n : node) : node := Node (name n) ft (cls n) (children n).
Definition set_children (ch : list node) (n : node) : node := Node (name n) (ftype n) (cls n) ch.

Definition file_type (ft : Z) : Z := Z.land ft 15.
Definition is_dir (n : node) : bool := file_type (ftype n) =? DT_DIR.
Definition is_lnk (n : node) : bool := file_type (ftype n) =? DT_LNK.
Definition is_reg (n : node) : bool := file_type (ftype n) =? DT_REG.
Definition is_wht (n : node) : bool := file_type (ftype n) =? DT_WHT.
Definition exist (ft : Z) : bool := Z.testbit ft 7.
Definition set_exist (ft : Z) : Z := Z.lor ft (Z.shiftl 1 7).
Definition replace (ft : Z) : bool := Z.testbit ft 6.
Definition set_replace (ft : Z) : Z := Z.lor ft (Z.shiftl 1 6).

(** [isa<T>]: the type bit of the class is in the mask. *)
Definition isa (mask : Z) (n : node) : bool := negb (Z.land (type_id (cls n)) mask =? 0).

(** ** Tree methods *)

(** [node_entry::consume]: the new node takes over the name and the file type. *)
Definition entry_consume (n other : node) : node :=
  Node (name other) (ftype other) (cls n) (children n).

(** [dir_node::consume] moves the children of a directory as well. *)
Definition dir_consume (n other : node) : node :=
  entry_consume
    (if isa TYPE_DIR other then set_children (omerge name (children n) (children other)) n else n)
    other.

(** the virtual [consume] *)
Definition consume (n other : node) : node :=
  if isa TYPE_DIR n then dir_consume n other else entry_consume n other.

(** [insert_at]: [builder] gets the existing node, if any, and returns the new
    node and whether it has consumed the old one.  [None]: rejected. *)
Definition insert_at (ch : list node) (nm : bytes) (type : Z)
    (builder : option node -> option (node * bool)) : option (list node) :=
  match ofind name nm ch with
  | Some old =>
    if type_id (cls old) <? type then
      match builder (Some old) with
      | None => None
      | Some (n, consumed) =>
        let n := if (consumed : bool) then n else consume n old in
        Some (oemplace name n (oerase name nm ch))
      end
    else None
  | None =>
    match builder None with
    | None => None
    | Some (n, _) => Some (oemplace name n ch)
    end
  end.

(** [insert]: of a node built by the caller *)
Definition insert (n : node) (ch : list node) : list node * bool :=
  match insert_at ch (name n) (type_id (cls n)) (fun _ => Some (n, false)) with
  | Some ch => (ch, true)
  | None => (ch, false)
  end.

(** [emplace<T>(name, args...)]: the constructor makes [n] *)
Definition emplace (n : node) (ch : list node) : list node := (insert n ch).1.

(** [extract] *)
Definition extract (nm : bytes) (ch : list node) : option node * list node :=
  match ofind name nm ch with
  | Some n => (Some n, oerase name nm ch)
  | None => (None, ch)
  end.

(** the constructors *)
Definition new_inter (nm : bytes) (d_type : Z) : node := Node nm (file_type d_type) inter_node [].
Definition new_module (module nm : bytes) (d_type : Z) : node :=
  Node nm (file_type d_type) (module_node module) [].
Definition new_root (nm : bytes) : node := Node nm (set_exist DT_DIR) (root_node []) [].
(** [root_node] of an existing node: built empty, then consumes the node *)
Definition root_of (old : node) : node :=
  let n := dir_consume (Node [] 0 (root_node (bs "/system")) []) old in
  set_ftype (set_exist (ftype n)) n.
Definition new_magisk (nm : bytes) (target : option bytes) : node :=
  Node nm (match target with Some _ => DT_LNK | None => DT_REG end) (magisk_node target) [].
Definition new_zygisk (nm : bytes) (is64bit : bool) : node :=
  Node nm DT_REG (zygisk_node is64bit) [].

(** ** Collecting the files of a module *)

(** A directory of a module as [readdir] lists it: [None] if it cannot be opened;
    a file has a [d_type] and, if it can be examined, an [st_rdev]. *)
Inductive mtree : Type :=
| MDir (entries : option (list (bytes * mtree)))
| MFile (d_type : Z) (rdev : option Z).

(** The type recorded for a file: character device 0/0 is a whiteout. *)
Definition entry_type (d_type : Z) (rdev : option Z) : Z :=
  if (d_type =? DT_CHR) && bool_decide (rdev = Some 0) then DT_WHT else d_type.

(** One entry of a module's directory, for the directory node [n].  A directory
    that no node represents gets an [inter_node]; one hidden by a node of another
    class is skipped.  [rec] collects a subdirectory into its node. *)
Section collect_entries.
Context (module : bytes) (rec : mtree -> node -> node).

Definition collect_entry (nm : bytes) (t : mtree) (n : node) : node :=
  if bool_decide (nm = bs ".replace") then set_ftype (set_replace (ftype n)) n
  else
    match t with
    | MDir _ =>
      match ofind name nm (children n) with
      | None => set_children (emplace (rec t (new_inter nm DT_DIR)) (children n)) n
      | Some c =>
        if isa TYPE_INTER c
        then set_children (oemplace name (rec t c) (oerase name nm (children n))) n
        else n
      end
    | MFile ty rdev =>
      set_children (emplace (new_module module nm (entry_type ty rdev)) (children n)) n
    end.

Fixpoint collect_entries (es : list (bytes * mtree)) (n : node) : node :=
  match es with
  | [] => n
  | (nm, t) :: es => collect_entries es (collect_entry nm t n)
  end.
End collect_entries.

(** [dir_node::collect_module_files] of the directory node [n]; [d] is what the
    module has under the name of the node. *)
Fixpoint collect_module_files (module : bytes) (d : mtree) (n : node) : node :=
  match d with
  | MFile _ _ | MDir None => n
  | MDir (Some es) => collect_entries module (collect_module_files module) es n
  end.

(** ** The system *)

Class Os := {
  (** [lstat]: the [DT_*] type of the file, [None] if there is none *)
  lstat : bytes -> option Z;
  (** [open_dir] and [xreaddir]: names and [d_type]s *)
  open_dir : bytes -> option (list (bytes * Z));
  (** [access(path, F_OK) == 0] *)
  access : bytes -> bool;
  (** [stat(path) == 0 && st_mode & S_IXOTH] *)
  stat_xoth : bytes -> bool;
  (** [get_magisk_tmp()] *)
  get_magisk_tmp : bytes;
  (** [getenv("PATH")] *)
  env_path : option bytes
}.

Definition MODULEROOT : bytes := bs "/data/adb/modules".
Definition MODULEMNT : bytes := bs ".magisk/modules".
Definition WORKERDIR : bytes := bs ".magisk/worker".

Section tree.
Context `{Os}.

(** [node_path] of a node from that of its parent *)
Definition node_path (ppath nm : bytes) : bytes := ppath ++ x2f :: nm.

Definition worker (path : bytes) : bytes := get_magisk_tmp ++ bs "/" ++ WORKERDIR ++ path.

(** ** Preparing the tree *)

(** A loop over the children that rebuilds them in place. *)
Fixpoint mmap (f : node -> outcome node) (l : list node) : outcome (list node) :=
  match l with
  | [] => Ret []
  | n :: l => let! n := f n in let! l := mmap f l in Ret (n :: l)
  end.

(** The constructor [tmpfs_node(node)]: takes over the node, mirrors the entries
    of the real directory unless it is replaced, and upgrades the children that
    are still [inter_node]s.  An upgraded child keeps its name, hence its place.
    [fuel] bounds the depth of the mirrored directories. *)
Fixpoint tmpfs_ctor (fuel : nat) (ppath : bytes) (n : node) : outcome node :=
  match fuel with
  | O => Loop
  | S fuel =>
    let n := dir_consume (Node [] 0 tmpfs_node []) n in
    let path := node_path ppath (name n) in
    let n :=
      if replace (ftype n) then n
      else match open_dir path with
           | Some es =>
             Node (name n) (set_exist (ftype n)) (cls n)
               (fold_left (fun ch e => emplace (new_inter e.1 e.2) ch) es (children n))
           | None => n
           end in
    let! ch := mmap (fun c => if isa TYPE_INTER c then tmpfs_ctor fuel path c else Ret c)
                    (children n) in
    Ret (set_children ch n)
  end.

(** What [prepare] decides for a child at [p]: its file type byte with the exist
    bit, and [cannot_mnt]. *)
Definition examine (p : bytes) (c : node) : Z * bool :=
  match lstat p with
  | None => (ftype c, negb (is_wht c))
  | Some st => (set_exist (ftype c), is_lnk c || (st =? DT_LNK) || is_wht c)
  end.

(** The loop of [dir_node::prepare] over the children of a node of class [c] and
    file type byte [ft] at [path]; [rec] is [prepare] of a child at its path with
    its new file type byte.  The upgrade of a child that is not an [inter_node] is
    rejected and yields [end()], which the loop then increments. *)
Section prepare_loop.
Context (rec : bytes -> Z -> node -> outcome (node * bool)).
Context (fuel : nat) (path : bytes) (ft : Z) (c : node_class).

Definition prepare_child (x : node) (xft : Z) : outcome node :=
  if isa TYPE_DIR x then
    let xft := if replace ft then set_replace xft else xft in
    let! (x, b) := rec (node_path path (name x)) xft x in
    if (b : bool) then
      if type_id (cls x) <? TYPE_TMPFS then tmpfs_ctor fuel path x else Fault
    else Ret x
  else Ret (set_ftype xft x).

Fixpoint prepare_loop (l : list node) (up : bool) : outcome (list node * bool) :=
  match l with
  | [] => Ret ([], up)
  | x :: l =>
    let '(xft, cannot_mnt) := examine (node_path path (name x)) x in
    if cannot_mnt && (TYPE_TMPFS <? type_id c) then prepare_loop l up
    else
      let! x := prepare_child x xft in
      let! (l, up) := prepare_loop l (up || cannot_mnt) in
      Ret (x :: l, up)
  end.
End prepare_loop.

(** [dir_node::prepare] of the node [n] at [path], whose file type byte has become
    [ft] since the tree was built. *)
Fixpoint prepare_ft (fuel : nat) (path : bytes) (ft : Z) (n : node) : outcome (node * bool) :=
  match n with
  | Node nm _ c ch =>
    let! (ch, up) := prepare_loop (prepare_ft fuel) fuel path ft c ch (replace ft || negb (exist ft)) in
    Ret (Node nm ft c ch, up)
  end.
Definition prepare (fuel : nat) (path : bytes) (n : node) : outcome (node * bool) :=
  prepare_ft fuel path (ftype n) n.

(** ** Mounting *)

Inductive action : Type :=
| Mkdir (dest : bytes)
| Mkdirs (dest : bytes)
| Creat (dest : bytes)
| BindMount (reason src dest : bytes)
| RemountRo (dest : bytes)
| CpAfc (src dest : bytes)
| Symlink (target dest : bytes)
| CloneAttr (src dest : bytes).

(** [ptmp] is [isa<tmpfs_node>(parent())] *)
Definition create_and_mount (ppath : bytes) (ptmp : bool) (n : node) (reason src : bytes) (ro : bool)
  : list action :=
  let path := node_path ppath (name n) in
  let dest := if ptmp then worker path else path in
  if is_lnk n then [CpAfc src dest]
  else if is_dir n || is_reg n then
    (if is_dir n then [Mkdir dest] else [Creat dest]) ++ [BindMount reason src dest] ++
    (if ro then [RemountRo dest] else [])
  else [].

Definition mount_module (prefix ppath : bytes) (ptmp : bool) (n : node) (module : bytes) : list action :=
  if is_wht n then []
  else
    let npath := node_path ppath (name n) in
    let path := module ++ prefix ++ npath in
    let mnt_src := get_magisk_tmp ++ bs "/" ++ MODULEMNT ++ bs "/" ++ path in
    (if exist (ftype n) then [CloneAttr npath (MODULEROOT ++ bs "/" ++ path)] else []) ++
    (if ptmp then create_and_mount ppath ptmp n (bs "module") mnt_src false
     else [BindMount (bs "module") mnt_src npath]).

Definition mount_magisk (ppath : bytes) (ptmp : bool) (n : node) (target : option bytes) : list action :=
  let path := node_path ppath (name n) in
  match target with
  | Some t => [Symlink t (if ptmp then worker path else path)]
  | None =>
    let src := get_magisk_tmp ++ bs "/" ++ name n in
    if access src then create_and_mount ppath ptmp n (bs "magisk") src true else []
  end.

(** the 64-bit build *)
Definition mount_zygisk (ppath : bytes) (ptmp : bool) (n : node) (is64bit : bool) : list action :=
  let src := get_magisk_tmp ++ bs "/magisk" ++ (if is64bit then [] else bs "32") in
  if access src then create_and_mount ppath ptmp n (bs "zygisk") src true else [].

(** [tmpfs_node::mount], around the actions [sub] of the children *)
Definition mount_tmpfs (ppath : bytes) (ptmp : bool) (n : node) (sub : list action) : list action :=
  let path := node_path ppath (name n) in
  if negb (is_dir n) then create_and_mount ppath ptmp n (bs "mirror") path false
  else if negb ptmp then
    [Mkdirs (worker path);
     CloneAttr (if exist (ftype n) then path else ppath) (worker path)] ++ sub ++
    [BindMount (if replace (ftype n) then bs "replace" else bs "move") (worker path) path;
     RemountRo path]
  else
    [Mkdir (worker path);
     CloneAttr (if exist (ftype n) then path else worker ppath) (worker path)] ++ sub.

(** [mount], with the prefix of the nearest [root_node] above *)
Fixpoint mount (prefix ppath : bytes) (ptmp : bool) (n : node) : list action :=
  match n with
  | Node nm ft c ch =>
    let path := node_path ppath nm in
    let sub prefix := concat (map (mount prefix path (type_id c =? TYPE_TMPFS)) ch) in
    match c with
    | inter_node => sub prefix
    | root_node pre => sub pre
    | tmpfs_node => mount_tmpfs ppath ptmp n (sub prefix)
    | module_node m => mount_module prefix ppath ptmp n m
    | magisk_node t => mount_magisk ppath ptmp n t
    | zygisk_node b => mount_zygisk ppath ptmp n b
    end
  end.

(** [root->mount()]: the top node has no name and the empty path. *)
Definition mount_root (n : node) : list action :=
  match cls n with
  | root_node pre => concat (map (mount pre [] false) (children n))
  | _ => []
  end.

(** ** Binaries and native bridge libraries *)

(** The node reached from [n] by names, missing directories being created, and a
    change of its children.  [get_child<inter_node>] casts without a check: using
    a node that is not a directory is undefined. *)
Fixpoint at_path (ds : list bytes) (f : list node -> list node) (n : node) : outcome node :=
  if negb (isa TYPE_DIR n) then Fault
  else match ds with
  | [] => Ret (set_children (f (children n)) n)
  | d :: ds =>
    let c := match ofind name d (children n) with Some c => c | None => new_inter d DT_DIR end in
    let! c := at_path ds f c in
    Ret (set_children (oemplace name c (oerase name d (children n))) n)
  end.

(** The first directory of PATH that exists below /system, as names from there. *)
Fixpoint find_bin (items : list bytes) : outcome (list bytes) :=
  match items with
  | [] => Ret []
  | item :: items =>
    let item := drop (if str_starts item (bs "/system/") then 8 else 1) item in
    if stat_xoth (bs "/system/" ++ item) then split item (bs "/") else find_bin items
  end.

Definition applet_names : list bytes := [bs "su"; bs "resetprop"].

Definition magisk_bins : list node :=
  [new_magisk (bs "magisk") None; new_magisk (bs "magiskpolicy") None] ++
  map (fun a => new_magisk a (Some (bs "./magisk"))) applet_names ++
  [new_magisk (bs "supolicy") (Some (bs "./magiskpolicy"))].

Definition inject_magisk_bins (system : node) : outcome node :=
  let! ds :=
    match ofind name (bs "bin") (children system) with
    | Some _ => Ret [bs "bin"]
    | None =>
      match env_path with
      | None => Fault
      | Some path => let! items := split path (bs ":") in find_bin items
      end
    end in
  at_path ds (fun ch => fold_left (fun ch n => emplace n ch) magisk_bins ch) system.

Definition inject_zygisk_libs (native_bridge : bytes) (system : node) : outcome node :=
  let! system :=
    if access (bs "/system/bin/linker")
    then at_path [bs "lib"] (emplace (new_zygisk native_bridge false)) system else Ret system in
  if access (bs "/system/bin/linker64")
  then at_path [bs "lib64"] (emplace (new_zygisk native_bridge true)) system else Ret system.

(** ** Loading the modules *)

(** What [load_modules] looks at in a module: [system.prop], [skip_mount], [system]. *)
Record module_files := ModuleFiles {
  mf_name : bytes;
  mf_system_prop : option bytes;
  mf_skip_mount : bool;
  mf_system : option mtree
}.

Definition NBPROP : bytes := bs "ro.dalvik.vm.native.bridge".
Definition ZYGISKLDR : bytes := bs "libzygisk.so".

(** The loop over [module_list]. *)
Definition load_module {A} `{PropArea A} (acc : pstate A * node) (m : module_files) : pstate A * node :=
  let '(st, system) := acc in
  let st := match mf_system_prop m with
            | Some c => load_prop_file st (Some c) true
            | None => st
            end in
  if mf_skip_mount m then (st, system)
  else match mf_system m with
       | None => (st, system)
       | Some d => (st, collect_module_files (mf_name m) d system)
       end.

(** The property changes made when zygisk is enabled, and the [native_bridge] name. *)
Definition setup_native_bridge {A} `{PropArea A} (st : pstate A) : pstate A * bytes :=
  let orig := get_prop_api st NBPROP false in
  let orig := if bool_decide (orig = []) then bs "0" else orig in
  let nb := if bool_decide (orig = bs "0") then ZYGISKLDR else ZYGISKLDR ++ orig in
  let st := (set_prop_api st NBPROP nb false).1 in
  let st := if bool_decide (get_prop_api st (bs "ro.maple.enable") false = bs "1")
            then (set_prop_api st (bs "ro.maple.enable") (bs "0") false).1 else st in
  (st, nb).

Definition partitions : list bytes := [bs "vendor"; bs "product"; bs "system_ext"].

(** Partitions that are directories of their own become root nodes. *)
Definition split_partition (acc : node * list node) (part : bytes) : node * list node :=
  let '(system, parts) := acc in
  if bool_decide (lstat (x2f :: part) = Some DT_DIR) then
    match extract part (children system) with
    | (Some old, ch) => (set_children ch system, parts ++ [root_of old])
    | (None, _) => acc
    end
  else acc.

Definition build_root (system : node) : node :=
  let '(system, parts) := fold_left split_partition partitions (system, []) in
  set_children (fold_left (fun ch n => emplace n ch) (system :: parts) []) (new_root []).

Definition needs_bins : bool :=
  negb (bool_decide (get_magisk_tmp = bs "/sbin")) ||
  negb (str_contains (from_option id [] env_path) (bs "/sbin")).

(** [load_modules] up to the tree of /system. *)
Definition build_system {A} `{PropArea A} (zygisk_enabled : bool)
    (module_list : list module_files) (st : pstate A) : outcome (pstate A * node) :=
  let '(st, system) := fold_left load_module module_list (st, new_root (bs "system")) in
  let! system := if needs_bins then inject_magisk_bins system else Ret system in
  if zygisk_enabled then
    let '(st, nb) := setup_native_bridge st in
    let! system := inject_zygisk_libs nb system in Ret (st, system)
  else Ret (st, system).

Definition load_modules {A} `{PropArea A} (fuel : nat) (zygisk_enabled : bool)
    (module_list : list module_files) (st : pstate A) : outcome (pstate A * list action) :=
  let! (st, system) := build_system zygisk_enabled module_list st in
  match children system with
  | [] => Ret (st, [])
  | _ =>
    let! (root, _) := prepare fuel [] (build_root system) in
    Ret (st, mount_root root)
  end.
End tree.

(** ** Induction over trees *)

Section node_induction.
Context (P : node -> Prop).
Context (HP : forall nm ft c ch, Forall P ch -> P (Node nm ft c ch)).
Fixpoint node_ind' (n : node) : P n :=
  match n with
  | Node nm ft c ch =>
    HP nm ft c ch ((fix go l : Forall P l :=
      match l with [] => List.Forall_nil P | x :: l => List.Forall_cons P x l (node_ind' x) (go l) end) ch)
  end.
End node_induction.

Section mtree_induction.
Context (P : mtree -> Prop).
Context (Hd : forall es, Forall (fun e => P e.2) es -> P (MDir (Some es))).
Context (Hn : P (MDir None)).
Context (Hf : forall ty rdev, P (MFile ty rdev)).
Fixpoint mtree_ind' (d : mtree) : P d :=
  match d with
  | MDir (Some es) =>
    Hd es ((fix go l : Forall (fun e => P e.2) l :=
      match l with
      | [] => List.Forall_nil _
      | x :: l => List.Forall_cons _ x l (mtree_ind' x.2) (go l)
      end) es)
  | MDir None => Hn
  | MFile ty rdev => Hf ty rdev
  end.
End mtree_induction.

Lemma Forall_omerge (P : node -> Prop) l1 l2 :
  Forall P l1 -> Forall P l2 -> Forall P (omerge name l1 l2).
Proof.
  unfold omerge. intros H1 H2. revert l1 H1. induction H2; simpl; auto using Forall_oemplace.
Qed.

(** ** The rank rule *)

(** Insertion. A node is accepted exactly when its name is free or the node
    there has a lower rank; then it is the one found under that name, every other
    name is unaffected and the order of the map is kept; it takes the file type
    of the node it displaces.  A rejected insertion changes nothing. *)
Theorem insert_spec n ch ch' ok : ordered name ch -> insert n ch = (ch', ok) ->
  (ok = true <-> match ofind name (name n) ch with
                 | None => True | Some old => type_id (cls old) < type_id (cls n) end) /\
  ordered name ch' /\
  (forall k, k <> name n -> ofind name k ch' = ofind name k ch) /\
  (ok = false -> ch' = ch) /\
  (ok = true -> exists n', ofind name (name n) ch' = Some n' /\ cls n' = cls n /\
     ftype n' = match ofind name (name n) ch with None => ftype n | Some old => ftype old end).
Proof.
  intros Ho. unfold insert, insert_at. destruct (ofind name (name n) ch) as [old|] eqn:Ef.
  - destruct (ofind_key _ _ _ _ Ef) as [Hk _].
    destruct (Z.ltb_spec (type_id (cls old)) (type_id (cls n))) as [Hlt|Hge]; intros [= <- <-].
    2:{ split_and!; try done. split; [done|lia]. }
    assert (Hn : name (consume n old) = name n /\ cls (consume n old) = cls n /\
                 ftype (consume n old) = ftype old).
    { unfold consume, dir_consume. destruct (isa TYPE_DIR n), (isa TYPE_DIR old); done. }
    destruct Hn as (Hn & Hc & Hf).
    split_and!; [done|auto with kit| |done|].
    + intros k Hne. rewrite ofind_oemplace by auto with kit. rewrite Hn, ofind_oerase by done.
      rewrite !bool_decide_eq_false_2; congruence.
    + intros _. exists (consume n old). rewrite ofind_oemplace by auto with kit.
      rewrite Hn, ofind_oerase by done. by rewrite !bool_decide_eq_true_2.
  - intros [= <- <-]. split_and!; [done|auto with kit| |done|].
    + intros k Hne. rewrite ofind_oemplace by done. rewrite bool_decide_eq_false_2; congruence.
    + intros _. exists n. rewrite ofind_oemplace by done. by rewrite bool_decide_eq_true_2, Ef.
Qed.

Lemma emplace_cases n ch :
  emplace n ch =
  match ofind name (name n) ch with
  | None => oemplace name n ch
  | Some old =>
    if type_id (cls old) <? type_id (cls n)
    then oemplace name (consume n old) (oerase name (name n) ch) else ch
  end.
Proof.
  unfold emplace, insert, insert_at. destruct (ofind _ _ _) as [old|]; [|done].
  by destruct (_ <? _).
Qed.

Lemma type_id_pos c : 1 <= type_id c.
Proof. destruct c; vm_compute; discriminate. Qed.

Lemma emplace_inter n ch : cls n = inter_node ->
  emplace n ch = match ofind name (name n) ch with None => oemplace name n ch | Some _ => ch end.
Proof.
  intros Hc. rewrite emplace_cases. destruct (ofind _ _ _) as [old|]; [|done].
  rewrite Hc. pose proof (type_id_pos (cls old)). change (type_id inter_node) with 1.
  by rewrite (proj2 (Z.ltb_ge _ _)).
Qed.

Lemma emplace_ordered n ch : ordered name ch -> ordered name (emplace n ch).
Proof.
  intros. rewrite emplace_cases. destruct (ofind _ _ _); [destruct (_ <? _)|]; auto with kit.
Qed.
#[export] Hint Resolve emplace_ordered : kit.

Lemma isa_inter_dir n : isa TYPE_INTER n = true -> isa TYPE_DIR n = true.
Proof. unfold isa. by destruct (cls n). Qed.

(** ** Trees before [prepare] *)

(** The invariant of tree construction: no tmpfs node yet, only directories have
    children, and the children are in map order. *)
Inductive fresh : node -> Prop :=
| fresh_node nm ft c ch : c <> tmpfs_node ->
    (isa TYPE_DIR (Node nm ft c ch) = false -> ch = []) ->
    ordered name ch -> Forall fresh ch -> fresh (Node nm ft c ch).

Lemma fresh_inv n : fresh n -> cls n <> tmpfs_node /\ (isa TYPE_DIR n = false -> children n = []) /\
  ordered name (children n) /\ Forall fresh (children n).
Proof. intros Hf. by inversion Hf. Qed.

Lemma fresh_set_ftype ft n : fresh n -> fresh (set_ftype ft n).
Proof. intros Hf. by inversion Hf; constructor. Qed.

Lemma fresh_set_children ch n : fresh n -> isa TYPE_DIR n = true -> ordered name ch ->
  Forall fresh ch -> fresh (set_children ch n).
Proof.
  intros (Hc & _ & _ & _)%fresh_inv Hd Ho Hf. constructor; [done| |done..].
  unfold isa in *. cbn [cls]. by rewrite Hd.
Qed.

Lemma fresh_consume n old : fresh n -> fresh old -> fresh (consume n old).
Proof.
  intros (Hc & Hn & Ho & Hf)%fresh_inv (_ & _ & _ & Hf')%fresh_inv.
  unfold consume, dir_consume, entry_consume, set_children.
  destruct (isa TYPE_DIR n) eqn:Hd, (isa TYPE_DIR old); cbn [name ftype cls children];
    constructor; auto with kit; unfold isa in *; cbn [cls]; try (intros E; congruence).
  by apply Forall_omerge.
Qed.

Lemma fresh_emplace n ch : fresh n -> Forall fresh ch -> Forall fresh (emplace n ch).
Proof.
  intros Hn Hch. rewrite emplace_cases. destruct (ofind _ _ _) as [old|] eqn:E; [|by apply Forall_oemplace].
  destruct (_ <? _); [|done]. apply ofind_key in E as [_ E].
  apply Forall_oemplace; [|by apply Forall_oerase]. apply fresh_consume; [done|].
  rewrite Forall_forall in Hch. by apply Hch.
Qed.

Lemma fresh_leaf nm ft c : c <> tmpfs_node -> fresh (Node nm ft c []).
Proof. intros. constructor; [done|done|constructor|constructor]. Qed.

Lemma fresh_find k n c : fresh n -> ofind name k (children n) = Some c -> fresh c /\ name c = k.
Proof.
  intros (_ & _ & _ & Hf)%fresh_inv E. apply ofind_key in E as [Hk Hin].
  rewrite Forall_forall in Hf. auto.
Qed.

(** Replacing one child. *)
Lemma fresh_put k c n : fresh n -> isa TYPE_DIR n = true -> fresh c ->
  fresh (set_children (oemplace name c (oerase name k (children n))) n).
Proof.
  intros Hn Hd Hc. destruct (fresh_inv _ Hn) as (_ & _ & Ho & Hf).
  apply fresh_set_children; auto with kit. apply Forall_oemplace; [done|]. by apply Forall_oerase.
Qed.

Lemma fresh_add c n : fresh n -> isa TYPE_DIR n = true -> fresh c ->
  fresh (set_children (emplace c (children n)) n).
Proof.
  intros Hn Hd Hc. destruct (fresh_inv _ Hn) as (_ & _ & Ho & Hf).
  apply fresh_set_children; auto with kit. by apply fresh_emplace.
Qed.

(** Collecting a module keeps the invariant and the node itself. *)
Lemma collect_fresh module d : forall n, fresh n -> isa TYPE_DIR n = true ->
  fresh (collect_module_files module d n) /\
  name (collect_module_files module d n) = name n /\
  cls (collect_module_files module d n) = cls n.
Proof.
  induction d as [es IH| |ty rdev] using mtree_ind'; intros n Hn Hd; [|done..].
  cbn [collect_module_files]. revert n Hn Hd.
  induction IH as [|[nm t] es Ht _ IHes]; intros n Hn Hd; [done|]. cbn [collect_entries snd] in *.
  set (n1 := collect_entry _ _ nm t n).
  assert (H1 : fresh n1 /\ name n1 = name n /\ cls n1 = cls n).
  { subst n1. unfold collect_entry. case_bool_decide; [split; [by apply fresh_set_ftype|done]|].
    destruct t as [o|ty rdev].
    - destruct (ofind name nm (children n)) as [c|] eqn:E.
      + destruct (isa TYPE_INTER c) eqn:Hi; [|done]. split; [|done].
        apply fresh_put; [done..|]. apply Ht; [by apply (fresh_find _ _ _ Hn E)|by apply isa_inter_dir].
      + split; [|done]. apply fresh_add; [done..|]. apply Ht; [|done]. by apply fresh_leaf.
    - split; [|done]. apply fresh_add; [done..|]. by apply fresh_leaf. }
  destruct H1 as (F1 & N1 & C1). rewrite <- N1, <- C1. apply IHes; [done|].
  unfold isa in *. by rewrite C1.
Qed.

(** ** Mount targets *)

Section safety.
Context `{Os}.

(** A child of a node that is not a tmpfs can be mounted over, or is a whiteout
    without a target; below a tmpfs anything goes. *)
Definition mountable (p : bytes) (n : node) : Prop :=
  (exists st, lstat p = Some st /\ st <> DT_LNK /\ is_lnk n = false) \/
  (is_wht n = true /\ lstat p = None).

Inductive safe : bytes -> bool -> node -> Prop :=
| safe_node ppath ptmp nm ft c ch :
    (ptmp = true \/ mountable (node_path ppath nm) (Node nm ft c ch)) ->
    Forall (safe (node_path ppath nm) (type_id c =? TYPE_TMPFS)) ch ->
    safe ppath ptmp (Node nm ft c ch).

Lemma safe_inv ppath ptmp n : safe ppath ptmp n ->
  (ptmp = true \/ mountable (node_path ppath (name n)) n) /\
  Forall (safe (node_path ppath (name n)) (type_id (cls n) =? TYPE_TMPFS)) (children n).
Proof. intros Hs. inversion Hs. auto. Qed.

Lemma safe_intro ppath ptmp n :
  (ptmp = true \/ mountable (node_path ppath (name n)) n) ->
  Forall (safe (node_path ppath (name n)) (type_id (cls n) =? TYPE_TMPFS)) (children n) ->
  safe ppath ptmp n.
Proof. destruct n. by constructor. Qed.

Lemma safe_under_tmpfs ppath ptmp n : safe ppath ptmp n -> safe ppath true n.
Proof. intros [_ Hs]%safe_inv. apply safe_intro; auto. Qed.

Lemma mmap_Forall f (P Q : node -> Prop) l l' : mmap f l = Ret l' -> Forall P l ->
  (forall n n', P n -> f n = Ret n' -> Q n') -> Forall Q l'.
Proof.
  intros Hm HP HQ. revert l' Hm. induction HP as [|n l Hn Hl IH]; intros l' Hm; simpl in Hm.
  - by injection Hm as <-.
  - apply bind_Ret_inv in Hm as (n' & En & Hm). apply bind_Ret_inv in Hm as (l1 & El & Hm).
    injection Hm as <-. constructor; eauto.
Qed.

(** The fresh node takes over name, file type and children. *)
Lemma tmpfs_consume n : isa TYPE_DIR n = true ->
  dir_consume (Node [] 0 tmpfs_node []) n =
  Node (name n) (ftype n) tmpfs_node (omerge name [] (children n)).
Proof. intros Hd. unfold dir_consume. by rewrite Hd. Qed.

Lemma fold_emplace_inter (P : node -> Prop) es : (forall e, P (new_inter e.1 e.2)) ->
  forall ch, Forall P ch -> Forall P (fold_left (fun ch e => emplace (new_inter e.1 e.2) ch) es ch).
Proof.
  intros HP. induction es as [|e es IH]; intros ch Hch; [done|]. simpl. apply IH.
  rewrite emplace_inter by done. destruct (ofind _ _ _); [done|]. by apply Forall_oemplace.
Qed.

Lemma tmpfs_ctor_safe fuel : forall ppath n n', isa TYPE_DIR n = true ->
  Forall (safe (node_path ppath (name n)) true) (children n) ->
  tmpfs_ctor fuel ppath n = Ret n' ->
  name n' = name n /\ file_type (ftype n') = file_type (ftype n) /\ cls n' = tmpfs_node /\
  Forall (safe (node_path ppath (name n)) true) (children n').
Proof.
  induction fuel as [|fuel IH]; intros ppath n n' Hdir Hch Hc; [done|].
  cbn [tmpfs_ctor] in Hc. rewrite tmpfs_consume in Hc by done. cbn [name ftype children cls] in Hc.
  set (path := node_path ppath (name n)) in *.
  apply bind_Ret_inv in Hc as (ch & Hm & Hr). injection Hr as <-.
  set (n1 := if replace (ftype n) then _ else _) in Hm.
  assert (Hn1 : name n1 = name n /\ file_type (ftype n1) = file_type (ftype n) /\ cls n1 = tmpfs_node /\
                Forall (safe path true) (children n1)).
  { assert (Hm0 : Forall (safe path true) (omerge name [] (children n))) by (by apply Forall_omerge).
    subst n1. destruct (replace (ftype n)); [done|]. destruct (open_dir path) as [es|]; [|done].
    split_and!; [done| |done|].
    - cbn [ftype]. unfold file_type, set_exist. rewrite Z.land_lor_distr_l. apply Z.lor_0_r.
    - apply fold_emplace_inter; [|done]. intros e. apply safe_intro; [by left|constructor]. }
  destruct Hn1 as (En & Ef & Ec & Hs). unfold set_children. cbn [name ftype cls children].
  fold n1. split_and!; [done..|].
  eapply mmap_Forall; [exact Hm|exact Hs|]. intros c c' Hsafe Hcc. cbv beta in Hcc.
  destruct (isa TYPE_INTER c) eqn:Hi; [|by injection Hcc as <-].
  destruct (safe_inv _ _ _ Hsafe) as [_ Hsub].
  destruct (IH path c c') as (Enm & _ & Ecls & Hch'); [by apply isa_inter_dir| |done|].
  { eapply Forall_impl; [exact Hsub|]. intros ?. apply safe_under_tmpfs. }
  apply safe_intro; [by left|]. by rewrite Enm, Ecls.
Qed.

Lemma file_type_set_exist ft : file_type (set_exist ft) = file_type ft.
Proof. unfold file_type, set_exist. rewrite Z.land_lor_distr_l. apply Z.lor_0_r. Qed.
Lemma file_type_set_replace ft : file_type (set_replace ft) = file_type ft.
Proof. unfold file_type, set_replace. rewrite Z.land_lor_distr_l. apply Z.lor_0_r. Qed.

Lemma examine_file_type p x ft b : examine p x = (ft, b) -> file_type ft = file_type (ftype x).
Proof.
  unfold examine. destruct (lstat p); intros [= <- _]; [apply file_type_set_exist|done].
Qed.

(** What [prepare] keeps can be mounted. *)
Lemma examine_mountable p x ft y : examine p x = (ft, false) ->
  file_type (ftype y) = file_type (ftype x) -> mountable p y.
Proof.
  unfold examine, mountable, is_lnk, is_wht. intros He ->.
  destruct (lstat p) as [st|] eqn:El.
  - assert (Hb := f_equal snd He). simpl in Hb. rewrite !orb_false_iff, !Z.eqb_neq in Hb. left. exists st.
    rewrite Z.eqb_neq. tauto.
  - assert (Hb := f_equal snd He). simpl in Hb. right. split; [|done]. by apply negb_false_iff in Hb.
Qed.

(** Whether the children of a node end up below a tmpfs. *)
Definition to_tmpfs (b : bool) (c : node_class) : bool := b && negb (TYPE_TMPFS <? type_id c).

Definition prepare_safe (fuel : nat) (n : node) : Prop :=
  forall path ft n' b, prepare_ft fuel path ft n = Ret (n', b) ->
    name n' = name n /\ ftype n' = ft /\ cls n' = cls n /\
    Forall (safe path (to_tmpfs b (cls n))) (children n').

Lemma prepare_child_safe fuel path ft x xft x' : fresh x -> prepare_safe fuel x ->
  file_type xft = file_type (ftype x) ->
  prepare_child (prepare_ft fuel) fuel path ft x xft = Ret x' ->
  name x' = name x /\ file_type (ftype x') = file_type (ftype x) /\
  Forall (safe (node_path path (name x)) (type_id (cls x') =? TYPE_TMPFS)) (children x').
Proof.
  intros Hfr Hrec Hft Hp. unfold prepare_child in Hp. inversion Hfr as [nm ? c ch Hc Hnd _ Hch]; subst.
  destruct (isa TYPE_DIR (Node nm ft0 c ch)) eqn:Hd.
  2:{ injection Hp as <-. rewrite (Hnd eq_refl). cbn [set_ftype name ftype cls children].
      split_and!; [done..|constructor]. }
  apply bind_Ret_inv in Hp as ([x1 b] & Hp & Hr).
  destruct (Hrec _ _ _ _ Hp) as (En & Ef & Ec & Hs).
  assert (Hft1 : file_type (ftype x1) = file_type ft0).
  { rewrite Ef. destruct (replace ft); rewrite ?file_type_set_replace; done. }
  cbn [cls name ftype] in *. destruct b.
  - destruct (Z.ltb_spec (type_id (cls x1)) TYPE_TMPFS) as [Hlt|]; [|done].
    assert (Ht : to_tmpfs true c = true).
    { unfold to_tmpfs. rewrite Ec in Hlt. simpl. apply negb_true_iff, Z.ltb_ge. lia. }
    rewrite Ht in Hs.
    destruct (tmpfs_ctor_safe fuel path x1 x') as (E1 & E2 & E3 & E4); [|by rewrite En| done|].
    { unfold isa in *. by rewrite Ec. }
    rewrite E1, E2, E3, En, Hft1. split_and!; [done..|]. by rewrite En in E4.
  - injection Hr as <-. rewrite En, Hft1, Ec. split_and!; [done..|].
    replace (type_id c =? TYPE_TMPFS) with false by (by destruct c). done.
Qed.

Lemma prepare_loop_safe fuel path ft c l : Forall fresh l -> Forall (prepare_safe fuel) l ->
  forall up l' up', prepare_loop (prepare_ft fuel) fuel path ft c l up = Ret (l', up') ->
  (up = true -> up' = true) /\ Forall (safe path (to_tmpfs up' c)) l'.
Proof.
  intros Hfr Hrec. induction l as [|x l IH]; intros up l' up' Hp; simpl in Hp.
  { injection Hp as <- <-. auto. }
  inversion Hfr as [|? ? Hx Hl]; inversion Hrec as [|? ? Rx Rl]; subst. specialize (IH Hl Rl).
  destruct (examine (node_path path (name x)) x) as [xft cannot] eqn:Ex.
  destruct (cannot && (TYPE_TMPFS <? type_id c)) eqn:Ec; [by apply IH in Hp|].
  apply bind_Ret_inv in Hp as (x' & Hx' & Hp). apply bind_Ret_inv in Hp as ([l1 up1] & Hl1 & Hp).
  injection Hp as <- <-. destruct (IH _ _ _ Hl1) as [Hup Hs].
  split; [intros ->; by apply Hup|]. constructor; [|done].
  destruct (prepare_child_safe fuel path ft x xft x' Hx Rx (examine_file_type _ _ _ _ Ex) Hx')
    as (En & Eft & Hch).
  apply safe_intro; rewrite En; [|done]. destruct cannot.
  - left. unfold to_tmpfs. rewrite Hup by apply orb_true_r. simpl in *. by rewrite Ec.
  - right. by eapply examine_mountable.
Qed.

Lemma prepare_ft_safe fuel n : fresh n -> prepare_safe fuel n.
Proof.
  induction n as [nm ft0 c ch IH] using node_ind'. intros Hfr path ft n' b Hp.
  inversion Hfr as [? ? ? ? Hc Hnd _ Hch]; subst. cbn [prepare_ft] in Hp.
  apply bind_Ret_inv in Hp as ([ch' up] & Hl & Hr). injection Hr as <- <-.
  split_and!; [done..|]. cbn [children cls].
  eapply prepare_loop_safe; [exact Hch| |exact Hl].
  rewrite Forall_forall in *. eauto.
Qed.

(** *** The actions of a safe tree *)

Definition in_worker (d : bytes) : Prop := exists p, d = worker p.
Definition in_modules (d : bytes) : Prop := exists p, d = MODULEROOT ++ bs "/" ++ p.
Definition real_target (d : bytes) : Prop := exists st, lstat d = Some st /\ st <> DT_LNK.

Definition action_ok (a : action) : Prop :=
  match a with
  | Mkdir d | Creat d | BindMount _ _ d | RemountRo d | CpAfc _ d => in_worker d \/ real_target d
  | Symlink _ d => in_worker d \/ lstat d <> Some DT_LNK
  | Mkdirs d => in_worker d
  | CloneAttr _ d => in_worker d \/ in_modules d
  end.

(** An explicit list of actions, one by one. *)
Ltac each_action :=
  simpl; repeat (apply List.Forall_cons; [cbn; auto|]); try apply List.Forall_nil.

Lemma create_and_mount_ok ppath ptmp n reason src ro :
  (ptmp = true \/ mountable (node_path ppath (name n)) n) ->
  Forall action_ok (create_and_mount ppath ptmp n reason src ro).
Proof.
  intros Hm. unfold create_and_mount.
  set (dest := if ptmp then _ else _).
  assert (Hd : in_worker dest \/ real_target dest \/ is_wht n = true).
  { subst dest. destruct ptmp; [left; by eexists|]. destruct Hm as [|[(st & E & Hl & _)|[Hw _]]]; [done| |auto].
    right; left. by exists st. }
  destruct (is_wht n) eqn:Hw.
  { unfold is_wht, is_lnk, is_dir, is_reg in *. apply Z.eqb_eq in Hw. rewrite Hw. constructor. }
  assert (in_worker dest \/ real_target dest) by (destruct Hd as [|[|]]; auto; discriminate).
  destruct (is_lnk n), (is_dir n), (is_reg n), ro; each_action.
Qed.

Lemma mount_module_ok prefix ppath ptmp n m :
  (ptmp = true \/ mountable (node_path ppath (name n)) n) ->
  Forall action_ok (mount_module prefix ppath ptmp n m).
Proof.
  intros Hm. unfold mount_module. destruct (is_wht n) eqn:Hw; [constructor|].
  apply Forall_app. split.
  - destruct (exist _); [|constructor]. apply Forall_singleton. right. by eexists.
  - destruct ptmp; [by apply create_and_mount_ok|]. apply Forall_singleton. right.
    destruct Hm as [|[(st & E & Hl & _)|[Hw' _]]]; [done|by exists st|congruence].
Qed.

Lemma mount_magisk_ok ppath ptmp n t :
  (ptmp = true \/ mountable (node_path ppath (name n)) n) ->
  Forall action_ok (mount_magisk ppath ptmp n t).
Proof.
  intros Hm. unfold mount_magisk. destruct t as [t|].
  - apply Forall_singleton. cbn [action_ok]. destruct ptmp; [left; by eexists|]. right.
    cbv beta iota. destruct Hm as [|[(st & E & Hl & _)|[_ E]]]; [done|rewrite E; congruence|by rewrite E].
  - destruct (access _); [by apply create_and_mount_ok|constructor].
Qed.

Lemma mount_tmpfs_ok ppath ptmp n sub :
  (ptmp = true \/ mountable (node_path ppath (name n)) n) ->
  Forall action_ok sub -> Forall action_ok (mount_tmpfs ppath ptmp n sub).
Proof.
  intros Hm Hs. unfold mount_tmpfs. destruct (is_dir n) eqn:Hd; cbn [negb].
  2:{ by apply create_and_mount_ok. }
  assert (W : forall p, in_worker (worker p)) by (intros p; by exists p).
  destruct ptmp; cbn [negb].
  - by each_action.
  - assert (real_target (node_path ppath (name n))).
    { destruct Hm as [|[(st & E & Hl & _)|[Hw _]]]; [done|by exists st|].
      unfold is_dir, is_wht in *. apply Z.eqb_eq in Hd, Hw. by rewrite Hd in Hw. }
    each_action. apply Forall_app. split; [done|]. each_action.
Qed.

Lemma mount_ok n : forall prefix ppath ptmp, safe ppath ptmp n ->
  Forall action_ok (mount prefix ppath ptmp n).
Proof.
  induction n as [nm ft c ch IH] using node_ind'. intros prefix ppath ptmp [Hm Hch]%safe_inv.
  cbn [name children cls] in *.
  assert (Hsub : forall pre, Forall action_ok
    (concat (map (mount pre (node_path ppath nm) (type_id c =? TYPE_TMPFS)) ch))).
  { intros pre. apply Forall_concat, Forall_map. rewrite Forall_forall in *. eauto. }
  cbn [mount]. destruct c.
  - apply Hsub.
  - by apply mount_tmpfs_ok.
  - by apply mount_module_ok.
  - apply Hsub.
  - by apply mount_magisk_ok.
  - unfold mount_zygisk. destruct (access _); [by apply create_and_mount_ok|constructor].
Qed.

Lemma prepare_mount_ok fuel n n' b : fresh n -> TYPE_TMPFS < type_id (cls n) ->
  prepare fuel [] n = Ret (n', b) ->
  Forall action_ok (mount_root n').
Proof.
  intros Hfr Hr Hp. destruct (prepare_ft_safe fuel n Hfr _ _ _ _ Hp) as (_ & _ & Ec & Hs).
  unfold to_tmpfs in Hs. rewrite (proj2 (Z.ltb_lt _ _) Hr), andb_false_r in Hs.
  unfold mount_root. destruct (cls n'); try constructor.
  apply Forall_concat, Forall_map. eapply Forall_impl; [exact Hs|]. intros x. apply mount_ok.
Qed.

(** *** From the modules to the mounts *)

(** The node of /system, and the trees built from it. *)
Definition system_node (n : node) : Prop := fresh n /\ exists pre, cls n = root_node pre.

Lemma root_is_dir n pre : cls n = root_node pre -> isa TYPE_DIR n = true.
Proof. unfold isa. by intros ->. Qed.

Lemma at_path_fresh ds f : (forall ch, ordered name ch -> Forall fresh ch ->
    ordered name (f ch) /\ Forall fresh (f ch)) ->
  forall n n', fresh n -> at_path ds f n = Ret n' -> fresh n' /\ cls n' = cls n.
Proof.
  intros Hf. induction ds as [|d ds IH]; intros n n' Hn Hp; cbn [at_path] in Hp;
    destruct (isa TYPE_DIR n) eqn:Hd; try done; cbn [negb] in Hp.
  - injection Hp as <-. destruct (fresh_inv _ Hn) as (_ & _ & Ho & Hch).
    destruct (Hf _ Ho Hch). split; [by apply fresh_set_children|done].
  - apply bind_Ret_inv in Hp as (c & Hc & Hp). injection Hp as <-. split; [|done].
    apply fresh_put; [done..|]. eapply IH; [|exact Hc].
    destruct (ofind _ _ _) eqn:E; [by apply (fresh_find _ _ _ Hn E)|by apply fresh_leaf].
Qed.

Lemma fold_emplace_fresh ns : Forall fresh ns -> forall ch, ordered name ch -> Forall fresh ch ->
  ordered name (fold_left (fun ch n => emplace n ch) ns ch) /\
  Forall fresh (fold_left (fun ch n => emplace n ch) ns ch).
Proof. induction 1; simpl; auto using emplace_ordered, fresh_emplace. Qed.

Lemma magisk_bins_fresh : Forall fresh magisk_bins.
Proof. repeat (constructor; [by apply fresh_leaf|]). constructor. Qed.

Lemma inject_magisk_bins_node n n' : system_node n -> inject_magisk_bins n = Ret n' -> system_node n'.
Proof.
  intros [Hn [pre Hc]] Hi. unfold inject_magisk_bins in Hi. apply bind_Ret_inv in Hi as (ds & _ & Hi).
  eapply at_path_fresh in Hi as [Hf Hc']; [split; [done|]; exists pre; congruence| |done].
  apply fold_emplace_fresh, magisk_bins_fresh.
Qed.

Lemma zygisk_step_node b d nb b64 n n' : system_node n ->
  (if b : bool then at_path [d] (emplace (new_zygisk nb b64)) n else Ret n) = Ret n' -> system_node n'.
Proof.
  intros Hs. destruct b; [|by intros [= <-]]. destruct Hs as [Hn [pre Hc]]. intros Hi.
  eapply at_path_fresh in Hi as [Hf Hc']; [split; [done|]; exists pre; congruence| |done].
  intros ch Ho Hch. split; [by apply emplace_ordered|]. apply fresh_emplace; [|done]. by apply fresh_leaf.
Qed.

Lemma inject_zygisk_libs_node nb n n' : system_node n -> inject_zygisk_libs nb n = Ret n' -> system_node n'.
Proof.
  intros Hs Hi. unfold inject_zygisk_libs in Hi. apply bind_Ret_inv in Hi as (n1 & H1 & H2).
  eapply zygisk_step_node; [|exact H2]. by eapply zygisk_step_node.
Qed.

Lemma root_of_fresh old : fresh old -> fresh (root_of old).
Proof.
  intros Hf. apply fresh_set_ftype. change (dir_consume ?n old) with (consume n old).
  apply fresh_consume; [by apply fresh_leaf|done].
Qed.

Lemma split_partition_node parts part n n' parts' : system_node n -> Forall fresh parts ->
  split_partition (n, parts) part = (n', parts') -> system_node n' /\ Forall fresh parts'.
Proof.
  intros [Hn [pre Hc]] Hp. unfold split_partition, extract. case_bool_decide.
  2:{ intros [= <- <-]. split; [|done]. split; eauto. }
  destruct (ofind name part (children n)) as [old|] eqn:E; intros [= <- <-].
  2:{ split; [|done]. split; eauto. }
  destruct (fresh_inv _ Hn) as (_ & _ & Ho & Hf). split.
  - split; [|by exists pre]. apply fresh_set_children; [done|by eapply root_is_dir|auto with kit|].
    by apply Forall_oerase.
  - apply Forall_app. split; [done|]. apply Forall_singleton. apply root_of_fresh.
    by apply (fresh_find _ _ _ Hn E).
Qed.

Lemma build_root_fresh n : system_node n -> system_node (build_root n).
Proof.
  intros Hn. unfold build_root.
  assert (Hf : forall ps m parts m' parts', system_node m -> Forall fresh parts ->
    fold_left split_partition ps (m, parts) = (m', parts') -> fresh m' /\ Forall fresh parts').
  { induction ps as [|p ps IH]; intros m parts m' parts' Hm Hparts; cbn [fold_left].
    - intros [= <- <-]. split; [apply Hm|done].
    - destruct (split_partition (m, parts) p) as [m1 parts1] eqn:E.
      destruct (split_partition_node _ _ _ _ _ Hm Hparts E). by apply IH. }
  destruct (fold_left split_partition partitions (n, [])) as [m parts] eqn:E.
  destruct (Hf _ _ _ _ _ Hn (List.Forall_nil _) E) as [Hm Hparts].
  destruct (fold_emplace_fresh (m :: parts)) with (ch := @nil node) as [Ho Hch];
    [by constructor|constructor|constructor|].
  split; [|by eexists]. apply fresh_set_children; [by apply fresh_leaf|done..].
Qed.

Lemma load_module_node {A} `{PropArea A} ms : forall (st : pstate A) n st' n', system_node n ->
  fold_left load_module ms (st, n) = (st', n') -> system_node n'.
Proof.
  induction ms as [|m ms IH]; intros st n st' n' Hs; cbn [fold_left]; [by intros [= <- <-]|].
  destruct (load_module (st, n) m) as [st1 n1] eqn:E. apply IH. unfold load_module in E.
  destruct (mf_skip_mount m); [by injection E as <- <-|].
  destruct (mf_system m) as [d|]; [|by injection E as <- <-].
  injection E as <- <-. destruct Hs as [Hn [pre Hc]].
  destruct (collect_fresh (mf_name m) d n Hn) as (F & _ & C); [by eapply root_is_dir|].
  split; [done|]. exists pre. congruence.
Qed.

Lemma build_system_node {A} `{PropArea A} zygisk ms (st st' : pstate A) system :
  build_system zygisk ms st = Ret (st', system) -> system_node system.
Proof.
  unfold build_system. destruct (fold_left load_module ms _) as [st1 n1] eqn:E1. intros Hl.
  assert (S1 : system_node n1).
  { eapply load_module_node; [|exact E1]. split; [by apply fresh_leaf|by eexists]. }
  apply bind_Ret_inv in Hl as (n2 & E2 & Hl).
  assert (S2 : system_node n2).
  { destruct needs_bins; [by eapply inject_magisk_bins_node|by injection E2 as <-]. }
  destruct zygisk; [|by injection Hl as <- <-]. destruct (setup_native_bridge st1) as [? nb].
  apply bind_Ret_inv in Hl as (n4 & E4 & E3). injection E3 as <- <-.
  by eapply inject_zygisk_libs_node.
Qed.

Lemma mount_phase_ok fuel system root b : system_node system ->
  prepare fuel [] (build_root system) = Ret (root, b) -> Forall action_ok (mount_root root).
Proof.
  intros Hs E. destruct (build_root_fresh _ Hs) as [Hf [pre Hc]].
  eapply prepare_mount_ok; [exact Hf|by rewrite Hc|exact E].
Qed.
End safety.

(** ** [prepare] returns *)

(** The depth of the tree along [inter_node]s, which [tmpfs_ctor] follows. *)
Fixpoint iheight (n : node) : nat :=
  match n with
  | Node _ _ _ ch => S (list_max (map (fun c => if isa TYPE_INTER c then iheight c else O) ch))
  end.

Definition ibound (h : nat) (ch : list node) : Prop :=
  Forall (fun c => isa TYPE_INTER c = true -> (iheight c <= h)%nat) ch.

Lemma iheight_children n : ibound (iheight n - 1) (children n).
Proof.
  destruct n as [nm ft c ch]. unfold ibound. cbn [iheight children].
  pose proof (proj1 (List.list_max_le (map (fun c => if isa TYPE_INTER c then iheight c else O) ch) _)
    (Nat.le_refl _)) as Hm.
  apply Forall_map in Hm. eapply Forall_impl; [exact Hm|]. simpl. intros x Hx Hi. rewrite Hi in Hx. lia.
Qed.

(** The names below which [prepare] recurses: no [root_node] and no tmpfs. *)
Inductive plain : node -> Prop :=
| plain_node nm ft c ch : type_id c <> TYPE_TMPFS -> type_id c <> TYPE_ROOT ->
    Forall plain ch -> plain (Node nm ft c ch).

Definition PATH_MAX : Z := 4096.

Section totality.
Context `{Os}.
(** The kernel resolves no path of PATH_MAX bytes or more. *)
Context (Hpath : forall p, PATH_MAX <= zlen p -> open_dir p = None).

Definition room (p : bytes) : nat := Z.to_nat (PATH_MAX - zlen p).

Lemma room_child p nm : (room (node_path p nm) <= room p - 1)%nat.
Proof. unfold room, node_path. rewrite zlen_app, zlen_cons. pose proof (zlen_nonneg nm). lia. Qed.

Lemma mmap_total f l : Forall (fun n => exists n', f n = Ret n') l -> exists l', mmap f l = Ret l'.
Proof.
  induction 1 as [|n l [n' En] _ [l' El]]; simpl; [eauto|]. rewrite En. simpl. rewrite El. simpl. eauto.
Qed.

Lemma tmpfs_ctor_total fuel : forall ppath n h, isa TYPE_DIR n = true -> ibound h (children n) ->
  (room (node_path ppath (name n)) + h < fuel)%nat -> exists n', tmpfs_ctor fuel ppath n = Ret n'.
Proof using Hpath.
  induction fuel as [|fuel IH]; intros ppath n h Hdir Hb Hf; [lia|].
  cbn [tmpfs_ctor]. rewrite tmpfs_consume by done. cbn [name ftype children cls].
  set (path := node_path ppath (name n)) in *.
  set (n1 := if replace (ftype n) then _ else _).
  (* every child to upgrade is shallow enough *)
  assert (Hch : Forall (fun c => isa TYPE_INTER c = true ->
    exists hc, ibound hc (children c) /\ (room path - 1 + hc < fuel)%nat) (children n1)).
  { assert (Hold : Forall (fun c => isa TYPE_INTER c = true ->
      exists hc, ibound hc (children c) /\ (room path - 1 + hc < fuel)%nat) (omerge name [] (children n))).
    { apply Forall_omerge; [constructor|]. eapply Forall_impl; [exact Hb|]. simpl. intros c Hc Hi.
      specialize (Hc Hi). exists (iheight c - 1)%nat. split; [apply iheight_children|].
      assert (1 <= iheight c)%nat by (destruct c; simpl; lia). lia. }
    subst n1. destruct (replace (ftype n)); [done|].
    destruct (open_dir path) as [es|] eqn:Eo; [|done]. apply fold_emplace_inter; [|done].
    intros e _. exists O. split; [constructor|].
    assert (zlen path < PATH_MAX). { destruct (Z.lt_ge_cases (zlen path) PATH_MAX); [done|].
      rewrite Hpath in Eo by done. done. }
    unfold room in *. lia. }
  destruct (mmap_total (fun c => if isa TYPE_INTER c then tmpfs_ctor fuel path c else Ret c)
    (children n1)) as [l' El].
  - eapply Forall_impl; [exact Hch|]. simpl. intros c Hc. destruct (isa TYPE_INTER c) eqn:Hi; [|eauto].
    destruct (Hc eq_refl) as (hc & Hbc & Hlt). apply (IH path c hc); [by apply isa_inter_dir|done|].
    pose proof (room_child path (name c)). lia.
  - fold n1. rewrite El. simpl. eauto.
Qed.

(** Enough for any path. *)
Definition path_fuel : nat := Z.to_nat PATH_MAX.

Lemma room_le p : (room p <= path_fuel)%nat.
Proof. unfold room, path_fuel. pose proof (zlen_nonneg p). lia. Qed.

Lemma tmpfs_ctor_cls fuel ppath n n' : isa TYPE_DIR n = true -> tmpfs_ctor fuel ppath n = Ret n' ->
  cls n' = tmpfs_node.
Proof.
  intros Hd. destruct fuel; [done|]. cbn [tmpfs_ctor]. rewrite tmpfs_consume by done.
  cbn [name ftype children cls]. intros (ch & _ & Hr)%bind_Ret_inv. injection Hr as <-.
  destruct (replace _); [done|]. by destruct (open_dir _).
Qed.

(** [prepare] of a node returns, and does not deepen the part [tmpfs_ctor] follows. *)
Definition prepare_returns (fuel : nat) (n : node) : Prop :=
  plain n -> (path_fuel + iheight n <= fuel)%nat -> forall path ft, exists ch' b,
    prepare_ft fuel path ft n = Ret (Node (name n) ft (cls n) ch', b) /\
    ibound (iheight n - 1) ch'.

Lemma iheight_pos n : (1 <= iheight n)%nat.
Proof. destruct n; simpl; lia. Qed.

Lemma ibound_iheight h nm ft c ch : ibound h ch -> (iheight (Node nm ft c ch) <= S h)%nat.
Proof.
  intros Hb. cbn [iheight]. apply le_n_S. apply List.list_max_le, Forall_map.
  eapply Forall_impl; [exact Hb|]. simpl. intros x Hx. destruct (isa TYPE_INTER x); [auto|lia].
Qed.

Lemma plain_dir x : plain x -> isa TYPE_DIR x = true -> cls x = inter_node.
Proof. intros Hp. inversion Hp as [nm ft c ch H1 H2]; subst. by destruct c. Qed.

(** A child is prepared, unless its upgrade is refused. *)
Lemma prepare_child_inter fuel path ft x xft : prepare_returns fuel x -> plain x ->
  (isa TYPE_INTER x = true -> (path_fuel + iheight x <= fuel)%nat) ->
  exists x', prepare_child (prepare_ft fuel) fuel path ft x xft = Ret x' /\
  (isa TYPE_INTER x' = true -> isa TYPE_INTER x = true /\ (iheight x' <= iheight x)%nat).
Proof using Hpath.
  intros Hr Hp Hf. unfold prepare_child. destruct (isa TYPE_DIR x) eqn:Hd.
  2:{ eexists. split; [done|]. intros Hi. apply isa_inter_dir in Hi.
      unfold set_ftype, isa in *. cbn [cls] in *. congruence. }
  assert (Hc := plain_dir x Hp Hd). assert (Hi : isa TYPE_INTER x = true) by (unfold isa; by rewrite Hc).
  specialize (Hf Hi). pose proof (iheight_pos x).
  destruct (Hr Hp Hf (node_path path (name x)) (if replace ft then set_replace xft else xft))
    as (ch' & b & E & Hb). rewrite E. cbn [obind]. destruct b.
  - cbn [cls]. rewrite Hc. change (type_id inter_node <? TYPE_TMPFS) with true. cbv iota.
    destruct (tmpfs_ctor_total fuel path (Node (name x) (if replace ft then set_replace xft else xft)
      inter_node ch') _ eq_refl Hb) as [x' Ex].
    { pose proof (room_le (node_path path (name x))). cbn [name]. lia. }
    exists x'. split; [done|]. intros Hi'. apply tmpfs_ctor_cls in Ex; [|done]. unfold isa in Hi'. by rewrite Ex in Hi'.
  - eexists. split; [done|]. intros _. split; [done|].
    pose proof (ibound_iheight _ (name x) (if replace ft then set_replace xft else xft) (cls x) _ Hb). lia.
Qed.

Lemma prepare_loop_total fuel path ft c h l :
  Forall (fun x => forall xft, exists x', prepare_child (prepare_ft fuel) fuel path ft x xft = Ret x' /\
    (isa TYPE_INTER x' = true -> (iheight x' <= h)%nat)) l ->
  forall up, exists l' up', prepare_loop (prepare_ft fuel) fuel path ft c l up = Ret (l', up') /\ ibound h l'.
Proof.
  induction 1 as [|x l Hx _ IH]; intros up; cbn [prepare_loop].
  { eexists _, _. split; [done|constructor]. }
  destruct (examine (node_path path (name x)) x) as [xft cannot].
  destruct (cannot && _); [apply IH|]. destruct (Hx xft) as (x' & -> & Hh). cbn [obind].
  destruct (IH (up || cannot)) as (l' & up' & -> & Hb). cbn [obind].
  eexists _, _. split; [done|]. by constructor.
Qed.

Lemma prepare_ft_total fuel n : prepare_returns fuel n.
Proof using Hpath.
  induction n as [nm ft0 c ch IH] using node_ind'. intros Hp Hf path ft.
  inversion Hp as [? ? ? ? H1 H2 Hch]; subst. cbn [prepare_ft name cls].
  pose proof (iheight_children (Node nm ft0 c ch)) as Hb. cbn [children] in Hb.
  destruct (prepare_loop_total fuel path ft c (iheight (Node nm ft0 c ch) - 1) ch)
    with (up := replace ft || negb (exist ft)) as (ch' & up & -> & Hb'); [|cbn [obind]; eauto].
  unfold ibound in Hb. rewrite Forall_forall in *. intros x Hx xft.
  destruct (prepare_child_inter fuel path ft x xft (IH x Hx) (Hch x Hx)) as (x' & E & Hh).
  { intros Hi. specialize (Hb x Hx Hi). lia. }
  exists x'. split; [done|]. intros Hi. destruct (Hh Hi) as [Hix Hle]. specialize (Hb x Hx Hix). lia.
Qed.

(** A partition of the root: exists, is not replaced, and holds plain nodes. *)
Definition partition (x : node) : Prop :=
  (exists pre, cls x = root_node pre) /\ replace (ftype x) = false /\ exist (ftype x) = true /\
  Forall plain (children x).

(** A node without children, whose class does not matter, bounds its height. *)
Lemma prepare_children_total fuel path ft c ch : Forall plain ch ->
  (forall x, x ∈ ch -> isa TYPE_INTER x = true -> (path_fuel + iheight x <= fuel)%nat) ->
  forall up, exists l' up', prepare_loop (prepare_ft fuel) fuel path ft c ch up = Ret (l', up').
Proof using Hpath.
  intros Hch Hf up.
  destruct (prepare_loop_total fuel path ft c (list_max (map iheight ch)) ch) with (up := up)
    as (l' & up' & E & _); [|eauto].
  rewrite Forall_forall in *. intros x Hx xft.
  destruct (prepare_child_inter fuel path ft x xft (prepare_ft_total fuel x) (Hch x Hx) (Hf x Hx))
    as (x' & E & Hh).
  exists x'. split; [done|]. intros Hi. destruct (Hh Hi) as [_ Hle].
  pose proof (proj1 (List.list_max_le (map iheight ch) _) (Nat.le_refl _)) as Hm.
  apply Forall_map in Hm. rewrite Forall_forall in Hm. specialize (Hm x Hx). lia.
Qed.

(** In a root node nothing asks for an upgrade: such children are removed. *)
Lemma prepare_loop_root fuel path ft c l l' up up' : TYPE_TMPFS < type_id c ->
  prepare_loop (prepare_ft fuel) fuel path ft c l up = Ret (l', up') -> up' = up.
Proof.
  intros Hc. revert l' up. induction l as [|x l IH]; intros l' up; cbn [prepare_loop]; [congruence|].
  destruct (examine _ _) as [xft cannot]. rewrite (proj2 (Z.ltb_lt _ _) Hc).
  destruct cannot; [apply IH|]. cbn [andb]. rewrite orb_false_r.
  intros (x' & _ & (p & Hl & Hr)%bind_Ret_inv)%bind_Ret_inv. destruct p as [l1 up1].
  injection Hr as <- <-. by eapply IH.
Qed.

Lemma prepare_partition fuel path ft x xft : partition x -> replace ft = false ->
  exist xft = true -> replace xft = false ->
  (forall y, y ∈ children x -> isa TYPE_INTER y = true -> (path_fuel + iheight y <= fuel)%nat) ->
  exists x', prepare_child (prepare_ft fuel) fuel path ft x xft = Ret x'.
Proof using Hpath.
  intros [[pre Hc] (_ & _ & Hch)] Hr He Hrx Hf. destruct x as [nm ft0 c ch]. cbn [cls children] in *. subst c.
  unfold prepare_child. change (isa TYPE_DIR _) with true. cbv iota. rewrite Hr. cbn [prepare_ft name].
  rewrite Hrx, He. cbn [orb negb].
  destruct (prepare_children_total fuel (node_path path nm) xft (root_node pre) ch Hch Hf false)
    as (l' & up' & E). rewrite E. cbn [obind].
  apply prepare_loop_root in E as ->; [|done]. eauto.
Qed.

Lemma prepare_tree fuel n pre : cls n = root_node pre -> replace (ftype n) = false ->
  Forall partition (children n) ->
  (forall x y, x ∈ children n -> y ∈ children x -> isa TYPE_INTER y = true ->
    (path_fuel + iheight y <= fuel)%nat) ->
  exists n' b, prepare fuel [] n = Ret (n', b).
Proof using Hpath.
  intros Hc Hr Hp Hf. destruct n as [nm ft c ch]. cbn [cls ftype children] in *. subst c.
  unfold prepare. cbn [prepare_ft ftype].
  cut (forall up, exists l' up', prepare_loop (prepare_ft fuel) fuel [] ft (root_node pre) ch up = Ret (l', up')).
  { intros Hl. destruct (Hl (replace ft || negb (exist ft))) as (l' & up' & ->). cbn [obind]. eauto. }
  induction ch as [|x ch IH]; intros up; cbn [prepare_loop]; [eauto|].
  inversion Hp as [|? ? Hx Hch]; subst. specialize (IH Hch ltac:(intros; eapply Hf; eauto; by right)).
  destruct (examine _ _) as [xft cannot] eqn:Ex.
  destruct (cannot && _); [apply IH|].
  destruct (prepare_partition fuel [] ft x xft Hx Hr) as [x' ->].
  - destruct Hx as (_ & _ & He & _). unfold examine in Ex. destruct (lstat _); injection Ex as <- _; [|done].
    unfold exist, set_exist in *. rewrite Z.lor_spec, He. done.
  - destruct Hx as (_ & Hrx & _ & _). unfold examine in Ex. destruct (lstat _); injection Ex as <- _; [|done].
    unfold replace, set_exist in *. by rewrite Z.lor_spec, Hrx.
  - intros y. apply Hf. by left.
  - cbn [obind]. destruct (IH (up || cannot)) as (l' & up' & ->). cbn [obind]. eauto.
Qed.

(** C19: [prepare] terminates without touching an invalid iterator: for a tree of
    partitions that are not replaced, with fuel for the longest path the kernel
    accepts and the depth of the module files, it returns a tree. *)
Theorem prepare_total fuel n pre : cls n = root_node pre -> replace (ftype n) = false ->
  Forall partition (children n) ->
  (forall x y, x ∈ children n -> y ∈ children x -> isa TYPE_INTER y = true ->
    (path_fuel + iheight y <= fuel)%nat) ->
  exists n' b, prepare fuel [] n = Ret (n', b).
Proof using Hpath. apply prepare_tree. Qed.

(** *** Trees of modules have no partition or tmpfs inside *)

Definition inner (n : node) : Prop := Forall plain (children n).

Lemma plain_inner n : plain n <-> type_id (cls n) <> TYPE_TMPFS /\ type_id (cls n) <> TYPE_ROOT /\ inner n.
Proof.
  split; [by inversion 1|]. destruct n. intros (? & ? & ?). by constructor.
Qed.

Lemma plain_leaf nm ft c : type_id c <> TYPE_TMPFS -> type_id c <> TYPE_ROOT -> plain (Node nm ft c []).
Proof. intros. by constructor. Qed.

Lemma plain_consume n old : plain n -> plain old -> plain (consume n old).
Proof.
  rewrite !plain_inner. unfold inner. intros (H1 & H2 & H3) (_ & _ & H4). unfold consume, dir_consume, entry_consume, set_children.
  destruct (isa TYPE_DIR n), (isa TYPE_DIR old); cbn [cls children]; split_and!; auto using Forall_omerge.
Qed.

Lemma plain_emplace n ch : plain n -> Forall plain ch -> Forall plain (emplace n ch).
Proof.
  intros Hn Hch. rewrite emplace_cases. destruct (ofind _ _ _) as [old|] eqn:E; [|by apply Forall_oemplace].
  destruct (_ <? _); [|done]. apply ofind_key in E as [_ E].
  apply Forall_oemplace; [|by apply Forall_oerase]. apply plain_consume; [done|].
  rewrite Forall_forall in Hch. by apply Hch.
Qed.

Lemma inner_find k n c : inner n -> ofind name k (children n) = Some c -> plain c.
Proof. intros Hn (_ & Hin)%ofind_key. unfold inner in Hn. rewrite Forall_forall in Hn. by apply Hn. Qed.

(** Collecting a module keeps the class of a node, that it exists, and plain children. *)
Lemma collect_inner module d : forall n, inner n ->
  inner (collect_module_files module d n) /\ cls (collect_module_files module d n) = cls n /\
  exist (ftype (collect_module_files module d n)) = exist (ftype n).
Proof.
  induction d as [es IH| |ty rdev] using mtree_ind'; intros n Hn; [|done..].
  cbn [collect_module_files]. revert n Hn.
  induction IH as [|[nm t] es Ht _ IHes]; intros n Hn; [done|]. cbn [collect_entries snd] in *.
  set (n1 := collect_entry _ _ nm t n).
  assert (H1 : inner n1 /\ cls n1 = cls n /\ exist (ftype n1) = exist (ftype n)).
  { subst n1. unfold collect_entry. case_bool_decide.
    - split_and!; [done..|]. cbn [set_ftype ftype]. unfold exist, set_replace. rewrite Z.lor_spec. apply orb_false_r.
    - destruct t as [o|ty rdev].
      + destruct (ofind name nm (children n)) as [c|] eqn:E.
        * destruct (isa TYPE_INTER c) eqn:Hi; [|done]. split_and!; [|done..]. unfold inner. cbn [children set_children].
          pose proof (inner_find _ _ _ Hn E) as Hc. apply plain_inner in Hc as (Hc1 & Hc2 & Hc3).
          destruct (Ht c Hc3) as (Hi' & Hcls & _).
          apply Forall_oemplace; [|by apply Forall_oerase]. apply plain_inner. by rewrite Hcls.
        * split_and!; [|done..]. unfold inner. cbn [children set_children].
          destruct (Ht (new_inter nm DT_DIR)) as (Hi' & Hcls & _); [constructor|].
          apply plain_emplace; [|done]. apply plain_inner. by rewrite Hcls.
      + split_and!; [|done..]. unfold inner. cbn [children set_children].
        apply plain_emplace; [|done]. by apply plain_leaf. }
  destruct H1 as (F1 & C1 & X1). rewrite <- C1, <- X1. by apply IHes.
Qed.

(** A computation that ends or hits undefined behaviour. *)
Definition settled {A} (r : outcome A) : Prop := match r with Ret _ | Fault => True | _ => False end.

Lemma settled_bind {A B} (r : outcome A) (f : A -> outcome B) :
  settled r -> (forall a, r = Ret a -> settled (f a)) -> settled (obind r f).
Proof. destruct r; cbn; auto. Qed.

Lemma at_path_inner ds f : (forall ch, Forall plain ch -> Forall plain (f ch)) -> forall n, inner n ->
  settled (at_path ds f n) /\
  forall n', at_path ds f n = Ret n' -> inner n' /\ cls n' = cls n /\ ftype n' = ftype n.
Proof.
  intros Hf. induction ds as [|d ds IH]; intros n Hn; cbn [at_path];
    destruct (isa TYPE_DIR n) eqn:Hd; cbn [negb]; try done.
  - split; [done|]. intros n' [= <-]. split; [|done]. by apply Hf.
  - set (c := match ofind name d (children n) with Some c => c | None => new_inter d DT_DIR end).
    assert (Hc : plain c).
    { unfold c. destruct (ofind name d (children n)) eqn:E; [by eapply inner_find|by apply plain_leaf]. }
    apply plain_inner in Hc as (Hc1 & Hc2 & Hc3). destruct (IH c Hc3) as [Hs Hr]. split; [by apply settled_bind|].
    intros n' (c' & Ec & Hp)%bind_Ret_inv. injection Hp as <-. destruct (Hr c' Ec) as (Hi & Hcls & _).
    split_and!; [|done..]. unfold inner. cbn [children set_children].
    apply Forall_oemplace; [|by apply Forall_oerase]. apply plain_inner. by rewrite Hcls.
Qed.

Lemma magisk_bins_plain ch : Forall plain ch -> Forall plain (fold_left (fun ch n => emplace n ch) magisk_bins ch).
Proof.
  assert (Hb : Forall plain magisk_bins) by (repeat (constructor; [by apply plain_leaf|]); constructor).
  revert ch. induction Hb as [|n ns Hn _ IH]; intros ch Hch; [done|]. cbn [fold_left]. apply IH. by apply plain_emplace.
Qed.

(** What the system node keeps while the tree is built. *)
Definition system_ok (n : node) : Prop := (exists pre, cls n = root_node pre) /\ exist (ftype n) = true /\ inner n.

Lemma find_bin_settled items : settled (find_bin items).
Proof.
  induction items as [|item items IH]; cbn [find_bin]; [done|]. destruct (stat_xoth _); [|done].
  destruct (split_correct (drop (if str_starts item (bs "/system/") then 8 else 1) item) (bs "/")) as (ps & ds & E & _).
  by rewrite E.
Qed.

Lemma at_path_system ds f n : (forall ch, Forall plain ch -> Forall plain (f ch)) -> system_ok n ->
  settled (at_path ds f n) /\ forall n', at_path ds f n = Ret n' -> system_ok n'.
Proof.
  intros Hf ([pre Hc] & He & Hi). destruct (at_path_inner ds f Hf n Hi) as [Hs Hr]. split; [done|].
  intros n' E. destruct (Hr n' E) as (Hi' & Hc' & Hft). split; [exists pre; congruence|]. split; [by rewrite Hft|done].
Qed.

Lemma inject_magisk_bins_settled n : system_ok n ->
  settled (inject_magisk_bins n) /\ forall n', inject_magisk_bins n = Ret n' -> system_ok n'.
Proof.
  intros Hn. unfold inject_magisk_bins. split.
  - apply settled_bind; [|intros ds _; by apply at_path_system; [apply magisk_bins_plain|]].
    destruct (ofind _ _ _); [done|]. destruct env_path as [path|]; [|done].
    destruct (split_correct path (bs ":")) as (ps & ? & E & _). rewrite E. apply find_bin_settled.
  - intros n' (ds & _ & E)%bind_Ret_inv. eapply at_path_system in E; [done|apply magisk_bins_plain|done].
Qed.

Lemma zygisk_lib_settled (b : bool) d nb b64 n : system_ok n ->
  let r := if b then at_path [d] (emplace (new_zygisk nb b64)) n else Ret n in
  settled r /\ forall n', r = Ret n' -> system_ok n'.
Proof.
  intros Hn. destruct b; cbv zeta; [|by split; [|intros n' [= <-]]].
  apply at_path_system; [|done]. intros ch Hch. apply plain_emplace; [by apply plain_leaf|done].
Qed.

Lemma inject_zygisk_libs_settled nb n : system_ok n ->
  settled (inject_zygisk_libs nb n) /\ forall n', inject_zygisk_libs nb n = Ret n' -> system_ok n'.
Proof.
  intros Hn. unfold inject_zygisk_libs.
  destruct (zygisk_lib_settled (access (bs "/system/bin/linker")) (bs "lib") nb false n Hn) as [Hs1 Hr1]. split.
  - apply settled_bind; [done|]. intros n1 E. by apply zygisk_lib_settled, Hr1.
  - intros n' (n1 & E1 & E2)%bind_Ret_inv. eapply zygisk_lib_settled in E2; [done|by apply Hr1].
Qed.

Lemma load_module_ok {A} `{PropArea A} ms : forall (st : pstate A) n st' n', system_ok n ->
  fold_left load_module ms (st, n) = (st', n') -> system_ok n'.
Proof.
  induction ms as [|m ms IH]; intros st n st' n' Hs; cbn [fold_left]; [by intros [= <- <-]|].
  destruct (load_module (st, n) m) as [st1 n1] eqn:E. apply IH. unfold load_module in E.
  destruct (mf_skip_mount m); [by injection E as <- <-|].
  destruct (mf_system m) as [d|]; [|by injection E as <- <-].
  injection E as <- <-. destruct Hs as ([pre Hc] & He & Hi).
  destruct (collect_inner (mf_name m) d n Hi) as (Hi' & Hc' & He'). split; [exists pre; congruence|]. split; [congruence|done].
Qed.

Lemma build_system_settled {A} `{PropArea A} zygisk ms (st : pstate A) :
  settled (build_system zygisk ms st) /\
  forall st' system, build_system zygisk ms st = Ret (st', system) -> system_ok system.
Proof.
  unfold build_system. destruct (fold_left load_module ms _) as [st1 n1] eqn:E1.
  assert (S1 : system_ok n1).
  { eapply load_module_ok; [|exact E1]. split_and!; [by eexists|done|constructor]. }
  set (r := if needs_bins then inject_magisk_bins n1 else Ret n1).
  assert (Hr : settled r /\ forall n', r = Ret n' -> system_ok n').
  { unfold r. destruct needs_bins; [by apply inject_magisk_bins_settled|]. split; [done|]. by intros n' [= <-]. }
  destruct Hr as [Hs Hr]. split.
  - apply settled_bind; [done|]. intros n2 E2. destruct zygisk; [|done]. destruct (setup_native_bridge st1) as [st2 nb].
    apply settled_bind; [|done]. by apply inject_zygisk_libs_settled, Hr.
  - intros st' system (n2 & E2 & E)%bind_Ret_inv. destruct zygisk; [|injection E as <- <-; by apply Hr].
    destruct (setup_native_bridge st1) as [st2 nb]. apply bind_Ret_inv in E as (n3 & E3 & E). injection E as <- <-.
    eapply inject_zygisk_libs_settled in E3; [done|by apply Hr].
Qed.

(** *** The tree of partitions *)

Lemma root_of_ok old : plain old -> system_ok (root_of old).
Proof.
  intros (H1 & H2 & H3)%plain_inner. unfold root_of, system_ok, dir_consume, entry_consume.
  split_and!.
  - destruct (isa TYPE_DIR old); by eexists.
  - cbn [set_ftype ftype]. unfold exist, set_exist. rewrite Z.lor_spec. apply orb_true_r.
  - unfold inner. destruct (isa TYPE_DIR old); cbn [set_ftype set_children children]; [|constructor].
    by apply Forall_omerge; [constructor|].
Qed.

Lemma split_partitions_ok ps : forall n parts n' parts', system_ok n -> Forall system_ok parts ->
  fold_left split_partition ps (n, parts) = (n', parts') -> system_ok n' /\ Forall system_ok parts'.
Proof.
  induction ps as [|p ps IH]; intros n parts n' parts' Hn Hp; cbn [fold_left]; [by intros [= <- <-]|].
  destruct (split_partition (n, parts) p) as [n1 parts1] eqn:E. apply IH.
  all: unfold split_partition, extract in E; case_bool_decide; [|by injection E as <- <-];
    destruct (ofind name p (children n)) as [old|] eqn:Eo; injection E as <- <-; try done;
    destruct Hn as (Hc & He & Hi).
  - split_and!; [done..|]. unfold inner. cbn. by apply Forall_oerase.
  - apply Forall_app. split; [done|]. apply Forall_singleton, root_of_ok. by eapply inner_find.
Qed.

Lemma emplace_roots ns : Forall system_ok ns -> forall ch, Forall system_ok ch ->
  Forall system_ok (fold_left (fun ch n => emplace n ch) ns ch).
Proof.
  induction 1 as [|n ns Hn _ IH]; intros ch Hch; [done|]. cbn [fold_left]. apply IH.
  rewrite emplace_cases. destruct (ofind _ _ _) as [old|] eqn:E; [|by apply Forall_oemplace].
  apply ofind_key in E as [_ Hin]. rewrite Forall_forall in Hch. destruct (Hch old Hin) as ([pre Hc] & _).
  destruct Hn as ([pre' Hc'] & _). rewrite Hc, Hc'. cbn [type_id Z.ltb]. by apply Forall_forall.
Qed.

Lemma build_root_children n : system_ok n -> Forall system_ok (children (build_root n)).
Proof.
  intros Hn. unfold build_root. destruct (fold_left split_partition partitions (n, [])) as [m parts] eqn:E.
  destruct (split_partitions_ok _ _ _ _ _ Hn (List.Forall_nil _) E) as [Hm Hparts]. cbn [children set_children].
  apply emplace_roots; [by constructor|constructor].
Qed.

(** A partition is prepared, or its upgrade is refused. *)
Lemma prepare_partition_settled fuel path ft x xft : system_ok x ->
  (forall y, y ∈ children x -> isa TYPE_INTER y = true -> (path_fuel + iheight y <= fuel)%nat) ->
  settled (prepare_child (prepare_ft fuel) fuel path ft x xft).
Proof using Hpath.
  intros ([pre Hc] & _ & Hch) Hf. destruct x as [nm ft0 c ch]. unfold inner in Hch. cbn [cls children] in *. subst c.
  unfold prepare_child. change (isa TYPE_DIR _) with true. cbv iota. cbn [prepare_ft name].
  set (f := if replace ft then _ else _).
  destruct (prepare_children_total fuel (node_path path nm) f (root_node pre) ch Hch Hf (replace f || negb (exist f)))
    as (l' & up' & E). rewrite E. cbn [obind]. by destruct up'.
Qed.

(** Fuel for the longest path and the deepest directory of the modules. *)
Definition tree_fuel (root : node) : nat :=
  path_fuel + list_max (map (fun x => list_max (map iheight (children x))) (children root)).

Lemma tree_fuel_enough root fuel x y : (tree_fuel root <= fuel)%nat -> x ∈ children root -> y ∈ children x ->
  (path_fuel + iheight y <= fuel)%nat.
Proof.
  unfold tree_fuel. intros Hf Hx Hy.
  pose proof (proj1 (List.list_max_le (map (fun x => list_max (map iheight (children x))) (children root)) _) (Nat.le_refl _)) as Hm.
  apply Forall_map in Hm. rewrite Forall_forall in Hm. specialize (Hm x Hx). cbv beta in Hm.
  pose proof (proj1 (List.list_max_le (map iheight (children x)) _) (Nat.le_refl _)) as Hn.
  apply Forall_map in Hn. rewrite Forall_forall in Hn. specialize (Hn y Hy). lia.
Qed.

Lemma prepare_settled fuel root : Forall system_ok (children root) -> (tree_fuel root <= fuel)%nat ->
  settled (prepare fuel [] root).
Proof using Hpath.
  intros Hp Hf. assert (Hh := fun x y => tree_fuel_enough root fuel x y Hf).
  destruct root as [nm ft c ch]. cbn [children] in *. unfold prepare. cbn [prepare_ft ftype].
  apply settled_bind; [|by intros [? ?] _].
  generalize (replace ft || negb (exist ft)) as up. clear Hf. induction Hp as [|x ch Hx _ IH]; intros up; cbn [prepare_loop]; [done|].
  destruct (examine _ _) as [xft cannot]. destruct (cannot && _); [apply IH; intros; eapply Hh; eauto; by right|].
  apply settled_bind.
  - apply prepare_partition_settled; [done|]. intros y Hy _. eapply Hh; [by left|done].
  - intros x' _. apply settled_bind; [|by intros [? ?] _]. apply IH. intros; eapply Hh; eauto; by right.
Qed.
End totality.

(** ** Magic mount *)

Section magic_mount.
Context `{Os} {A : Type} `{PropArea A}.

(** Neither /system nor a partition beside it is replaced as a whole. *)
Definition not_replaced (system : node) : Prop :=
  Forall (fun x => replace (ftype x) = false) (children (build_root system)).

(** C2: magic mount never touches the real file system except by mounting over it.
    The kernel opens no directory under a path of PATH_MAX bytes or more.  Then the tree
    of /system is built or its construction hits undefined behaviour (a node that is not a
    directory used as one), and with enough fuel every list of modules gives one of two
    results: undefined behaviour, before any call is made, or a list of calls.  It is a
    list of calls when the tree is built and neither /system nor a partition is replaced as
    a whole.  Directories, files, copies, bind mounts and remounts of the list have their
    target in the worker tmpfs or at a file that exists and is not a symbolic link; links
    are made in the worker tmpfs or at a path that is not a link; attributes are written
    only in the worker tmpfs and to the files below the directory of modules. *)
Theorem load_modules_safe zygisk ms (st : pstate A) :
  (forall p, PATH_MAX <= zlen p -> open_dir p = None) ->
  settled (build_system zygisk ms st) /\
  exists F, forall fuel, (F <= fuel)%nat ->
    (load_modules fuel zygisk ms st = Fault \/
     exists st' acts, load_modules fuel zygisk ms st = Ret (st', acts) /\ Forall action_ok acts) /\
    forall st' system, build_system zygisk ms st = Ret (st', system) -> not_replaced system ->
      exists acts, load_modules fuel zygisk ms st = Ret (st', acts) /\ Forall action_ok acts.
Proof.
  intros Hpath. destruct (build_system_settled zygisk ms st) as [Hs Hok]. split; [done|].
  destruct (build_system zygisk ms st) as [[st1 system]| | |] eqn:Eb; try done.
  2:{ exists O. intros fuel _. split; [|done]. left. unfold load_modules. by rewrite Eb. }
  specialize (Hok _ _ eq_refl). exists (tree_fuel (build_root system)). intros fuel Hf.
  unfold load_modules. rewrite Eb. cbn [obind].
  assert (Hnode := build_system_node _ _ _ _ _ Eb).
  destruct (children system) as [|c0 ch0] eqn:Ech.
  { split; [right; by eexists _, _|]. intros st' sys [= <- <-] _. by eexists. }
  assert (Hch := build_root_children _ Hok). split.
  - pose proof (prepare_settled Hpath fuel _ Hch Hf) as Hp.
    destruct (prepare fuel [] (build_root system)) as [[root b]| | |] eqn:Ep; try done; [|by left].
    right. cbn [obind]. eexists _, _. split; [done|]. by eapply mount_phase_ok.
  - intros st' sys [= <- <-] Hnr. destruct (build_root_fresh _ Hnode) as [_ [pre Hc]].
    destruct (prepare_tree Hpath fuel (build_root system) pre Hc) as (root & b & Ep).
    + unfold build_root. by destruct (fold_left split_partition partitions _).
    + unfold not_replaced in Hnr. rewrite Forall_forall in *. intros x Hx.
      destruct (Hch x Hx) as (Hcx & Hex & Hix). split_and!; [done|by apply Hnr|done|done].
    + intros x y Hx Hy _. by eapply tree_fuel_enough.
    + rewrite Ep. cbn [obind]. eexists. split; [done|]. by eapply mount_phase_ok.
Qed.
End magic_mount.

(** ** A tmpfs mirrors the directory it covers *)

Section mirror.
Context `{Os}.

Lemma tmpfs_ctor_node fuel ppath n n' : isa TYPE_DIR n = true -> tmpfs_ctor fuel ppath n = Ret n' ->
  name n' = name n /\ file_type (ftype n') = file_type (ftype n) /\ cls n' = tmpfs_node.
Proof.
  intros Hd. destruct fuel; [done|]. cbn [tmpfs_ctor]. rewrite tmpfs_consume by done.
  cbn [name ftype children cls]. intros (ch & _ & Hr)%bind_Ret_inv. injection Hr as <-.
  destruct (replace _); [done|]. destruct (open_dir _); [|done]. cbn. by rewrite file_type_set_exist.
Qed.

Lemma mmap_find f l l' k : (forall n n', f n = Ret n' -> name n' = name n) -> mmap f l = Ret l' ->
  match ofind name k l with
  | Some c => exists c', f c = Ret c' /\ ofind name k l' = Some c'
  | None => ofind name k l' = None
  end.
Proof.
  intros Hn. revert l'. induction l as [|n l IH]; intros l' Hm; simpl in Hm; [by injection Hm as <-|].
  apply bind_Ret_inv in Hm as (n' & En & Hm). apply bind_Ret_inv in Hm as (l1 & El & Hm).
  injection Hm as <-. simpl. rewrite (Hn _ _ En). case_bool_decide; [eauto|]. by apply IH.
Qed.

(** The first entry listed under a name. *)
Fixpoint listed (k : bytes) (es : list (bytes * Z)) : option Z :=
  match es with
  | [] => None
  | (nm, ty) :: es => if bool_decide (nm = k) then Some ty else listed k es
  end.

Lemma fold_emplace_find es : forall ch k, ordered name ch ->
  ordered name (fold_left (fun ch e => emplace (new_inter e.1 e.2) ch) es ch) /\
  ofind name k (fold_left (fun ch e => emplace (new_inter e.1 e.2) ch) es ch) =
  match ofind name k ch with
  | Some c => Some c
  | None => new_inter k <$> listed k es
  end.
Proof.
  induction es as [|[nm ty] es IH]; intros ch k Ho; cbn [fold_left listed fst snd].
  { split; [done|]. by destruct (ofind name k ch). }
  destruct (IH (emplace (new_inter nm ty) ch) k ltac:(auto with kit)) as [Ho' ->]. split; [done|].
  rewrite emplace_inter by done. cbn [name new_inter].
  destruct (ofind name nm ch) eqn:En.
  - case_bool_decide; [|done]. subst. by rewrite En.
  - rewrite ofind_oemplace by done. cbn [name new_inter]. case_bool_decide; [|done]. subst.
    by rewrite En.
Qed.

Lemma tmpfs_ctor_mirrors fuel ppath n n' es : isa TYPE_DIR n = true -> ordered name (children n) ->
  replace (ftype n) = false -> open_dir (node_path ppath (name n)) = Some es ->
  tmpfs_ctor fuel ppath n = Ret n' ->
  exist (ftype n') = true /\
  forall k, match ofind name k (children n), listed k es with
  | Some c, _ => exists c', ofind name k (children n') = Some c' /\ name c' = k /\
                   file_type (ftype c') = file_type (ftype c) /\
                   (isa TYPE_INTER c = false -> c' = c) /\
                   (isa TYPE_INTER c = true -> cls c' = tmpfs_node)
  | None, Some ty => exists c', ofind name k (children n') = Some c' /\ cls c' = tmpfs_node /\
                   file_type (ftype c') = file_type ty
  | None, None => ofind name k (children n') = None
  end.
Proof.
  intros Hd Ho Hr Hes Hc. destruct fuel as [|fuel]; [done|]. cbn [tmpfs_ctor] in Hc.
  rewrite tmpfs_consume in Hc by done. cbn [name ftype children cls] in Hc. rewrite Hr in Hc.
  set (path := node_path ppath (name n)) in *. rewrite Hes in Hc. cbn [name ftype children cls] in Hc.
  rewrite omerge_nil in Hc by done.
  apply bind_Ret_inv in Hc as (ch & Hm & Hret). injection Hret as <-.
  unfold set_children. cbn [name ftype children cls]. split.
  { unfold exist, set_exist. rewrite Z.lor_spec. apply orb_true_r. }
  intros k. destruct (fold_emplace_find es (children n) k Ho) as [_ Hf].
  set (f := fun c => if isa TYPE_INTER c then tmpfs_ctor fuel path c else Ret c) in Hm.
  assert (Hname : forall c c', f c = Ret c' ->
    name c' = name c /\ file_type (ftype c') = file_type (ftype c) /\
    (isa TYPE_INTER c = false -> c' = c) /\ (isa TYPE_INTER c = true -> cls c' = tmpfs_node)).
  { intros c c'. subst f. cbv beta. destruct (isa TYPE_INTER c) eqn:Hi; [|by intros [= <-]].
    intros E. destruct (tmpfs_ctor_node _ _ _ _ (isa_inter_dir _ Hi) E) as (? & ? & ?). done. }
  assert (Hfind := mmap_find f _ _ k (fun c c' E => proj1 (Hname c c' E)) Hm).
  rewrite Hf in Hfind. destruct (ofind name k (children n)) as [c|] eqn:E.
  - destruct Hfind as (c' & Ec & Hc'). destruct (Hname _ _ Ec) as (? & ? & ? & ?).
    exists c'. split_and!; try done. apply ofind_key in E as [? _]. congruence.
  - destruct (listed k es) as [ty|]; simpl in Hfind; [|done].
    destruct Hfind as (c' & Ec & Hc'). destruct (Hname _ _ Ec) as (_ & Hft & _ & Hcls).
    exists c'. split_and!; [done|by apply Hcls|]. rewrite Hft. cbn [ftype new_inter].
    unfold file_type. by rewrite <- Z.land_assoc.
Qed.

(** C21: nothing disappears under a tmpfs.  The kernel opens no directory under a path
    of PATH_MAX bytes or more.  A directory that is covered, can be opened and is not
    replaced gets, with fuel for the longest path and the depth of the module files, a
    node for every entry of the real directory; the module's own nodes stay as they were,
    their directories become tmpfs nodes, and an entry no module provides is a mirror node
    of the type the directory lists. *)
Theorem tmpfs_mirrors fuel ppath n es : (forall p, PATH_MAX <= zlen p -> open_dir p = None) ->
  isa TYPE_DIR n = true -> ordered name (children n) ->
  replace (ftype n) = false -> open_dir (node_path ppath (name n)) = Some es ->
  (path_fuel + iheight n <= fuel)%nat ->
  exists n', tmpfs_ctor fuel ppath n = Ret n' /\ exist (ftype n') = true /\
  forall k, match ofind name k (children n), listed k es with
  | Some c, _ => exists c', ofind name k (children n') = Some c' /\ name c' = k /\
                   file_type (ftype c') = file_type (ftype c) /\
                   (isa TYPE_INTER c = false -> c' = c) /\
                   (isa TYPE_INTER c = true -> cls c' = tmpfs_node)
  | None, Some ty => exists c', ofind name k (children n') = Some c' /\ cls c' = tmpfs_node /\
                   file_type (ftype c') = file_type ty
  | None, None => ofind name k (children n') = None
  end.
Proof.
  intros Hpath Hd Ho Hr Hes Hfuel.
  destruct (tmpfs_ctor_total Hpath fuel ppath n (iheight n - 1) Hd (iheight_children n)) as [n' E].
  { pose proof (room_le (node_path ppath (name n))). pose proof (iheight_pos n). lia. }
  exists n'. split; [done|]. by eapply tmpfs_ctor_mirrors.
Qed.
End mirror.

(** ** Collecting modules *)

Fixpoint lookup_path (p : list bytes) (n : node) : option node :=
  match p with
  | [] => Some n
  | k :: p => match ofind name k (children n) with Some c => lookup_path p c | None => None end
  end.

(** Above the path [p] the module has directories only. *)
Fixpoint no_file_above (p : list bytes) (d : mtree) : Prop :=
  match p, d with
  | k :: p, MDir (Some es) =>
    p = [] \/ Forall (fun e => e.1 = k -> match e.2 with MFile _ _ => False | t => no_file_above p t end) es
  | _, _ => True
  end.

(** Nothing in the tree on the way to [p], except directories of modules. *)
Fixpoint free_path (p : list bytes) (n : node) : Prop :=
  match p with
  | [] => False
  | k :: p =>
    match ofind name k (children n) with
    | None => True
    | Some c => isa TYPE_INTER c = true /\ free_path p c
    end
  end.

(** The file at a path of a module, if its directories list each name once. *)
Inductive file_at : list bytes -> mtree -> Z -> option Z -> Prop :=
| file_here k es ty rdev : NoDup es.*1 -> (k, MFile ty rdev) ∈ es -> k <> bs ".replace" ->
    file_at [k] (MDir (Some es)) ty rdev
| file_below k p es t ty rdev : NoDup es.*1 -> (k, t) ∈ es -> k <> bs ".replace" ->
    file_at p t ty rdev -> file_at (k :: p) (MDir (Some es)) ty rdev.

Section collecting.
Context (module : bytes).

(** The child under the name of an entry, after the entry. *)
Definition entry_child (nm : bytes) (t : mtree) (old : option node) : node :=
  match t, old with
  | MDir _, None => collect_module_files module t (new_inter nm DT_DIR)
  | MDir _, Some c => if isa TYPE_INTER c then collect_module_files module t c else c
  | MFile ty rdev, None => new_module module nm (entry_type ty rdev)
  | MFile ty rdev, Some c =>
    if type_id (cls c) <? TYPE_MODULE then consume (new_module module nm (entry_type ty rdev)) c else c
  end.

Lemma collect_entry_find nm t n k : fresh n -> isa TYPE_DIR n = true ->
  ofind name k (children (collect_entry module (collect_module_files module) nm t n)) =
  if bool_decide (k = nm /\ nm <> bs ".replace")
  then Some (entry_child nm t (ofind name nm (children n))) else ofind name k (children n).
Proof.
  intros Hn Hd. destruct (fresh_inv _ Hn) as (_ & _ & Ho & _). unfold collect_entry.
  destruct (decide (nm = bs ".replace")) as [E|N].
  { rewrite bool_decide_eq_true_2 by done. rewrite bool_decide_eq_false_2 by tauto. done. }
  rewrite (bool_decide_eq_false_2 (nm = _)) by done.
  assert (Hput : forall c, name c = nm ->
    ofind name k (oemplace name c (oerase name nm (children n))) =
    if bool_decide (k = nm /\ nm <> bs ".replace") then Some c else ofind name k (children n)).
  { intros c Hc. rewrite ofind_oemplace by auto with kit. rewrite Hc, ofind_oerase by done.
    repeat case_bool_decide; naive_solver. }
  assert (Hadd : forall c, name c = nm -> ofind name nm (children n) = None ->
    ofind name k (oemplace name c (children n)) =
    if bool_decide (k = nm /\ nm <> bs ".replace") then Some c else ofind name k (children n)).
  { intros c Hc Hnone. rewrite ofind_oemplace by done. rewrite Hc. repeat case_bool_decide; try naive_solver.
    subst. by rewrite Hnone. }
  assert (Hsame : forall c, ofind name nm (children n) = Some c ->
    ofind name k (children n) =
    if bool_decide (k = nm /\ nm <> bs ".replace") then Some c else ofind name k (children n)).
  { intros c Hc. case_bool_decide as E; [|done]. by destruct E as [-> _]. }
  destruct t as [o|ty rdev], (ofind name nm (children n)) as [c|] eqn:E; cbn [entry_child].
  - destruct (fresh_find _ _ _ Hn E) as [Hc Hnm].
    destruct (isa TYPE_INTER c) eqn:Hi; cbn [children set_children]; [|by apply Hsame].
    apply Hput. destruct (collect_fresh module (MDir o) c Hc (isa_inter_dir _ Hi)) as (_ & -> & _). done.
  - destruct (collect_fresh module (MDir o) (new_inter nm DT_DIR)) as (_ & Hnm & _);
      [by apply fresh_leaf|done|].
    cbn [children set_children]. rewrite emplace_cases, Hnm. cbn [name new_inter]. rewrite E. by apply Hadd.
  - destruct (fresh_find _ _ _ Hn E) as [Hc Hnm].
    cbn [children set_children]. rewrite emplace_cases. cbn [name new_module]. rewrite E.
    cbn [cls new_module type_id]. destruct (type_id (cls c) <? TYPE_MODULE); [|by apply Hsame].
    by apply Hput.
  - cbn [children set_children]. rewrite emplace_cases. cbn [name new_module]. rewrite E. by apply Hadd.
Qed.

Lemma collect_entry_fresh nm t n : fresh n -> isa TYPE_DIR n = true ->
  let n' := collect_entry module (collect_module_files module) nm t n in
  fresh n' /\ isa TYPE_DIR n' = true.
Proof.
  intros Hn Hd n'.
  destruct (collect_fresh module (MDir (Some [(nm, t)])) n Hn Hd) as (Hf & _ & Hc).
  split; [exact Hf|]. unfold isa in *. change n' with (collect_module_files module (MDir (Some [(nm, t)])) n).
  by rewrite Hc.
Qed.

(** C20: the first module wins: a file some module has put into the tree is not
    displaced by the modules collected later, whatever they contain at that
    path, unless they have a file in the place of one of its directories. *)
Theorem collect_keeps d : forall p n x m, fresh n -> isa TYPE_DIR n = true ->
  lookup_path p n = Some x -> cls x = module_node m -> no_file_above p d ->
  lookup_path p (collect_module_files module d n) = Some x.
Proof.
  induction d as [es IH| |ty rdev] using mtree_ind'; intros p n x m Hn Hd Hx Hm Ha; [|done..].
  destruct p as [|k p]; [injection Hx as <-; unfold isa in Hd; by rewrite Hm in Hd|].
  cbn [no_file_above] in Ha.
  assert (Ha' : Forall (fun e => e.1 = k -> p = [] \/
    match e.2 with MFile _ _ => False | t => no_file_above p t end) es).
  { destruct Ha as [Ha|Ha]; [by apply Forall_true; auto|]. eapply Forall_impl; [exact Ha|]. naive_solver. }
  clear Ha. cbn [collect_module_files].
  revert n Hn Hd Hx. induction IH as [|[nm t] es Ht _ IHes]; intros n Hn Hd Hx; [done|].
  inversion Ha' as [|? ? Hk Ha]; subst. cbn [collect_entries fst snd] in *.
  destruct (collect_entry_fresh nm t n Hn Hd) as [Hf' Hd'].
  apply IHes; [done..|]. cbn [lookup_path] in *. rewrite collect_entry_find by done.
  case_bool_decide as E; [|done]. destruct E as [-> _].
  destruct (ofind name nm (children n)) as [c|] eqn:Ec; [|done].
  destruct (fresh_find _ _ _ Hn Ec) as [Hc _].
  destruct t as [o|ty rdev]; cbn [entry_child].
  - destruct (isa TYPE_INTER c) eqn:Hi; [|done]. destruct p as [|k' p].
    { injection Hx as <-. unfold isa in Hi. by rewrite Hm in Hi. }
    destruct (Hk eq_refl) as [|Hna]; [done|]. by eapply Ht; [|apply isa_inter_dir| |exact Hm|].
  - destruct (type_id (cls c) <? TYPE_MODULE) eqn:Hlt; [|done].
    destruct p as [|k' p]; [|by destruct (Hk eq_refl)].
    injection Hx as <-. by rewrite Hm in Hlt.
Qed.

(** Entries with another name leave a child alone. *)
Lemma collect_entries_other k es : forall n, fresh n -> isa TYPE_DIR n = true -> k ∉ es.*1 ->
  let n' := collect_entries module (collect_module_files module) es n in
  fresh n' /\ isa TYPE_DIR n' = true /\ ofind name k (children n') = ofind name k (children n).
Proof.
  induction es as [|[nm t] es IH]; intros n Hn Hd Hk; [done|]. cbn [collect_entries].
  rewrite fmap_cons, not_elem_of_cons in Hk. destruct Hk as [Hne Hk]. cbn [fst] in Hne.
  destruct (collect_entry_fresh nm t n Hn Hd) as [Hf Hd'].
  destruct (IH _ Hf Hd' Hk) as (Hf2 & Hd2 & E). split_and!; [done..|]. rewrite E, collect_entry_find by done.
  rewrite bool_decide_eq_false_2; [done|tauto].
Qed.

Lemma collect_find_entry es k t n : fresh n -> isa TYPE_DIR n = true -> NoDup es.*1 -> (k, t) ∈ es ->
  k <> bs ".replace" ->
  ofind name k (children (collect_module_files module (MDir (Some es)) n)) =
  Some (entry_child k t (ofind name k (children n))).
Proof.
  intros Hn Hd Hnd Hin Hk. cbn [collect_module_files].
  apply list_elem_of_split in Hin as (es1 & es2 & ->).
  rewrite fmap_app, fmap_cons in Hnd. cbn [fst] in Hnd.
  apply NoDup_app in Hnd as (_ & Hdis & Hnd2). apply NoDup_cons in Hnd2 as [Hk2 _].
  assert (Hk1 : k ∉ es1.*1) by (intros Hin; apply (Hdis k Hin); by left).
  assert (Happ : forall l1 l2 m, collect_entries module (collect_module_files module) (l1 ++ l2) m =
    collect_entries module (collect_module_files module) l2
      (collect_entries module (collect_module_files module) l1 m)).
  { induction l1 as [|[a b] l1 IH]; intros; [done|]. apply IH. }
  rewrite Happ. cbn [collect_entries].
  destruct (collect_entries_other k es1 n Hn Hd Hk1) as (Hf1 & Hd1 & E1).
  set (n1 := collect_entries _ _ es1 n) in *.
  destruct (collect_entry_fresh k t n1 Hf1 Hd1) as [Hf2 Hd2].
  destruct (collect_entries_other k es2 _ Hf2 Hd2 Hk2) as (_ & _ & ->).
  rewrite collect_entry_find, E1 by done. by rewrite bool_decide_eq_true_2.
Qed.

(** Every file of a module is mounted from it, unless an earlier module has
    something in the way: collecting puts a module node for it at its path. *)
Theorem collect_adds p d ty rdev : file_at p d ty rdev -> forall n, fresh n -> isa TYPE_DIR n = true ->
  free_path p n ->
  exists k, last p = Some k /\
  lookup_path p (collect_module_files module d n) = Some (new_module module k (entry_type ty rdev)).
Proof.
  induction 1 as [k es ty rdev Hnd Hin Hk|k p es t ty rdev Hnd Hin Hk Hf IH]; intros n Hn Hd Hfree.
  - exists k. split; [done|]. cbn [lookup_path].
    rewrite (collect_find_entry es k _ n Hn Hd Hnd Hin Hk). cbn [free_path] in Hfree.
    destruct (ofind name k (children n)); [naive_solver|done].
  - assert (Ht : exists o, t = MDir o) by (inversion Hf; eauto). destruct Ht as [o ->].
    cbn [free_path lookup_path] in *. rewrite (collect_find_entry es k _ n Hn Hd Hnd Hin Hk).
    cbn [entry_child].
    destruct (ofind name k (children n)) as [c|] eqn:Ec.
    + destruct Hfree as [Hi Hfree]. rewrite Hi.
      destruct (IH c) as (k' & Hl & ->); [by apply (fresh_find _ _ _ Hn Ec)|by apply isa_inter_dir|done|].
      exists k'. split; [|done]. destruct p; [done|exact Hl].
    + destruct (IH (new_inter k DT_DIR)) as (k' & Hl & ->); [by apply fresh_leaf|done| |].
      { destruct p; [by inversion Hf|done]. }
      exists k'. split; [|done]. destruct p; [done|exact Hl].
Qed.
End collecting.

(** ** Concrete trees *)

(** A system given by the list of its files. *)
Fixpoint strip_prefix (p l : bytes) : option bytes :=
  match p, l with
  | [], _ => Some l
  | x :: p, y :: l => if Byte.eqb x y then strip_prefix p l else None
  | _ :: _, [] => None
  end.

Definition child_of (dir path : bytes) : option bytes :=
  match strip_prefix (dir ++ bs "/") path with
  | Some nm => if bool_decide (x2f ∈ nm) then None else Some nm
  | None => None
  end.

Fixpoint type_of (files : list (bytes * Z)) (p : bytes) : option Z :=
  match files with
  | [] => None
  | (q, ty) :: files => if bool_decide (q = p) then Some ty else type_of files p
  end.

Definition os_of (files : list (bytes * Z)) : Os := {|
  lstat p := type_of files p;
  open_dir p :=
    if PATH_MAX <=? zlen p then None
    else match type_of files p with
         | Some ty => if ty =? DT_DIR then
             Some (omap (fun f => (fun nm => (nm, f.2)) <$> child_of p f.1) files) else None
         | None => None
         end;
  access p := bool_decide (is_Some (type_of files p));
  stat_xoth p := bool_decide (type_of files p = Some DT_DIR);
  get_magisk_tmp := bs "/debug_ramdisk";
  env_path := Some (bs "/product/bin:/system/bin:/vendor/bin")
|}.

Definition sample_files : list (bytes * Z) :=
  [(bs "/system", DT_DIR); (bs "/system/bin", DT_DIR); (bs "/system/bin/sh", DT_REG);
   (bs "/system/bin/ls", DT_LNK); (bs "/system/etc", DT_DIR); (bs "/system/etc/hosts", DT_REG);
   (bs "/vendor", DT_DIR); (bs "/vendor/lib", DT_DIR);
   (bs "/debug_ramdisk/magisk", DT_REG); (bs "/debug_ramdisk/magiskpolicy", DT_REG)].
Definition sample_os : Os := os_of sample_files.

Definition mfile (nm : string) : bytes * mtree := (bs nm, MFile DT_REG (Some 0)).
Definition mwhite (nm : string) : bytes * mtree := (bs nm, MFile DT_CHR (Some 0)).
Definition mdir (nm : string) (es : list (bytes * mtree)) : bytes * mtree := (bs nm, MDir (Some es)).

Definition sample_module : module_files :=
  ModuleFiles (bs "m1") None false
    (Some (MDir (Some [mdir "etc" [mfile "hosts"]; mdir "vendor" [mdir "lib" [mfile "x.so"]]]))).

Definition prop0 : pstate map_area := PState (MapArea ∅ 4) empty_store.

(** /system/bin and /vendor/lib get a tmpfs, /system/etc/hosts a bind mount. *)
Lemma sample_os_paths p : PATH_MAX <= zlen p -> open_dir (Os := sample_os) p = None.
Proof. intros Hp. cbn -[PATH_MAX zlen]. by rewrite (proj2 (Z.leb_le _ _) Hp). Qed.

Lemma load_modules_safe_witness : exists F, forall fuel, (F <= fuel)%nat ->
  exists st' acts, load_modules (H := sample_os) fuel false [sample_module] prop0 = Ret (st', acts) /\
    Forall (action_ok (H := sample_os)) acts.
Proof.
  destruct (load_modules_safe (H := sample_os) false [sample_module] prop0 sample_os_paths) as [_ [F HF]].
  exists F. intros fuel Hf. destruct (HF fuel Hf) as [_ Hret].
  destruct (Ret_check (build_system (H := sample_os) false [sample_module] prop0)
              (fun r => forallb (fun x => negb (replace (ftype x))) (children (build_root (H := sample_os) r.2))))
    as [[st' system] [E Hl]]; [vm_compute; reflexivity|].
  destruct (Hret st' system E) as (acts & Ea & Ha).
  - apply List.Forall_forall. intros x Hx. rewrite forallb_forall in Hl. by apply negb_true_iff, Hl.
  - exists st', acts. split; [exact Ea|exact Ha].
Defined.

(** The calls for the sample module. *)
Example sample_actions :
  match load_modules (H := sample_os) 10 false [sample_module] prop0 with
  | Ret (_, acts) => length acts = 24%nat
  | _ => False
  end.
Proof. vm_compute. reflexivity. Qed.

Lemma insert_spec_witness :
  let ch := [new_module (bs "m1") (bs "su") DT_REG] in
  ordered name ch /\
  exists ch', insert (new_magisk (bs "su") (Some (bs "./magisk"))) ch = (ch', true) /\
  exists n', ofind name (bs "su") ch' = Some n' /\ cls n' = magisk_node (Some (bs "./magisk")) /\
    ftype n' = DT_REG.
Proof.
  assert (Ho : ordered name [new_module (bs "m1") (bs "su") DT_REG]) by (repeat constructor).
  split; [exact Ho|]. eexists. split; [reflexivity|].
  destruct (insert_spec (new_magisk (bs "su") (Some (bs "./magisk"))) _ _ true Ho eq_refl)
    as (_ & _ & _ & _ & Hn). exact (Hn eq_refl).
Defined.

(** The tree of the sample module, split into partitions. *)
Definition sample_root : node :=
  build_root (H := sample_os)
    (collect_module_files (bs "m1")
       (MDir (Some [mdir "etc" [mfile "hosts"]; mdir "vendor" [mdir "lib" [mfile "x.so"]]]))
       (new_root (bs "system"))).

Lemma prepare_total_witness :
  (forall p, PATH_MAX <= zlen p -> open_dir (Os := sample_os) p = None) /\
  exists n' b, prepare (H := sample_os) (path_fuel + 3) [] sample_root = Ret (n', b).
Proof.
  assert (Hp : forall p, PATH_MAX <= zlen p -> open_dir (Os := sample_os) p = None).
  { intros p Hle. change (open_dir (Os := sample_os) p) with
      (if PATH_MAX <=? zlen p then None else
       match type_of sample_files p with
       | Some ty => if ty =? DT_DIR then
           Some (omap (fun f => (fun nm => (nm, f.2)) <$> child_of p f.1) sample_files) else None
       | None => None end).
    by rewrite (proj2 (Z.leb_le _ _) Hle). }
  split; [exact Hp|]. apply (prepare_total (H := sample_os) Hp (path_fuel + 3) sample_root []);
    [reflexivity|reflexivity| |].
  - assert (E : children sample_root =
      [Node (bs "system") (set_exist DT_DIR) (root_node [])
         [Node (bs "etc") DT_DIR inter_node [new_module (bs "m1") (bs "hosts") DT_REG]];
       Node (bs "vendor") (set_exist DT_DIR) (root_node (bs "/system"))
         [Node (bs "lib") DT_DIR inter_node [new_module (bs "m1") (bs "x.so") DT_REG]]])
      by (vm_compute; reflexivity).
    rewrite E. apply Forall_cons; split; [|apply Forall_singleton];
      (split_and!; [eexists; reflexivity|reflexivity|reflexivity|]);
      apply Forall_singleton; (constructor; [done|done|]); apply Forall_singleton; by apply plain_leaf.
  - assert (Hh : Forall (fun x => Forall (fun y => (iheight y <= 3)%nat) (children x)) (children sample_root)).
    { vm_compute. repeat constructor. }
    intros x y Hx Hy _. rewrite Forall_forall in Hh. specialize (Hh x Hx).
    rewrite Forall_forall in Hh. specialize (Hh y Hy). lia.
Defined.

Definition bin_node : node := Node (bs "bin") DT_DIR inter_node [new_module (bs "m1") (bs "tool") DT_REG].

Lemma tmpfs_mirrors_witness :
  exists n', tmpfs_ctor (H := sample_os) (path_fuel + iheight bin_node) (bs "/system") bin_node = Ret n' /\
    ofind name (bs "tool") (children n') = Some (new_module (bs "m1") (bs "tool") DT_REG) /\
    is_Some (ofind name (bs "ls") (children n')).
Proof.
  destruct (tmpfs_mirrors (H := sample_os) (path_fuel + iheight bin_node) (bs "/system") bin_node
              [(bs "sh", DT_REG); (bs "ls", DT_LNK)] sample_os_paths eq_refl) as (n' & E & _ & Hk);
    [repeat constructor|reflexivity|vm_compute; reflexivity|reflexivity|].
  exists n'. split; [exact E|]. split.
  - specialize (Hk (bs "tool")).
    change (ofind name (bs "tool") (children bin_node)) with
      (Some (new_module (bs "m1") (bs "tool") DT_REG)) in Hk.
    destruct Hk as (c' & Hc' & _ & _ & Hsame & _). rewrite (Hsame eq_refl) in Hc'. exact Hc'.
  - specialize (Hk (bs "ls")). change (ofind name (bs "ls") (children bin_node)) with (@None node) in Hk.
    change (listed (bs "ls") [(bs "sh", DT_REG); (bs "ls", DT_LNK)]) with (Some DT_LNK) in Hk.
    destruct Hk as (c' & Hc' & _). exists c'. exact Hc'.
Defined.

Definition hosts_tree (m : bytes) : node :=
  collect_module_files m (MDir (Some [mdir "etc" [mfile "hosts"]])) (new_root (bs "system")).

Lemma collect_keeps_witness :
  lookup_path [bs "etc"; bs "hosts"]
    (collect_module_files (bs "m2") (MDir (Some [mdir "etc" [mwhite "hosts"; mfile "b"]])) (hosts_tree (bs "m1"))) =
  Some (new_module (bs "m1") (bs "hosts") DT_REG).
Proof.
  apply (collect_keeps (bs "m2") _ [bs "etc"; bs "hosts"] (hosts_tree (bs "m1"))
           (new_module (bs "m1") (bs "hosts") DT_REG) (bs "m1")).
  - apply collect_fresh; [by apply fresh_leaf|done].
  - reflexivity.
  - vm_compute. reflexivity.
  - reflexivity.
  - right. apply Forall_singleton. intros _. by left.
Defined.

Lemma collect_adds_witness :
  exists k, last [bs "etc"; bs "b"] = Some k /\
  lookup_path [bs "etc"; bs "b"]
    (collect_module_files (bs "m2") (MDir (Some [mdir "etc" [mwhite "b"; mfile "hosts"]])) (hosts_tree (bs "m1"))) =
  Some (new_module (bs "m2") k DT_WHT).
Proof.
  apply (collect_adds (bs "m2") [bs "etc"; bs "b"] _ DT_CHR (Some 0)).
  - eapply file_below; [repeat constructor; set_solver|by left|done|].
    eapply file_here; [|by left|done].
    apply NoDup_cons. split; [|repeat constructor; set_solver].
    intros Hin. apply list_elem_of_singleton in Hin. discriminate.
  - apply collect_fresh; [by apply fresh_leaf|done].
  - reflexivity.
  - vm_compute. split; [reflexivity|exact I].
Defined.

(** *** What the rank rule does to clashes *)

(** A file displaces a directory of an earlier module: its files are gone, and
    the node keeps the type of the directory, so it is mounted as one. *)
Example file_over_dir :
  collect_module_files (bs "m2") (MDir (Some [mfile "etc"])) (hosts_tree (bs "m1")) =
  set_children [Node (bs "etc") DT_DIR (module_node (bs "m2")) []] (new_root (bs "system")).
Proof. vm_compute. reflexivity. Qed.

(** A whiteout of a binary is inherited by the node that should restore it:
    nothing is mounted there. *)
Example whiteout_hides_magisk :
  match inject_magisk_bins (H := sample_os)
    (collect_module_files (bs "m1") (MDir (Some [mdir "bin" [mwhite "magisk"]])) (new_root (bs "system")))
  with
  | Ret n => match lookup_path [bs "bin"; bs "magisk"] n with
             | Some x => bool_decide (mount (H := sample_os) [] (bs "/system/bin") true x = [])
             | None => false end
  | _ => false
  end = true.
Proof. vm_compute. reflexivity. Qed.

(** A module that ships system/bin as a link: the unchecked cast. *)
Example bin_link_undefined :
  inject_magisk_bins (H := sample_os)
    (collect_module_files (bs "m1") (MDir (Some [(bs "bin", MFile DT_LNK None)])) (new_root (bs "system"))) =
  Fault.
Proof. vm_compute. reflexivity. Qed.

(** A module with a file .replace directly under system makes [prepare] ask
    for the upgrade of a partition, which is refused: the loop goes on from
    [end()]. *)
Theorem system_replace_undefined :
  prepare (H := sample_os) 10 []
    (build_root (H := sample_os)
       (collect_module_files (bs "m1") (MDir (Some [mfile ".replace"; mdir "etc" [mfile "hosts"]]))
          (new_root (bs "system")))) = Fault.
Proof. vm_compute. reflexivity. Qed.
