(* ===== verification/Modules.v ===== *)
(** The directories of modules: the second half of [native/src/core/module.cpp].
    [/data/adb/modules] and [/data/adb/modules_update] are directories of module
    directories; of a module directory the code only asks which files it has.
    Uninstall and boot scripts are arbitrary programs: they are arguments of the
    operations that run them. *)

From S2P Require Import Prelude Base OrdMap Resetprop NodeTree.

(** ** State *)

(** A directory of modules: what [readdir] lists (name, is it a directory), and
    the files of each module, as paths below it. *)
Record mfs := Mfs { listing : list (bytes * bool); files : gmap bytes (gset bytes) }.

Record mstate := MState {
  m_root : option mfs;       (* MODULEROOT *)
  m_upgrade : option mfs;    (* MODULEUPGRADE *)
  m_rules : gset bytes;      (* modules with a sepolicy.rule in PREINITMIRR *)
  m_ran : list bytes         (* modules whose uninstall.sh was run *)
}.

Definition set_root (r : option mfs) (st : mstate) : mstate :=
  MState r (m_upgrade st) (m_rules st) (m_ran st).

(** [faccessat(modfd, f, F_OK, 0) == 0]; nothing is found if the module could not
    be opened. *)
Definition has_file (d : mfs) (m f : bytes) : bool :=
  match files d !! m with Some fs => bool_decide (f ∈ fs) | None => false end.

(** [openat(modfd, f, O_CREAT)] and [unlinkat(modfd, f, 0)] *)
Definition touch (m f : bytes) (d : mfs) : mfs :=
  Mfs (listing d) (alter (fun fs => fs ∪ {[f]}) m (files d)).
Definition unlink (m f : bytes) (d : mfs) : mfs :=
  Mfs (listing d) (alter (fun fs => fs ∖ {[f]}) m (files d)).
(** [frm_rf(modfd)] and [unlinkat(dfd, m, AT_REMOVEDIR)] *)
Definition rm_module (m : bytes) (d : mfs) : mfs :=
  Mfs (filter (fun e => e.1 <> m) (listing d)) (delete m (files d)).

(** Change MODULEROOT, if it is there. *)
Definition on_root (f : mfs -> mfs) (st : mstate) : mstate := set_root (f <$> m_root st) st.
Definition root_has (st : mstate) (m f : bytes) : bool :=
  match m_root st with Some d => has_file d m f | None => false end.

(** ** prepare_modules *)

(** One directory of MODULEUPGRADE moves over the module of the same name, which
    hands on its "disable" flag.  A file of that name cannot be cleaned up as a
    module, and the directory cannot be moved over it. *)
Definition upgrade_module (up : mfs) (d : mfs) (e : bytes * bool) : mfs :=
  let '(m, is_dir) := e in
  if negb is_dir then d
  else if bool_decide ((m, false) ∈ listing d) then d
  else
    let fs := default ∅ (files up !! m) in
    match files d !! m with
    | Some _ =>
      let fs := if has_file d m (bs "disable") then fs ∪ {[bs "disable"]} else fs in
      let d := rm_module m d in
      Mfs (listing d ++ [(m, true)]) (<[m := fs]> (files d))
    | None => Mfs (listing d ++ [(m, true)]) (<[m := fs]> (files d))
    end.

(** Without MODULEROOT nothing can be moved there. *)
Definition prepare_modules (st : mstate) : mstate :=
  match m_upgrade st with
  | None => st
  | Some up =>
    MState ((fun d => fold_left (upgrade_module up) (listing up) d) <$> m_root st)
      None (m_rules st) (m_ran st)
  end.

(** ** foreach_module *)

Section foreach.
Context {S : Type}.

(** The modules visited: the directories listed, less ".core". *)
Definition module_dirs (d : mfs) : list bytes :=
  map fst (filter (fun e => e.2 = true /\ e.1 <> bs ".core") (listing d)).

Definition foreach_module (root : S -> option mfs) (fn : S -> bytes -> S) (st : S) : S :=
  match root st with
  | None => st
  | Some d => fold_left fn (module_dirs d) st
  end.
End foreach.

(** ** collect_modules *)

(** A descriptor: none, the library itself, or a copy of it in a memfd. *)
Inductive zfd := NoFd | FileFd (path : bytes) | MemFd (path : bytes).

Record ModuleInfo := MkModuleInfo { info_name : bytes; z32 : zfd; z64 : zfd }.

Section collect.
Context (run_uninstall : bytes -> mstate -> mstate).

Definition exec_uninstall (m : bytes) (st : mstate) : mstate :=
  run_uninstall m (MState (m_root st) (m_upgrade st) (m_rules st) (m_ran st ++ [m])).

(** [openat(modfd, f, O_RDONLY)] *)
Definition open_file (st : mstate) (m f : bytes) : zfd :=
  if root_has st m f then FileFd (m ++ bs "/" ++ f) else NoFd.

(** The callback of [collect_modules], for the aarch64 build. *)
Definition collect_module (zygisk_enabled open_zygisk : bool)
    (acc : mstate * list ModuleInfo) (m : bytes) : mstate * list ModuleInfo :=
  let '(st, modules) := acc in
  if root_has st m (bs "remove") then
    let st := if root_has st m (bs "uninstall.sh") then exec_uninstall m st else st in
    (on_root (rm_module m) st, modules)
  else
    let st := on_root (unlink m (bs "update")) st in
    if root_has st m (bs "disable") then (st, modules)
    else if zygisk_enabled then
      if bool_decide (m = bs "riru-core") || root_has st m (bs "riru") then (st, modules)
      else if open_zygisk then
        let z32 := open_file st m (bs "zygisk/armeabi-v7a.so") in
        let z64 := open_file st m (bs "zygisk/arm64-v8a.so") in
        (on_root (unlink m (bs "zygisk/unloaded")) st, modules ++ [MkModuleInfo m z32 z64])
      else (st, modules ++ [MkModuleInfo m NoFd NoFd])
    else if root_has st m (bs "zygisk") then (st, modules)
    else (st, modules ++ [MkModuleInfo m NoFd NoFd]).

(** [convert_to_memfd]: [ok] are the results of the calls of [memfd_create]; after
    the first failure it is not tried again. *)
Definition convert_to_memfd (fd : zfd) (acc : bool * list bool) : zfd * (bool * list bool) :=
  let '(use, ok) := acc in
  match fd with
  | NoFd => (NoFd, acc)
  | FileFd p | MemFd p =>
    if (use : bool) then
      match ok with
      | true :: ok => (MemFd p, (true, ok))
      | false :: ok => (fd, (false, ok))
      | [] => (fd, (false, []))
      end
    else (fd, acc)
  end.

Fixpoint convert_all (l : list ModuleInfo) (acc : bool * list bool) : list ModuleInfo :=
  match l with
  | [] => []
  | i :: l =>
    let '(f32, acc) := convert_to_memfd (z32 i) acc in
    let '(f64, acc) := convert_to_memfd (z64 i) acc in
    MkModuleInfo (info_name i) f32 f64 :: convert_all l acc
  end.

Definition collect_modules (memfd_ok : list bool) (zygisk_enabled open_zygisk : bool) (st : mstate)
  : mstate * list ModuleInfo :=
  let '(st, modules) :=
    foreach_module (fun acc => m_root acc.1) (collect_module zygisk_enabled open_zygisk) (st, []) in
  (st, if zygisk_enabled then convert_all modules (true, memfd_ok) else modules).

(** ** handle_modules *)

(** [scripts] runs the post-fs-data scripts of the modules it is given. *)
Definition handle_modules (memfd_ok : list bool) (scripts : list ModuleInfo -> mstate -> mstate)
    (zygisk : bool) (st : mstate) : mstate * list ModuleInfo :=
  let st := prepare_modules st in
  let '(st, l) := collect_modules memfd_ok zygisk false st in
  let st := scripts l st in
  collect_modules memfd_ok zygisk true st.

(** ** disable_modules, remove_modules *)

(** [off != 0]: the rules live in a directory of their own.  [stat1] and [stat2]
    are device and inode of the two directories. *)
Definition check_rules_dir (stat1 stat2 : option (Z * Z)) : bool :=
  match stat1, stat2 with
  | Some s1, Some s2 => negb (bool_decide (s1 = s2))
  | _, _ => false
  end.

Definition drop_rule (m : bytes) (st : mstate) : mstate :=
  MState (m_root st) (m_upgrade st) (m_rules st ∖ {[m]}) (m_ran st).

Definition disable_module (off : bool) (st : mstate) (m : bytes) : mstate :=
  let st := on_root (touch m (bs "disable")) st in
  if off then drop_rule m st else st.
Definition disable_modules (off : bool) (st : mstate) : mstate :=
  foreach_module m_root (disable_module off) st.

Definition remove_module (off : bool) (st : mstate) (m : bytes) : mstate :=
  let st := if root_has st m (bs "uninstall.sh") then exec_uninstall m st else st in
  if off then drop_rule m st else st.
Definition remove_modules (off : bool) (st : mstate) : mstate :=
  set_root None (foreach_module m_root (remove_module off) st).
End collect.

(** ** Lemmas *)

Lemma has_file_ext d d' m f : files d !! m = files d' !! m -> has_file d m f = has_file d' m f.
Proof. unfold has_file. by intros ->. Qed.

Lemma touch_other m m' f d : m <> m' -> files (touch m f d) !! m' = files d !! m'.
Proof. intros. unfold touch. simpl. by rewrite lookup_alter_ne. Qed.
Lemma unlink_other m m' f d : m <> m' -> files (unlink m f d) !! m' = files d !! m'.
Proof. intros. unfold unlink. simpl. by rewrite lookup_alter_ne. Qed.
Lemma unlink_same m f d : files (unlink m f d) !! m = (fun fs => fs ∖ {[f]}) <$> files d !! m.
Proof. unfold unlink. simpl. by rewrite lookup_alter_eq. Qed.
Lemma touch_same m f d : files (touch m f d) !! m = (fun fs => fs ∪ {[f]}) <$> files d !! m.
Proof. unfold touch. simpl. by rewrite lookup_alter_eq. Qed.

Lemma has_unlink m f g d : f <> g -> has_file (unlink m f d) m g = has_file d m g.
Proof.
  intros Hne. unfold has_file. rewrite unlink_same. destruct (files d !! m) as [fs|]; simpl; [|done].
  apply bool_decide_ext. set_solver.
Qed.

(** *** The modules collected *)

(** Enabled, not to be removed, and compatible with the state of zygisk. *)
Definition keep (zygisk : bool) (d : mfs) (m : bytes) : bool :=
  negb (has_file d m (bs "remove")) && negb (has_file d m (bs "disable")) &&
  if zygisk then negb (bool_decide (m = bs "riru-core") || has_file d m (bs "riru"))
  else negb (has_file d m (bs "zygisk")).

(** The files of a visited module afterwards. *)
Definition after (zygisk open_zygisk : bool) (d : mfs) (m : bytes) : option (gset bytes) :=
  if has_file d m (bs "remove") then None
  else (fun fs => if keep zygisk d m && zygisk && open_zygisk
                  then fs ∖ {[bs "update"]} ∖ {[bs "zygisk/unloaded"]} else fs ∖ {[bs "update"]})
       <$> files d !! m.

Lemma keep_ext z d d' m : files d !! m = files d' !! m -> keep z d m = keep z d' m.
Proof. intros E. unfold keep. by rewrite !(has_file_ext d d'). Qed.
Lemma after_ext z o d d' m : files d !! m = files d' !! m -> after z o d m = after z o d' m.
Proof. intros E. unfold after. rewrite (has_file_ext d d'), (keep_ext z d d'), E by done. done. Qed.

Section collect_spec.
Context (run_uninstall : bytes -> mstate -> mstate).

(** The uninstall script of a module keeps the directory of the modules and the files of
    the other modules. *)
Definition leaves_others (m : bytes) : Prop := forall st d, m_root st = Some d -> exists d',
  m_root (run_uninstall m st) = Some d' /\ forall m', m' <> m -> files d' !! m' = files d !! m'.

(** The scripts that are run for the modules of [l]: those of modules marked for removal. *)
Definition scripts_ok (d : mfs) (l : list bytes) : Prop := forall m, m ∈ l ->
  has_file d m (bs "remove") = true -> has_file d m (bs "uninstall.sh") = true -> leaves_others m.

Lemma scripts_ok_tail d d1 m l : (forall m', m' <> m -> files d1 !! m' = files d !! m') -> m ∉ l ->
  scripts_ok d (m :: l) -> scripts_ok d1 l.
Proof.
  intros Hot Hm Hok x Hx Hr Hu. assert (x <> m) by set_solver. rewrite (has_file_ext _ d) in Hr, Hu by auto.
  apply Hok; [by right|done|done].
Qed.

Lemma collect_module_step z o m st acc d : m_root st = Some d -> scripts_ok d [m] ->
  exists d', m_root (collect_module run_uninstall z o (st, acc) m).1 = Some d' /\
    map info_name (collect_module run_uninstall z o (st, acc) m).2 =
      map info_name acc ++ (if keep z d m then [m] else []) /\
    (forall m', m' <> m -> files d' !! m' = files d !! m') /\ files d' !! m = after z o d m.
Proof.
  intros Hd Hrun. unfold collect_module.
  assert (Hrh : forall f, root_has st m f = has_file d m f) by (intros; unfold root_has; by rewrite Hd).
  assert (Hup : m_root (on_root (unlink m (bs "update")) st) = Some (unlink m (bs "update") d))
    by (unfold on_root; simpl; by rewrite Hd).
  assert (Hru : forall f, bs "update" <> f ->
    root_has (on_root (unlink m (bs "update")) st) m f = has_file d m f).
  { intros f Hf. unfold root_has. rewrite Hup. by apply has_unlink. }
  rewrite !Hrh. unfold after, keep. destruct (has_file d m (bs "remove")) eqn:Er; cbn [negb andb].
  - set (st1 := if has_file d m (bs "uninstall.sh") then _ else st).
    assert (Hst1 : exists d1, m_root st1 = Some d1 /\ forall m', m' <> m -> files d1 !! m' = files d !! m').
    { subst st1. destruct (has_file d m (bs "uninstall.sh")) eqn:Eu; [|eauto]. apply Hrun; [by left|done|done|done]. }
    destruct Hst1 as (d1 & E1 & Hf). exists (rm_module m d1). cbn [fst snd].
    unfold on_root. cbn [set_root m_root]. rewrite E1, app_nil_r.
    split_and!; [done..| |by simpl; rewrite lookup_delete_eq].
    intros m' Hm. simpl. rewrite lookup_delete_ne by done. by apply Hf.
  - rewrite !Hru by (vm_compute; discriminate).
    set (st1 := on_root (unlink m (bs "update")) st) in *. clearbody st1.
    set (d1 := unlink m (bs "update") d) in *.
    assert (Hone : (forall m', m' <> m -> files d1 !! m' = files d !! m') /\
      files d1 !! m = (fun fs => fs ∖ {[bs "update"]}) <$> files d !! m)
      by (split; [intros; by apply unlink_other|apply unlink_same]).
    destruct Hone as [Hot Hsm].
    destruct (has_file d m (bs "disable")); cbn [negb andb];
      [exists d1; cbn [fst snd]; rewrite app_nil_r; by split_and!|].
    destruct z.
    + destruct (bool_decide (m = bs "riru-core") || has_file d m (bs "riru")); cbn [negb andb];
        [exists d1; cbn [fst snd]; rewrite app_nil_r; by split_and!|].
      destruct o; cbn [fst snd]; rewrite map_app.
      * exists (unlink m (bs "zygisk/unloaded") d1). unfold on_root. cbn [set_root m_root]. rewrite Hup.
        split_and!; [done..| |].
        -- intros m' Hm. rewrite unlink_other by done. by apply Hot.
        -- rewrite unlink_same, Hsm. by destruct (files d !! m).
      * exists d1. by split_and!.
    + destruct (has_file d m (bs "zygisk")); cbn [negb andb fst snd];
        [exists d1; rewrite app_nil_r; by split_and!|]. rewrite map_app. exists d1. by split_and!.
Qed.

Lemma collect_fold z o l : NoDup l -> forall st acc d, m_root st = Some d -> scripts_ok d l ->
  exists d', m_root (fold_left (collect_module run_uninstall z o) l (st, acc)).1 = Some d' /\
    map info_name (fold_left (collect_module run_uninstall z o) l (st, acc)).2 =
      map info_name acc ++ filter (fun m => keep z d m = true) l /\
    (forall m, m ∉ l -> files d' !! m = files d !! m) /\
    (forall m, m ∈ l -> files d' !! m = after z o d m).
Proof.
  induction 1 as [|m l Hm Hnd IH]; intros st acc d Hd Hrun; cbn [fold_left].
  { exists d. rewrite app_nil_r. split_and!; [done..|]. intros m Hm. by apply not_elem_of_nil in Hm. }
  destruct (collect_module_step z o m st acc d Hd) as (d1 & E1 & En & Hot & Hsm); [intros x Hx; apply Hrun; set_solver|].
  destruct (collect_module run_uninstall z o (st, acc) m) as [st1 acc1]. cbn [fst snd] in *.
  destruct (IH st1 acc1 d1 E1) as (d' & Ed & Enames & Hout & Hin); [by eapply scripts_ok_tail|].
  exists d'. split_and!; [done| | |].
  - rewrite Enames, En, <- app_assoc. f_equal. rewrite filter_cons.
    assert (Hk : filter (fun x => keep z d1 x = true) l = filter (fun x => keep z d x = true) l).
    { clear -Hm Hot. induction l as [|x l IH]; [done|]. rewrite !filter_cons, IH by set_solver.
      rewrite (keep_ext z d1 d x); [done|]. apply Hot. set_solver. }
    rewrite Hk. by destruct (keep z d m).
  - intros x [Hne Hx]%not_elem_of_cons. by rewrite Hout, Hot.
  - intros x [->|Hx]%elem_of_cons; [by rewrite Hout|].
    rewrite Hin by done. apply after_ext. apply Hot. set_solver.
Qed.

Lemma convert_names l acc : map info_name (convert_all l acc) = map info_name l.
Proof.
  revert acc; induction l as [|i l IH]; intros acc; [done|]. cbn [convert_all].
  destruct (convert_to_memfd (z32 i) acc) as [? acc1]. destruct (convert_to_memfd (z64 i) acc1) as [? acc2].
  simpl. by rewrite IH.
Qed.

(** Whatever the scripts do, a module is collected at most once and in its turn. *)
Lemma collect_fold_sublist z o l : forall st acc,
  exists l', map info_name (fold_left (collect_module run_uninstall z o) l (st, acc)).2 = map info_name acc ++ l' /\ l' `sublist_of` l.
Proof.
  induction l as [|m l IH]; intros st acc; cbn [fold_left]; [exists []; by rewrite app_nil_r|].
  assert (H1 : exists l1, map info_name (collect_module run_uninstall z o (st, acc) m).2 = map info_name acc ++ l1 /\ l1 `sublist_of` [m]).
  { unfold collect_module. repeat case_match; cbn [snd]; try (exists []; rewrite app_nil_r; split; [done|apply sublist_nil_l]);
      (exists [m]; rewrite map_app; by split). }
  destruct H1 as (l1 & E1 & S1). destruct (collect_module run_uninstall z o (st, acc) m) as [st1 acc1]. cbn [snd] in E1.
  destruct (IH st1 acc1) as (l2 & -> & S2). exists (l1 ++ l2). rewrite E1, <- app_assoc. split; [done|]. by apply (sublist_app l1 [m]).
Qed.

Lemma collect_modules_sublist mem z o st d : m_root st = Some d ->
  map info_name (collect_modules run_uninstall mem z o st).2 `sublist_of` module_dirs d.
Proof.
  intros Hd. unfold collect_modules, foreach_module. cbn [fst]. rewrite Hd.
  destruct (collect_fold_sublist z o (module_dirs d) st []) as (l' & E & Hs).
  destruct (fold_left _ (module_dirs d) (st, [])) as [st' ms]. cbn [fst snd map app] in *.
  destruct z; [rewrite convert_names|]; by rewrite E.
Qed.

Lemma collect_modules_names mem z o st d : m_root st = Some d -> NoDup (module_dirs d) -> scripts_ok d (module_dirs d) ->
  let r := collect_modules run_uninstall mem z o st in
  map info_name r.2 = filter (fun m => keep z d m = true) (module_dirs d) /\
  exists d', m_root r.1 = Some d' /\
    (forall m, m ∈ module_dirs d -> files d' !! m = after z o d m) /\
    (forall m, m ∉ module_dirs d -> files d' !! m = files d !! m).
Proof.
  intros Hd Hnd Hrun. unfold collect_modules, foreach_module. cbn [fst]. rewrite Hd.
  destruct (collect_fold z o _ Hnd st [] d Hd Hrun) as (d' & E & En & Hout & Hin).
  destruct (fold_left _ (module_dirs d) (st, [])) as [st' ms]. cbn [fst snd map app] in *.
  split; [|exists d'; by split_and!]. destruct z; [by rewrite convert_names|done].
Qed.

(** C37: whatever the uninstall scripts do, the modules collected are modules of the
    directory, each once and in the order of the directory.  If no module that is marked
    for removal has an uninstall script, or if the scripts of those modules keep the module
    directory and the files of the other modules, they are exactly the modules that are not
    marked for removal, not disabled, and fit the state of zygisk; the ones to remove are
    gone from the disk afterwards, the others only lose their "update" mark (and
    "zygisk/unloaded" when their libraries were opened). *)
Theorem collect_modules_spec mem z o st d : m_root st = Some d -> NoDup (module_dirs d) ->
  let r := collect_modules run_uninstall mem z o st in
  map info_name r.2 `sublist_of` module_dirs d /\
  (scripts_ok d (module_dirs d) ->
   map info_name r.2 = filter (fun m => keep z d m = true) (module_dirs d) /\
   exists d', m_root r.1 = Some d' /\
    (forall m, m ∈ module_dirs d -> files d' !! m = after z o d m) /\
    (forall m, m ∉ module_dirs d -> files d' !! m = files d !! m)).
Proof. intros Hd Hnd. split; [by apply collect_modules_sublist|]. by apply collect_modules_names. Qed.
End collect_spec.

(** *** Disabling *)

Lemma disable_fold off l : forall st d, m_root st = Some d ->
  let st' := fold_left (disable_module off) l st in
  exists d', m_root st' = Some d' /\ listing d' = listing d /\
    (forall m, m ∈ l -> is_Some (files d !! m) -> has_file d' m (bs "disable") = true) /\
    (forall m, has_file d m (bs "disable") = true -> has_file d' m (bs "disable") = true) /\
    m_rules st' = if off then m_rules st ∖ list_to_set l else m_rules st.
Proof.
  induction l as [|m l IH]; intros st d Hd; cbn [fold_left].
  { exists d. split_and!; try done; [intros m Hm; by apply not_elem_of_nil in Hm|].
    destruct off; [|done]. set_solver. }
  set (st1 := disable_module off st m).
  assert (Hd1 : m_root st1 = Some (touch m (bs "disable") d)).
  { subst st1. unfold disable_module. destruct off; unfold drop_rule, on_root; simpl; by rewrite Hd. }
  assert (Hr1 : m_rules st1 = if off then m_rules st ∖ {[m]} else m_rules st) by (subst st1; unfold disable_module; by destruct off).
  clearbody st1.
  destruct (IH st1 _ Hd1) as (d' & E & El & Hin & Hmono & Hr). exists d'.
  assert (Hhas : forall x, has_file d x (bs "disable") = true ->
    has_file (touch m (bs "disable") d) x (bs "disable") = true).
  { intros x Hx. destruct (decide (x = m)) as [->|].
    - unfold has_file in *. rewrite touch_same. destruct (files d !! m); simpl; [|done].
      apply bool_decide_eq_true_2. set_solver.
    - by rewrite (has_file_ext _ d) by (by apply touch_other). }
  split_and!; [done..| | |].
  - intros x Hx [fs Hfs]. apply elem_of_cons in Hx as [->|Hx].
    + apply Hmono. unfold has_file. rewrite touch_same, Hfs. simpl. apply bool_decide_eq_true_2. set_solver.
    + apply Hin; [done|]. destruct (decide (x = m)) as [->|]; [rewrite touch_same|rewrite touch_other by done];
        rewrite Hfs; eauto.
  - intros x Hx. by apply Hmono, Hhas.
  - rewrite Hr, Hr1. destruct off; [|done]. cbn [list_to_set]. set_solver.
Qed.

(** After [disable_modules] no module is collected, with or without zygisk,
    and no module has a sepolicy rule left in a separate rules directory. *)
Theorem disable_modules_effective run off mem z o st d :
  (forall m, leaves_others run m) ->
  m_root st = Some d -> NoDup (module_dirs d) ->
  (forall m, m ∈ module_dirs d -> is_Some (files d !! m)) ->
  (collect_modules run mem z o (disable_modules off st)).2 = [] /\
  (off = true -> forall m, m ∈ module_dirs d -> m ∉ m_rules (disable_modules off st)).
Proof.
  intros Hrun Hd Hnd Hfs. unfold disable_modules, foreach_module. rewrite Hd.
  destruct (disable_fold off (module_dirs d) st d Hd) as (d' & E & El & Hin & _ & Hr).
  set (st' := fold_left _ (module_dirs d) st) in *. clearbody st'.
  assert (Hdirs : module_dirs d' = module_dirs d) by (unfold module_dirs; by rewrite El).
  split.
  - destruct (collect_modules_names run mem z o st' d' E) as [Hn _]; [by rewrite Hdirs|by intros m _ _ _|].
    assert (Hnil : filter (fun m => keep z d' m = true) (module_dirs d') = []).
    { rewrite Hdirs. apply elem_of_nil_inv. intros m [Hk Hm]%list_elem_of_filter. unfold keep in Hk.
      rewrite (Hin m Hm (Hfs m Hm)) in Hk. cbn [negb] in Hk. by rewrite andb_false_r in Hk. }
    rewrite Hnil in Hn. by destruct (collect_modules _ _ _ _ _).2.
  - intros -> m Hm. rewrite Hr. set_solver.
Qed.

(** *** Upgrading *)

(** What an upgrade leaves of a module directory listed in [up]. *)
Definition upgraded (up d : mfs) (m : bytes) : option (gset bytes) :=
  let fs := default ∅ (files up !! m) in
  Some (if has_file d m (bs "disable") then fs ∪ {[bs "disable"]} else fs).

Lemma upgrade_step up d m b : exists d', upgrade_module up d (m, b) = d' /\
  (forall x, x <> m -> files d' !! x = files d !! x) /\
  (forall x c, x <> m -> (x, c) ∈ listing d' <-> (x, c) ∈ listing d) /\
  (b = true -> (m, false) ∉ listing d -> files d' !! m = upgraded up d m) /\
  (b = false -> d' = d).
Proof.
  eexists. split; [done|]. unfold upgrade_module, upgraded. destruct b; cbn [negb]; [|by split_and!].
  case_bool_decide as Hf; [by split_and!|].
  destruct (files d !! m) as [fs|] eqn:E.
  - split_and!; try done.
    + intros x Hx. simpl. rewrite lookup_insert_ne, lookup_delete_ne; congruence.
    + intros x c Hx. simpl. rewrite elem_of_app, list_elem_of_singleton, list_elem_of_filter. naive_solver.
    + intros _ _. simpl. by rewrite lookup_insert_eq.
  - split_and!; try done.
    + intros x Hx. simpl. rewrite lookup_insert_ne; congruence.
    + intros x c Hx. simpl. rewrite elem_of_app, list_elem_of_singleton. naive_solver.
    + intros _ _. simpl. rewrite lookup_insert_eq. unfold has_file. by rewrite E.
Qed.

Lemma upgrade_fold up l : NoDup l.*1 -> forall d,
  let d' := fold_left (upgrade_module up) l d in
  (forall x, x ∉ l.*1 -> files d' !! x = files d !! x) /\
  (forall m, (m, true) ∈ l -> (m, false) ∉ listing d -> files d' !! m = upgraded up d m).
Proof.
  induction l as [|[m b] l IH]; intros Hnd d; cbn [fold_left].
  { split; [done|]. intros m Hm. by apply not_elem_of_nil in Hm. }
  rewrite fmap_cons in Hnd. apply NoDup_cons in Hnd as [Hm Hnd]. cbn [fst] in Hm.
  destruct (upgrade_step up d m b) as (d1 & -> & Hot & Hli & Hup & Hno).
  destruct (IH Hnd d1) as [Hout Hin]. split.
  - intros x Hx. rewrite fmap_cons, not_elem_of_cons in Hx. destruct Hx as [Hx1 Hx2].
    rewrite Hout by done. by apply Hot.
  - intros x Hx Hf. apply elem_of_cons in Hx as [[= -> <-]|Hx].
    + rewrite Hout by done. by apply Hup.
    + assert (x <> m) by (intros ->; apply Hm; apply list_elem_of_fmap; by exists (m, true)).
      rewrite Hin; [|done|by rewrite Hli].
      unfold upgraded. by rewrite (has_file_ext d1 d) by (by apply Hot).
Qed.

(** [prepare_modules] installs every pending module directory in place of the
    old one, keeps a disabled module disabled, leaves the other modules alone and
    leaves nothing pending. *)
Theorem prepare_modules_spec st up d :
  m_upgrade st = Some up -> m_root st = Some d -> NoDup (listing up).*1 ->
  m_upgrade (prepare_modules st) = None /\
  exists d', m_root (prepare_modules st) = Some d' /\
    (forall m, (m, true) ∈ listing up -> (m, false) ∉ listing d -> files d' !! m = upgraded up d m) /\
    (forall m, m ∉ (listing up).*1 -> files d' !! m = files d !! m).
Proof.
  intros Hu Hd Hnd. unfold prepare_modules. rewrite Hu, Hd. split; [done|].
  destruct (upgrade_fold up (listing up) Hnd d) as [Hout Hin]. eexists. split; [done|]. by split.
Qed.

(** *** Removing *)

Lemma remove_fold run off l : NoDup l ->
  (forall m st d, m_root st = Some d -> m_ran (run m st) = m_ran st /\ exists d',
     m_root (run m st) = Some d' /\ forall m', m' <> m -> files d' !! m' = files d !! m') ->
  forall st d, m_root st = Some d ->
  let st' := fold_left (remove_module run off) l st in
  m_ran st' = m_ran st ++ filter (fun m => has_file d m (bs "uninstall.sh") = true) l.
Proof.
  intros Hnd Hrun. induction Hnd as [|m l Hm Hnd IH]; intros st d Hd; cbn [fold_left].
  { by rewrite app_nil_r. }
  unfold remove_module at 2. set (st1 := if root_has st m (bs "uninstall.sh") then _ else st).
  assert (H1 : m_ran st1 = m_ran st ++ (if has_file d m (bs "uninstall.sh") then [m] else []) /\
    exists d1, m_root st1 = Some d1 /\ forall m', m' <> m -> files d1 !! m' = files d !! m').
  { subst st1. unfold root_has. rewrite Hd. destruct (has_file d m (bs "uninstall.sh")).
    - destruct (Hrun m (MState (m_root st) (m_upgrade st) (m_rules st) (m_ran st ++ [m])) d Hd) as [Hr He].
      unfold exec_uninstall. by rewrite Hr.
    - rewrite app_nil_r. eauto. }
  clearbody st1. destruct H1 as (Hr1 & d1 & Hd1 & Hf1).
  assert (H2 : exists st2, (if off then drop_rule m st1 else st1) = st2 /\
    m_ran st2 = m_ran st1 /\ m_root st2 = m_root st1) by (destruct off; eauto).
  cbv zeta. destruct H2 as (st2 & -> & Hr2 & Hd2). rewrite (IH st2 d1) by congruence.
  rewrite Hr2, Hr1, <- app_assoc. f_equal. rewrite filter_cons.
  assert (Hk : filter (fun m => has_file d1 m (bs "uninstall.sh") = true) l =
               filter (fun m => has_file d m (bs "uninstall.sh") = true) l).
  { clear -Hm Hf1. induction l as [|x l IH]; [done|]. rewrite !filter_cons, IH by set_solver.
    rewrite (has_file_ext d1 d x); [done|]. apply Hf1. set_solver. }
  rewrite Hk. by destruct (has_file d m (bs "uninstall.sh")).
Qed.

(** [remove_modules] runs the uninstall script of every module that has one,
    once and in the order of the directory, and leaves no module directory. *)
Theorem remove_modules_spec run off st d : NoDup (module_dirs d) ->
  (forall m st d, m_root st = Some d -> m_ran (run m st) = m_ran st /\ exists d',
     m_root (run m st) = Some d' /\ forall m', m' <> m -> files d' !! m' = files d !! m') ->
  m_root st = Some d ->
  m_root (remove_modules run off st) = None /\
  m_ran (remove_modules run off st) =
    m_ran st ++ filter (fun m => has_file d m (bs "uninstall.sh") = true) (module_dirs d).
Proof.
  intros Hnd Hrun Hd. unfold remove_modules, foreach_module. rewrite Hd. split; [done|].
  exact (remove_fold run off _ Hnd Hrun st d Hd).
Qed.

(** ** Concrete modules *)

Definition sample_mfs : mfs :=
  Mfs [(bs ".core", true); (bs "a", true); (bs "b", true); (bs "c", true); (bs "note.txt", false)]
      {[ bs "a" := {[ bs "update"; bs "uninstall.sh" ]};
         bs "b" := {[ bs "remove"; bs "uninstall.sh" ]};
         bs "c" := {[ bs "disable" ]}; bs ".core" := ∅ ]}.
Definition sample_up : mfs :=
  Mfs [(bs "c", true); (bs "d", true)]
      {[ bs "c" := {[ bs "module.prop" ]}; bs "d" := {[ bs "module.prop" ]} ]}.
Definition sample_mstate : mstate := MState (Some sample_mfs) (Some sample_up) {[ bs "a" ]} [].

(** Scripts that do nothing to the modules. *)
Definition no_script (m : bytes) (st : mstate) : mstate := st.
Lemma no_script_frame m : leaves_others no_script m.
Proof. intros st d E. by exists d. Qed.

Lemma sample_dirs : NoDup (module_dirs sample_mfs).
Proof. apply (bool_decide_unpack (NoDup (module_dirs sample_mfs))). vm_compute. exact I. Qed.

Lemma collect_modules_spec_witness :
  map info_name (collect_modules no_script [] false false sample_mstate).2 = [bs "a"].
Proof.
  destruct (proj2 (collect_modules_spec no_script [] false false sample_mstate sample_mfs eq_refl sample_dirs)
    (fun m _ _ _ => no_script_frame m)) as [Hn _]. rewrite Hn. vm_compute. reflexivity.
Defined.

Lemma disable_modules_effective_witness :
  (collect_modules no_script [] true true (disable_modules true sample_mstate)).2 = [].
Proof.
  apply (disable_modules_effective no_script true [] true true sample_mstate sample_mfs no_script_frame eq_refl sample_dirs).
  intros m Hm. assert (Hall : Forall (fun m => is_Some (files sample_mfs !! m)) (module_dirs sample_mfs)).
  { apply (bool_decide_unpack (Forall (fun m => is_Some (files sample_mfs !! m)) (module_dirs sample_mfs))).
    vm_compute. exact I. }
  rewrite Forall_forall in Hall. by apply Hall.
Defined.

Lemma prepare_modules_spec_witness :
  m_upgrade (prepare_modules sample_mstate) = None /\
  exists d', m_root (prepare_modules sample_mstate) = Some d' /\
    has_file d' (bs "c") (bs "module.prop") = true /\ has_file d' (bs "c") (bs "disable") = true.
Proof.
  destruct (prepare_modules_spec sample_mstate sample_up sample_mfs eq_refl eq_refl) as [Hu (d' & Hd & Hin & _)].
  { apply (bool_decide_unpack (NoDup (listing sample_up).*1)). vm_compute. exact I. }
  split; [exact Hu|]. exists d'. split; [exact Hd|]. unfold has_file. rewrite Hin.
  - split; vm_compute; reflexivity.
  - by left.
  - apply (bool_decide_unpack ((bs "c", false) ∉ listing sample_mfs)). vm_compute. exact I.
Defined.

Lemma remove_modules_spec_witness :
  m_root (remove_modules no_script true sample_mstate) = None /\
  m_ran (remove_modules no_script true sample_mstate) = [bs "a"; bs "b"].
Proof.
  destruct (remove_modules_spec no_script true sample_mstate sample_mfs sample_dirs) as [H1 H2].
  - intros m st d E. split; [done|]. by exists d.
  - reflexivity.
  - split; [exact H1|]. rewrite H2. vm_compute. reflexivity.
Defined.

(** Without MODULEROOT the pending modules are lost. *)
Example upgrade_without_root :
  prepare_modules (MState None (Some sample_up) ∅ []) = MState None None ∅ [].
Proof. vm_compute. reflexivity. Qed.
