(* ===== verification/Daemon.v ===== *)
(** The daemon: [native/src/core/daemon.cpp] and the socket helpers of
    [core.hpp].  A socket is the list of bytes that can still be read from it;
    what is written is returned.  The poll loop is a function of the answers of
    [poll]. *)

From S2P Require Import Prelude Base OrdMap Persist Resetprop NodeTree.

(** ** Integers and strings on a socket *)

(** [read_int]: -1 when fewer than four bytes arrive. *)
Definition read_int (s : bytes) : Z * bytes :=
  if 4 <=? zlen s then (s32 (le_dec (sub s 0 4)), drop 4 s) else (-1, []).

Definition write_int (v : Z) : bytes := le_enc 4 (u32 v).

(** [read_string]: [resize] of a negative length throws; the boolean is the result
    of the reading. *)
Definition read_string (s : bytes) : outcome (bytes * bool * bytes) :=
  let '(len, s) := read_int s in
  if len <? 0 then Fault
  else if len <=? zlen s then Ret (sub s 0 len, true, drop (Z.to_nat len) s)
  else Ret (s ++ zeros (len - zlen s), false, []).

Definition write_string (str : bytes) : bytes := write_int (zlen str) ++ str.

(** ** Requests *)

Definition START_DAEMON : Z := 0.
Definition CHECK_VERSION : Z := 1.
Definition CHECK_VERSION_CODE : Z := 2.
Definition STOP_DAEMON : Z := 3.
Definition SYNC_BARRIER : Z := 4.
Definition SUPERUSER : Z := 5.
Definition ZYGOTE_RESTART : Z := 6.
Definition DENYLIST : Z := 7.
Definition SQLITE_CMD : Z := 8.
Definition REMOVE_MODULES : Z := 9.
Definition ZYGISK : Z := 10.
Definition STAGE_BARRIER : Z := 11.
Definition POST_FS_DATA : Z := 12.
Definition LATE_START : Z := 13.
Definition BOOT_COMPLETE : Z := 14.
Definition REQ_END : Z := 15.

Definition RESP_ERROR : Z := -1.
Definition RESP_OK : Z := 0.
Definition ROOT_REQUIRED : Z := 1.
Definition ACCESS_DENIED : Z := 2.
Definition RESP_END : Z := 3.

Definition AID_ROOT : Z := 0.
Definition AID_SHELL : Z := 2000.

Record sock_cred := SockCred { cr_uid : Z; cr_pid : Z; cr_context : bytes }.

(** Where a request ends up. *)
Inductive verdict : Type :=
| ClientDied
| Refused (resp : Z)
| UnknownRequest
| HandleSync (code : Z)
| HandleAsync (code : Z)
| HandleStage (code : Z).

Definition is_root (c : sock_cred) : bool := cr_uid c =? AID_ROOT.
Definition is_zygote (c : sock_cred) : bool := bool_decide (cr_context c = bs "u:r:zygote:s0").

(** The codes of the first case of the permission switch. *)
Definition root_codes : list Z :=
  [POST_FS_DATA; LATE_START; BOOT_COMPLETE; ZYGOTE_RESTART; SQLITE_CMD; DENYLIST; STOP_DAEMON].

(** The permission switch: [Some r] refuses with [r]. *)
Definition check_permission (c : sock_cred) (code : Z) : option Z :=
  if bool_decide (code ∈ root_codes) then
    if is_root c then None else Some ROOT_REQUIRED
  else if code =? REMOVE_MODULES then
    if is_root c || (cr_uid c =? AID_SHELL) then None else Some ACCESS_DENIED
  else if code =? ZYGISK then
    if is_zygote c then None else Some ACCESS_DENIED
  else None.

(** [handle_request] after [accept]: [is_client pid] compares executables, [s] is
    what the client has sent. *)
Definition handle_request (is_client : Z -> bool) (cred : option sock_cred) (s : bytes) : verdict :=
  match cred with
  | None => ClientDied
  | Some c =>
    if negb (is_root c) && negb (is_zygote c) && negb (is_client (cr_pid c)) then Refused ACCESS_DENIED
    else
      let '(code, _) := read_int s in
      if (code <? 0) || (REQ_END <=? code) || (code =? SYNC_BARRIER) || (code =? STAGE_BARRIER)
      then UnknownRequest
      else match check_permission c code with
           | Some r => Refused r
           | None =>
             if code <? SYNC_BARRIER then HandleSync code
             else if code <? STAGE_BARRIER then HandleAsync code
             else HandleStage code
           end
  end.

(** What a handler does, in order: the calls into other components and the bytes
    sent to the client. *)
Inductive action : Type :=
| Send (b : bytes)
| SetupLogfile
| DenylistHandler (from_client : bool)
| RestoreNativeBridge
| ExitDaemon (code : Z)
| SuDaemonHandler
| PruneSuAccess
| ScanDenyApps
| ZygiskReset (restore : bool)
| CloseClient
| DbExec
| RemoveModules
| Reboot
| ZygiskHandler.

(** [version] and [ver_code] are the macros the build defines; the default of the
    switch is [__builtin_unreachable]. *)
Definition handle_request_sync (version : bytes) (ver_code : Z) (debug : bool) (code : Z)
  : outcome (list action) :=
  if code =? CHECK_VERSION then
    Ret [Send (write_string (version ++ if debug then bs ":MAGISK:D" else bs ":MAGISK:R"))]
  else if code =? CHECK_VERSION_CODE then Ret [Send (write_int ver_code)]
  else if code =? START_DAEMON then Ret [SetupLogfile]
  else if code =? STOP_DAEMON then
    Ret [DenylistHandler false; RestoreNativeBridge; Send (write_int 0); ExitDaemon 0]
  else Fault.

(** [s] is what the client sends after the code. *)
Definition handle_request_async (code : Z) (s : bytes) : outcome (list action) :=
  if code =? DENYLIST then Ret [DenylistHandler true]
  else if code =? SUPERUSER then Ret [SuDaemonHandler]
  else if code =? ZYGOTE_RESTART then Ret [PruneSuAccess; ScanDenyApps; ZygiskReset false; CloseClient]
  else if code =? SQLITE_CMD then Ret [DbExec]
  else if code =? REMOVE_MODULES then
    let do_reboot := (read_int s).1 in
    Ret ([RemoveModules; Send (write_int 0); CloseClient] ++ if do_reboot =? 0 then [] else [Reboot])
  else if code =? ZYGISK then Ret [ZygiskHandler]
  else Fault.

(** *** STOP_DAEMON puts the native bridge back *)

Definition restore_native_bridge {A} `{PropArea A} (st : pstate A) : pstate A :=
  let nb := get_prop_api st NBPROP false in
  if bool_decide (nb = ZYGISKLDR) then (set_prop_api st NBPROP (bs "0") false).1
  else if zlen ZYGISKLDR <? zlen nb then (set_prop_api st NBPROP (drop (length ZYGISKLDR) nb) false).1
  else st.

(** *** The client's side *)

(** The answer of the daemon as [connect_daemon] understands it: [true] keeps the
    connection. *)
Definition response_ok (res : Z) : bool :=
  let res := if (res <? RESP_ERROR) || (RESP_END <=? res) then RESP_ERROR else res in
  res =? RESP_OK.

(** What a client sees: nothing written (connection closed) reads as -1. *)
Definition reply (v : verdict) : bytes :=
  match v with
  | ClientDied | UnknownRequest => []
  | Refused r => write_int r
  | HandleSync _ | HandleAsync _ | HandleStage _ => write_int RESP_OK
  end.

(** [get_magisk_tmp] *)
Definition find_magisk_tmp (access : bytes -> bool) : bytes :=
  if access (bs "/debug_ramdisk/.magisk") then bs "/debug_ramdisk"
  else if access (bs "/sbin/.magisk") then bs "/sbin"
  else [].

(** ** The poll loop *)

Section poll.
Context {CB : Type}.

(** An entry of [poll_fds]: descriptor and returned events. *)
Record pollfd := PollFd { pf_fd : Z; pf_revents : Z }.
Record pollst := PollSt { poll_map : gmap Z CB; poll_fds : list pollfd; closed : list Z }.

Definition POLLERR : Z := 8.
Definition POLLNVAL : Z := 32.

(** on the main thread: [try_emplace] keeps an existing callback *)
Definition register_poll (fd : Z) (cb : CB) (st : pollst) : pollst :=
  PollSt (match poll_map st !! fd with Some _ => poll_map st | None => <[fd := cb]> (poll_map st) end)
    (poll_fds st ++ [PollFd fd 0]) (closed st).

(** the first entry with this descriptor is invalidated *)
Fixpoint invalidate (fd : Z) (l : list pollfd) : option (list pollfd) :=
  match l with
  | [] => None
  | p :: l =>
    if pf_fd p =? fd then Some (PollFd (-1) (pf_revents p) :: l)
    else cons p <$> invalidate fd l
  end.

Definition unregister_poll (fd : Z) (auto_close : bool) (st : pollst) : pollst :=
  if fd <? 0 then st
  else
    let m := delete fd (poll_map st) in
    match invalidate fd (poll_fds st) with
    | Some l => PollSt m l (if auto_close then closed st ++ [fd] else closed st)
    | None => PollSt m (poll_fds st) (closed st)
    end.

Definition clear_poll (st : pollst) : pollst := PollSt ∅ [] (closed st ++ map pf_fd (poll_fds st)).

(** What other threads send through [poll_ctrl]. *)
Inductive poll_msg := PollNew (fd : Z) (cb : CB) | PollRm (fd : Z) (auto_close : bool).
Definition poll_ctrl_handler (m : poll_msg) (st : pollst) : pollst :=
  match m with
  | PollNew fd cb => register_poll fd cb st
  | PollRm fd ac => unregister_poll fd ac st
  end.

(** One pass over [poll_fds] by index; [call] runs a callback, which may register
    and unregister.  [fuel] bounds the entries visited. *)
Fixpoint poll_pass (call : CB -> Z -> pollst -> pollst) (fuel : nat) (i : nat) (st : pollst)
  : outcome pollst :=
  match fuel with
  | O => Loop
  | S fuel =>
    match poll_fds st !! i with
    | None => Ret st
    | Some p =>
      if pf_revents p =? 0 then poll_pass call fuel (S i) st
      else if negb (Z.land (pf_revents p) POLLERR =? 0) || negb (Z.land (pf_revents p) POLLNVAL =? 0) then
        poll_pass call fuel i
          (PollSt (delete (pf_fd p) (poll_map st)) (delete i (poll_fds st)) (closed st))
      else
        let st := match poll_map st !! pf_fd p with
                  | Some cb => call cb (pf_fd p) st
                  | None => st
                  end in
        poll_pass call fuel (S i) st
    end
  end.

(** [poll] fills the returned events; [None]: it failed or timed out. *)
Definition poll_iter (call : CB -> Z -> pollst -> pollst) (fuel : nat)
    (answer : option (list Z)) (st : pollst) : outcome pollst :=
  match answer with
  | None => Ret st
  | Some revents =>
    poll_pass call fuel 0
      (PollSt (poll_map st) (zip_with (fun p r => PollFd (pf_fd p) r) (poll_fds st) revents) (closed st))
  end.

(** What poll(2) promises: one answer per entry, none for a negative descriptor. *)
Definition poll_answer_ok (st : pollst) (revents : list Z) : Prop :=
  length revents = length (poll_fds st) /\
  forall i p r, poll_fds st !! i = Some p -> revents !! i = Some r -> pf_fd p < 0 -> r = 0.
End poll.
Arguments pollst CB : clear implicits.
Arguments poll_msg CB : clear implicits.

(** ** Key combination *)

(** One of the input devices 13:64 to 13:95: whether the node can be made and
    opened, whether the device has the key, and whether the key is held at each
    of the checks. *)
Record evdev := EvDev { ev_mknod : bool; ev_open : bool; ev_voldown : bool; ev_held : nat -> bool }.

Definition collect_events (devs : list evdev) : list evdev :=
  filter (fun d => ev_mknod d && ev_open d && ev_voldown d = true) devs.

Fixpoint key_held (n : nat) (events : list evdev) (i : nat) : bool :=
  match n with
  | O => true
  | S n => if existsb (fun d => ev_held d i) events then key_held n events (S i) else false
  end.

Definition check_key_combo (devs : list evdev) : bool :=
  match collect_events devs with
  | [] => false
  | events => key_held 300 events 0
  end.

(** Safe mode needs the key held at every check, on some device each time; a
    device that cannot be opened or has no such key does not count. *)
Lemma key_held_spec n events i : key_held n events i = true <->
  forall j, (i <= j < i + n)%nat -> exists d, d ∈ events /\ ev_held d j = true.
Proof.
  revert i. induction n as [|n IH]; intros i; cbn [key_held].
  - split; [intros _ j Hj; lia|done].
  - destruct (existsb (fun d => ev_held d i) events) eqn:E.
    + rewrite IH. apply existsb_exists in E as (d & Hd & Hi). split; intros H j Hj.
      * destruct (decide (j = i)) as [->|]; [exists d; split; [by apply list_elem_of_In|done]|apply H; lia].
      * apply H. lia.
    + split; [done|]. intros H. destruct (H i) as (d & Hd & Hi); [lia|].
      assert (existsb (fun d => ev_held d i) events = true); [|congruence].
      apply existsb_exists. exists d. split; [by apply list_elem_of_In|done].
Qed.

Theorem check_key_combo_spec devs : check_key_combo devs = true <->
  forall j, (j < 300)%nat ->
    exists d, d ∈ devs /\ ev_mknod d && ev_open d && ev_voldown d = true /\ ev_held d j = true.
Proof.
  assert (Hk : check_key_combo devs = key_held 300 (collect_events devs) 0).
  { unfold check_key_combo. by destruct (collect_events devs). }
  rewrite Hk, key_held_spec. unfold collect_events. split; intros H j Hj.
  - destruct (H j) as (d & Hd & Hh); [lia|]. apply list_elem_of_filter in Hd as [Hf Hd]. by exists d.
  - destruct (H j) as (d & Hd & Hf & Hh); [lia|]. exists d. split; [|done]. by apply list_elem_of_filter.
Qed.

(** ** The wire format *)

Lemma read_write_int v rest : - 2 ^ 31 <= v < 2 ^ 31 -> read_int (write_int v ++ rest) = (v, rest).
Proof.
  intros Hv. unfold read_int, write_int. rewrite zlen_app, zlen_le_enc.
  rewrite (proj2 (Z.leb_le _ _)) by (pose proof (zlen_nonneg rest); lia).
  assert (E : drop 4 (le_enc 4 (u32 v) ++ rest) = rest).
  { apply drop_app_length'. by rewrite length_le_enc. }
  rewrite E. f_equal.
  replace (sub (le_enc 4 (u32 v) ++ rest) 0 4) with (le_enc 4 (u32 v)).
  - rewrite le_dec_enc. change (2 ^ (8 * Z.of_nat 4)) with (2 ^ 32). unfold s32, u32.
    rewrite Zmod_mod, Zplus_mod_idemp_l, Z.mod_small; lia.
  - rewrite sub_app_l by (rewrite ?zlen_le_enc; lia).
    rewrite <- (sub_full (le_enc 4 (u32 v))) at 1. by rewrite zlen_le_enc.
Qed.

Lemma read_string_write s rest : zlen s < 2 ^ 31 -> read_string (write_string s ++ rest) = Ret (s, true, rest).
Proof.
  intros Hs. pose proof (zlen_nonneg s). pose proof (zlen_nonneg rest).
  unfold read_string, write_string. rewrite <- app_assoc, read_write_int by lia.
  rewrite (proj2 (Z.ltb_ge _ _)) by lia. rewrite zlen_app, (proj2 (Z.leb_le _ _)) by lia.
  do 2 f_equal.
  - f_equal. rewrite sub_app_l by lia. apply sub_full.
  - apply drop_app_length'. unfold zlen. lia.
Qed.

(** Strings survive the socket: what [write_string] sends is what [read_string]
    returns, and the rest of the stream is untouched. *)
Theorem read_write_string s rest : zlen s < 2 ^ 31 ->
  read_string (write_string s ++ rest) = Ret (s, true, rest).
Proof. apply read_string_write. Qed.

Lemma read_write_string_witness :
  zlen (bs "com.app") < 2 ^ 31 /\
  read_string (write_string (bs "com.app") ++ [x01]) = Ret (bs "com.app", true, [x01]).
Proof.
  assert (Hs : zlen (bs "com.app") < 2 ^ 31) by (vm_compute; reflexivity).
  split; [exact Hs|]. exact (read_write_string (bs "com.app") [x01] Hs).
Defined.

(** A client that closes the connection early: -1 as a length. *)
Example read_string_eof : read_string [] = Fault.
Proof. reflexivity. Qed.

(** ** Access control *)

(** Who may ask for what: the client is root, a zygote or runs the same
    executable; the boot stages, the restart of zygote, SQL statements, the deny
    list and stopping the daemon are for root; removal of modules for root and the
    shell; zygisk for zygote; everything else is for every client. *)
Definition permitted (is_client : Z -> bool) (c : sock_cred) (code : Z) : Prop :=
  (cr_uid c = 0 \/ cr_context c = bs "u:r:zygote:s0" \/ is_client (cr_pid c) = true) /\
  (code = POST_FS_DATA -> cr_uid c = 0) /\
  (code = LATE_START -> cr_uid c = 0) /\
  (code = BOOT_COMPLETE -> cr_uid c = 0) /\
  (code = ZYGOTE_RESTART -> cr_uid c = 0) /\
  (code = SQLITE_CMD -> cr_uid c = 0) /\
  (code = DENYLIST -> cr_uid c = 0) /\
  (code = STOP_DAEMON -> cr_uid c = 0) /\
  (code = REMOVE_MODULES -> cr_uid c = 0 \/ cr_uid c = 2000) /\
  (code = ZYGISK -> cr_context c = bs "u:r:zygote:s0").

Definition valid_code (code : Z) : Prop :=
  code ∈ [START_DAEMON; CHECK_VERSION; CHECK_VERSION_CODE; STOP_DAEMON; SUPERUSER; ZYGOTE_RESTART;
          DENYLIST; SQLITE_CMD; REMOVE_MODULES; ZYGISK; POST_FS_DATA; LATE_START; BOOT_COMPLETE].

(** The request is carried out by the handler of its group. *)
Definition executes (v : verdict) (code : Z) : Prop :=
  match v with
  | HandleSync c => c = code /\ forall ver vc d, exists l, handle_request_sync ver vc d code = Ret l
  | HandleAsync c => c = code /\ forall s, exists l, handle_request_async code s = Ret l
  | HandleStage c => c = code /\ code ∈ [POST_FS_DATA; LATE_START; BOOT_COMPLETE]
  | _ => False
  end.

Lemma valid_code_range code : valid_code code <->
  (code <? 0) || (REQ_END <=? code) || (code =? SYNC_BARRIER) || (code =? STAGE_BARRIER) = false.
Proof.
  unfold valid_code. split.
  - intros H. repeat (apply elem_of_cons in H as [->|H]; [reflexivity|]). by apply not_elem_of_nil in H.
  - rewrite !orb_false_iff, Z.ltb_ge, Z.leb_gt, !Z.eqb_neq.
    unfold REQ_END, SYNC_BARRIER, STAGE_BARRIER. intros (((H1 & H2) & H3) & H4).
    assert (Hc : code = 0 \/ code = 1 \/ code = 2 \/ code = 3 \/ code = 5 \/ code = 6 \/ code = 7 \/
      code = 8 \/ code = 9 \/ code = 10 \/ code = 12 \/ code = 13 \/ code = 14) by lia.
    destruct Hc as [->|[->|[->|[->|[->|[->|[->|[->|[->|[->|[->|[->| ->]]]]]]]]]]]];
      apply (bool_decide_unpack (_ ∈ _)); exact I.
Qed.

Lemma is_root_true c : is_root c = true <-> cr_uid c = 0.
Proof. apply Z.eqb_eq. Qed.

Lemma is_zygote_true c : is_zygote c = true <-> cr_context c = bs "u:r:zygote:s0".
Proof. apply bool_decide_eq_true. Qed.

(** The switch lets a code pass exactly when the condition of its case holds. *)
Lemma check_permission_cases c code : check_permission c code = None <->
  (code ∈ root_codes -> cr_uid c = 0) /\
  (code = REMOVE_MODULES -> cr_uid c = 0 \/ cr_uid c = 2000) /\
  (code = ZYGISK -> cr_context c = bs "u:r:zygote:s0").
Proof.
  rewrite <- is_root_true, <- is_zygote_true. unfold check_permission. case_bool_decide as Hc.
  - assert (code <> REMOVE_MODULES /\ code <> ZYGISK) as [Hr Hz].
    { split; intros ->; revert Hc; apply (bool_decide_unpack (_ ∉ root_codes)); exact I. }
    destruct (is_root c); naive_solver.
  - destruct (Z.eqb_spec code REMOVE_MODULES) as [->|Hr].
    + unfold AID_SHELL. destruct (is_root c), (Z.eqb_spec (cr_uid c) 2000); naive_solver.
    + destruct (Z.eqb_spec code ZYGISK) as [->|Hz]; [destruct (is_zygote c)|]; naive_solver.
Qed.

Lemma check_permission_spec is_client c code :
  (is_root c = true \/ is_zygote c = true \/ is_client (cr_pid c) = true) ->
  (check_permission c code = None <-> permitted is_client c code).
Proof.
  rewrite is_root_true, is_zygote_true. intros Ha. rewrite check_permission_cases.
  unfold permitted, root_codes. rewrite !elem_of_cons, elem_of_nil. naive_solver.
Qed.

Lemma valid_code_executes code : valid_code code ->
  executes (if code <? SYNC_BARRIER then HandleSync code
            else if code <? STAGE_BARRIER then HandleAsync code else HandleStage code) code.
Proof.
  unfold valid_code. intros Hv.
  repeat (apply elem_of_cons in Hv as [->|Hv];
    [split; [reflexivity|]; first [by intros; eexists|apply (bool_decide_unpack (_ ∈ _)); exact I]|]).
  by apply not_elem_of_nil in Hv.
Qed.

(** C22: access control of the daemon.  A request is carried out exactly when its
    code is one of the known ones and the client is permitted to use it ([permitted]
    lists who may use each code); it then reaches a case of the switch of its group,
    never the unreachable default; and the client takes the answer for success
    exactly in that case. *)
Theorem handle_request_spec is_client c s code : (read_int s).1 = code ->
  let v := handle_request is_client (Some c) s in
  (executes v code <-> valid_code code /\ permitted is_client c code) /\
  (response_ok (read_int (reply v)).1 = true <-> executes v code).
Proof.
  intros Hcode. unfold handle_request.
  destruct (read_int s) as [code' s']. cbn [fst] in Hcode. subst code'.
  destruct (negb (is_root c) && negb (is_zygote c) && negb (is_client (cr_pid c))) eqn:Ed.
  { rewrite !andb_true_iff, !negb_true_iff in Ed. destruct Ed as [[Er Ez] Ec]. split.
    - split; [done|]. intros [_ [Hin _]]. rewrite <- is_root_true, <- is_zygote_true in Hin.
      destruct Hin as [|[|]]; congruence.
    - by split. }
  assert (Ha : is_root c = true \/ is_zygote c = true \/ is_client (cr_pid c) = true).
  { rewrite !andb_false_iff, !negb_false_iff in Ed. tauto. }
  destruct ((code <? 0) || (REQ_END <=? code) || (code =? SYNC_BARRIER) || (code =? STAGE_BARRIER)) eqn:Ev.
  { split; [|by split]. split; [done|]. intros [Hv%valid_code_range _]. congruence. }
  apply valid_code_range in Ev. pose proof (check_permission_spec is_client c code Ha) as Hp.
  destruct (check_permission c code) as [r|] eqn:Ep.
  - split; [split; [done|]; intros [_ Hpm]; by apply Hp in Hpm|].
    cbn [reply executes]. split; [|done]. intros Hok. exfalso. revert Hok. unfold check_permission in Ep.
    assert (r = ROOT_REQUIRED \/ r = ACCESS_DENIED) as [-> | ->]; [|by vm_compute..].
    repeat case_match; naive_solver.
  - pose proof (valid_code_executes code Ev) as He.
    split; [split; [intros _; split; [done|by apply Hp]|done]|].
    destruct (code <? SYNC_BARRIER); [|destruct (code <? STAGE_BARRIER)]; by split.
Qed.

Lemma handle_request_spec_witness :
  let c := SockCred 10123 77 (bs "u:r:untrusted_app:s0") in
  executes (handle_request (fun _ => true) (Some c) (write_int SUPERUSER)) SUPERUSER /\
  ~ executes (handle_request (fun _ => true) (Some c) (write_int DENYLIST)) DENYLIST.
Proof.
  cbv zeta. split.
  - destruct (handle_request_spec (fun _ => true) (SockCred 10123 77 (bs "u:r:untrusted_app:s0"))
                (write_int SUPERUSER) SUPERUSER eq_refl) as [[_ H] _].
    apply H. split; [apply (bool_decide_unpack (_ ∈ _)); exact I|].
    split_and!; [by right; right|discriminate..].
  - destruct (handle_request_spec (fun _ => true) (SockCred 10123 77 (bs "u:r:untrusted_app:s0"))
                (write_int DENYLIST) DENYLIST eq_refl) as [[H _] _].
    intros He. destruct (H He) as [_ (_ & _ & _ & _ & _ & _ & Hr & _)].
    specialize (Hr eq_refl). discriminate Hr.
Defined.

(** ** Poll registry *)

Section poll_facts.
Context {CB : Type}.
Implicit Types st : pollst CB.

(** Every callback has an entry in the list given to [poll]. *)
Definition covered st : Prop :=
  forall fd, is_Some (poll_map st !! fd) -> exists p, p ∈ poll_fds st /\ pf_fd p = fd.

Lemma register_covered fd cb st : covered st -> covered (register_poll fd cb st).
Proof.
  intros Hc k Hk. cbn [register_poll poll_fds poll_map] in *.
  destruct (decide (k = fd)) as [->|Hne].
  - exists (PollFd fd 0). split; [|done]. apply elem_of_app. right. by apply list_elem_of_singleton.
  - assert (is_Some (poll_map st !! k)) as Hk'.
    { destruct (poll_map st !! fd); [done|]. by rewrite lookup_insert_ne in Hk. }
    destruct (Hc k Hk') as (p & Hp & E). exists p. split; [|done]. apply elem_of_app. by left.
Qed.

Lemma invalidate_spec fd l l' : invalidate fd l = Some l' ->
  (forall p, p ∈ l -> pf_fd p <> fd -> p ∈ l') /\
  exists l1 p l2, l = l1 ++ p :: l2 /\ pf_fd p = fd /\ l' = l1 ++ PollFd (-1) (pf_revents p) :: l2.
Proof.
  revert l'; induction l as [|q l IH]; intros l' E; simpl in E; [done|].
  destruct (Z.eqb_spec (pf_fd q) fd) as [Eq|Nq].
  - injection E as <-. split.
    + intros p Hp Hne. apply elem_of_cons in Hp as [->|Hp]; [done|]. by right.
    + by exists [], q, l.
  - destruct (invalidate fd l) as [l1|]; [|done]. injection E as <-.
    destruct (IH l1 eq_refl) as [Hin (a & p & b & -> & Hp & ->)]. split.
    + intros r Hr Hne. apply elem_of_cons in Hr as [->|Hr]; [by left|]. right. by apply Hin.
    + by exists (q :: a), p, b.
Qed.

Lemma unregister_covered fd ac st : covered st -> covered (unregister_poll fd ac st).
Proof.
  intros Hc. unfold unregister_poll. destruct (fd <? 0); [done|].
  intros k Hk.
  assert (k <> fd /\ is_Some (poll_map st !! k)) as [Hne Hk'].
  { destruct (decide (k = fd)) as [->|].
    - destruct (invalidate fd (poll_fds st)); cbn [poll_map] in Hk;
        rewrite lookup_delete_eq in Hk; by destruct Hk.
    - split; [done|]. destruct (invalidate fd (poll_fds st)); cbn [poll_map] in Hk;
        by rewrite lookup_delete_ne in Hk. }
  destruct (Hc k Hk') as (p & Hp & E). exists p. split; [|done].
  destruct (invalidate fd (poll_fds st)) as [l|] eqn:Ei; [|done].
  apply (invalidate_spec _ _ _ Ei); congruence.
Qed.

(** Callbacks change the registry through [register_poll] and [unregister_poll]. *)
Definition well_behaved (call : CB -> Z -> pollst CB -> pollst CB) : Prop :=
  forall cb fd st, exists ms, call cb fd st = fold_left (fun st m => poll_ctrl_handler m st) ms st.

Lemma messages_inv (P : pollst CB -> Prop) ms st :
  (forall fd cb st, P st -> P (register_poll fd cb st)) ->
  (forall fd ac st, P st -> P (unregister_poll fd ac st)) ->
  P st -> P (fold_left (fun st m => poll_ctrl_handler m st) ms st).
Proof.
  intros Hr Hu. revert st. induction ms as [|[fd cb|fd ac] ms IH]; intros st HP; simpl; auto.
Qed.

(** Rule of a pass: an invariant kept by callbacks and by dropping an entry that
    reports an error is kept by the pass. *)
Lemma poll_pass_inv (P : pollst CB -> Prop) call fuel : well_behaved call ->
  (forall fd cb st, P st -> P (register_poll fd cb st)) ->
  (forall fd ac st, P st -> P (unregister_poll fd ac st)) ->
  (forall i p st, P st -> poll_fds st !! i = Some p -> pf_revents p <> 0 ->
     P (PollSt (delete (pf_fd p) (poll_map st)) (delete i (poll_fds st)) (closed st))) ->
  forall i st st', P st -> poll_pass call fuel i st = Ret st' -> P st'.
Proof.
  intros Hw Hr Hu Hd. induction fuel as [|fuel IH]; intros i st st' HP E; [done|]. cbn [poll_pass] in E.
  destruct (poll_fds st !! i) as [p|] eqn:Ep; [|by injection E as <-].
  destruct (Z.eqb_spec (pf_revents p) 0) as [|Hrev]; [by eapply IH|].
  destruct (negb _ || negb _); [by eapply IH; [|exact E]; eapply Hd|].
  eapply IH; [|exact E]. destruct (poll_map st !! pf_fd p) as [cb|]; [|done].
  destruct (Hw cb (pf_fd p) st) as [ms ->]. by apply messages_inv.
Qed.

Lemma delete_covered i p st : covered st -> poll_fds st !! i = Some p ->
  covered (PollSt (delete (pf_fd p) (poll_map st)) (delete i (poll_fds st)) (closed st)).
Proof.
  intros Hc Hp k Hk. cbn [poll_map poll_fds] in *.
  destruct (decide (k = pf_fd p)) as [->|Hne]; [rewrite lookup_delete_eq in Hk; by destruct Hk|].
  rewrite lookup_delete_ne in Hk by done. destruct (Hc k Hk) as (q & Hq & E). exists q. split; [|done].
  rewrite <- (take_drop_middle _ _ _ Hp) in Hq. rewrite delete_take_drop.
  rewrite elem_of_app, elem_of_cons in Hq. rewrite elem_of_app. destruct Hq as [|[->|]]; [auto|congruence|auto].
Qed.

Lemma refill_covered st revents : covered st -> length revents = length (poll_fds st) ->
  covered (PollSt (poll_map st) (zip_with (fun p r => PollFd (pf_fd p) r) (poll_fds st) revents) (closed st)).
Proof.
  intros Hc Hl k Hk. cbn [poll_map poll_fds] in *. destruct (Hc k Hk) as (p & Hp & E).
  apply list_elem_of_lookup in Hp as [i Hi].
  destruct (lookup_lt_is_Some_2 revents i) as [r Hr]; [rewrite Hl; by eapply lookup_lt_Some|].
  exists (PollFd (pf_fd p) r). split; [|done]. apply (list_elem_of_lookup_2 _ i).
  by rewrite lookup_zip_with, Hi, Hr.
Qed.

(** *** A pass ends *)

Definition fired (p : pollfd) : bool := negb (pf_revents p =? 0).

Lemma invalidate_fired fd l l' : invalidate fd l = Some l' -> map fired l' = map fired l.
Proof.
  intros (_ & l1 & p & l2 & -> & _ & ->)%invalidate_spec. by rewrite !map_app.
Qed.

(** Callbacks add entries without events at the end and keep the events of the
    entries that are there. *)
Lemma messages_fired ms st : exists n,
  map fired (poll_fds (fold_left (fun st m => poll_ctrl_handler m st) ms st)) =
  map fired (poll_fds st) ++ replicate n false.
Proof.
  revert st. induction ms as [|[fd cb|fd ac] ms IH]; intros st; simpl.
  - exists O. by rewrite app_nil_r.
  - destruct (IH (register_poll fd cb st)) as [n ->]. exists (S n).
    cbn [register_poll poll_fds]. by rewrite map_app, <- app_assoc.
  - destruct (IH (unregister_poll fd ac st)) as [n ->]. exists n. f_equal. unfold unregister_poll.
    destruct (fd <? 0); [done|]. destruct (invalidate fd (poll_fds st)) as [l|] eqn:E; [|done].
    by apply invalidate_fired in E.
Qed.

Lemma count_fired l : count fired l = count id (map fired l).
Proof. induction l as [|p l IH]; [done|]. by rewrite (count_cons fired p l), IH. Qed.

Lemma count_replicate_false n : count id (replicate n false) = 0.
Proof. by induction n as [|n IH]. Qed.

Lemma poll_pass_more call fuel i st st' k :
  poll_pass call fuel i st = Ret st' -> poll_pass call (fuel + k) i st = Ret st'.
Proof.
  revert i st. induction fuel as [|fuel IH]; intros i st E; [done|]. cbn [poll_pass Nat.add] in *.
  destruct (poll_fds st !! i) as [p|]; [|done].
  destruct (pf_revents p =? 0); [by apply IH|]. destruct (negb _ || negb _); by apply IH.
Qed.

(** Events still to handle decrease with every callback and every entry dropped;
    between them the index runs over the entries without events. *)
Lemma poll_pass_returns call : well_behaved call -> forall (n : nat) i st,
  (count fired (drop i (poll_fds st)) <= Z.of_nat n) ->
  exists fuel st', poll_pass call fuel i st = Ret st'.
Proof.
  intros Hw. induction n as [n IHn] using lt_wf_ind. intros i st.
  remember (length (poll_fds st) - i)%nat as d eqn:Ed. revert i st Ed.
  induction d as [|d IHd]; intros i st Ed Hn.
  { exists 1%nat, st. cbn [poll_pass]. by rewrite lookup_ge_None_2 by lia. }
  destruct (lookup_lt_is_Some_2 (poll_fds st) i) as [p Ep]; [lia|].
  rewrite (drop_S _ _ _ Ep), count_cons in Hn.
  pose proof (count_nonneg fired (drop (S i) (poll_fds st))) as Hpos.
  destruct (pf_revents p =? 0) eqn:Er.
  { unfold fired at 1 in Hn. rewrite Er in Hn. simpl in Hn.
    destruct (IHd (S i) st) as (f & st' & E); [lia|lia|]. exists (S f), st'. cbn [poll_pass]. by rewrite Ep, Er. }
  assert (Hf : fired p = true) by (unfold fired; by rewrite Er).
  rewrite Hf in Hn. cbn [Z.b2z] in Hn. destruct n as [|n]; [lia|].
  destruct (negb (Z.land (pf_revents p) POLLERR =? 0) || negb (Z.land (pf_revents p) POLLNVAL =? 0)) eqn:Ee.
  - destruct (IHn n ltac:(lia) i (PollSt (delete (pf_fd p) (poll_map st)) (delete i (poll_fds st)) (closed st)))
      as (f & st' & E).
    { cbn [poll_fds]. rewrite delete_take_drop, drop_app_ge; rewrite length_take; [|lia].
      pose proof (lookup_lt_Some _ _ _ Ep). replace (i - _)%nat with O by lia. rewrite drop_0. lia. }
    exists (S f), st'. cbn [poll_pass]. by rewrite Ep, Er, Ee.
  - destruct (IHn n ltac:(lia) (S i) (match poll_map st !! pf_fd p with
                  | Some cb => call cb (pf_fd p) st | None => st end)) as (f & st' & E).
    { destruct (poll_map st !! pf_fd p) as [cb|]; [|lia].
      destruct (Hw cb (pf_fd p) st) as [ms ->]. destruct (messages_fired ms st) as [k Hk].
      rewrite count_fired, <- skipn_map, Hk. pose proof (lookup_lt_Some _ _ _ Ep).
      rewrite drop_app_le by (rewrite length_map; lia).
      rewrite count_app, count_replicate_false, skipn_map, <- count_fired. lia. }
    exists (S f), st'. cbn [poll_pass]. by rewrite Ep, Er, Ee.
Qed.

(** C23: no handler is lost.  Registering and unregistering keep an entry in the
    poll list for every callback in the map, and so does a round of the poll loop
    when the callbacks touch the registry only by registering and unregistering
    (any number of times) and poll(2) answers for every entry: the round ends,
    given enough fuel, in a state where every callback has its entry. *)
Theorem poll_iter_covered call st : well_behaved call -> covered st ->
  (forall fd cb, covered (register_poll fd cb st)) /\
  (forall fd ac, covered (unregister_poll fd ac st)) /\
  forall revents, poll_answer_ok st revents -> exists F st',
    (forall fuel, (F <= fuel)%nat -> poll_iter call fuel (Some revents) st = Ret st') /\ covered st'.
Proof.
  intros Hw Hc. split; [intros; by apply register_covered|]. split; [intros; by apply unregister_covered|].
  intros revents [Hl _]. cbn [poll_iter].
  set (st0 := PollSt _ _ _).
  destruct (poll_pass_returns call Hw (Z.to_nat (count fired (drop 0 (poll_fds st0)))) 0 st0) as (F & st' & E).
  { pose proof (count_nonneg fired (drop 0 (poll_fds st0))). lia. }
  exists F, st'. split.
  - intros fuel Hf. replace fuel with (F + (fuel - F))%nat by lia. by apply poll_pass_more.
  - eapply (poll_pass_inv covered) in E; [done|done|..].
    + intros. by apply register_covered.
    + intros. by apply unregister_covered.
    + intros i p s Hs Hp _. by apply delete_covered.
    + by apply refill_covered.
Qed.

(** *** Entries that are never removed *)

Definition quiet (p : pollfd) : bool := (pf_fd p <? 0) && (pf_revents p =? 0).
Lemma register_quiet n fd cb st : n <= count quiet (poll_fds st) ->
  (n <= count quiet (poll_fds (register_poll fd cb st))).
Proof.
  cbn [register_poll poll_fds]. rewrite count_app.
  match goal with |- context [count quiet [?e]] => pose proof (count_nonneg quiet [e]) end. lia.
Qed.

Lemma unregister_quiet n fd ac st : n <= count quiet (poll_fds st) ->
  (n <= count quiet (poll_fds (unregister_poll fd ac st))).
Proof.
  unfold unregister_poll. destruct (Z.ltb_spec fd 0) as [|Hfd]; [done|].
  destruct (invalidate fd (poll_fds st)) as [l|] eqn:E; [|done].
  apply invalidate_spec in E as [_ (l1 & p & l2 & E1 & Ep & ->)]. rewrite E1. cbn [poll_fds].
  rewrite !count_app, !count_cons. unfold quiet at 2. rewrite Ep, (proj2 (Z.ltb_ge _ _)) by lia.
  cbn [andb Z.b2z]. destruct (quiet _); simpl; lia.
Qed.

(** An entry invalidated by [unregister_poll] stays in the list for ever: poll
    reports nothing for a negative descriptor, and the loop only removes entries
    that report an error, so no round decreases the number of dead entries. *)
Theorem dead_entries_stay call fuel st revents st' : well_behaved call ->
  poll_answer_ok st revents -> poll_iter call fuel (Some revents) st = Ret st' ->
  (count (fun p => pf_fd p <? 0) (poll_fds st) <= count (fun p => pf_fd p <? 0) (poll_fds st')).
Proof.
  intros Hw [Hl Hq] E. cbn [poll_iter] in E.
  eapply (poll_pass_inv (fun s => (count (fun p => pf_fd p <? 0) (poll_fds st) <= count quiet (poll_fds s)))) in E.
  - eapply Z.le_trans; [exact E|]. clear. induction (poll_fds st') as [|p l IH]; [done|].
    rewrite !count_cons. unfold quiet at 1. destruct (pf_fd p <? 0), (pf_revents p =? 0); simpl; lia.
  - done.
  - intros. by apply register_quiet.
  - intros. by apply unregister_quiet.
  - intros i p s Hs Hp Hrev. cbn [poll_fds]. rewrite delete_take_drop.
    rewrite <- (take_drop_middle _ _ _ Hp) in Hs. rewrite count_app, count_cons in Hs. rewrite count_app.
    assert (quiet p = false) as Eq by (unfold quiet; rewrite (proj2 (Z.eqb_neq _ _) Hrev); apply andb_false_r).
    rewrite Eq in Hs. simpl in Hs. lia.
  - cbn [poll_fds]. clear E. revert revents Hl Hq. induction (poll_fds st) as [|p l IH]; intros [|r rs] Hl Hq; try done.
    cbn [zip_with]. rewrite !count_cons.
    assert (IH' := IH rs ltac:(simpl in Hl; lia) (fun i => Hq (S i))).
    assert (Hr := Hq O p r eq_refl eq_refl). unfold quiet at 1. cbn [pf_fd pf_revents].
    destruct (Z.ltb_spec (pf_fd p) 0); [rewrite Hr by done; simpl; lia|simpl; lia].
Qed.
End poll_facts.

(** A registry after one unregistration. *)
Definition sample_poll : pollst nat :=
  unregister_poll 7 true (register_poll 7 2%nat (register_poll 3 1%nat (PollSt ∅ [] []))).

Lemma no_calls : well_behaved (fun (_ : nat) (_ : Z) (st : pollst nat) => st).
Proof. intros cb fd st. by exists []. Qed.

Lemma sample_answer : poll_answer_ok sample_poll [1; 0].
Proof.
  split; [reflexivity|]. intros [|[|i]] p r Hp Hr; vm_compute in Hp, Hr; simplify_eq; by simpl.
Qed.

Lemma sample_covered : covered sample_poll.
Proof.
  unfold sample_poll. apply unregister_covered, register_covered, register_covered.
  intros k [x Hx]. discriminate Hx.
Qed.

(** A callback that registers one more descriptor. *)
Definition sample_call (_ : nat) (_ : Z) (st : pollst nat) : pollst nat := register_poll 9 3%nat st.

Lemma poll_iter_covered_witness : exists F st',
  (forall fuel, (F <= fuel)%nat -> poll_iter sample_call fuel (Some [1; 0]) sample_poll = Ret st') /\ covered st'.
Proof.
  apply (poll_iter_covered sample_call sample_poll).
  - intros cb fd st. by exists [PollNew 9 3%nat].
  - exact sample_covered.
  - exact sample_answer.
Defined.

Lemma dead_entries_stay_witness :
  exists st', poll_iter (fun _ _ st => st) 5 (Some [1; 0]) sample_poll = Ret st' /\
    (1 <= count (fun p => pf_fd p <? 0) (poll_fds st')).
Proof.
  eexists. split; [reflexivity|].
  apply (dead_entries_stay (fun _ _ st => st) 5 sample_poll [1; 0] _ no_calls sample_answer eq_refl).
Defined.

(** ** Restoring the native bridge *)

Section native_bridge.
Context {A : Type} `{PropAreaLaws A}.

Lemma direct_ro name f : str_starts name (bs "ro.") = true -> direct name f = true.
Proof. intros E. unfold direct. rewrite E. apply orb_true_r. Qed.

Lemma set_ro_get (st : pstate A) name v : str_starts name (bs "ro.") = true ->
  (set_prop_api st name v false).2 = 0 ->
  get_prop_api (set_prop_api st name v false).1 name false = v /\
  forall m, m <> name -> get_prop_api (set_prop_api st name v false).1 m false = get_prop_api st m false.
Proof.
  intros Hro Hs. unfold set_prop_api, get_prop_api in *.
  destruct (set_prop st name v 0) as [st' r] eqn:E. cbn [fst snd] in *. subst r.
  destruct (set_prop_get st name v 0 st' (direct_ro _ _ Hro) E) as (H1 & H2 & _). auto.
Qed.

(** Stopping the daemon undoes what loading zygisk did to the native bridge
    property: if the writes succeed, the property has its original value again
    ("0" when it was not set). *)
Theorem native_bridge_restored (st : pstate A) st1 nb :
  setup_native_bridge st = (st1, nb) ->
  (set_prop_api st NBPROP nb false).2 = 0 ->
  let orig := get_prop_api st NBPROP false in
  let orig := if bool_decide (orig = []) then bs "0" else orig in
  (set_prop_api st1 NBPROP orig false).2 = 0 ->
  get_prop_api (restore_native_bridge st1) NBPROP false = orig.
Proof.
  intros Hsetup Hs1. unfold setup_native_bridge in Hsetup. cbv zeta in *.
  set (o := if bool_decide (get_prop_api st NBPROP false = []) then bs "0" else get_prop_api st NBPROP false) in *.
  intros Hs2.
  apply pair_equal_spec in Hsetup as [Hst1 Hnb].
  assert (Hget1 : get_prop_api st1 NBPROP false = nb).
  { rewrite <- Hst1, Hnb. clear Hst1. destruct (set_ro_get st NBPROP nb eq_refl Hs1) as [Hg _].
    destruct (bool_decide (get_prop_api _ (bs "ro.maple.enable") false = bs "1")); [|exact Hg].
    set (st0 := (set_prop_api st NBPROP nb false).1) in *.
    destruct (set_prop_api st0 (bs "ro.maple.enable") (bs "0") false) as [st2 r] eqn:E2. cbn [fst].
    destruct (decide (r = 0)) as [->|Hr].
    - destruct (set_ro_get st0 (bs "ro.maple.enable") (bs "0") eq_refl) as [_ Hf]; [by rewrite E2|].
      rewrite E2 in Hf. cbn [fst] in Hf. rewrite Hf; [done|]. vm_compute. discriminate.
    - assert (Hfr := set_area_frame (ps_area st0) (bs "ro.maple.enable") (bs "0") NBPROP).
      unfold set_prop_api in E2. rewrite set_prop_direct in E2; [|reflexivity|by apply direct_ro].
      destruct (set_area (ps_area st0) (bs "ro.maple.enable") (bs "0")) as [ar ret]. cbn [fst] in Hfr.
      change (isPersist 0) with false in E2. rewrite andb_false_r in E2. cbn [andb] in E2.
      injection E2 as <- _. rewrite <- Hg. unfold get_prop_api, get_prop. cbn [ps_area ps_persist].
      rewrite Hfr; [done|]. vm_compute. discriminate. }
  unfold restore_native_bridge. rewrite Hget1.
  destruct (decide (o = bs "0")) as [Eo|No].
  - rewrite Eo in Hnb |- *. rewrite bool_decide_eq_true_2 in Hnb by done.
    rewrite <- Hnb, bool_decide_eq_true_2 by done. apply (set_ro_get st1 NBPROP (bs "0") eq_refl). by rewrite <- Eo.
  - rewrite bool_decide_eq_false_2 in Hnb by done. subst nb.
    assert (Ho : o <> []) by (subst o; case_bool_decide; [discriminate|done]).
    rewrite bool_decide_eq_false_2.
    2:{ intros E. apply Ho. apply (app_inv_head ZYGISKLDR). by rewrite app_nil_r. }
    rewrite zlen_app, (proj2 (Z.ltb_lt _ _)).
    2:{ assert (0 < zlen o) by (destruct o; [done|unfold zlen; simpl; lia]). lia. }
    rewrite drop_app_length. by apply (set_ro_get st1 NBPROP o eq_refl).
Qed.
End native_bridge.

Definition bridge_area : pstate map_area :=
  PState (MapArea {[ NBPROP := PropInfo (bs "libnb.so") false ]} 4) empty_store.

Lemma native_bridge_restored_witness :
  let st1 := (setup_native_bridge bridge_area).1 in
  get_prop_api st1 NBPROP false = bs "libzygisk.solibnb.so" /\
  get_prop_api (restore_native_bridge st1) NBPROP false = bs "libnb.so".
Proof.
  cbv zeta. split; [vm_compute; reflexivity|].
  destruct (setup_native_bridge bridge_area) as [st1 nb] eqn:E. cbn [fst].
  assert (Enb : nb = bs "libzygisk.solibnb.so") by (apply (f_equal snd) in E; vm_compute in E; by rewrite <- E).
  assert (Est : st1 = (setup_native_bridge bridge_area).1) by (by rewrite E).
  rewrite (native_bridge_restored bridge_area st1 nb E).
  - vm_compute. reflexivity.
  - rewrite Enb. vm_compute. reflexivity.
  - rewrite Est. vm_compute. reflexivity.
Defined.
