(* ===== verification/ThreadPool.v ===== *)
(** The cached thread pool: [native/src/core/thread.cpp].  Every critical section
    of the pool's mutex is one step; waiting on a condition variable ends the
    step, and being woken (by a signal, by the timeout, or spuriously) is a step of
    its own before the mutex is taken again.  There is one submitter: [exec_task] is
    only called from the thread that runs the poll loop. *)

From S2P Require Import Prelude.

(** ** Time *)

Record timespec := TimeSpec { tv_sec : Z; tv_nsec : Z }.

Definition NSEC : Z := 1000000000.

Definition timespec_add (a b : timespec) : timespec :=
  let s := tv_sec a + tv_sec b in
  let n := tv_nsec a + tv_nsec b in
  if NSEC <=? n then TimeSpec (s + 1) (n - NSEC) else TimeSpec s n.

Definition THREAD_IDLE_MAX_SEC : Z := 60.
Definition CORE_POOL_SIZE : Z := 3.

(** The deadline of an idle thread of the non-core pool. *)
Definition idle_deadline (now : timespec) : timespec := timespec_add now (TimeSpec THREAD_IDLE_MAX_SEC 0).

Definition normalized (t : timespec) : Prop := 0 <= tv_nsec t < NSEC.
Definition nanos (t : timespec) : Z := tv_sec t * NSEC + tv_nsec t.

Lemma timespec_add_spec a b : normalized a -> normalized b ->
  normalized (timespec_add a b) /\ nanos (timespec_add a b) = nanos a + nanos b.
Proof.
  unfold normalized, nanos, timespec_add, NSEC. intros Ha Hb.
  case_match eqn:E; cbn [tv_sec tv_nsec]; [apply Z.leb_le in E|apply Z.leb_gt in E]; lia.
Qed.

(** ** The pool *)

Section pool.
Context {T : Type}.

(** Where a thread of the pool is. *)
Inductive wstate : Type :=
| Top (core : bool)              (* before taking the lock *)
| Waiting (core : bool)          (* in cond_wait or cond_timedwait on send_task *)
| Awake (core : bool)            (* woken, before taking the lock again *)
| TimedOut                       (* timed out, before taking the lock again *)
| Running (core : bool) (t : T)
| Gone.

Inductive mstate : Type :=
| Ready                          (* outside exec_task *)
| Blocked                        (* in cond_wait on recv_task *)
| Woken.                         (* woken, before taking the lock again *)

(** The guarded variables, the threads, and two logs: the tasks handed to
    [exec_task] and the tasks a thread has taken. *)
Record pool := Pool {
  idle_threads : Z;
  total_threads : Z;
  pending_task : option T;
  submitter : mstate;
  threads : list wstate;
  submitted : list T;
  started : list T }.

Definition init_pool : pool := Pool 0 0 None Ready [] [] [].

(** [reset_pool] runs in the child of a fork, where the threads do not exist. *)
Definition reset_pool (p : pool) : pool := Pool 0 0 None (submitter p) [] (submitted p) (started p).

Definition is_waiting (w : wstate) : bool := match w with Waiting _ => true | _ => false end.

(** [pthread_cond_signal (&send_task)] when thread [k] is the one that wakes. *)
Definition signal_send (k : nat) (l : list wstate) : list wstate :=
  match l !! k with Some (Waiting c) => <[k := Awake c]> l | _ => l end.

(** [exec_task] up to the wait: [k] is the thread that the signal wakes, if there is
    one to wake. *)
Definition exec_task (t : T) (k : nat) (p : pool) : pool :=
  if idle_threads p =? 0 then
    let total := total_threads p + 1 in
    Pool (idle_threads p) total (Some t) Blocked
      (threads p ++ [Top (total <=? CORE_POOL_SIZE)]) (submitted p ++ [t]) (started p)
  else
    Pool (idle_threads p) (total_threads p) (Some t) Blocked
      (signal_send k (threads p)) (submitted p ++ [t]) (started p).

(** [pthread_cond_signal (&recv_task)] *)
Definition signal_recv (m : mstate) : mstate := match m with Blocked => Woken | m => m end.

(** The end of the critical section of thread [i]: take the task if there is one. *)
Definition take_task (i : nat) (core : bool) (p : pool) : pool :=
  match pending_task p with
  | Some t => Pool (idle_threads p - 1) (total_threads p) None (signal_recv (submitter p))
                (<[i := Running core t]> (threads p)) (submitted p) (started p ++ [t])
  | None => Pool (idle_threads p - 1) (total_threads p) None (submitter p)
                (<[i := Top core]> (threads p)) (submitted p) (started p)
  end.

Definition set_thread (i : nat) (w : wstate) (p : pool) : pool :=
  Pool (idle_threads p) (total_threads p) (pending_task p) (submitter p)
    (<[i := w]> (threads p)) (submitted p) (started p).

Definition add_idle (d : Z) (p : pool) : pool :=
  Pool (idle_threads p + d) (total_threads p) (pending_task p) (submitter p)
    (threads p) (submitted p) (started p).

(** The critical section at the top of the loop. *)
Definition enter (i : nat) (core : bool) (p : pool) : pool :=
  let p := add_idle 1 p in
  match pending_task p with
  | None => set_thread i (Waiting core) p
  | Some _ => take_task i core p
  end.

(** The critical section of a thread that timed out. *)
Definition leave (i : nat) (p : pool) : pool :=
  Pool (idle_threads p - 1) (total_threads p - 1) (pending_task p) (submitter p)
    (<[i := Gone]> (threads p)) (submitted p) (started p).

Definition set_submitter (m : mstate) (p : pool) : pool :=
  Pool (idle_threads p) (total_threads p) (pending_task p) m (threads p) (submitted p) (started p).

Inductive label : Type :=
| Submit (t : T) | Return | SpuriousReturn
| Enter (i : nat) | Timeout (i : nat) | Spurious (i : nat) | Wake (i : nat) | Leave (i : nat)
| Finish (i : nat).

Inductive step : label -> pool -> pool -> Prop :=
| step_submit t k p : submitter p = Ready ->
    (* the signal wakes a waiting thread unless there is none *)
    (idle_threads p <> 0 -> (exists i w, threads p !! i = Some w /\ is_waiting w = true) ->
       exists w, threads p !! k = Some w /\ is_waiting w = true) ->
    step (Submit t) p (exec_task t k p)
| step_return p : submitter p = Woken -> step Return p (set_submitter Ready p)
| step_spurious_return p : submitter p = Blocked -> step SpuriousReturn p (set_submitter Woken p)
| step_enter i c p : threads p !! i = Some (Top c) -> step (Enter i) p (enter i c p)
| step_timeout i p : threads p !! i = Some (Waiting false) -> step (Timeout i) p (set_thread i TimedOut p)
| step_spurious i c p : threads p !! i = Some (Waiting c) -> step (Spurious i) p (set_thread i (Awake c) p)
| step_wake i c p : threads p !! i = Some (Awake c) -> step (Wake i) p (take_task i c p)
| step_leave i p : threads p !! i = Some TimedOut -> step (Leave i) p (leave i p)
| step_finish i c t p : threads p !! i = Some (Running c t) -> step (Finish i) p (set_thread i (Top c) p).

(** Runs whose labels satisfy [ok]. *)
Inductive reach (ok : label -> Prop) : pool -> Prop :=
| reach_init : reach ok init_pool
| reach_step l p q : reach ok p -> ok l -> step l p q -> reach ok q.
End pool.
Arguments wstate T : clear implicits.
Arguments pool T : clear implicits.
Arguments label T : clear implicits.

(** ** The counters *)

Section counters.
Context {T : Type}.
Implicit Types (p q : pool T) (w : wstate T).

Definition is_idle (w : wstate T) : bool :=
  match w with Waiting _ | Awake _ | TimedOut => true | _ => false end.
Definition is_alive (w : wstate T) : bool := match w with Gone => false | _ => true end.
Definition is_core (w : wstate T) : bool :=
  match w with Top c | Waiting c | Awake c | Running c _ => c | TimedOut | Gone => false end.

Definition counters_ok (p : pool T) : Prop :=
  idle_threads p = count is_idle (threads p) /\
  total_threads p = count is_alive (threads p) /\
  count is_core (threads p) <= Z.min CORE_POOL_SIZE (total_threads p).

Lemma count_signal (f : wstate T -> bool) k l : (forall c, f (Waiting c) = f (Awake c)) ->
  count f (signal_send k l) = count f l.
Proof.
  intros Hf. unfold signal_send. destruct (l !! k) as [[]|] eqn:E; try done.
  rewrite (count_insert _ _ _ _ _ E), Hf. lia.
Qed.

Lemma step_counters (l : label T) p q : step l p q -> counters_ok p -> counters_ok q.
Proof.
  unfold counters_ok. destruct 1; intros (Hi & Ht & Hc).
  - unfold exec_task. case_match eqn:E; cbn.
    + rewrite !count_app. cbn. unfold CORE_POOL_SIZE in *. destruct (Z.leb_spec (total_threads p + 1) 3); cbn; lia.
    + rewrite !count_signal by done. done.
  - done.
  - done.
  - unfold enter, take_task, set_thread, add_idle. cbn.
    destruct (pending_task p); cbn; rewrite !(count_insert _ _ _ _ _ H); cbn; lia.
  - unfold set_thread. cbn. rewrite !(count_insert _ _ _ _ _ H). cbn. lia.
  - unfold set_thread. cbn. rewrite !(count_insert _ _ _ _ _ H). cbn. lia.
  - unfold take_task. destruct (pending_task p); cbn; rewrite !(count_insert _ _ _ _ _ H); cbn; lia.
  - unfold leave. cbn. rewrite !(count_insert _ _ _ _ _ H). cbn.
    rewrite <- Ht. split; [lia|split; [lia|]].
    assert (count is_core (threads p) <= count is_alive (threads p) - 1); [|unfold CORE_POOL_SIZE in *; lia].
    clear -H. revert i H. induction (threads p) as [|x l IH]; intros [|i] H; simplify_eq/=.
    + clear IH. induction l as [|x l IH]; cbn; [done|]. destruct x as [[]|[]|[]| |[]|]; cbn; lia.
    + specialize (IH _ H). destruct x as [[]|[]|[]| |[]|]; cbn; lia.
  - unfold set_thread. cbn. rewrite !(count_insert _ _ _ _ _ H). cbn. lia.
Qed.

(** The counters of the pool are right in every reachable state, whatever the
    interleaving, the timeouts and the spurious wake-ups: [idle_threads] is the number
    of threads between the top of the loop and the end of their critical section,
    [total_threads] the number of live threads, and at most three of the live ones are
    core threads, which never end. *)
Theorem pool_counters ok p : reach ok p -> counters_ok p.
Proof.
  induction 1 as [|l p q _ IH _ Hs]; [by vm_compute|]. by eapply step_counters.
Qed.
End counters.

(** ** Handing over tasks *)

Section handover.
Context {T : Type}.
Implicit Types (p q : pool T) (w : wstate T).

Definition no_spurious_return (l : label T) : Prop := l <> SpuriousReturn.
Definition no_timeout (l : label T) : Prop := forall i, l <> Timeout i.

Definition in_order (p : pool T) : Prop :=
  submitted p = started p ++ option_list (pending_task p) /\
  (pending_task p = None <-> submitter p <> Blocked).

Lemma take_in_order i c p : in_order p -> in_order (take_task i c p).
Proof.
  intros [Hs Hb]. unfold in_order, take_task. destruct (pending_task p) as [t|] eqn:E; cbn in *.
  - rewrite Hs, app_nil_r. split; [done|]. split; [|done]. intros _. by destruct (submitter p).
  - done.
Qed.

(** C26: as long as [pthread_cond_wait] on [recv_task] only returns when it is
    signalled, tasks are started in the order they were submitted, each exactly once,
    and [exec_task] only returns after its task was taken: outside of [exec_task] the
    started tasks are the submitted ones. *)
Theorem tasks_in_order p : reach no_spurious_return p ->
  submitted p = started p ++ option_list (pending_task p) /\
  (submitter p <> Blocked -> started p = submitted p).
Proof.
  intros Hr. assert (Hi : in_order p).
  { induction Hr as [|l p q _ IH Hl Hs]; [by split|]. destruct Hs; try done.
    - destruct IH as [Hs Hb]. apply proj2 in Hb. rewrite Hb in Hs by congruence. rewrite app_nil_r in Hs.
      unfold exec_task. case_match; split; cbn; try done; by rewrite Hs.
    - destruct IH as [Hs Hb]. split; [done|]. cbn. split; [done|]. intros _. apply Hb. congruence.
    - unfold enter. cbn. destruct (pending_task p) eqn:E; [|done].
      apply (take_in_order i c (add_idle 1 p)). done.
    - by apply take_in_order. }
  destruct Hi as [Hs Hb]. split; [done|]. intros Hn. apply Hb in Hn. by rewrite Hs, Hn, app_nil_r.
Qed.

(** A thread that will look at [pending_task] next. *)
Definition is_coming (w : wstate T) : bool := match w with Top _ | Awake _ => true | _ => false end.

Definition no_timedout (p : pool T) : Prop := count (fun w => match w with TimedOut => true | _ => false end) (threads p) = 0.

Lemma no_timedout_spec p i w : no_timedout p -> threads p !! i = Some w -> w <> TimedOut.
Proof.
  intros Hn Hi ->. unfold no_timedout in Hn.
  match goal with _ : count ?f _ = 0 |- _ => assert (0 < count f (threads p)) by (apply count_pos; by exists i, TimedOut) end.
  lia.
Qed.

Lemma coming_insert f (l : list (wstate T)) i w w' : l !! i = Some w ->
  0 < count f l -> (f w = true -> f w' = true) -> 0 < count f (<[i := w']> l).
Proof.
  intros Hi Hp Hf. rewrite (count_insert _ _ _ _ _ Hi).
  destruct (f w), (f w'); cbn; lia.
Qed.

Lemma signal_coming k p : counters_ok p -> no_timedout p -> idle_threads p <> 0 ->
  ((exists i w, threads p !! i = Some w /\ is_waiting w = true) ->
    exists w, threads p !! k = Some w /\ is_waiting w = true) ->
  0 < count is_coming (signal_send k (threads p)).
Proof.
  intros (Hi & _ & _) Hn Hne Hk. unfold signal_send.
  assert (Hp : 0 < count is_idle (threads p)) by (pose proof (count_nonneg is_idle (threads p)); lia).
  apply count_pos in Hp as (i & w & Hw & Hid).
  destruct (threads p !! k) as [wk|] eqn:Ek.
  - destruct wk as [c|c|c| |c t|].
    2:{ rewrite (count_insert _ _ _ _ _ Ek). cbn. pose proof (count_nonneg is_coming (threads p)). lia. }
    all: apply count_pos; exists i, w; split; [done|]; destruct w; try done;
      try by destruct (no_timedout_spec p i TimedOut Hn Hw).
    all: exfalso; destruct Hk as (wk & Hk1 & Hk2); [by eexists i, _|simplify_eq/=].
  - apply count_pos; exists i, w; split; [done|]; destruct w; try done;
      try by destruct (no_timedout_spec p i TimedOut Hn Hw).
    destruct Hk as (wk & Hk1 & Hk2); [by eexists i, _|simplify_eq/=].
Qed.

Lemma reach_no_timedout p : reach no_timeout p -> no_timedout p.
Proof.
  induction 1 as [|l p q _ IH Hl Hs]; [done|]. unfold no_timedout in *. destruct Hs.
  - unfold exec_task. case_match; cbn; [by rewrite count_app, IH|by rewrite count_signal].
  - done.
  - done.
  - unfold enter, take_task, set_thread, add_idle. cbn.
    destruct (pending_task p); cbn; rewrite (count_insert _ _ _ _ _ H), IH; done.
  - by specialize (Hl i).
  - cbn. rewrite (count_insert _ _ _ _ _ H), IH. done.
  - unfold take_task. destruct (pending_task p); cbn; rewrite (count_insert _ _ _ _ _ H), IH; done.
  - by destruct (no_timedout_spec p i TimedOut IH H).
  - cbn. rewrite (count_insert _ _ _ _ _ H), IH. done.
Qed.

Lemma pending_coming p : reach no_timeout p -> pending_task p <> None -> 0 < count is_coming (threads p).
Proof.
  induction 1 as [|l p q Hr IH Hl Hs]; [done|].
  pose proof (pool_counters _ _ Hr) as Hc. pose proof (reach_no_timedout _ Hr) as Hn. destruct Hs.
  - unfold exec_task. case_match eqn:E; cbn; intros _.
    + rewrite count_app. cbn. pose proof (count_nonneg is_coming (threads p)). lia.
    + apply Z.eqb_neq in E. by apply signal_coming; auto.
  - done.
  - done.
  - unfold enter, take_task, set_thread, add_idle. cbn. by destruct (pending_task p) eqn:E; cbn.
  - by specialize (Hl i).
  - cbn. intros Hp. by eapply coming_insert; [done|auto|].
  - unfold take_task. by destruct (pending_task p) eqn:E; cbn.
  - by destruct (no_timedout_spec p i TimedOut Hn H).
  - cbn. intros Hp. by eapply coming_insert; [done|auto|].
Qed.

(** While no idle thread times out no wake-up is lost: whenever a task is pending,
    a thread of the pool is on its way to the lock, and its critical section takes the
    task and wakes the submitter. *)
Theorem pending_is_taken p t : reach no_timeout p -> pending_task p = Some t ->
  exists l q, step l p q /\ (forall i, l <> Finish i) /\
    started q = started p ++ [t] /\ pending_task q = None /\ submitter q = signal_recv (submitter p).
Proof.
  intros Hr Hp. assert (H : 0 < count is_coming (threads p)) by (apply pending_coming; congruence).
  apply count_pos in H as (i & w & Hi & Hw). destruct w as [c|c|c| |c t'|]; try done.
  - exists (Enter i), (enter i c p). split; [by constructor|].
    unfold enter, take_task, add_idle. cbn. by rewrite Hp.
  - exists (Wake i), (take_task i c p). split; [by constructor|]. unfold take_task. by rewrite Hp.
Qed.
End handover.

(** ** Running a schedule *)

Section schedules.
Context {T : Type}.

(** The step of a label, if it is enabled; [k] is the thread a signal wakes. *)
Definition exec_label (l : label T) (k : nat) (p : pool T) : option (pool T) :=
  match l with
  | Submit t =>
    match submitter p with
    | Ready =>
      if (idle_threads p =? 0) || negb (existsb is_waiting (threads p)) ||
         match threads p !! k with Some w => is_waiting w | None => false end
      then Some (exec_task t k p) else None
    | _ => None
    end
  | Return => match submitter p with Woken => Some (set_submitter Ready p) | _ => None end
  | SpuriousReturn => match submitter p with Blocked => Some (set_submitter Woken p) | _ => None end
  | Enter i => match threads p !! i with Some (Top c) => Some (enter i c p) | _ => None end
  | Timeout i => match threads p !! i with Some (Waiting false) => Some (set_thread i TimedOut p) | _ => None end
  | Spurious i => match threads p !! i with Some (Waiting c) => Some (set_thread i (Awake c) p) | _ => None end
  | Wake i => match threads p !! i with Some (Awake c) => Some (take_task i c p) | _ => None end
  | Leave i => match threads p !! i with Some TimedOut => Some (leave i p) | _ => None end
  | Finish i => match threads p !! i with Some (Running c _) => Some (set_thread i (Top c) p) | _ => None end
  end.

Fixpoint exec_labels (ls : list (label T * nat)) (p : pool T) : option (pool T) :=
  match ls with
  | [] => Some p
  | (l, k) :: ls => match exec_label l k p with Some p => exec_labels ls p | None => None end
  end.

Lemma exec_label_sound l k p q : exec_label l k p = Some q -> step l p q.
Proof.
  destruct l as [t| | |i|i|i|i|i|i]; cbn; intros E; [|by repeat case_match; simplify_eq; econstructor..].
  destruct (submitter p) eqn:Em; [|done..].
  destruct (_ || _ || _) eqn:Eb in E; [|done]. injection E as <-.
  constructor; [done|]. intros Hi (i & x & Hx & Hxt).
  rewrite !orb_true_iff in Eb. destruct Eb as [[Eb%Z.eqb_eq|Eb]|Eb]; [done| |].
  - rewrite negb_true_iff in Eb. assert (Hin : existsb is_waiting (threads p) = true); [|congruence].
    apply existsb_exists. exists x. split; [|done]. apply list_elem_of_In. by eapply list_elem_of_lookup_2.
  - destruct (threads p !! k); [by eexists|done].
Qed.

Lemma exec_labels_reach ok ls p q : reach ok p -> Forall (fun l => ok l.1) ls ->
  exec_labels ls p = Some q -> reach ok q.
Proof.
  revert p. induction ls as [|[l k] ls IH]; intros p Hr Hok E; cbn in E; [by simplify_eq|].
  apply Forall_cons in Hok as [Hl Hok]. destruct (exec_label l k p) as [p'|] eqn:E1; [|done].
  apply (IH p'); [|done..]. eapply reach_step; [done|exact Hl|by apply exec_label_sound in E1].
Qed.
End schedules.

(** Two tasks on one thread: the second is submitted while the thread is idle. *)
Definition reuse_run : list (label nat * nat) :=
  [(Submit 0%nat, O); (Enter 0, O); (Return, O); (Finish 0, O); (Enter 0, O); (Submit 1%nat, O)].

Lemma reuse_run_ok (P : label nat -> Prop) (HP : forall l, l ∈ reuse_run.*1 -> P l) :
  exists p, exec_labels reuse_run init_pool = Some p /\ reach P p.
Proof.
  eexists. split; [reflexivity|].
  apply (exec_labels_reach P reuse_run init_pool); [constructor| |reflexivity].
  apply Forall_forall. intros l Hl. apply HP. apply list_elem_of_fmap. by exists l.
Qed.

Lemma pool_counters_witness : exists p, exec_labels reuse_run init_pool = Some p /\ counters_ok p /\ idle_threads p = 1.
Proof.
  destruct (reuse_run_ok (fun _ => True) (fun _ _ => I)) as (p & E & Hr). exists p. split; [exact E|].
  split; [exact (pool_counters _ p Hr)|]. injection E as <-. reflexivity.
Defined.

Lemma tasks_in_order_witness : exists p, exec_labels reuse_run init_pool = Some p /\
  submitted p = started p ++ option_list (pending_task p) /\ started p = [0%nat].
Proof.
  destruct (reuse_run_ok no_spurious_return) as (p & E & Hr).
  { intros l Hl. unfold reuse_run in Hl. cbn in Hl. set_unfold. unfold no_spurious_return. naive_solver. }
  exists p. split; [exact E|]. split; [apply (tasks_in_order p Hr)|]. injection E as <-. reflexivity.
Defined.

Lemma pending_is_taken_witness : exists p l q, exec_labels reuse_run init_pool = Some p /\
  step l p q /\ started q = [0%nat; 1%nat].
Proof.
  destruct (reuse_run_ok no_timeout) as (p & E & Hr).
  { intros l Hl. unfold reuse_run in Hl. cbn in Hl. set_unfold. unfold no_timeout. naive_solver. }
  assert (Hp : pending_task p = Some 1%nat) by (injection E as <-; reflexivity).
  assert (Hs : started p = [0%nat]) by (injection E as <-; reflexivity).
  destruct (pending_is_taken p 1%nat Hr Hp) as (l & q & Hl & _ & Hq & _).
  exists p, l, q. rewrite Hq, Hs. auto.
Defined.

(** Three core threads are busy; the fourth has been idle for a minute when a fifth
    task arrives. *)
Definition lost_run : list (label nat * nat) :=
  [(Submit 0%nat, O); (Enter 0, O); (Return, O); (Submit 1%nat, O); (Enter 1, O); (Return, O);
   (Submit 2%nat, O); (Enter 2, O); (Return, O); (Submit 3%nat, O); (Enter 3, O); (Return, O);
   (Finish 3, O); (Enter 3, O); (Timeout 3, O); (Submit 4%nat, O); (Leave 3, O)].

(** The wake-up of a thread that times out is lost.  The thread still counts as
    idle, so [exec_task] signals instead of starting a thread, and the thread ends
    without looking at [pending_task]: a state is reachable, without any spurious
    wake-up, in which a task is pending, its submitter (the poll loop) is blocked, and
    nothing in the pool can move until an unrelated task finishes. *)
Theorem lost_wakeup : exists p : pool nat,
  reach (fun l => no_spurious_return l /\ forall i, l <> Spurious i) p /\
  pending_task p = Some 4%nat /\ submitter p = Blocked /\
  forall l q, step l p q -> l = SpuriousReturn \/ exists i, l = Finish i.
Proof.
  destruct (exec_labels lost_run init_pool) as [p|] eqn:E; [|vm_compute in E; discriminate E].
  exists p. split.
  { eapply (exec_labels_reach _ lost_run init_pool); [constructor| |exact E].
    unfold lost_run, no_spurious_return. repeat constructor; try discriminate; by intros. }
  vm_compute in E. injection E as <-. split; [reflexivity|]. split; [reflexivity|].
  intros l q Hs. inversion Hs as [t k p Hr Hk|p Hm|p Hm|i c p Hi|i p Hi|i c p Hi|i c p Hi|i p Hi|i c t p Hi]; subst;
    try discriminate; try by left.
  6: by right; exists i.
  all: exfalso; cbn in Hi; do 4 (destruct i as [|i]; [cbn in Hi; congruence|]); destruct i; cbn in Hi; congruence.
Qed.

(** A spurious wake-up of the submitter loses a task: [exec_task] returns before its
    task is taken and the next call's swap drops it. *)
Example spurious_return_drops_task :
  exists p, exec_labels [(Submit 0%nat, O); (SpuriousReturn, O); (Return, O); (Submit 1%nat, O);
                         (Enter 0, O); (Return, O)] init_pool = Some p /\
    submitted p = [0%nat; 1%nat] /\ started p = [1%nat] /\ submitter p = Ready.
Proof. eexists. split; [reflexivity|]. done. Qed.
