(* ===== verification/Avtab.v ===== *)
(** Access vector rules: the part of [native/src/sepolicy/sepolicy.cpp] that works
    on the access vector table [te_avtab] of a policy.  The table is libsepol's
    chained hash table; sepolicy.cpp walks its buckets and unlinks nodes itself, and
    calls libsepol to search and to insert, which are the operations of the class
    [AvtabLib] with the laws of [AvtabLaws]. *)

From S2P Require Import Prelude Base.

(** ** The table *)

Record avkey := AvKey { source_type : Z; target_type : Z; target_class : Z; specified : Z }.
#[global] Instance avkey_eq_dec : EqDecision avkey.
Proof. solve_decision. Defined.

(** [avtab_extended_perms_t]; [x_perms] is the bit array of 256 permissions. *)
Record xperms := XPerms { x_specified : Z; x_driver : Z; x_perms : Z }.
#[global] Instance xperms_eq_dec : EqDecision xperms.
Proof. solve_decision. Defined.

(** A node; [nid] is its address. *)
Record avnode := AvNode { nid : nat; nkey : avkey; ndata : Z; nxperms : option xperms }.
#[global] Instance avnode_eq_dec : EqDecision avnode.
Proof. solve_decision. Defined.

Record avtab := AvTab { htable : list (list avnode); nel : Z; mask : Z }.

Definition nodes (t : avtab) : list avnode := concat (htable t).

(** Constants of libsepol's headers. *)
Definition AVTAB_ALLOWED : Z := 1.
Definition AVTAB_AUDITALLOW : Z := 2.
Definition AVTAB_AUDITDENY : Z := 4.
Definition AVTAB_AV : Z := 7.
Definition AVTAB_TRANSITION : Z := 16.
Definition AVTAB_MEMBER : Z := 32.
Definition AVTAB_CHANGE : Z := 64.
Definition AVTAB_TYPE : Z := 112.
Definition AVTAB_XPERMS_ALLOWED : Z := 256.
Definition AVTAB_XPERMS_AUDITALLOW : Z := 512.
Definition AVTAB_XPERMS_DONTAUDIT : Z := 1024.
Definition AVTAB_XPERMS : Z := 1792.
Definition AVTAB_XPERMS_IOCTLFUNCTION : Z := 1.
Definition AVTAB_XPERMS_IOCTLDRIVER : Z := 2.
Definition SEPOL_ENOMEM : Z := -12.
Definition SEPOL_ENOENT : Z := -2.
Definition all_ones : Z := 4294967295.

(** The nodes [avtab_search_node] finds for a key. *)
Definition key_match (k : avkey) (n : avnode) : bool :=
  (source_type k =? source_type (nkey n)) && (target_type k =? target_type (nkey n)) &&
  (target_class k =? target_class (nkey n)) && negb (Z.land (specified k) (specified (nkey n)) =? 0).

Class AvtabLib := {
  avtab_hash : avkey -> Z -> nat;
  avtab_insert_nonunique : avtab -> avkey -> Z -> avtab * nat;
  avtab_search_node : avtab -> avkey -> option nat;
  avtab_search_node_next : avtab -> nat -> Z -> option nat }.

(** [l] is what a search and the searches for the next node return, in order. *)
Fixpoint next_chain `{AvtabLib} (t : avtab) (spec : Z) (id : nat) (l : list avnode) : Prop :=
  match l with
  | [] => avtab_search_node_next t id spec = None
  | n :: l => avtab_search_node_next t id spec = Some (nid n) /\ next_chain t spec (nid n) l
  end.
Definition search_chain `{AvtabLib} (t : avtab) (k : avkey) (l : list avnode) : Prop :=
  match l with
  | [] => avtab_search_node t k = None
  | n :: l => avtab_search_node t k = Some (nid n) /\ next_chain t (specified k) (nid n) l
  end.

(** The shape of a table: addresses are distinct and every node is in the bucket of
    its key. *)
Record table_ok `{AvtabLib} (t : avtab) : Prop := TableOk {
  ids_ok : NoDup (nid <$> nodes t);
  place_ok : forall i b n, htable t !! i = Some b -> n ∈ b -> i = avtab_hash (nkey n) (mask t);
  slots_ok : forall k, (avtab_hash k (mask t) < length (htable t))%nat;
  count_ok : nel t = zlen (nodes t) }.

(** What libsepol promises: a new node with a fresh address goes into the bucket of
    its key, and searching enumerates the matching nodes. *)
Class AvtabLaws `{AvtabLib} : Prop := {
  insert_law : forall t k d, table_ok t ->
    exists id l1 l2, htable t !! avtab_hash k (mask t) = Some (l1 ++ l2) /\ (id ∉ nid <$> nodes t) /\
      avtab_insert_nonunique t k d =
        (AvTab (<[avtab_hash k (mask t) := l1 ++ AvNode id k d None :: l2]> (htable t)) (nel t + 1) (mask t), id);
  search_law : forall t k, table_ok t ->
    exists l, search_chain t k l /\ NoDup l /\ forall n, n ∈ l <-> n ∈ nodes t /\ key_match k n = true }.

(** ** Operations on nodes *)

Section ops.
Context `{AvtabLib}.

(** Following a pointer to a node, and writing through one. *)
Definition deref (t : avtab) (id : nat) : option avnode := find (fun n => Nat.eqb (nid n) id) (nodes t).

Definition store (id : nat) (f : avnode -> avnode) (t : avtab) : avtab :=
  AvTab (map (map (fun n => if Nat.eqb (nid n) id then f n else n)) (htable t)) (nel t) (mask t).

Definition set_data (d : Z) (n : avnode) : avnode := AvNode (nid n) (nkey n) d (nxperms n).
Definition set_xperms (x : xperms) (n : avnode) : avnode := AvNode (nid n) (nkey n) (ndata n) (Some x).

(** The walk over the bucket and the unlinking of the node it stops at. *)
Fixpoint unlink (id : nat) (l : list avnode) : option (list avnode) :=
  match l with
  | [] => None
  | n :: l => if Nat.eqb (nid n) id then Some l else option_map (cons n) (unlink id l)
  end.

Definition avtab_remove_node (t : avtab) (node : avnode) : avtab * Z :=
  match htable t with
  | [] => (t, SEPOL_ENOMEM)
  | _ =>
    let hvalue := avtab_hash (nkey node) (mask t) in
    match htable t !! hvalue with
    | None => (t, SEPOL_ENOENT)
    | Some b =>
      match unlink (nid node) b with
      | None => (t, SEPOL_ENOENT)
      | Some b => (AvTab (<[hvalue := b]> (htable t)) (nel t - 1) (mask t), 0)
      end
    end
  end.

Definition is_redundant (n : avnode) : bool :=
  if specified (nkey n) =? AVTAB_AUDITDENY then ndata n =? all_ones
  else if specified (nkey n) =? AVTAB_XPERMS then bool_decide (nxperms n = None)
  else ndata n =? 0.

(** [find_avtab_node]: for extended permissions the loop ends with a null pointer
    whether it finds the node or not; [fuel] bounds the nodes of a chain. *)
Fixpoint skip_xperms (fuel : nat) (t : avtab) (spec : Z) (x : xperms) (node : option nat) : outcome (option nat) :=
  match fuel with
  | O => Loop
  | S fuel =>
    match node with
    | None => Ret None
    | Some id =>
      match deref t id ≫= nxperms with
      | None => Fault
      | Some y =>
        if (x_specified y =? x_specified x) && (x_driver y =? x_driver x) then Ret None
        else skip_xperms fuel t spec x (avtab_search_node_next t id spec)
      end
    end
  end.

Definition find_avtab_node (t : avtab) (k : avkey) (x : option xperms) : outcome (option nat) :=
  if negb (Z.land (specified k) AVTAB_XPERMS =? 0) then
    match x with
    | None => Ret None
    | Some x => skip_xperms (S (length (nodes t))) t (specified k) x (avtab_search_node t k)
    end
  else Ret (avtab_search_node t k).

Definition insert_avtab_node (t : avtab) (k : avkey) : avtab * nat :=
  avtab_insert_nonunique t k (if specified k =? AVTAB_AUDITDENY then all_ones else 0).

Definition get_avtab_node (t : avtab) (k : avkey) (x : option xperms) : outcome (avtab * nat) :=
  let! node := find_avtab_node t k x in
  match node with
  | Some id => Ret (t, id)
  | None => Ret (insert_avtab_node t k)
  end.

(** *** Access vector rules *)

(** The new value of the data; [perm] is the value of the permission datum. *)
Definition rule_data (perm : option Z) (invert : bool) (d : Z) : Z :=
  if invert then
    match perm with
    | Some p => Z.land d (u32 (Z.lnot (Z.shiftl 1 (p - 1))))
    | None => 0
    end
  else
    match perm with
    | Some p => Z.lor d (Z.shiftl 1 (p - 1))
    | None => all_ones
    end.

(** The innermost case of [add_rule]. *)
Definition apply_rule (k : avkey) (perm : option Z) (invert : bool) (t : avtab) : outcome avtab :=
  let! (t, id) := get_avtab_node t k None in
  match deref t id with
  | None => Fault
  | Some n =>
    let d := rule_data perm invert (ndata n) in
    let t := store id (set_data d) t in
    if is_redundant (set_data d n) then Ret (avtab_remove_node t (set_data d n)).1 else Ret t
  end.

(** [add_type_rule] after the lookups. *)
Definition apply_type_rule (k : avkey) (def : Z) (t : avtab) : outcome avtab :=
  let! (t, id) := get_avtab_node t k None in
  match deref t id with
  | None => Fault
  | Some n => Ret (store id (set_data def) t)
  end.

(** [SePolicy::strip_dontaudit]: the iteration reads the successor of a node before
    it removes the node. *)
Definition strip_node (t : avtab) (n : avnode) : avtab :=
  if (specified (nkey n) =? AVTAB_AUDITDENY) || (specified (nkey n) =? AVTAB_XPERMS_DONTAUDIT)
  then (avtab_remove_node t n).1 else t.
Definition strip_dontaudit (t : avtab) : avtab := foldl strip_node t (nodes t).
End ops.

(** ** The shape of the table is kept *)

Section shape.
Context `{AvtabLib}.
Implicit Types (t : avtab) (n : avnode) (k : avkey).

Lemma concat_insert_perm {A} (ls : list (list A)) i l1 l2 (x : A) : ls !! i = Some (l1 ++ l2) ->
  concat (<[i := l1 ++ x :: l2]> ls) ≡ₚ x :: concat ls.
Proof.
  revert i. induction ls as [|l ls IH]; intros [|i] E; simplify_eq/=.
  - rewrite <- !app_assoc. cbn [app]. by rewrite <- Permutation_middle.
  - rewrite (IH _ E). by rewrite Permutation_middle.
Qed.

Lemma in_nodes t n : n ∈ nodes t <-> exists i b, htable t !! i = Some b /\ n ∈ b.
Proof.
  unfold nodes. rewrite list_elem_of_In, in_concat. split.
  - intros (b & Hb & Hn). apply list_elem_of_In, list_elem_of_lookup in Hb as [i Hi].
    exists i, b. by rewrite list_elem_of_In.
  - intros (i & b & Hi & Hn). exists b. rewrite <- !list_elem_of_In. split; [by eapply list_elem_of_lookup_2|done].
Qed.

Lemma ids_inj t n n' : table_ok t -> n ∈ nodes t -> n' ∈ nodes t -> nid n = nid n' -> n = n'.
Proof.
  intros [Hnd _ _ _]. revert Hnd. induction (nodes t) as [|x l IH]; [by set_solver|].
  rewrite fmap_cons, NoDup_cons. intros [Hx Hnd] [->|Hn]%elem_of_cons [->|Hn']%elem_of_cons E; [done|..].
  - destruct Hx. apply list_elem_of_fmap. by exists n'.
  - destruct Hx. apply list_elem_of_fmap. by exists n.
  - by apply IH.
Qed.

Lemma deref_in t n : table_ok t -> n ∈ nodes t -> deref t (nid n) = Some n.
Proof.
  intros Hok Hn. unfold deref. destruct (find _ _) as [x|] eqn:E.
  - apply find_some in E as [Hx Ex%Nat.eqb_eq]. f_equal.
    apply (ids_inj t); [done|by apply list_elem_of_In|done..].
  - apply list_elem_of_In in Hn. apply (find_none _ _ E) in Hn. by rewrite Nat.eqb_refl in Hn.
Qed.

Lemma nodes_store id f t :
  nodes (store id f t) = map (fun n => if Nat.eqb (nid n) id then f n else n) (nodes t).
Proof. unfold nodes, store. cbn [htable]. by rewrite concat_map. Qed.

(** A write through a pointer that keeps address and key. *)
Lemma store_ok id f t : (forall n, nid (f n) = nid n /\ nkey (f n) = nkey n) ->
  table_ok t -> table_ok (store id f t).
Proof.
  intros Hf [Hi Hp Hs Hc]. split.
  - rewrite nodes_store. rewrite <- list_fmap_compose.
    rewrite (list_fmap_ext _ nid); [done|]. intros i x _. cbn. destruct (Nat.eqb (nid x) id); [apply Hf|done].
  - intros i b n Hb Hn. cbn in Hb. rewrite list_lookup_fmap in Hb.
    destruct (htable t !! i) as [b'|] eqn:E; [|done]. injection Hb as <-.
    apply list_elem_of_fmap in Hn as (x & -> & Hx). rewrite (Hp i b' x E Hx).
    cbn [store mask]. destruct (Nat.eqb (nid x) id); [by rewrite (proj2 (Hf x))|done].
  - intros k. cbn. rewrite length_map. apply Hs.
  - rewrite nodes_store. cbn. rewrite Hc. unfold zlen. by rewrite length_map.
Qed.

Lemma unlink_spec id l n : n ∈ l -> nid n = id -> NoDup (nid <$> l) ->
  exists l1 l2, l = l1 ++ n :: l2 /\ unlink id l = Some (l1 ++ l2).
Proof.
  induction l as [|x l IH]; intros Hn Hid Hnd; [by apply elem_of_nil in Hn|].
  rewrite fmap_cons, NoDup_cons in Hnd. destruct Hnd as [Hx Hnd]. cbn [unlink].
  apply elem_of_cons in Hn as [<-|Hn].
  - exists [], l. by rewrite (proj2 (Nat.eqb_eq _ _)).
  - destruct (IH Hn Hid Hnd) as (l1 & l2 & -> & Hu). exists (x :: l1), l2.
    rewrite (proj2 (Nat.eqb_neq _ _)), Hu; [done|]. intros Hxi. apply Hx.
    apply list_elem_of_fmap. exists n. split; [congruence|done].
Qed.

Lemma nodup_bucket t i b : table_ok t -> htable t !! i = Some b -> NoDup (nid <$> b).
Proof.
  intros [Hnd _ _ _] Hb. unfold nodes in Hnd.
  rewrite <- (take_drop_middle _ _ _ Hb), concat_app in Hnd. cbn [concat] in Hnd.
  rewrite !fmap_app, !NoDup_app in Hnd. tauto.
Qed.

Lemma remove_ok t n : table_ok t -> n ∈ nodes t ->
  (avtab_remove_node t n).2 = 0 /\ table_ok (avtab_remove_node t n).1 /\
  nodes t ≡ₚ n :: nodes (avtab_remove_node t n).1.
Proof.
  intros Hok Hn. pose proof Hn as (i & b & Hb & Hnb)%in_nodes.
  pose proof (place_ok t Hok i b n Hb Hnb) as Hi.
  destruct (unlink_spec (nid n) b n Hnb eq_refl (nodup_bucket t i b Hok Hb)) as (l1 & l2 & Eb & Hu).
  unfold avtab_remove_node. rewrite <- Hi, Hb, Hu.
  destruct (htable t) as [|b0 bs] eqn:Et; [done|]. rewrite <- Et in *. cbn [fst snd].
  assert (Hperm : nodes t ≡ₚ n :: concat (<[i := l1 ++ l2]> (htable t))).
  { unfold nodes. assert (Hc : htable t = <[i := l1 ++ n :: l2]> (<[i := l1 ++ l2]> (htable t))).
    { rewrite list_insert_insert_eq. by rewrite list_insert_id; [|rewrite <- Eb]. }
    rewrite Hc at 1. apply concat_insert_perm. rewrite list_lookup_insert_eq; [done|].
    by eapply lookup_lt_Some. }
  split; [done|]. split; [|done]. destruct Hok as [Hnd Hp Hs Hc]. split.
  - rewrite Hperm in Hnd. rewrite fmap_cons, NoDup_cons in Hnd. apply Hnd.
  - intros j b' x Hb' Hx. cbn in Hb'. destruct (decide (i = j)) as [<-|Hij].
    + rewrite list_lookup_insert_eq in Hb' by (by eapply lookup_lt_Some). injection Hb' as <-.
      apply (Hp i b x Hb). rewrite Eb. set_solver.
    + rewrite list_lookup_insert_ne in Hb' by done. by apply (Hp j b').
  - intros k. cbn. rewrite length_insert. apply Hs.
  - cbn [nel]. rewrite Hc. unfold zlen. rewrite (Permutation_length Hperm). cbn [length].
    unfold nodes. cbn [htable]. lia.
Qed.

End shape.

Section library.
Context `{AvtabLaws}.
Implicit Types (t : avtab) (n : avnode) (k : avkey).

Lemma insert_ok t k d : table_ok t ->
  exists t' id, avtab_insert_nonunique t k d = (t', id) /\ table_ok t' /\
    nodes t' ≡ₚ AvNode id k d None :: nodes t.
Proof.
  intros Hok. destruct (insert_law t k d Hok) as (id & l1 & l2 & Hb & Hid & E).
  eexists _, id. split; [exact E|]. set (h := avtab_hash k (mask t)) in *. set (x := AvNode id k d None).
  assert (Hperm : concat (<[h := l1 ++ x :: l2]> (htable t)) ≡ₚ x :: nodes t) by by apply concat_insert_perm.
  split; [|done]. destruct Hok as [Hnd Hp Hs Hc]. split.
  - unfold nodes at 1. cbn [htable]. rewrite Hperm. rewrite fmap_cons, NoDup_cons. done.
  - intros i b n Hi Hn. cbn in Hi. destruct (decide (h = i)) as [<-|Hij].
    + rewrite list_lookup_insert_eq in Hi by (by eapply lookup_lt_Some). injection Hi as <-. cbn [mask].
      assert (n = x \/ n ∈ l1 ++ l2) as [->|Hn'] by set_solver; [done|by apply (Hp h (l1 ++ l2))].
    + rewrite list_lookup_insert_ne in Hi by done. by apply (Hp i b).
  - intros k'. cbn. rewrite length_insert. apply Hs.
  - cbn [nel]. rewrite Hc. unfold zlen, nodes at 2. cbn [htable]. rewrite (Permutation_length Hperm). cbn [length]. lia.
Qed.

Lemma search_ok t k : table_ok t ->
  match avtab_search_node t k with
  | Some id => exists n, n ∈ nodes t /\ nid n = id /\ key_match k n = true
  | None => forall n, n ∈ nodes t -> key_match k n = false
  end.
Proof.
  intros Hok. destruct (search_law t k Hok) as ([|n l] & Hl & _ & Hin); cbn in Hl.
  - rewrite Hl. intros n Hn. apply not_true_is_false. intros Hm.
    by apply (not_elem_of_nil n), Hin.
  - destruct Hl as [-> _]. exists n. destruct (proj1 (Hin n)) as [H1 H2]; [set_solver|done].
Qed.
End library.

(** ** The table as a map from keys to access vectors *)

(** A rule kind is a single bit, and the nodes of access vector and type rules are
    unique; extended permissions may have several nodes. *)
Definition kinds : list Z :=
  [AVTAB_ALLOWED; AVTAB_AUDITALLOW; AVTAB_AUDITDENY; AVTAB_TRANSITION; AVTAB_MEMBER; AVTAB_CHANGE;
   AVTAB_XPERMS_ALLOWED; AVTAB_XPERMS_AUDITALLOW; AVTAB_XPERMS_DONTAUDIT].

Definition is_xkey (k : avkey) : bool := negb (Z.land (specified k) AVTAB_XPERMS =? 0).
Definition plain_key (k : avkey) : Prop := specified k ∈ kinds /\ is_xkey k = false.

Record avtab_ok `{AvtabLib} (t : avtab) : Prop := AvtabOk {
  shape_ok : table_ok t;
  kinds_ok : forall n, n ∈ nodes t -> specified (nkey n) ∈ kinds;
  uniq_ok : forall n n', n ∈ nodes t -> n' ∈ nodes t -> nkey n = nkey n' -> is_xkey (nkey n) = false -> n = n';
  range_ok : forall n, n ∈ nodes t -> 0 <= ndata n < 2 ^ 32 }.

(** The access vector of a key: that of its node, or what a missing node stands for. *)
Definition default_data (k : avkey) : Z := if specified k =? AVTAB_AUDITDENY then all_ones else 0.
Definition cell (t : avtab) (k : avkey) : Z :=
  match find (fun n => bool_decide (nkey n = k)) (nodes t) with
  | Some n => ndata n
  | None => default_data k
  end.

(** [t'] differs from [t] at most in the nodes of key [k]. *)
Definition same_except (k : avkey) (t t' : avtab) : Prop :=
  forall m, nkey m <> k -> (m ∈ nodes t' <-> m ∈ nodes t).

Section cells.
Context `{AvtabLaws}.
Implicit Types (t : avtab) (n : avnode) (k : avkey).

Lemma kinds_disjoint a b : a ∈ kinds -> b ∈ kinds -> Z.land a b <> 0 -> a = b.
Proof.
  assert (Hall : Forall (fun a => Forall (fun b => Z.land a b = 0 \/ a = b) kinds) kinds).
  { apply (bool_decide_unpack _). vm_compute. exact I. }
  rewrite Forall_forall in Hall. intros Ha Hb Hn. specialize (Hall a Ha). rewrite Forall_forall in Hall.
  by destruct (Hall b Hb).
Qed.

Lemma kinds_self a : a ∈ kinds -> Z.land a a <> 0.
Proof.
  revert a. apply Forall_forall. apply (bool_decide_unpack _). vm_compute. exact I.
Qed.

Lemma key_match_eq k n : specified k ∈ kinds -> specified (nkey n) ∈ kinds ->
  (key_match k n = true <-> nkey n = k).
Proof.
  intros Hk Hn. unfold key_match. rewrite !andb_true_iff, !Z.eqb_eq, negb_true_iff, Z.eqb_neq. split.
  - intros (((H1 & H2) & H3) & H4). destruct k, (nkey n); cbn in *. f_equal; try done.
    symmetry. by apply kinds_disjoint.
  - intros <-. split_and!; [done..|]. by apply kinds_self.
Qed.

Lemma cell_node t n : avtab_ok t -> n ∈ nodes t -> is_xkey (nkey n) = false -> cell t (nkey n) = ndata n.
Proof.
  intros Hok Hn Hx. unfold cell. destruct (find _ _) as [m|] eqn:E.
  - apply find_some in E as [Hm Em%bool_decide_eq_true]. f_equal. symmetry.
    apply (uniq_ok t Hok); [done|by apply list_elem_of_In|done..].
  - apply list_elem_of_In in Hn. apply (find_none _ _ E) in Hn. by rewrite bool_decide_eq_false in Hn.
Qed.

Lemma cell_none t k : (forall n, n ∈ nodes t -> nkey n <> k) -> cell t k = default_data k.
Proof.
  intros Hn. unfold cell. destruct (find _ _) as [m|] eqn:E; [|done].
  apply find_some in E as [Hm%list_elem_of_In Em%bool_decide_eq_true]. by destruct (Hn m Hm).
Qed.

Lemma cell_cases t k : avtab_ok t -> is_xkey k = false ->
  (exists n, n ∈ nodes t /\ nkey n = k /\ cell t k = ndata n) \/
  ((forall n, n ∈ nodes t -> nkey n <> k) /\ cell t k = default_data k).
Proof.
  intros Hok Hx. unfold cell. destruct (find _ _) as [m|] eqn:E.
  - apply find_some in E as [Hm%list_elem_of_In Em%bool_decide_eq_true]. left. by exists m.
  - right. split; [|done]. intros n Hn%list_elem_of_In Hk. apply (find_none _ _ E) in Hn.
    by rewrite bool_decide_eq_false in Hn.
Qed.

Lemma default_range k : 0 <= default_data k < 2 ^ 32.
Proof. unfold default_data, all_ones. case_match; lia. Qed.

Lemma cell_range t k : avtab_ok t -> 0 <= cell t k < 2 ^ 32.
Proof.
  intros Hok. unfold cell. destruct (find _ _) as [m|] eqn:E; [|apply default_range].
  apply find_some in E as [Hm%list_elem_of_In _]. by apply (range_ok t).
Qed.

Lemma cell_same t t' k k' : avtab_ok t -> avtab_ok t' -> same_except k t t' -> is_xkey k' = false -> k' <> k ->
  cell t' k' = cell t k'.
Proof.
  intros Hok Hok' Hs Hx Hne. destruct (cell_cases t k' Hok Hx) as [(n & Hn & <- & ->)|[Hn ->]].
  - apply cell_node; [done| |done]. by apply Hs.
  - apply cell_none. intros n Hn' <-. apply (Hn n); [|done]. by apply Hs.
Qed.

Lemma same_except_trans k t1 t2 t3 : same_except k t1 t2 -> same_except k t2 t3 -> same_except k t1 t3.
Proof. intros H12 H23 m Hm. rewrite (H23 m Hm). by apply H12. Qed.

(** *** Inserting, writing and removing *)

Lemma insert_node_ok t k : avtab_ok t -> specified k ∈ kinds ->
  (is_xkey k = false -> forall n, n ∈ nodes t -> nkey n <> k) ->
  exists t' id, insert_avtab_node t k = (t', id) /\ avtab_ok t' /\
    nodes t' ≡ₚ AvNode id k (default_data k) None :: nodes t.
Proof.
  intros [Hs Hk Hu Hr] Hkind Hnew. unfold insert_avtab_node. fold (default_data k).
  destruct (insert_ok t k (default_data k) Hs) as (t' & id & E & Hok & Hp). exists t', id.
  split; [done|]. split; [|done]. split; [done|..].
  - intros n. rewrite Hp. intros [->|Hn]%elem_of_cons; [done|by apply Hk].
  - intros n n'. rewrite Hp. intros [->|Hn]%elem_of_cons [->|Hn']%elem_of_cons Hkk Hx; [done|..].
    + by destruct (Hnew Hx n' Hn').
    + rewrite Hkk in Hx. by destruct (Hnew Hx n Hn).
    + by apply Hu.
  - intros n. rewrite Hp. intros [->|Hn]%elem_of_cons; [apply default_range|by apply Hr].
Qed.

Lemma get_node_ok t k : avtab_ok t -> plain_key k ->
  exists t' n, get_avtab_node t k None = Ret (t', nid n) /\ avtab_ok t' /\
    n ∈ nodes t' /\ nkey n = k /\ ndata n = cell t k /\ same_except k t t'.
Proof.
  intros Hok [Hkind Hx]. unfold get_avtab_node, find_avtab_node. unfold is_xkey in Hx. rewrite Hx.
  cbn [obind]. pose proof (search_ok t k (shape_ok t Hok)) as Hs.
  destruct (avtab_search_node t k) as [id|].
  - destruct Hs as (n & Hn & <- & Hm). apply key_match_eq in Hm; [|done|by apply (kinds_ok t)].
    exists t, n. split_and!; [done..| |done]. rewrite <- Hm. symmetry. apply cell_node; [done..|]. by rewrite Hm.
  - assert (Hnew : forall n, n ∈ nodes t -> nkey n <> k).
    { intros n Hn Hk. assert (key_match k n = true); [|by rewrite (Hs n Hn) in *].
      apply key_match_eq; [done|by apply (kinds_ok t)|done]. }
    destruct (insert_node_ok t k Hok Hkind (fun _ => Hnew)) as (t' & id & E & Hok' & Hp).
    exists t', (AvNode id k (default_data k) None). rewrite E. split_and!; [done..| |done| |].
    + rewrite Hp. set_solver.
    + cbn. by rewrite cell_none.
    + intros m Hm. rewrite Hp, elem_of_cons. split; [|by right]. by intros [->|].
Qed.

Lemma store_data_ok t n d : avtab_ok t -> n ∈ nodes t -> is_xkey (nkey n) = false -> 0 <= d < 2 ^ 32 ->
  avtab_ok (store (nid n) (set_data d) t) /\ set_data d n ∈ nodes (store (nid n) (set_data d) t) /\
  same_except (nkey n) t (store (nid n) (set_data d) t).
Proof.
  intros Hok Hn Hx Hd. set (g := fun m => if Nat.eqb (nid m) (nid n) then set_data d m else m).
  assert (Hg : forall m, nkey (g m) = nkey m) by (intros m; unfold g; case_match; done).
  assert (Hin : forall m, m ∈ nodes t -> nkey m <> nkey n -> g m = m).
  { intros m Hm Hk. unfold g. destruct (Nat.eqb_spec (nid m) (nid n)) as [E|]; [|done].
    destruct Hk. by rewrite (ids_inj t m n (shape_ok t Hok) Hm Hn E). }
  assert (Hmem : forall m, m ∈ nodes (store (nid n) (set_data d) t) <-> exists x, m = g x /\ x ∈ nodes t).
  { intros m. rewrite nodes_store. apply list_elem_of_fmap. }
  destruct Hok as [Hs Hk Hu Hr]. split_and!.
  - split.
    + by apply store_ok.
    + intros m (x & -> & Hm)%Hmem. rewrite Hg. by apply Hk.
    + intros m m' (x & -> & Hm)%Hmem (x' & -> & Hm')%Hmem. rewrite !Hg. intros E Hxk.
      by rewrite (Hu x x' Hm Hm' E Hxk).
    + intros m (x & -> & Hm)%Hmem. unfold g. case_match; [done|by apply Hr].
  - apply Hmem. exists n. split; [|done]. unfold g. by rewrite Nat.eqb_refl.
  - intros m Hm. rewrite Hmem. split.
    + intros (x & -> & Hx'). rewrite Hg in Hm. by rewrite Hin.
    + intros Hm'. exists m. by rewrite Hin.
Qed.

Lemma remove_node_ok t n : avtab_ok t -> n ∈ nodes t ->
  avtab_ok (avtab_remove_node t n).1 /\ (n ∉ nodes (avtab_remove_node t n).1) /\
  forall m, m <> n -> (m ∈ nodes (avtab_remove_node t n).1 <-> m ∈ nodes t).
Proof.
  intros [Hs Hk Hu Hr] Hn. destruct (remove_ok t n Hs Hn) as (_ & Hok & Hp).
  assert (Hsub : forall m, m ∈ nodes (avtab_remove_node t n).1 -> m ∈ nodes t)
    by (intros m Hm; rewrite Hp; by right).
  split_and!.
  - split; [done|..]; intros; [by apply Hk, Hsub|by apply Hu; [apply Hsub; done|apply Hsub; done|..]|by apply Hr, Hsub].
  - pose proof (ids_ok t Hs) as Hnd. rewrite Hp, fmap_cons, NoDup_cons in Hnd. intros Hin.
    apply Hnd. apply list_elem_of_fmap. by exists n.
  - intros m Hm. rewrite Hp. rewrite elem_of_cons. split; [by right|]. by intros [|].
Qed.
End cells.

(** ** One rule *)

Lemma land_range a b : 0 <= a < 2 ^ 32 -> 0 <= Z.land a b < 2 ^ 32.
Proof.
  intros Ha. assert (0 <= Z.land a b) by (apply Z.land_nonneg; lia).
  apply Z.bounded_iff_bits_nonneg'; [lia..|]. intros l Hl. rewrite Z.land_spec.
  rewrite (proj1 (Z.bounded_iff_bits_nonneg' 32 a ltac:(lia) ltac:(lia)) ltac:(lia)); done.
Qed.

Lemma lor_range a b : 0 <= a < 2 ^ 32 -> 0 <= b < 2 ^ 32 -> 0 <= Z.lor a b < 2 ^ 32.
Proof.
  intros Ha Hb. assert (0 <= Z.lor a b) by (apply Z.lor_nonneg; lia).
  apply Z.bounded_iff_bits_nonneg'; [lia..|]. intros l Hl. rewrite Z.lor_spec.
  rewrite (proj1 (Z.bounded_iff_bits_nonneg' 32 a ltac:(lia) ltac:(lia)) ltac:(lia) l Hl).
  by rewrite (proj1 (Z.bounded_iff_bits_nonneg' 32 b ltac:(lia) ltac:(lia)) ltac:(lia) l Hl).
Qed.

Lemma shiftl1_range p : 1 <= p <= 32 -> 0 <= Z.shiftl 1 (p - 1) < 2 ^ 32.
Proof.
  intros Hp. rewrite Z.shiftl_1_l. split; [apply Z.pow_nonneg; lia|]. apply Z.pow_lt_mono_r; lia.
Qed.

Definition perm_ok (perm : option Z) : Prop := match perm with Some p => 1 <= p <= 32 | None => True end.

Lemma rule_data_range perm invert d : perm_ok perm -> 0 <= d < 2 ^ 32 -> 0 <= rule_data perm invert d < 2 ^ 32.
Proof.
  intros Hp Hd. unfold rule_data, all_ones. destruct invert, perm as [p|]; [by apply land_range|lia| |lia].
  apply lor_range; [done|by apply shiftl1_range].
Qed.

(** The rule as the set of permission bits it is about and the value they get. *)
Definition rule_bit (perm : option Z) (i : Z) : bool := match perm with Some p => i =? p - 1 | None => true end.

Lemma rule_data_bits perm invert d i : perm_ok perm -> 0 <= i < 32 ->
  Z.testbit (rule_data perm invert d) i = if rule_bit perm i then negb invert else Z.testbit d i.
Proof.
  intros Hp Hi. unfold rule_data, rule_bit. destruct invert, perm as [p|].
  - unfold u32. rewrite Z.land_spec, Z.mod_pow2_bits_low, Z.lnot_spec, Z.shiftl_1_l, Z.pow2_bits_eqb by (cbn in Hp; lia).
    rewrite Z.eqb_sym. destruct (i =? p - 1); cbn; [apply andb_false_r|apply andb_true_r].
  - apply Z.bits_0.
  - rewrite Z.lor_spec, Z.shiftl_1_l, Z.pow2_bits_eqb by (cbn in Hp; lia).
    rewrite Z.eqb_sym. destruct (i =? p - 1); cbn; [apply orb_true_r|apply orb_false_r].
  - change all_ones with (Z.ones 32). rewrite Z.ones_spec_low; [done|lia].
Qed.

Section rules.
Context `{AvtabLaws}.
Implicit Types (t : avtab) (n : avnode) (k : avkey).

(** No node that says the same as no node. *)
Definition no_redundant t : Prop := forall n, n ∈ nodes t -> is_xkey (nkey n) = false -> is_redundant n = false.

Definition av_key k : Prop := specified k ∈ [AVTAB_ALLOWED; AVTAB_AUDITALLOW; AVTAB_AUDITDENY].

Lemma av_plain k : av_key k -> plain_key k.
Proof.
  unfold av_key, plain_key, is_xkey, kinds. destruct k as [s g c sp]; cbn.
  intros [->|[->|[->|[]%not_elem_of_nil]%elem_of_cons]%elem_of_cons]%elem_of_cons; split; try done; set_solver.
Qed.

Lemma redundant_default n : av_key (nkey n) -> is_redundant n = true -> ndata n = default_data (nkey n).
Proof.
  unfold av_key, is_redundant, default_data. destruct (nkey n) as [s g c sp]; cbn.
  intros [->|[->|[->|[]%not_elem_of_nil]%elem_of_cons]%elem_of_cons]%elem_of_cons; cbn; by intros ?%Z.eqb_eq.
Qed.

(** Applying a rule to one key never fails, keeps the table well formed, changes the
    access vector of that key only, and leaves no redundant node behind. *)
Lemma apply_rule_ok k perm invert t : avtab_ok t -> av_key k -> perm_ok perm ->
  exists t', apply_rule k perm invert t = Ret t' /\ avtab_ok t' /\ same_except k t t' /\
    cell t' k = rule_data perm invert (cell t k) /\
    forall n, n ∈ nodes t' -> nkey n = k -> is_redundant n = false.
Proof.
  intros Hok Hav Hp. unfold apply_rule. pose proof (av_plain k Hav) as Hpl.
  destruct (get_node_ok t k Hok Hpl) as (t1 & n & -> & Hok1 & Hn & <- & Hd & Hs1). cbn [obind].
  rewrite (deref_in t1 n (shape_ok t1 Hok1) Hn). set (d := rule_data perm invert (ndata n)).
  assert (Hdr : 0 <= d < 2 ^ 32) by (apply rule_data_range; [done|by apply (range_ok t1)]).
  destruct (store_data_ok t1 n d Hok1 Hn (proj2 Hpl) Hdr) as (Hok2 & Hn2 & Hs2).
  set (t2 := store (nid n) (set_data d) t1) in *.
  assert (Hs : same_except (nkey n) t t2) by (by eapply same_except_trans).
  rewrite <- Hd. fold d. destruct (is_redundant (set_data d n)) eqn:Er.
  - destruct (remove_node_ok t2 (set_data d n) Hok2 Hn2) as (Hok3 & Hgone & Hrest).
    assert (Hk3 : forall m, m ∈ nodes (avtab_remove_node t2 (set_data d n)).1 -> nkey m <> nkey n).
    { intros m Hm Hk. destruct (decide (m = set_data d n)) as [->|Hne]; [done|].
      apply Hne. apply Hrest in Hm; [|done]. apply (uniq_ok t2 Hok2); [done..|]. rewrite Hk. apply Hpl. }
    eexists. split_and!; [reflexivity|done|..].
    + intros m Hm. rewrite Hrest; [by apply Hs|]. intros ->. by apply Hm.
    + rewrite cell_none by done. symmetry. exact (redundant_default (set_data d n) Hav Er).
    + intros m Hm Hk. by destruct (Hk3 m Hm).
  - eexists. split_and!; [reflexivity|done..| |].
    + exact (cell_node t2 (set_data d n) Hok2 Hn2 (proj2 Hpl)).
    + intros m Hm Hk. rewrite (uniq_ok t2 Hok2 m (set_data d n)); [done..|]. rewrite Hk. apply Hpl.
Qed.
End rules.

(** ** A table library *)

(** The laws hold of a table that is searched from the front and extended at the
    front of a bucket. *)
Fixpoint after (id : nat) (l : list avnode) : option nat :=
  match l with
  | [] => None
  | n :: l => if Nat.eqb (nid n) id then nid <$> head l else after id l
  end.

#[global] Instance list_avtab : AvtabLib := {|
  avtab_hash k m := Z.to_nat ((source_type k + 4 * target_type k + 16 * target_class k) mod (Z.max 0 m + 1));
  avtab_insert_nonunique t k d :=
    let h := Z.to_nat ((source_type k + 4 * target_type k + 16 * target_class k) mod (Z.max 0 (mask t) + 1)) in
    let id := S (max_list (nid <$> nodes t)) in
    (AvTab (<[h := AvNode id k d None :: default [] (htable t !! h)]> (htable t)) (nel t + 1) (mask t), id);
  avtab_search_node t k := nid <$> head (filter (fun n => key_match k n = true) (nodes t));
  avtab_search_node_next t id spec :=
    n ← find (fun n => Nat.eqb (nid n) id) (nodes t);
    after id (filter (fun m => key_match (AvKey (source_type (nkey n)) (target_type (nkey n))
                                            (target_class (nkey n)) spec) m = true) (nodes t)) |}.

Lemma after_app l1 n l2 : NoDup (nid <$> (l1 ++ n :: l2)) -> after (nid n) (l1 ++ n :: l2) = nid <$> head l2.
Proof.
  induction l1 as [|x l1 IH]; cbn [app]; intros Hnd; cbn [after].
  - by rewrite Nat.eqb_refl.
  - rewrite fmap_cons, NoDup_cons in Hnd. destruct Hnd as [Hx Hnd].
    rewrite (proj2 (Nat.eqb_neq _ _)); [by apply IH|]. intros E. apply Hx. rewrite E.
    apply list_elem_of_fmap. exists n. set_solver.
Qed.

Lemma key_match_congr k n m : key_match k n = true ->
  key_match (AvKey (source_type (nkey n)) (target_type (nkey n)) (target_class (nkey n)) (specified k)) m = key_match k m.
Proof.
  unfold key_match. rewrite !andb_true_iff, !Z.eqb_eq. intros (((-> & ->) & ->) & _). done.
Qed.

Lemma nodup_filter (P : avnode -> Prop) `{!forall n, Decision (P n)} l :
  NoDup (nid <$> l) -> NoDup (nid <$> filter P l).
Proof.
  induction l as [|x l IH]; [done|]. rewrite fmap_cons, NoDup_cons, filter_cons. intros [Hx Hl].
  case_decide; [|auto]. rewrite fmap_cons, NoDup_cons. split; [|auto].
  intros (y & Ey & Hy)%list_elem_of_fmap. apply Hx, list_elem_of_fmap. exists y.
  apply list_elem_of_filter in Hy. tauto.
Qed.

Lemma list_avtab_chain t k l1 n l2 : table_ok t -> filter (fun n => key_match k n = true) (nodes t) = l1 ++ n :: l2 ->
  next_chain t (specified k) (nid n) l2.
Proof.
  intros Hok. revert l1 n. induction l2 as [|m l2 IH]; intros l1 n E.
  - cbn. assert (Hn : n ∈ filter (fun n => key_match k n = true) (nodes t)) by (rewrite E; set_solver).
    apply list_elem_of_filter in Hn as [Hm Hn].
    pose proof (deref_in t n Hok Hn) as Hd. unfold deref in Hd. rewrite Hd. cbn.
    rewrite (list_filter_iff _ (fun n => key_match k n = true)), E by (intros; by rewrite key_match_congr).
    apply after_app. rewrite <- E. apply nodup_filter. apply (ids_ok t Hok).
  - assert (Hn : n ∈ filter (fun n => key_match k n = true) (nodes t)) by (rewrite E; set_solver).
    apply list_elem_of_filter in Hn as [Hm Hn]. cbn [next_chain]. split.
    + cbn. pose proof (deref_in t n Hok Hn) as Hd. unfold deref in Hd. rewrite Hd. cbn.
      rewrite (list_filter_iff _ (fun n => key_match k n = true)), E by (intros; by rewrite key_match_congr).
      rewrite after_app; [done|]. rewrite <- E. apply nodup_filter. apply (ids_ok t Hok).
    + apply (IH (l1 ++ [n])). by rewrite <- app_assoc.
Qed.

#[global] Instance list_avtab_laws : AvtabLaws.
Proof.
  split.
  - intros t k d Hok. pose proof (slots_ok t Hok k) as Hh. apply lookup_lt_is_Some_2 in Hh as [b Hb].
    exists (S (max_list (nid <$> nodes t))), [], b. split; [exact Hb|]. split.
    + intros Hin. apply max_list_elem_of_le in Hin. lia.
    + cbn in Hb |- *. by rewrite Hb.
  - intros t k Hok. exists (filter (fun n => key_match k n = true) (nodes t)). split_and!.
    + destruct (filter _ (nodes t)) as [|n l] eqn:E; cbn; rewrite E; [done|]. split; [done|].
      by apply (list_avtab_chain t k []).
    + apply NoDup_filter. apply (NoDup_fmap_1 nid). apply (ids_ok t Hok).
    + intros n. rewrite list_elem_of_filter. tauto.
Qed.

(** The empty table of four buckets. *)
Definition empty_avtab : avtab := AvTab [[]; []; []; []] 0 3.

Lemma empty_avtab_ok : avtab_ok empty_avtab.
Proof.
  split; [split|..]; try (intros n Hn; by apply not_elem_of_nil in Hn).
  - constructor.
  - intros i b n Hb Hn. do 4 (destruct i as [|i]; [injection Hb as <-; by apply not_elem_of_nil in Hn|]). destruct i; discriminate Hb.
  - intros k. change (Z.to_nat ((source_type k + 4 * target_type k + 16 * target_class k) mod 4) < 4)%nat.
    pose proof (Z.mod_pos_bound (source_type k + 4 * target_type k + 16 * target_class k) 4 eq_refl). lia.
  - done.
  - intros n n' Hn. by apply not_elem_of_nil in Hn.
Qed.

(** ** Stripping *)

Section strip.
Context `{AvtabLib}.

Definition stripped (n : avnode) : bool :=
  (specified (nkey n) =? AVTAB_AUDITDENY) || (specified (nkey n) =? AVTAB_XPERMS_DONTAUDIT).

(** [strip_dontaudit] removes exactly the dontaudit rules, plain and extended, and
    keeps the hash table and its element count right although it removes nodes while
    walking the buckets. *)
Theorem strip_dontaudit_spec t : avtab_ok t -> avtab_ok (strip_dontaudit t) /\
  forall n, n ∈ nodes (strip_dontaudit t) <-> n ∈ nodes t /\ stripped n = false.
Proof.
  intros Hok. unfold strip_dontaudit.
  assert (Hgen : forall l t', avtab_ok t' -> NoDup l -> (forall n, n ∈ l -> n ∈ nodes t') ->
    avtab_ok (foldl strip_node t' l) /\
    forall n, n ∈ nodes (foldl strip_node t' l) <-> n ∈ nodes t' /\ (n ∈ l -> stripped n = false)).
  { induction l as [|x l IH]; intros t' Hok' Hnd Hin; [split; [done|]; set_solver|].
    apply NoDup_cons in Hnd as [Hx Hnd]. cbn [foldl]. unfold strip_node at 2 4. fold (stripped x).
    destruct (stripped x) eqn:Es.
    - destruct (remove_node_ok t' x Hok' (Hin x ltac:(set_solver))) as (Hok1 & Hgone & Hrest).
      destruct (IH (avtab_remove_node t' x).1 Hok1 Hnd) as [Hok2 Hn2].
      { intros n Hn. apply Hrest; [by intros ->|]. apply Hin. set_solver. }
      split; [done|]. intros n. rewrite Hn2. destruct (decide (n = x)) as [->|Hne].
      + split; [by intros [? _]|]. intros [_ Hs]. rewrite Hs in Es by set_solver. done.
      + rewrite Hrest by done. rewrite elem_of_cons. naive_solver.
    - destruct (IH t' Hok' Hnd) as [Hok2 Hn2]; [intros n Hn; apply Hin; set_solver|].
      split; [done|]. intros n. rewrite Hn2, elem_of_cons. naive_solver. }
  destruct (Hgen (nodes t) t Hok) as [H1 H2]; [|done|].
  - apply (NoDup_fmap_1 nid), ids_ok, Hok.
  - split; [done|]. intros n. rewrite H2. tauto.
Qed.
End strip.

(** A table with an allow and a dontaudit rule. *)
Definition two_rules : avtab :=
  match (let! t := apply_rule (AvKey 2 1 1 AVTAB_ALLOWED) (Some 1) false empty_avtab in
         apply_rule (AvKey 2 1 1 AVTAB_AUDITDENY) (Some 2) true t) with Ret t => t | _ => empty_avtab end.

Lemma two_rules_ok : avtab_ok two_rules.
Proof.
  unfold two_rules.
  destruct (apply_rule_ok (AvKey 2 1 1 AVTAB_ALLOWED) (Some 1) false empty_avtab empty_avtab_ok) as (t1 & -> & H1 & _);
    [apply (bool_decide_unpack (_ ∈ _)); exact I|cbn; lia|]. cbn [obind].
  destruct (apply_rule_ok (AvKey 2 1 1 AVTAB_AUDITDENY) (Some 2) true t1 H1) as (t2 & -> & H2 & _);
    [apply (bool_decide_unpack (_ ∈ _)); exact I|cbn; lia|done].
Qed.

Lemma strip_dontaudit_spec_witness :
  avtab_ok (strip_dontaudit two_rules) /\ nkey <$> nodes (strip_dontaudit two_rules) = [AvKey 2 1 1 AVTAB_ALLOWED].
Proof.
  split; [exact (proj1 (strip_dontaudit_spec two_rules two_rules_ok))|]. vm_compute. reflexivity.
Defined.
