(* ===== verification/Sepolicy.v ===== *)
(** Policy rules: the statements of [native/src/sepolicy/sepolicy.cpp] over a whole
    policy, and the expansion of statements over lists of names of
    [native/src/sepolicy/api.cpp].  Symbol tables are lists in the order
    [hashtab_for_each] visits them; [hashtab_search] is libsepol's and a parameter. *)

From S2P Require Import Prelude Base Avtab.

(** ** Symbols *)

Definition TYPE_TYPE : Z := 0.
Definition TYPE_ATTRIB : Z := 1.

Record type_datum := TypeDatum { t_value : Z; t_flavor : Z }.
(** A class: its permissions and those of its common class, if it has one. *)
Record class_datum := ClassDatum {
  c_value : Z; c_perms : list (bytes * Z); c_common : option (list (bytes * Z)) }.

Class Hashtab := hashtab_search : forall D : Type, list (bytes * D) -> bytes -> option D.
Arguments hashtab_search {_ D} tab key.
Class HashtabLaws `{Hashtab} : Prop :=
  hashtab_search_spec : forall D (tab : list (bytes * D)) key d, NoDup tab.*1 ->
    (hashtab_search tab key = Some d <-> (key, d) ∈ tab).

(** [copy_str] into an array of 256 characters, read back as a C string. *)
Definition copy_str (src : bytes) : bytes := cstr (take 255 src).

Section policy.
Context `{AvtabLib, Hashtab}.

Definition hashtab_find {D} (tab : list (bytes * D)) (key : bytes) : option D :=
  hashtab_search tab (copy_str key).

Record symbols := Symbols { p_types : list (bytes * type_datum); p_classes : list (bytes * class_datum) }.

(** [list_for_each], [hash_for_each]: the function may change the state. *)
Fixpoint for_each {A S} (f : A -> S -> outcome S) (l : list A) (s : S) : outcome S :=
  match l with [] => Ret s | a :: l => let! s := f a s in for_each f l s end.

Definition hashtab_for_each {D S} (tab : list (bytes * D)) (f : D -> S -> outcome S) (s : S) : outcome S :=
  for_each (fun n => f n.2) tab s.
Definition for_each_attr {S} (tab : list (bytes * type_datum)) (f : type_datum -> S -> outcome S) (s : S) : outcome S :=
  hashtab_for_each tab (fun d s => if t_flavor d =? TYPE_ATTRIB then f d s else Ret s) s.

(** [strip_av]: removing what rules say. *)
Definition strip_av (effect : Z) (invert : bool) : bool := Bool.eqb (effect =? AVTAB_AUDITDENY) (negb invert).

(** [add_rule] on data: each null argument iterates, from the first to the last. *)
Definition add_rule_cls (db : symbols) (src tgt : type_datum) (cls : option class_datum) (perm : option Z)
  (effect : Z) (invert : bool) (t : avtab) : outcome avtab :=
  let leaf c := apply_rule (AvKey (t_value src) (t_value tgt) (c_value c) effect) perm invert in
  match cls with
  | None => hashtab_for_each (p_classes db) leaf t
  | Some c => leaf c t
  end.

Definition for_each_type {S} (db : symbols) (effect : Z) (invert : bool) (f : type_datum -> S -> outcome S) (s : S)
  : outcome S :=
  if strip_av effect invert then hashtab_for_each (p_types db) f s else for_each_attr (p_types db) f s.

Definition add_rule_tgt (db : symbols) (src : type_datum) (tgt : option type_datum) (cls : option class_datum)
  (perm : option Z) (effect : Z) (invert : bool) (t : avtab) : outcome avtab :=
  match tgt with
  | None => for_each_type db effect invert (fun d => add_rule_cls db src d cls perm effect invert) t
  | Some d => add_rule_cls db src d cls perm effect invert t
  end.

Definition add_rule (db : symbols) (src tgt : option type_datum) (cls : option class_datum)
  (perm : option Z) (effect : Z) (invert : bool) (t : avtab) : outcome avtab :=
  match src with
  | None => for_each_type db effect invert (fun d => add_rule_tgt db d tgt cls perm effect invert) t
  | Some s => add_rule_tgt db s tgt cls perm effect invert t
  end.

(** Looking up an optional name: an empty one is a wildcard. *)
Definition find_opt {D} (tab : list (bytes * D)) (name : bytes) : option (option D) :=
  match name with
  | [] => Some None
  | _ => match hashtab_find tab name with Some d => Some (Some d) | None => None end
  end.

Definition find_perm (c : class_datum) (p : bytes) : option Z :=
  match hashtab_find (c_perms c) p with
  | Some v => Some v
  | None => match c_common c with Some common => hashtab_find common p | None => None end
  end.

(** [add_rule] on names; the boolean is the result. *)
Definition add_rule_str (db : symbols) (s t c p : bytes) (effect : Z) (invert : bool) (av : avtab)
  : outcome (avtab * bool) :=
  match find_opt (p_types db) s with
  | None => Ret (av, false)
  | Some src =>
    match find_opt (p_types db) t with
    | None => Ret (av, false)
    | Some tgt =>
      match find_opt (p_classes db) c with
      | None => Ret (av, false)
      | Some cls =>
        match p with
        | [] => let! av := add_rule db src tgt cls None effect invert av in Ret (av, true)
        | _ =>
          match cls with
          | None => Ret (av, false)
          | Some cd =>
            match find_perm cd p with
            | None => Ret (av, false)
            | Some v => let! av := add_rule db src tgt cls (Some v) effect invert av in Ret (av, true)
            end
          end
        end
      end
    end
  end.

(** [add_type_rule] *)
Definition add_type_rule (db : symbols) (s t c d : bytes) (effect : Z) (av : avtab) : outcome (avtab * bool) :=
  match hashtab_find (p_types db) s, hashtab_find (p_types db) t,
        hashtab_find (p_classes db) c, hashtab_find (p_types db) d with
  | Some src, Some tgt, Some cls, Some def =>
    let! av := apply_type_rule (AvKey (t_value src) (t_value tgt) (c_value cls) effect) (t_value def) av in
    Ret (av, true)
  | _, _, _, _ => Ret (av, false)
  end.

(** *** Statements over lists of names *)

(** [expand] of a vector: an empty one stands for the empty name. *)
Definition expand {S} (vec : list bytes) (f : bytes -> S -> outcome S) (s : S) : outcome S :=
  match vec with [] => f [] s | _ => for_each f vec s end.

Definition av_statement (db : symbols) (effect : Z) (invert : bool) (src tgt cls perm : list bytes) (av : avtab)
  : outcome avtab :=
  expand src (fun s => expand tgt (fun t => expand cls (fun c => expand perm (fun p av =>
    let! (av, _) := add_rule_str db s t c p effect invert av in Ret av)))) av.

Definition allow (db : symbols) := av_statement db AVTAB_ALLOWED false.
Definition deny (db : symbols) := av_statement db AVTAB_ALLOWED true.
Definition auditallow (db : symbols) := av_statement db AVTAB_AUDITALLOW false.
Definition dontaudit (db : symbols) := av_statement db AVTAB_AUDITDENY true.

Definition type_change (db : symbols) (s t c d : bytes) (av : avtab) : outcome avtab :=
  let! (av, _) := add_type_rule db s t c d AVTAB_CHANGE av in Ret av.
Definition type_member (db : symbols) (s t c d : bytes) (av : avtab) : outcome avtab :=
  let! (av, _) := add_type_rule db s t c d AVTAB_MEMBER av in Ret av.
End policy.

(** ** The rules as a set of keys *)

Section keys.
Context `{AvtabLaws, Hashtab}.

(** The types and classes a null argument stands for. *)
Definition wild_types (db : symbols) (effect : Z) (invert : bool) : list type_datum :=
  if strip_av effect invert then (p_types db).*2
  else filter (fun d => t_flavor d = TYPE_ATTRIB) (p_types db).*2.
Definition choose {D} (o : option D) (all : list D) : list D := match o with Some d => [d] | None => all end.

(** The keys of all combinations, in the order of the iterations. *)
Definition keys_of (ss ts : list type_datum) (cs : list class_datum) (effect : Z) : list avkey :=
  s ← ss; t ← ts; c ← cs; [AvKey (t_value s) (t_value t) (c_value c) effect].
Definition rule_keys (db : symbols) (src tgt : option type_datum) (cls : option class_datum)
  (effect : Z) (invert : bool) : list avkey :=
  keys_of (choose src (wild_types db effect invert)) (choose tgt (wild_types db effect invert))
    (choose cls (p_classes db).*2) effect.

Lemma keys_of_spec ss ts cs effect k : k ∈ keys_of ss ts cs effect <->
  specified k = effect /\ source_type k ∈ t_value <$> ss /\ target_type k ∈ t_value <$> ts /\
  target_class k ∈ c_value <$> cs.
Proof.
  unfold keys_of. rewrite !list_elem_of_fmap. split.
  - intros (s & Hk & Hs)%list_elem_of_bind. apply list_elem_of_bind in Hk as (g & Hk & Hg).
    apply list_elem_of_bind in Hk as (c & Hk & Hc). apply list_elem_of_singleton in Hk as ->. cbn. eauto 10.
  - destruct k as [ks kt kc ke]; cbn. intros (-> & (s & -> & Hs) & (g & -> & Hg) & (c & -> & Hc)).
    apply list_elem_of_bind. exists s. split; [|done]. apply list_elem_of_bind. exists g. split; [|done].
    apply list_elem_of_bind. exists c. split; [|done]. by apply list_elem_of_singleton.
Qed.

Lemma for_each_app {A S} (f : A -> S -> outcome S) l k s :
  for_each f (l ++ k) s = let! s := for_each f l s in for_each f k s.
Proof. revert s. induction l as [|a l IH]; intros s; [done|]. cbn. destruct (f a s); cbn; auto. Qed.

Lemma for_each_bind {A B S} (f : B -> S -> outcome S) (g : A -> list B) l s :
  for_each f (l ≫= g) s = for_each (fun a => for_each f (g a)) l s.
Proof.
  revert s. induction l as [|a l IH]; intros s; [done|].
  rewrite bind_cons, for_each_app. cbn. apply obind_ext. intros s'. apply IH.
Qed.

Lemma for_each_ext {A S} (f g : A -> S -> outcome S) l s : (forall a s, f a s = g a s) -> for_each f l s = for_each g l s.
Proof. intros Hfg. revert s. induction l as [|a l IH]; intros s; [done|]. cbn. rewrite Hfg. by apply obind_ext. Qed.

Lemma for_each_one {A S} (f : A -> S -> outcome S) a s : for_each f [a] s = f a s.
Proof. cbn. by destruct (f a s). Qed.

Lemma for_each_fmap {A B S} (f : B -> S -> outcome S) (g : A -> B) l s :
  for_each f (g <$> l) s = for_each (fun a => f (g a)) l s.
Proof. revert s. induction l as [|a l IH]; intros s; [done|]. cbn. by apply obind_ext. Qed.

Lemma for_each_filter {A S} (f : A -> S -> outcome S) (P : A -> Prop) `{!forall a, Decision (P a)} l s :
  for_each f (filter P l) s = for_each (fun a s => if decide (P a) then f a s else Ret s) l s.
Proof.
  revert s. induction l as [|a l IH]; intros s; [done|]. rewrite filter_cons. cbn.
  destruct (decide (P a)); cbn; [by apply obind_ext|apply IH].
Qed.

Lemma for_each_attr_filter {S} tab (f : type_datum -> S -> outcome S) s :
  for_each_attr tab f s = for_each f (filter (fun d => t_flavor d = TYPE_ATTRIB) tab.*2) s.
Proof.
  unfold for_each_attr, hashtab_for_each. rewrite for_each_filter, for_each_fmap.
  apply for_each_ext. intros [nm d] s'. cbn.
  destruct (Z.eqb_spec (t_flavor d) TYPE_ATTRIB), (decide (t_flavor d = TYPE_ATTRIB)); done.
Qed.

Lemma for_each_type_wild {S} db effect invert (f : type_datum -> S -> outcome S) s :
  for_each_type db effect invert f s = for_each f (wild_types db effect invert) s.
Proof.
  unfold for_each_type, wild_types. case_match; [|apply for_each_attr_filter].
  unfold hashtab_for_each. by rewrite for_each_fmap.
Qed.

Lemma for_each_choose {D S} (o : option D) all (f : D -> S -> outcome S) s :
  for_each f (choose o all) s = match o with Some d => f d s | None => for_each f all s end.
Proof. destruct o; [apply for_each_one|done]. Qed.

Lemma for_each_keys {S} (f : avkey -> S -> outcome S) ss ts cs effect s :
  for_each f (keys_of ss ts cs effect) s =
  for_each (fun a => for_each (fun b => for_each (fun c =>
    f (AvKey (t_value a) (t_value b) (c_value c) effect)) cs) ts) ss s.
Proof.
  unfold keys_of. rewrite for_each_bind. apply for_each_ext. intros a s1.
  rewrite for_each_bind. apply for_each_ext. intros b s2.
  rewrite for_each_bind. apply for_each_ext. intros c s3. apply for_each_one.
Qed.

(** [add_rule] applies the rule once to each key of the product, in order. *)
Lemma add_rule_keys db src tgt cls perm effect invert t :
  add_rule db src tgt cls perm effect invert t =
  for_each (fun k => apply_rule k perm invert) (rule_keys db src tgt cls effect invert) t.
Proof.
  unfold rule_keys, add_rule, add_rule_tgt, add_rule_cls, hashtab_for_each. rewrite for_each_keys, for_each_choose.
  destruct src as [a|]; rewrite ?for_each_type_wild; [|apply for_each_ext; intros a t1];
    rewrite for_each_choose; destruct tgt as [b|]; rewrite ?for_each_type_wild; try (apply for_each_ext; intros b t2);
    rewrite for_each_choose; destruct cls as [c|]; rewrite ?for_each_fmap; done.
Qed.

(** What a rule does to the table: [ks] are the keys it is about. *)
Record rule_effect (ks : list avkey) (perm : option Z) (invert : bool) (t t' : avtab) : Prop := RuleEffect {
  re_ok : avtab_ok t';
  re_frame : forall m, nkey m ∉ ks -> (m ∈ nodes t' <-> m ∈ nodes t);
  re_bits : forall k i, k ∈ ks -> 0 <= i < 32 ->
    Z.testbit (cell t' k) i = if rule_bit perm i then negb invert else Z.testbit (cell t k) i;
  re_normal : forall n, n ∈ nodes t' -> nkey n ∈ ks -> is_redundant n = false }.

Lemma apply_rules_effect ks perm invert t : avtab_ok t -> Forall av_key ks -> perm_ok perm ->
  exists t', for_each (fun k => apply_rule k perm invert) ks t = Ret t' /\ rule_effect ks perm invert t t'.
Proof.
  intros Hok Hks Hp. revert t Hok. induction Hks as [|k ks Hk Hks IH]; intros t Hok.
  { exists t. split; [done|]. split; [done|done|..]; intros; by set_solver. }
  destruct (apply_rule_ok k perm invert t Hok Hk Hp) as (t1 & E1 & Hok1 & Hs1 & Hc1 & Hn1).
  destruct (IH t1 Hok1) as (t2 & E2 & [Hok2 Hf2 Hb2 Hn2]). exists t2. cbn. rewrite E1. split; [done|].
  assert (Hx : forall k', k' ∈ k :: ks -> is_xkey k' = false).
  { intros k' Hk'. apply av_plain. assert (Hav : Forall av_key (k :: ks)) by by constructor.
    rewrite Forall_forall in Hav. by apply Hav. }
  assert (Hcell : forall k', k' ∉ ks -> is_xkey k' = false -> cell t2 k' = cell t1 k').
  { intros k' Hk' Hx'. destruct (cell_cases t1 k' Hok1 Hx') as [(n & Hn & <- & ->)|[Hn ->]].
    - apply cell_node; [done| |done]. by apply Hf2.
    - apply cell_none. intros n Hn' <-. apply (Hn n); [|done]. by apply Hf2. }
  split; [done|..].
  - intros m Hm. rewrite Hf2 by set_solver. apply Hs1. set_solver.
  - intros k' i Hk' Hi. destruct (decide (k' ∈ ks)) as [Hin|Hnin].
    + rewrite (Hb2 k' i Hin Hi). destruct (decide (k' = k)) as [->|Hne].
      * rewrite Hc1, rule_data_bits by done. by destruct (rule_bit perm i).
      * rewrite (cell_same t t1 k k') by auto. done.
    + assert (k' = k) as -> by set_solver. rewrite Hcell by auto. by rewrite Hc1, rule_data_bits.
  - intros n Hn Hk'. destruct (decide (nkey n ∈ ks)) as [Hin|Hnin]; [by apply Hn2|].
    apply Hn1; [by apply Hf2|set_solver].
Qed.
End keys.

(** ** Rules by name *)

(** A policy's symbol tables have distinct names, and permissions have values that
    fit an access vector. *)
Record db_ok (db : symbols) : Prop := DbOk {
  types_nodup : NoDup (p_types db).*1;
  classes_nodup : NoDup (p_classes db).*1;
  perms_ok : forall n c, (n, c) ∈ p_classes db ->
    NoDup (c_perms c).*1 /\ Forall (fun p => 1 <= p.2 <= 32) (c_perms c) /\
    forall l, c_common c = Some l -> NoDup l.*1 /\ Forall (fun p => 1 <= p.2 <= 32) l }.

Section names.
Context `{AvtabLaws, HashtabLaws}.
Implicit Types (db : symbols) (av : avtab).

(** What the four names of a rule denote, if they denote anything: an empty name is a
    wildcard, and a permission needs a class. *)
Definition resolve db (s t c p : bytes) : option (option type_datum * option type_datum * option class_datum * option Z) :=
  src ← find_opt (p_types db) s; tgt ← find_opt (p_types db) t; cls ← find_opt (p_classes db) c;
  match p, cls with
  | [], _ => Some (src, tgt, cls, None)
  | _, Some cd => v ← find_perm cd p; Some (src, tgt, cls, Some v)
  | _, None => None
  end.

Lemma find_perm_range db n c p v : db_ok db -> (n, c) ∈ p_classes db -> find_perm c p = Some v -> 1 <= v <= 32.
Proof.
  intros Hdb Hc. destruct (perms_ok db Hdb n c Hc) as (Hnd & Hr & Hcom). unfold find_perm, hashtab_find.
  rewrite Forall_forall in Hr.
  destruct (hashtab_search (c_perms c) (copy_str p)) as [w|] eqn:E.
  - intros [= <-]. apply hashtab_search_spec in E; [|done]. by apply Hr in E.
  - destruct (c_common c) as [l|]; [|done]. intros E'. destruct (Hcom l eq_refl) as [Hnd' Hr'].
    rewrite Forall_forall in Hr'. apply hashtab_search_spec in E'; [|done]. by apply Hr' in E'.
Qed.

Lemma find_class_in db c cd : db_ok db -> find_opt (p_classes db) c = Some (Some cd) -> exists n, (n, cd) ∈ p_classes db.
Proof.
  intros Hdb. unfold find_opt, hashtab_find. destruct c; [done|]. destruct (hashtab_search _ _) eqn:E; [|done].
  intros [= <-]. apply hashtab_search_spec in E; [|apply Hdb]. eauto.
Qed.

Lemma resolve_perm db s t c p src tgt cls perm : db_ok db -> resolve db s t c p = Some (src, tgt, cls, perm) -> perm_ok perm.
Proof.
  intros Hdb. unfold resolve. destruct (find_opt (p_types db) s) as [o1|]; [|done]. cbn.
  destruct (find_opt (p_types db) t) as [o2|]; [|done]. cbn.
  destruct (find_opt (p_classes db) c) as [o|] eqn:Ec; [|done]. cbn.
  destruct p as [|x p]; [by intros [= <- <- <- <-]|]. destruct o as [cd|]; [|done]. cbn.
  destruct (find_perm cd (x :: p)) eqn:Ep; [|done]. intros [= <- <- <- <-].
  destruct (find_class_in db c cd Hdb Ec) as [n Hn]. by eapply find_perm_range.
Qed.

Lemma rule_keys_spec db src tgt cls effect invert k :
  k ∈ rule_keys db src tgt cls effect invert <->
  specified k = effect /\
  source_type k ∈ t_value <$> choose src (wild_types db effect invert) /\
  target_type k ∈ t_value <$> choose tgt (wild_types db effect invert) /\
  target_class k ∈ c_value <$> choose cls (p_classes db).*2.
Proof. apply keys_of_spec. Qed.

Lemma add_rule_effect db src tgt cls perm effect invert av : avtab_ok av ->
  effect ∈ [AVTAB_ALLOWED; AVTAB_AUDITALLOW; AVTAB_AUDITDENY] -> perm_ok perm ->
  exists av', add_rule db src tgt cls perm effect invert av = Ret av' /\
    rule_effect (rule_keys db src tgt cls effect invert) perm invert av av'.
Proof.
  intros Hok He Hp. rewrite add_rule_keys. apply apply_rules_effect; [done| |done].
  apply Forall_forall. intros k Hk. apply rule_keys_spec in Hk as [<- _]. done.
Qed.

Lemma add_rule_str_effect db s t c p effect invert av : avtab_ok av -> db_ok db ->
  effect ∈ [AVTAB_ALLOWED; AVTAB_AUDITALLOW; AVTAB_AUDITDENY] ->
  match resolve db s t c p with
  | None => add_rule_str db s t c p effect invert av = Ret (av, false)
  | Some (src, tgt, cls, perm) =>
    exists av', add_rule_str db s t c p effect invert av = Ret (av', true) /\
      rule_effect (rule_keys db src tgt cls effect invert) perm invert av av'
  end.
Proof.
  intros Hok Hdb He. destruct (resolve db s t c p) as [[[[src tgt] cls] perm]|] eqn:Er.
  - pose proof (resolve_perm _ _ _ _ _ _ _ _ _ Hdb Er) as Hp.
    destruct (add_rule_effect db src tgt cls perm effect invert av Hok He Hp) as (av' & Ea & Heff).
    exists av'. split; [|done]. revert Er. unfold resolve, add_rule_str.
    destruct (find_opt (p_types db) s) as [o1|]; [|done]. cbn. destruct (find_opt (p_types db) t) as [o2|]; [|done]. cbn.
    destruct (find_opt (p_classes db) c) as [o|]; [|done]. cbn.
    destruct p as [|x p]; [intros [= -> -> -> ->]; by rewrite Ea|]. destruct o as [cd|]; [|done]. cbn.
    destruct (find_perm cd (x :: p)); [|done]. intros [= -> -> <- <-]. by rewrite Ea.
  - revert Er. unfold resolve, add_rule_str.
    destruct (find_opt (p_types db) s) as [o1|]; [|done]. cbn. destruct (find_opt (p_types db) t) as [o2|]; [|done]. cbn.
    destruct (find_opt (p_classes db) c) as [o|]; [|done]. cbn.
    destruct p as [|x p]; [done|]. destruct o as [cd|]; [|done]. cbn. by destruct (find_perm cd (x :: p)).
Qed.

(** C4: [add_rule] refines the rule table of a policy.  When the names exist it
    succeeds, and the table afterwards is the one in which exactly the permission bits
    of the rule, for exactly the keys the names and wildcards stand for, have the value
    the rule gives them; nodes of other keys are the same nodes, the hash table is still
    well formed, and no node that says nothing is left among the rule's keys.  When a
    name is unknown nothing changes and the result is false. *)
Theorem add_rule_refines db s t c p effect invert av : avtab_ok av -> db_ok db ->
  effect ∈ [AVTAB_ALLOWED; AVTAB_AUDITALLOW; AVTAB_AUDITDENY] ->
  match resolve db s t c p with
  | None => add_rule_str db s t c p effect invert av = Ret (av, false)
  | Some (src, tgt, cls, perm) =>
    exists av', add_rule_str db s t c p effect invert av = Ret (av', true) /\
      rule_effect (rule_keys db src tgt cls effect invert) perm invert av av'
  end.
Proof. apply add_rule_str_effect. Qed.

(** *** What the kernel decides *)

(** Access of types [s] to [g]: a rule for some pair of their attributes ([attrs v]
    holds the attributes of type [v] and [v] itself). *)
Definition granted (attrs : Z -> list Z) av (s g c i : Z) : Prop :=
  exists a b, a ∈ attrs s /\ b ∈ attrs g /\ Z.testbit (cell av (AvKey a b c AVTAB_ALLOWED)) i = true.

(** Wildcards of [deny] and [allow].  Denying a permission for all sources and
    targets leaves no type with access, whatever rules there were for types or
    attributes.  Allowing it for all sources and targets, which only adds rules for
    attributes, gives access to every pair of types that have an attribute each. *)
Theorem wildcard_rules db c p av attrs cd v : avtab_ok av -> db_ok db ->
  find_opt (p_classes db) c = Some (Some cd) -> p <> [] -> find_perm cd p = Some v ->
  (forall s a, a ∈ attrs s -> a ∈ t_value <$> (p_types db).*2) ->
  (exists av', add_rule_str db [] [] c p AVTAB_ALLOWED true av = Ret (av', true) /\
     forall s g, ~ granted attrs av' s g (c_value cd) (v - 1)) /\
  (exists av', add_rule_str db [] [] c p AVTAB_ALLOWED false av = Ret (av', true) /\
     forall s g a b, a ∈ attrs s -> b ∈ attrs g ->
       a ∈ t_value <$> wild_types db AVTAB_ALLOWED false -> b ∈ t_value <$> wild_types db AVTAB_ALLOWED false ->
       granted attrs av' s g (c_value cd) (v - 1)).
Proof.
  intros Hok Hdb Hc Hp Hv Hat.
  destruct (find_class_in db c cd Hdb Hc) as [n Hn]. pose proof (find_perm_range db n cd p v Hdb Hn Hv) as Hr.
  assert (He : AVTAB_ALLOWED ∈ [AVTAB_ALLOWED; AVTAB_AUDITALLOW; AVTAB_AUDITDENY]) by set_solver.
  assert (Hres : resolve db [] [] c p = Some (None, None, Some cd, Some v)).
  { unfold resolve. cbn. rewrite Hc. cbn. destruct p; [done|]. by rewrite Hv. }
  assert (Hbit : rule_bit (Some v) (v - 1) = true) by apply Z.eqb_refl.
  split.
  - pose proof (add_rule_str_effect db [] [] c p AVTAB_ALLOWED true av Hok Hdb He) as H'. rewrite Hres in H'.
    destruct H' as (av' & E & [_ _ Hb _]). exists av'. split; [done|].
    intros s g (a & b & Ha & Hb' & Hbt). rewrite Hb, Hbit in Hbt; [done| |lia].
    apply rule_keys_spec. cbn. split_and!; [done|by eapply Hat..|set_solver].
  - pose proof (add_rule_str_effect db [] [] c p AVTAB_ALLOWED false av Hok Hdb He) as H'. rewrite Hres in H'.
    destruct H' as (av' & E & [_ _ Hb _]). exists av'. split; [done|].
    intros s g a b Ha Hb' Hwa Hwb. exists a, b. split_and!; [done..|].
    rewrite Hb, Hbit; [done| |lia]. apply rule_keys_spec. cbn. split_and!; [done..|set_solver].
Qed.
End names.

(** A symbol table that is searched from the front. *)
#[global] Instance list_hashtab : Hashtab := fun D tab key => snd <$> find (fun n => bool_decide (n.1 = key)) tab.
#[global] Instance list_hashtab_laws : HashtabLaws.
Proof.
  intros D tab key d Hnd. unfold hashtab_search, list_hashtab. induction tab as [|[k x] tab IH]; cbn.
  { split; [done|]. by intros ?%not_elem_of_nil. }
  rewrite fmap_cons, NoDup_cons in Hnd. destruct Hnd as [Hk Hnd]. cbn in Hk. case_bool_decide as E; cbn in *.
  - subst k. split; [intros [= ->]; set_solver|]. intros [[= <-]|Hin]%elem_of_cons; [done|].
    destruct Hk. apply list_elem_of_fmap. by exists (key, d).
  - rewrite IH by done. rewrite elem_of_cons. split; [by right|]. intros [[= -> ->]|]; [done|done].
Qed.

(** Two types with an attribute, one without, and a class. *)
Definition sample_db : symbols :=
  Symbols [(bs "domain", TypeDatum 1 TYPE_ATTRIB); (bs "magisk", TypeDatum 2 TYPE_TYPE);
           (bs "shell", TypeDatum 3 TYPE_TYPE); (bs "bare", TypeDatum 4 TYPE_TYPE)]
          [(bs "file", ClassDatum 1 [(bs "execute", 3)] (Some [(bs "read", 1); (bs "write", 2)]))].
Definition sample_attrs (v : Z) : list Z :=
  if v =? 2 then [1; 2] else if v =? 3 then [1; 3] else if v =? 4 then [4] else [].

Lemma sample_db_ok : db_ok sample_db.
Proof.
  split; [apply (bool_decide_unpack _); vm_compute; exact I..|].
  intros n c Hc. apply list_elem_of_singleton in Hc. injection Hc as -> ->. split_and!.
  - apply (bool_decide_unpack _). vm_compute. exact I.
  - repeat constructor; cbn; lia.
  - intros l [= <-]. split; [apply (bool_decide_unpack _); vm_compute; exact I|repeat constructor; cbn; lia].
Qed.

Lemma add_rule_refines_witness : exists av',
  add_rule_str sample_db (bs "magisk") [] (bs "file") (bs "read") AVTAB_ALLOWED false empty_avtab = Ret (av', true) /\
  rule_effect [AvKey 2 1 1 AVTAB_ALLOWED] (Some 1) false empty_avtab av'.
Proof.
  exact (add_rule_refines sample_db (bs "magisk") [] (bs "file") (bs "read") AVTAB_ALLOWED false empty_avtab
    empty_avtab_ok sample_db_ok ltac:(set_solver)).
Defined.

Lemma wildcard_rules_witness :
  exists av', add_rule_str sample_db [] [] (bs "file") (bs "read") AVTAB_ALLOWED false empty_avtab = Ret (av', true) /\
    granted sample_attrs av' 2 3 1 0.
Proof.
  set (cd := ClassDatum 1 [(bs "execute", 3)] (Some [(bs "read", 1); (bs "write", 2)])).
  assert (Hc : find_opt (p_classes sample_db) (bs "file") = Some (Some cd)) by (vm_compute; reflexivity).
  assert (Hp : find_perm cd (bs "read") = Some 1) by (vm_compute; reflexivity).
  assert (Hne : bs "read" <> []) by discriminate.
  destruct (wildcard_rules sample_db (bs "file") (bs "read") empty_avtab sample_attrs cd 1
    empty_avtab_ok sample_db_ok Hc Hne Hp) as [_ (av' & E & Hg)].
  { intros s a. unfold sample_attrs. repeat case_match; intros Ha; repeat (apply elem_of_cons in Ha as [->|Ha]);
      try (by apply not_elem_of_nil in Ha); apply (bool_decide_unpack _); vm_compute; exact I. }
  exists av'. split; [exact E|]. apply (Hg 2 3 1 1); apply (bool_decide_unpack _); vm_compute; exact I.
Defined.

(** A type without attributes is not reached by a wildcard [allow]. *)
Example wildcard_allow_misses_bare_type :
  exists av', add_rule_str sample_db [] [] (bs "file") (bs "read") AVTAB_ALLOWED false empty_avtab = Ret (av', true) /\
    ~ granted sample_attrs av' 4 4 1 0.
Proof.
  eexists. split; [vm_compute; reflexivity|]. intros (a & b & Ha & Hb & Ht).
  apply list_elem_of_singleton in Ha as ->. apply list_elem_of_singleton in Hb as ->. vm_compute in Ht. discriminate Ht.
Qed.
