(* ===== verification/Xperm.v ===== *)
(** Extended permission rules: [add_xperm_rule] of
    [native/src/sepolicy/sepolicy.cpp] and the printing of their nodes.  A key has at
    most one driver node, whose 256 bits stand for whole drivers, and one function node
    per driver, whose bits stand for the functions of that driver. *)

From S2P Require Import Prelude Base Avtab Sepolicy.

(** ** Ranges of permissions *)

Definition POLICYDB_VERSION_XPERMS_IOCTL : Z := 30.

Record Xperm := XpermRange { xp_low : Z; xp_high : Z; xp_reset : bool }.

Definition ioctl_driver (x : Z) : Z := Z.land (Z.shiftr x 8) 255.
Definition ioctl_func (x : Z) : Z := Z.land x 255.

(** The loops that set and clear the bits from [lo] to [hi]. *)
Definition set_range (lo hi : Z) (p : Z) : Z := foldl Z.setbit p (seqZ lo (hi - lo + 1)).
Definition clear_range (lo hi : Z) (p : Z) : Z := foldl Z.clearbit p (seqZ lo (hi - lo + 1)).

Section xperm.
Context `{AvtabLib}.

(** [node_list]: entries 0 to 255 are the function nodes, entry 256 the driver node. *)
Abbreviation node_list := (gmap Z nat).
Definition DRIVER : Z := 256.

Definition slot_of (x : xperms) : option Z :=
  if x_specified x =? AVTAB_XPERMS_IOCTLDRIVER then Some DRIVER
  else if x_specified x =? AVTAB_XPERMS_IOCTLFUNCTION then Some (x_driver x)
  else None.

(** The loop that finds all rules of the key; [fuel] bounds the chain. *)
Fixpoint collect_nodes (fuel : nat) (t : avtab) (spec : Z) (node : option nat) (nl : node_list) : outcome node_list :=
  match fuel with
  | O => Loop
  | S fuel =>
    match node with
    | None => Ret nl
    | Some id =>
      match deref t id ≫= nxperms with
      | None => Fault
      | Some x =>
        collect_nodes fuel t spec (avtab_search_node_next t id spec)
          (match slot_of x with Some s => <[s := id]> nl | None => nl end)
      end
    end
  end.

(** Writing the permissions of a node. *)
Definition upd_perms (f : Z -> Z) (n : avnode) : avnode :=
  match nxperms n with
  | Some x => set_xperms (XPerms (x_specified x) (x_driver x) (f (x_perms x))) n
  | None => n
  end.
Definition set_perms (s : Z) (f : Z -> Z) (st : avtab * node_list) : avtab * node_list :=
  match st.2 !! s with Some id => (store id (upd_perms f) st.1, st.2) | None => st end.

(** [new_driver_node], [new_func_node] *)
Definition new_node (k : avkey) (s : Z) (st : avtab * node_list) : avtab * node_list :=
  let '(t, id) := insert_avtab_node st.1 k in
  let x := if s =? DRIVER then XPerms AVTAB_XPERMS_IOCTLDRIVER 0 0 else XPerms AVTAB_XPERMS_IOCTLFUNCTION s 0 in
  (store id (set_xperms x) t, <[s := id]> st.2).

(** A missing node is created, and filled if [fill] says so. *)
Definition ensure (k : avkey) (s : Z) (fill : bool) (st : avtab * node_list) : avtab * node_list :=
  match st.2 !! s with
  | Some _ => st
  | None => let st := new_node k s st in if fill then set_perms s (fun _ => Z.ones 256) st else st
  end.

(** The removal of the function nodes on reset. *)
Definition reset_func (st : avtab * node_list) (i : Z) : avtab * node_list :=
  match st.2 !! i with
  | Some id =>
    match deref st.1 id with
    | Some n => ((avtab_remove_node st.1 n).1, delete i st.2)
    | None => st
    end
  | None => st
  end.
Definition reset_nodes (st : avtab * node_list) : avtab * node_list :=
  set_perms DRIVER (fun _ => 0) (foldl reset_func st (seqZ 0 256)).

(** The innermost case of [add_xperm_rule]. *)
Definition apply_xperm (k : avkey) (p : Xperm) (t : avtab) : outcome avtab :=
  let! nl := collect_nodes (S (length (nodes t))) t (specified k) (avtab_search_node t k) ∅ in
  let st := if xp_reset p then reset_nodes (t, nl) else (t, nl) in
  let dl := ioctl_driver (xp_low p) in
  let dh := ioctl_driver (xp_high p) in
  let fl := ioctl_func (xp_low p) in
  let fh := ioctl_func (xp_high p) in
  Ret (if xp_reset p then
         let st := set_perms DRIVER (fun _ => Z.ones 256) (ensure k DRIVER false st) in
         if dl =? dh then
           set_perms dl (clear_range fl fh) (set_perms DRIVER (fun q => Z.clearbit q dl) (ensure k dl true st))
         else set_perms DRIVER (clear_range dl dh) st
       else if dl =? dh then set_perms dl (set_range fl fh) (ensure k dl false st)
       else set_perms DRIVER (set_range dl dh) (ensure k DRIVER false st)).1.

(** [add_xperm_rule] on data: wildcards stand for all attributes and all classes. *)
Definition add_xperm_rule_cls (db : symbols) (src tgt : type_datum) (cls : option class_datum) (p : Xperm) (effect : Z)
  (t : avtab) : outcome avtab :=
  let leaf c := apply_xperm (AvKey (t_value src) (t_value tgt) (c_value c) effect) p in
  match cls with
  | None => hashtab_for_each (p_classes db) leaf t
  | Some c => leaf c t
  end.
Definition add_xperm_rule_tgt (db : symbols) (src : type_datum) (tgt : option type_datum) (cls : option class_datum)
  (p : Xperm) (effect : Z) (t : avtab) : outcome avtab :=
  match tgt with
  | None => for_each_attr (p_types db) (fun d => add_xperm_rule_cls db src d cls p effect) t
  | Some d => add_xperm_rule_cls db src d cls p effect t
  end.
Definition add_xperm_rule (policyvers : Z) (db : symbols) (src tgt : option type_datum) (cls : option class_datum)
  (p : Xperm) (effect : Z) (t : avtab) : outcome avtab :=
  if policyvers <? POLICYDB_VERSION_XPERMS_IOCTL then Ret t
  else
    match src with
    | None => for_each_attr (p_types db) (fun d => add_xperm_rule_tgt db d tgt cls p effect) t
    | Some s => add_xperm_rule_tgt db s tgt cls p effect t
    end.

(** [add_xperm_rule] on names. *)
Definition add_xperm_rule_str `{Hashtab} (policyvers : Z) (db : symbols) (s t c : bytes) (p : Xperm) (effect : Z)
  (av : avtab) : outcome (avtab * bool) :=
  match find_opt (p_types db) s with
  | None => Ret (av, false)
  | Some src =>
    match find_opt (p_types db) t with
    | None => Ret (av, false)
    | Some tgt =>
      match find_opt (p_classes db) c with
      | None => Ret (av, false)
      | Some cls => let! av := add_xperm_rule policyvers db src tgt cls p effect av in Ret (av, true)
      end
    end
  end.

(** The statements of api.cpp; an empty list of ranges does nothing. *)
Definition xperm_statement `{Hashtab} (policyvers : Z) (db : symbols) (effect : Z) (src tgt cls : list bytes)
  (ps : list Xperm) (av : avtab) : outcome avtab :=
  expand src (fun s => expand tgt (fun t => expand cls (fun c => for_each (fun p av =>
    let! (av, _) := add_xperm_rule_str policyvers db s t c p effect av in Ret av) ps))) av.
Definition allowxperm `{Hashtab} vers db := xperm_statement vers db AVTAB_XPERMS_ALLOWED.
Definition auditallowxperm `{Hashtab} vers db := xperm_statement vers db AVTAB_XPERMS_AUDITALLOW.
Definition dontauditxperm `{Hashtab} vers db := xperm_statement vers db AVTAB_XPERMS_DONTAUDIT.
End xperm.

(** ** Printing *)

(** The loop that collects the ranges of set bits; [i] counts up to 256. *)
Fixpoint xperm_ranges (fuel : nat) (perms i low : Z) : list (Z * Z) :=
  match fuel with
  | O => []
  | S fuel =>
    if Z.testbit perms i then
      let low := if low <? 0 then i else low in
      (if i =? 255 then [(low, 255)] else []) ++ xperm_ranges fuel perms (i + 1) low
    else if 0 <=? low then (low, i - 1) :: xperm_ranges fuel perms (i + 1) (-1)
    else xperm_ranges fuel perms (i + 1) low
  end.
Definition print_ranges (perms : Z) : list (Z * Z) := xperm_ranges 256 perms 0 (-1).

Definition to_value (x : xperms) (v : Z) : Z :=
  if x_specified x =? AVTAB_XPERMS_IOCTLFUNCTION then Z.lor (Z.shiftl (x_driver x) 8) v else Z.shiftl v 8.

(** ** Bits *)

Lemma foldl_setbit l p i : 0 <= i -> Forall (fun j => 0 <= j) l ->
  Z.testbit (foldl Z.setbit p l) i = bool_decide (i ∈ l) || Z.testbit p i.
Proof.
  intros Hi Hl. revert p. induction Hl as [|j l Hj Hl IH]; intros p; [done|]. cbn [foldl].
  rewrite IH, Z.setbit_eqb by done. destruct (Z.eqb_spec j i) as [->|Hne]; cbn.
  - rewrite orb_true_r. symmetry. apply orb_true_intro. left. apply bool_decide_eq_true. set_solver.
  - f_equal. apply bool_decide_ext. set_solver.
Qed.

Lemma foldl_clearbit l p i : Z.testbit (foldl Z.clearbit p l) i = negb (bool_decide (i ∈ l)) && Z.testbit p i.
Proof.
  revert p. induction l as [|j l IH]; intros p; [done|]. cbn [foldl].
  rewrite IH, Z.clearbit_eqb. destruct (Z.eqb_spec j i) as [->|Hne]; cbn.
  - rewrite !andb_false_r. symmetry. apply andb_false_intro1. apply negb_false_iff, bool_decide_eq_true. set_solver.
  - rewrite andb_true_r. f_equal. f_equal. apply bool_decide_ext. set_solver.
Qed.

Definition in_interval (lo hi i : Z) : bool := (lo <=? i) && (i <=? hi).

Lemma elem_of_interval lo hi i : bool_decide (i ∈ seqZ lo (hi - lo + 1)) = in_interval lo hi i.
Proof.
  unfold in_interval. apply eq_true_iff_eq. rewrite bool_decide_eq_true, elem_of_seqZ, andb_true_iff, !Z.leb_le. lia.
Qed.

Lemma set_range_bits lo hi p i : 0 <= lo -> 0 <= i ->
  Z.testbit (set_range lo hi p) i = in_interval lo hi i || Z.testbit p i.
Proof.
  intros Hlo Hi. unfold set_range. rewrite foldl_setbit, elem_of_interval; [done..|].
  apply Forall_forall. intros j Hj%elem_of_seqZ. lia.
Qed.

Lemma clear_range_bits lo hi p i : Z.testbit (clear_range lo hi p) i = negb (in_interval lo hi i) && Z.testbit p i.
Proof. unfold clear_range. by rewrite foldl_clearbit, elem_of_interval. Qed.

Lemma ioctl_driver_range x : 0 <= ioctl_driver x < 256.
Proof. unfold ioctl_driver. change 255 with (Z.ones 8). rewrite Z.land_ones by lia. apply Z.mod_pos_bound. lia. Qed.
Lemma ioctl_func_range x : 0 <= ioctl_func x < 256.
Proof. unfold ioctl_func. change 255 with (Z.ones 8). rewrite Z.land_ones by lia. apply Z.mod_pos_bound. lia. Qed.

(** ** The nodes of a key *)

(** [node_at t k s n x]: [n] is a node of key [k] for slot [s]; an entry is its
    address and its permissions. *)
Definition node_at (t : avtab) (k : avkey) (s : Z) (n : avnode) (x : xperms) : Prop :=
  n ∈ nodes t /\ nkey n = k /\ nxperms n = Some x /\ slot_of x = Some s.
Definition entry (t : avtab) (k : avkey) (s : Z) (id : nat) (p : Z) : Prop :=
  exists n x, node_at t k s n x /\ nid n = id /\ x_perms x = p.

(** Extended permission nodes have their permissions, and no two nodes of a key are
    for the same slot. *)
Record xnodes_ok (t : avtab) : Prop := XnodesOk {
  x_some : forall n, n ∈ nodes t -> is_xkey (nkey n) = true -> exists x, nxperms n = Some x;
  x_uniq : forall k s id id' p p', is_xkey k = true -> entry t k s id p -> entry t k s id' p' -> id = id' }.

(** The decision for a command: whole drivers, or the functions of one driver. *)
Definition xgranted (t : avtab) (k : avkey) (cmd : Z) : Prop :=
  (exists id p, entry t k DRIVER id p /\ Z.testbit p (ioctl_driver cmd) = true) \/
  (exists id p, entry t k (ioctl_driver cmd) id p /\ Z.testbit p (ioctl_func cmd) = true).

(** [nl] lists the nodes of [k], and [pv] their permissions. *)
Record view (k : avkey) (st : avtab * gmap Z nat) (pv : Z -> option Z) : Prop := View {
  v_entry : forall s id p, entry st.1 k s id p <-> st.2 !! s = Some id /\ pv s = Some p;
  v_dom : forall s, st.2 !! s = None <-> pv s = None }.

Definition bit_at (pv : Z -> option Z) (s i : Z) : bool := match pv s with Some p => Z.testbit p i | None => false end.

Lemma bit_at_entry k st pv s i : view k st pv ->
  (bit_at pv s i = true <-> exists id p, entry st.1 k s id p /\ Z.testbit p i = true).
Proof.
  intros [He Hd]. unfold bit_at. split.
  - destruct (pv s) as [p|] eqn:E; [|done]. intros Hb. destruct (st.2 !! s) as [id|] eqn:El.
    + exists id, p. by rewrite He.
    + apply Hd in El. congruence.
  - intros (id & p & [_ ->]%He & Hb). done.
Qed.

Lemma xgranted_view k st pv cmd : view k st pv ->
  (xgranted st.1 k cmd <-> bit_at pv DRIVER (ioctl_driver cmd) || bit_at pv (ioctl_driver cmd) (ioctl_func cmd) = true).
Proof. intros Hv. unfold xgranted. by rewrite orb_true_iff, !(bit_at_entry k st pv). Qed.

Section operations.
Context `{AvtabLaws}.
Implicit Types (t : avtab) (n : avnode) (k : avkey) (pv : Z -> option Z).

(** A state of [apply_xperm], and what it still has in common with the first one. *)
Record good k t0 (st : avtab * gmap Z nat) pv : Prop := Good {
  g_ok : avtab_ok st.1;
  g_x : xnodes_ok st.1;
  g_view : view k st pv;
  g_same : same_except k t0 st.1 }.

Definition upd_view pv (s : Z) (v : option Z) : Z -> option Z := fun s' => if s' =? s then v else pv s'.

(** From the nodes of [k] and the other nodes back to all nodes. *)
Lemma good_intro k t0 t t' nl pv : avtab_ok t' -> xnodes_ok t -> same_except k t0 t -> same_except k t t' ->
  (forall n, n ∈ nodes t' -> nkey n = k -> exists x, nxperms n = Some x) ->
  view k (t', nl) pv -> good k t0 (t', nl) pv.
Proof.
  intros Hok [Hs Hu] Hsame0 Hsame Hsome Hv. split; cbn; [done| |done|by eapply same_except_trans].
  assert (Hother : forall k' s id p, k' <> k -> entry t' k' s id p -> entry t k' s id p).
  { intros k' s id p Hne (n & x & (Hn & <- & ?) & ?). exists n, x. split; [|done]. split; [by apply Hsame|done]. }
  split.
  - intros n Hn Hx. destruct (decide (nkey n = k)); [by apply Hsome|]. apply Hs; [by apply Hsame|done].
  - intros k' s id id' p p' Hx Hn Hn'. destruct (decide (k' = k)) as [->|].
    + apply (v_entry _ _ _ Hv) in Hn as [E _]. apply (v_entry _ _ _ Hv) in Hn' as [E' _]. congruence.
    + eapply Hu; [done|by eapply Hother..].
Qed.

(** *** Writing permissions *)

Lemma store_keep_ok id f t : (forall n, nid (f n) = nid n /\ nkey (f n) = nkey n /\ ndata (f n) = ndata n) ->
  avtab_ok t -> avtab_ok (store id f t).
Proof.
  intros Hf [Hs Hk Hu Hr].
  set (h := fun n => if Nat.eqb (nid n) id then f n else n).
  assert (Hh : forall n, nkey (h n) = nkey n /\ ndata (h n) = ndata n).
  { intros n. unfold h. case_match; [|done]. by destruct (Hf n) as (_ & ? & ?). }
  assert (Hmem : forall m, m ∈ nodes (store id f t) -> exists x, m = h x /\ x ∈ nodes t).
  { intros m. rewrite nodes_store. apply list_elem_of_fmap. }
  split.
  - apply store_ok; [|done]. intros n. destruct (Hf n) as (? & ? & ?). done.
  - intros m (x & -> & Hx)%Hmem. rewrite (proj1 (Hh x)). auto.
  - intros m m' (x & -> & Hx)%Hmem (x' & -> & Hx')%Hmem. rewrite !(proj1 (Hh _)). intros E Hp.
    by rewrite (Hu x x').
  - intros m (x & -> & Hx)%Hmem. rewrite (proj2 (Hh x)). auto.
Qed.

Lemma upd_perms_keep f n : nid (upd_perms f n) = nid n /\ nkey (upd_perms f n) = nkey n /\ ndata (upd_perms f n) = ndata n.
Proof. unfold upd_perms. by destruct (nxperms n). Qed.

Lemma entry_ids t k s s' id p p' : avtab_ok t -> entry t k s id p -> entry t k s' id p' -> s = s' /\ p = p'.
Proof.
  intros Hok (n & x & (Hn & _ & Hx & Hs) & <- & <-) (n' & x' & (Hn' & _ & Hx' & Hs') & E & <-).
  assert (n' = n) as -> by (by apply (ids_inj t n' n (shape_ok t Hok))). split; congruence.
Qed.

Lemma store_entry id f t k s id' p :
  entry (store id (upd_perms f) t) k s id' p <->
  exists q, entry t k s id' q /\ p = if Nat.eqb id' id then f q else q.
Proof.
  split.
  - intros (m & x & (Hm & Hk & Hx & Hs) & <- & <-). rewrite nodes_store in Hm.
    apply list_elem_of_fmap in Hm as (n & -> & Hn). destruct (Nat.eqb_spec (nid n) id) as [E|E].
    + destruct (upd_perms_keep f n) as (E1 & E2 & _). rewrite E2 in Hk. rewrite E1, E, Nat.eqb_refl.
      unfold upd_perms in Hx. destruct (nxperms n) as [y|] eqn:Ey; [|congruence]. cbn in Hx. injection Hx as <-.
      exists (x_perms y). split; [|done]. exists n, y. done.
    + rewrite (proj2 (Nat.eqb_neq _ _) E). exists (x_perms x). split; [|done]. by exists n, x.
  - intros (q & (n & x & (Hn & Hk & Hx & Hs) & <- & <-) & ->).
    destruct (upd_perms_keep f n) as (E1 & E2 & _). destruct (Nat.eqb_spec (nid n) id) as [E|E].
    + exists (upd_perms f n), (XPerms (x_specified x) (x_driver x) (f (x_perms x))).
      split; [|done]. split_and!; [|by rewrite E2| |done].
      * rewrite nodes_store. apply list_elem_of_fmap. exists n. by rewrite (proj2 (Nat.eqb_eq _ _) E).
      * unfold upd_perms. by rewrite Hx.
    + exists n, x. split; [|done]. split; [|done].
      rewrite nodes_store. apply list_elem_of_fmap. exists n. by rewrite (proj2 (Nat.eqb_neq _ _) E).
Qed.

Lemma store_same k t id f n0 : avtab_ok t -> n0 ∈ nodes t -> nid n0 = id -> nkey n0 = k ->
  (forall n, nkey (f n) = nkey n) -> same_except k t (store id f t).
Proof.
  intros Hok Hn0 Hid Hk Hf m Hm. rewrite nodes_store, list_elem_of_fmap. split.
  - intros (n & -> & Hn). destruct (Nat.eqb_spec (nid n) id) as [E|E]; [|done].
    destruct Hm. rewrite Hf. rewrite (ids_inj t n n0 (shape_ok t Hok)); congruence.
  - intros Hm'. exists m. split; [|done]. destruct (Nat.eqb_spec (nid m) id) as [E|E]; [|done].
    destruct Hm. rewrite (ids_inj t m n0 (shape_ok t Hok)); congruence.
Qed.

Lemma store_some k id t f : is_xkey k = true -> xnodes_ok t ->
  forall n, n ∈ nodes (store id (upd_perms f) t) -> nkey n = k -> exists x, nxperms n = Some x.
Proof.
  intros Hk [Hs _] m Hm Hkm. rewrite nodes_store in Hm. apply list_elem_of_fmap in Hm as (n & -> & Hn).
  assert (Hkn : nkey n = k) by (case_match; [by rewrite (proj1 (proj2 (upd_perms_keep f n))) in Hkm|done]).
  destruct (Hs n Hn ltac:(congruence)) as [x Hx]. case_match; [|eauto]. unfold upd_perms. rewrite Hx. by eexists.
Qed.

Lemma set_perms_ok k t0 st pv s f : is_xkey k = true -> good k t0 st pv ->
  good k t0 (set_perms s f st) (upd_view pv s (f <$> pv s)).
Proof.
  intros Hk [Hok Hx Hv Hs]. destruct st as [t nl]. cbn in *. unfold set_perms. cbn [fst snd].
  destruct (nl !! s) as [id|] eqn:Es.
  2:{ assert (Epv : pv s = None) by by apply (v_dom _ _ _ Hv).
      assert (Hpv : forall s', upd_view pv s (f <$> pv s) s' = pv s').
      { intros s'. unfold upd_view. destruct (Z.eqb_spec s' s) as [->|]; [by rewrite Epv|done]. }
      destruct Hv as [He Hd]. split; [done..| |done]. by split; intros; rewrite Hpv. }
  destruct (pv s) as [p0|] eqn:Epv; [|apply (v_dom _ _ _ Hv) in Epv; cbn in Epv; congruence].
  assert (He0 : entry t k s id p0) by by apply (v_entry _ _ _ Hv).
  pose proof He0 as (n0 & x0 & (Hn0 & Hk0 & _) & Hid0 & _).
  apply (good_intro k t0 t); try done.
  - apply store_keep_ok; [apply upd_perms_keep|done].
  - eapply store_same; [done|exact Hn0|done..|]. intros n. apply upd_perms_keep.
  - by apply store_some.
  - split; cbn.
    + intros s' id' p. rewrite store_entry. unfold upd_view. split.
      * intros (q & Hq & ->). destruct (Nat.eqb_spec id' id) as [->|Hne].
        -- destruct (entry_ids _ _ _ _ _ _ _ Hok Hq He0) as [-> ->]. rewrite Z.eqb_refl. done.
        -- apply (v_entry _ _ _ Hv) in Hq as [Hn Hp]. cbn in Hn. destruct (Z.eqb_spec s' s) as [->|]; [congruence|done].
      * intros [Hn Hp]. destruct (Z.eqb_spec s' s) as [->|Hne].
        -- rewrite Es in Hn. injection Hn as <-. cbn in Hp. injection Hp as <-. exists p0. by rewrite Nat.eqb_refl.
        -- exists p. assert (Hq : entry t k s' id' p) by by apply (v_entry _ _ _ Hv).
           split; [done|]. destruct (Nat.eqb_spec id' id) as [->|]; [|done].
           destruct (entry_ids _ _ _ _ _ _ _ Hok Hq He0). done.
    + intros s'. unfold upd_view. destruct (Z.eqb_spec s' s) as [->|]; [by rewrite Es|apply (v_dom _ _ _ Hv)].
Qed.

(** *** Creating nodes *)

Definition new_xperms (s : Z) : xperms :=
  if s =? DRIVER then XPerms AVTAB_XPERMS_IOCTLDRIVER 0 0 else XPerms AVTAB_XPERMS_IOCTLFUNCTION s 0.

Lemma new_xperms_spec s : slot_of (new_xperms s) = Some s /\ x_perms (new_xperms s) = 0.
Proof. unfold new_xperms. destruct (Z.eqb_spec s DRIVER) as [->|]; done. Qed.

(** The nodes after [insert_avtab_node] and the write of the permissions. *)
Lemma new_node_nodes k t : avtab_ok t -> specified k ∈ kinds -> is_xkey k = true ->
  exists t' id, insert_avtab_node t k = (t', id) /\ (forall n, n ∈ nodes t -> nid n <> id) /\
    forall x, avtab_ok (store id (set_xperms x) t') /\
      forall m, m ∈ nodes (store id (set_xperms x) t') <-> m = AvNode id k (default_data k) (Some x) \/ m ∈ nodes t.
Proof.
  intros Hok Hkind Hk. destruct (insert_node_ok t k Hok Hkind) as (t' & id & E & Hok' & Hp); [congruence|].
  exists t', id. split; [done|]. set (n0 := AvNode id k (default_data k) None) in *.
  assert (Hfresh : forall n, n ∈ nodes t -> nid n <> id).
  { pose proof (ids_ok t' (shape_ok t' Hok')) as Hnd. rewrite Hp, fmap_cons, NoDup_cons in Hnd.
    intros n Hn Hid. apply (proj1 Hnd). apply list_elem_of_fmap. by exists n. }
  split; [done|]. intros x. split; [by apply store_keep_ok|]. intros m.
  rewrite nodes_store, list_elem_of_fmap. split.
  - intros (n & -> & Hn). rewrite Hp in Hn. apply elem_of_cons in Hn as [->|Hn].
    + left. cbn. by rewrite Nat.eqb_refl.
    + right. by rewrite (proj2 (Nat.eqb_neq _ _) (Hfresh n Hn)).
  - intros [->|Hm].
    + exists n0. cbn. rewrite Nat.eqb_refl. split; [done|]. rewrite Hp. set_solver.
    + exists m. rewrite (proj2 (Nat.eqb_neq _ _) (Hfresh m Hm)). split; [done|]. rewrite Hp. set_solver.
Qed.

Lemma new_node_ok k t0 st pv s : specified k ∈ kinds -> is_xkey k = true -> good k t0 st pv -> pv s = None ->
  good k t0 (new_node k s st) (upd_view pv s (Some 0)).
Proof.
  intros Hkind Hk [Hok Hx Hv Hs] Hpv. destruct st as [t nl]. cbn in *. unfold new_node. cbn [fst snd].
  destruct (new_node_nodes k t Hok Hkind Hk) as (t' & id & -> & Hfresh & Hnew). fold (new_xperms s).
  destruct (Hnew (new_xperms s)) as [Hok' Hin]. destruct (new_xperms_spec s) as [Hsl Hpe].
  set (t2 := store id (set_xperms (new_xperms s)) t') in *.
  assert (Hent : forall s' id' p, entry t2 k s' id' p <-> (s' = s /\ id' = id /\ p = 0) \/ entry t k s' id' p).
  { intros s' id' p. split.
    - intros (n & x & (Hn & Hkn & Hxn & Hsn) & <- & <-). apply Hin in Hn as [->|Hn].
      + left. cbn in Hxn. injection Hxn as <-. split_and!; [congruence|done|done].
      + right. by exists n, x.
    - intros [(-> & -> & ->)|(n & x & (Hn & ?) & ?)].
      + eexists _, (new_xperms s). split; [split; [apply Hin; by left|done]|done].
      + exists n, x. split; [split; [apply Hin; by right|done]|done]. }
  apply (good_intro k t0 t); try done.
  - intros m Hm. rewrite Hin. split; [|by right]. by intros [->|].
  - intros n Hn Hkn. apply Hin in Hn as [->|Hn]; [by eexists|]. apply (x_some t Hx); [done|congruence].
  - split; cbn.
    + intros s' id' p. rewrite Hent. unfold upd_view. destruct (Z.eqb_spec s' s) as [->|Hne].
      * rewrite lookup_insert_eq. split.
        -- intros [(_ & -> & ->)|He]; [done|]. apply (v_entry _ _ _ Hv) in He as [_ E]. congruence.
        -- intros [[= ->] [= <-]]. by left.
      * rewrite lookup_insert_ne by done. rewrite (v_entry _ _ _ Hv). cbn. naive_solver.
    + intros s'. unfold upd_view. destruct (Z.eqb_spec s' s) as [->|Hne].
      * by rewrite lookup_insert_eq.
      * rewrite lookup_insert_ne by done. apply (v_dom _ _ _ Hv).
Qed.

(** Views are used up to pointwise equality. *)
Lemma good_ext k t0 st pv pv' : (forall s, pv s = pv' s) -> good k t0 st pv -> good k t0 st pv'.
Proof.
  intros He [? ? [Hv Hd] ?]. split; [done..| |done]. split; intros; rewrite <- He; auto.
Qed.

Lemma ensure_slot_ok k t0 st pv s fill : specified k ∈ kinds -> is_xkey k = true -> good k t0 st pv ->
  good k t0 (ensure k s fill st) (upd_view pv s (Some (default (if fill then Z.ones 256 else 0) (pv s)))).
Proof.
  intros Hkind Hk Hg. unfold ensure. destruct (st.2 !! s) as [id|] eqn:Es.
  - eapply good_ext; [|exact Hg]. intros s'. unfold upd_view. destruct (Z.eqb_spec s' s) as [->|]; [|done].
    destruct (pv s) eqn:E; [done|]. apply (v_dom _ _ _ (g_view _ _ _ _ Hg)) in E. congruence.
  - assert (Hpv : pv s = None) by by apply (v_dom _ _ _ (g_view _ _ _ _ Hg)). rewrite Hpv.
    pose proof (new_node_ok k t0 st pv s Hkind Hk Hg Hpv) as Hn. destruct fill; [|exact Hn].
    eapply good_ext; [|by apply set_perms_ok]. intros s'. unfold upd_view. rewrite Z.eqb_refl.
    by destruct (Z.eqb_spec s' s).
Qed.

(** *** Removing nodes *)

Lemma reset_func_ok k t0 st pv i : is_xkey k = true -> good k t0 st pv ->
  good k t0 (reset_func st i) (upd_view pv i None).
Proof.
  intros Hk [Hok Hx Hv Hs]. destruct st as [t nl]. cbn in *. unfold reset_func. cbn [fst snd].
  destruct (nl !! i) as [id|] eqn:Ei.
  2:{ eapply good_ext; [|by split]. intros s. unfold upd_view. destruct (Z.eqb_spec s i) as [->|]; [|done].
      by apply (v_dom _ _ _ Hv). }
  destruct (pv i) as [p0|] eqn:Epv; [|apply (v_dom _ _ _ Hv) in Epv; cbn in Epv; congruence].
  assert (He0 : entry t k i id p0) by by apply (v_entry _ _ _ Hv).
  pose proof He0 as (n & x & (Hn & Hkn & Hxn & Hsn) & <- & Hpn).
  rewrite (deref_in t n (shape_ok t Hok) Hn).
  destruct (remove_node_ok t n Hok Hn) as (Hok' & Hgone & Hrest). set (t' := (avtab_remove_node t n).1) in *.
  assert (Hent : forall s id p, entry t' k s id p <-> s <> i /\ entry t k s id p).
  { intros s id p. split.
    - intros (m & y & (Hm & ?) & Hid & Hp). assert (m <> n) by (intros ->; done). apply Hrest in Hm; [|done].
      assert (He : entry t k s id p) by (by exists m, y). split; [|done]. intros ->.
      apply (x_uniq t Hx k i id (nid n) p p0 Hk He) in He0. subst id.
      by assert (m = n) by by apply (ids_inj t m n (shape_ok t Hok)).
    - intros [Hne (m & y & (Hm & Hkm & Hy & Hsm) & Hid & Hp)]. exists m, y. split; [|done]. split; [|done].
      apply Hrest; [|done]. intros ->. apply Hne. congruence. }
  apply (good_intro k t0 t); try done.
  - intros m Hm. apply Hrest. intros ->. done.
  - intros m Hm Hkm. apply (x_some t Hx); [|congruence]. apply Hrest; [|done]. by intros ->.
  - split; cbn.
    + intros s id p. rewrite Hent, (v_entry _ _ _ Hv). cbn. unfold upd_view.
      destruct (Z.eqb_spec s i) as [->|]; [rewrite lookup_delete_eq; naive_solver|].
      rewrite lookup_delete_ne by done. naive_solver.
    + intros s. unfold upd_view. destruct (Z.eqb_spec s i) as [->|]; [by rewrite lookup_delete_eq|].
      rewrite lookup_delete_ne by done. apply (v_dom _ _ _ Hv).
Qed.

Lemma reset_funcs_ok k t0 l st pv : is_xkey k = true -> good k t0 st pv ->
  good k t0 (foldl reset_func st l) (fun s => if bool_decide (s ∈ l) then None else pv s).
Proof.
  intros Hk. revert st pv. induction l as [|i l IH]; intros st pv Hg; cbn [foldl]; [by eapply good_ext|].
  eapply good_ext; [|apply IH; by apply reset_func_ok]. intros s. cbn. unfold upd_view.
  destruct (Z.eqb_spec s i) as [->|Hne].
  - rewrite (bool_decide_eq_true_2 (i ∈ i :: l)) by set_solver. by case_bool_decide.
  - rewrite (bool_decide_ext (s ∈ i :: l) (s ∈ l)); [done|set_solver].
Qed.

Lemma reset_nodes_ok k t0 st pv : is_xkey k = true -> good k t0 st pv ->
  good k t0 (reset_nodes st) (fun s => if in_interval 0 255 s then None else if s =? DRIVER then (fun _ => 0) <$> pv s else pv s).
Proof.
  intros Hk Hg. unfold reset_nodes. eapply good_ext; [|apply set_perms_ok; [done|by apply reset_funcs_ok]].
  assert (Hi : forall s, bool_decide (s ∈ seqZ 0 256) = in_interval 0 255 s) by (intros; apply (elem_of_interval 0 255)).
  intros s. unfold upd_view. rewrite !Hi. destruct (Z.eqb_spec s DRIVER) as [->|]; done.
Qed.

(** *** Finding the nodes *)

Definition add_slot (nl : gmap Z nat) (n : avnode) : gmap Z nat :=
  match nxperms n ≫= slot_of with Some s => <[s := nid n]> nl | None => nl end.

Lemma collect_next t spec l : forall fuel n nl, avtab_ok t -> n ∈ nodes t -> Forall (fun n => n ∈ nodes t) l ->
  Forall (fun n => exists x, nxperms n = Some x) (n :: l) -> (length l < fuel)%nat ->
  next_chain t spec (nid n) l ->
  collect_nodes (S fuel) t spec (Some (nid n)) nl = Ret (foldl add_slot nl (n :: l)).
Proof.
  induction l as [|m l IH]; intros fuel n nl Hok Hn Hl Hx Hf Hc; cbn [collect_nodes];
    rewrite (deref_in t n (shape_ok t Hok) Hn); cbn [mbind option_bind];
    apply Forall_cons in Hx as [[x Ex] Hx]; rewrite Ex; cbn [next_chain] in Hc.
  - rewrite Hc. destruct fuel as [|fuel]; [lia|]. cbn. unfold add_slot. by rewrite Ex.
  - destruct Hc as [-> Hc]. apply Forall_cons in Hl as [Hm Hl]. destruct fuel as [|fuel]; [cbn in Hf; lia|].
    rewrite IH; [|done..|cbn in Hf; lia|done].
    change (foldl add_slot nl (n :: m :: l)) with (foldl add_slot (add_slot nl n) (m :: l)).
    unfold add_slot at 3. by rewrite Ex.
Qed.

Lemma foldl_slot_sound l nl s id : foldl add_slot nl l !! s = Some id ->
  nl !! s = Some id \/ exists n, n ∈ l /\ nxperms n ≫= slot_of = Some s /\ nid n = id.
Proof.
  revert nl. induction l as [|n l IH]; intros nl; cbn [foldl]; [by left|]. intros [E|(m & Hm & ?)]%IH.
  - unfold add_slot in E. destruct (nxperms n ≫= slot_of) as [s'|] eqn:En; [|by left].
    destruct (decide (s' = s)) as [->|]; [|rewrite lookup_insert_ne in E by done; by left].
    rewrite lookup_insert_eq in E. right. exists n. split; [set_solver|]. naive_solver.
  - right. exists m. split; [set_solver|done].
Qed.

Lemma foldl_slot_complete l nl s : is_Some (nl !! s) \/ (exists n, n ∈ l /\ nxperms n ≫= slot_of = Some s) ->
  is_Some (foldl add_slot nl l !! s).
Proof.
  revert nl. induction l as [|n l IH]; intros nl; cbn [foldl].
  - intros [?|(n & Hn & _)]; [done|by apply not_elem_of_nil in Hn].
  - intros Hs. apply IH. unfold add_slot. destruct (nxperms n ≫= slot_of) as [s'|] eqn:En.
    + destruct (decide (s' = s)) as [->|]; [left; rewrite lookup_insert_eq; by eexists|].
      rewrite lookup_insert_ne by done. destruct Hs as [?|(m & [->|Hm]%elem_of_cons & Em)]; [by left|congruence|right; eauto].
    + destruct Hs as [?|(m & [->|Hm]%elem_of_cons & Em)]; [by left|congruence|right; eauto].
Qed.

Definition perms_view t (nl : gmap Z nat) : Z -> option Z := fun s => id ← nl !! s; n ← deref t id; x ← nxperms n; Some (x_perms x).

Lemma collect_ok k t : avtab_ok t -> xnodes_ok t -> specified k ∈ kinds -> is_xkey k = true ->
  exists nl, collect_nodes (S (length (nodes t))) t (specified k) (avtab_search_node t k) ∅ = Ret nl /\
    good k t (t, nl) (perms_view t nl).
Proof.
  intros Hok Hx Hkind Hk. destruct (search_law t k (shape_ok t Hok)) as (l & Hc & Hnd & Hin).
  assert (Hl : forall n, n ∈ l <-> n ∈ nodes t /\ nkey n = k).
  { intros n. rewrite Hin. split; intros [Hn Hm];
      pose proof (key_match_eq k n Hkind (kinds_ok t Hok n Hn)); tauto. }
  assert (Hsome : Forall (fun n => exists x, nxperms n = Some x) l).
  { apply Forall_forall. intros n [Hn Hkn]%Hl. apply (x_some t Hx); congruence. }
  assert (Hsub : Forall (fun n => n ∈ nodes t) l) by (apply Forall_forall; intros n [Hn _]%Hl; done).
  assert (Hlen : (length l <= length (nodes t))%nat).
  { apply NoDup_incl_length; [by apply NoDup_ListNoDup|]. intros n Hn. apply list_elem_of_In. apply list_elem_of_In in Hn.
    rewrite Forall_forall in Hsub. auto. }
  exists (foldl add_slot ∅ l). split.
  { destruct l as [|n l]; cbn [search_chain] in Hc; [by rewrite Hc|]. destruct Hc as [-> Hc].
    apply Forall_cons in Hsub as [Hn Hsub]. by apply collect_next. }
  set (nl := foldl add_slot ∅ l).
  assert (Hnl : forall s id, nl !! s = Some id <-> exists p, entry t k s id p).
  { assert (Hs : forall s id, nl !! s = Some id -> exists p, entry t k s id p).
    { intros s id [E|(n & Hn & Hs & <-)]%foldl_slot_sound; [by rewrite lookup_empty in E|].
      apply Hl in Hn as [Hn Hkn]. destruct (nxperms n) as [x|] eqn:Ex; [|done]. exists (x_perms x). exists n, x. done. }
    intros s id. split; [apply Hs|]. intros (p & He). pose proof He as (n & x & (Hn & Hkn & Ex & Hsl) & Hid & _).
    destruct (foldl_slot_complete l ∅ s) as [id' E']; [right; exists n; rewrite Ex; cbn; split; [by apply Hl|done]|].
    fold nl in E'. destruct (Hs s id' E') as [p' He']. by rewrite (x_uniq t Hx k s id id' p p' Hk He He'). }
  assert (Hpv : forall s id p, nl !! s = Some id -> entry t k s id p -> perms_view t nl s = Some p).
  { intros s id p E (n & x & (Hn & _ & Ex & _) & <- & <-). unfold perms_view. rewrite E. cbn.
    rewrite (deref_in t n (shape_ok t Hok) Hn). cbn. by rewrite Ex. }
  split; cbn; [done|done| |done]. split; cbn.
  - intros s id p. split.
    + intros He. assert (E : nl !! s = Some id) by (apply Hnl; eauto). eauto.
    + intros [E Ep]. pose proof (proj1 (Hnl s id) E) as [p' He]. rewrite (Hpv s id p' E He) in Ep. by injection Ep as ->.
  - intros s. destruct (nl !! s) as [id|] eqn:E.
    + pose proof (proj1 (Hnl s id) E) as [p He]. rewrite (Hpv s id p E He). done.
    + unfold perms_view. rewrite E. done.
Qed.

(** *** One rule *)

(** The commands a rule touches, by driver and function: functions of one driver, or
    whole drivers. *)
Definition masked_range (p : Xperm) (cmd : Z) : bool :=
  let dl := ioctl_driver (xp_low p) in
  let dh := ioctl_driver (xp_high p) in
  if dl =? dh then (ioctl_driver cmd =? dl) && in_interval (ioctl_func (xp_low p)) (ioctl_func (xp_high p)) (ioctl_func cmd)
  else in_interval dl dh (ioctl_driver cmd).

Lemma bit_upd pv s v s' i :
  bit_at (upd_view pv s v) s' i = if s' =? s then match v with Some p => Z.testbit p i | None => false end else bit_at pv s' i.
Proof. unfold bit_at, upd_view. by destruct (s' =? s). Qed.

Lemma ones_bit i : 0 <= i < 256 -> Z.testbit (Z.ones 256) i = true.
Proof. intros. apply Z.ones_spec_low. lia. Qed.

Lemma add_view_ok k t0 st pv p : specified k ∈ kinds -> is_xkey k = true -> good k t0 st pv -> xp_reset p = false ->
  exists pv', good k t0 (if ioctl_driver (xp_low p) =? ioctl_driver (xp_high p)
      then set_perms (ioctl_driver (xp_low p)) (set_range (ioctl_func (xp_low p)) (ioctl_func (xp_high p)))
             (ensure k (ioctl_driver (xp_low p)) false st)
      else set_perms DRIVER (set_range (ioctl_driver (xp_low p)) (ioctl_driver (xp_high p))) (ensure k DRIVER false st)) pv' /\
    forall cmd, bit_at pv' DRIVER (ioctl_driver cmd) || bit_at pv' (ioctl_driver cmd) (ioctl_func cmd) =
      masked_range p cmd || (bit_at pv DRIVER (ioctl_driver cmd) || bit_at pv (ioctl_driver cmd) (ioctl_func cmd)).
Proof.
  intros Hkind Hk Hg Hr. unfold masked_range.
  set (dl := ioctl_driver (xp_low p)). set (dh := ioctl_driver (xp_high p)).
  pose proof (ioctl_driver_range (xp_low p)) as Hdl. pose proof (ioctl_func_range (xp_low p)) as Hfl.
  destruct (Z.eqb_spec dl dh) as [E|E]; eexists; (split; [apply set_perms_ok; [done|]; by apply ensure_slot_ok|]); intros cmd;
    pose proof (ioctl_driver_range cmd) as Hdc; pose proof (ioctl_func_range cmd) as Hfc; rewrite !bit_upd.
  - assert (Hd : (DRIVER =? dl) = false) by (apply Z.eqb_neq; unfold DRIVER, dl; lia). rewrite Hd.
    unfold upd_view at 1. rewrite Z.eqb_refl. cbn. rewrite set_range_bits by lia. unfold bit_at.
    destruct (Z.eqb_spec (ioctl_driver cmd) dl) as [Ec|Ec]; [|done]. rewrite Ec. cbn. destruct (pv dl); cbn.
    + by rewrite !orb_assoc, (orb_comm (match pv DRIVER with Some _ => _ | None => _ end)).
    + rewrite Z.bits_0, !orb_false_r. apply orb_comm.
  - assert (Hd : (ioctl_driver cmd =? DRIVER) = false) by (apply Z.eqb_neq; unfold DRIVER; lia). rewrite Hd.
    unfold upd_view at 1. rewrite !Z.eqb_refl. cbn. rewrite set_range_bits by (subst dl; lia). unfold bit_at.
    destruct (pv DRIVER); cbn; [by rewrite orb_assoc|]. by rewrite Z.bits_0, orb_false_r.
Qed.

Lemma reset_view_ok k t0 st pv p : specified k ∈ kinds -> is_xkey k = true -> good k t0 st pv ->
  exists pv', good k t0 (
      let st := set_perms DRIVER (fun _ => Z.ones 256) (ensure k DRIVER false (reset_nodes st)) in
      if ioctl_driver (xp_low p) =? ioctl_driver (xp_high p) then
        set_perms (ioctl_driver (xp_low p)) (clear_range (ioctl_func (xp_low p)) (ioctl_func (xp_high p)))
          (set_perms DRIVER (fun q => Z.clearbit q (ioctl_driver (xp_low p))) (ensure k (ioctl_driver (xp_low p)) true st))
      else set_perms DRIVER (clear_range (ioctl_driver (xp_low p)) (ioctl_driver (xp_high p))) st) pv' /\
    forall cmd, bit_at pv' DRIVER (ioctl_driver cmd) || bit_at pv' (ioctl_driver cmd) (ioctl_func cmd) = negb (masked_range p cmd).
Proof.
  intros Hkind Hk Hg. cbv zeta. unfold masked_range.
  set (dl := ioctl_driver (xp_low p)). set (dh := ioctl_driver (xp_high p)).
  pose proof (ioctl_driver_range (xp_low p)) as Hdl. fold dl in Hdl.
  pose proof (reset_nodes_ok k t0 st pv Hk Hg) as Hg1.
  pose proof (set_perms_ok _ _ _ _ DRIVER (fun _ => Z.ones 256) Hk (ensure_slot_ok _ _ _ _ DRIVER false Hkind Hk Hg1)) as Hg2.
  assert (Hin : forall x, 0 <= x < 256 -> in_interval 0 255 x = true).
  { intros x Hx. unfold in_interval. rewrite andb_true_iff, !Z.leb_le. lia. }
  assert (Hdd : forall x, 0 <= x < 256 -> (x =? DRIVER) = false) by (intros; apply Z.eqb_neq; unfold DRIVER; lia).
  destruct (Z.eqb_spec dl dh) as [E|E].
  - eexists. split; [apply set_perms_ok; [done|]; apply set_perms_ok; [done|]; apply ensure_slot_ok; [done..|exact Hg2]|].
    intros cmd. pose proof (ioctl_driver_range cmd) as Hdc. pose proof (ioctl_func_range cmd) as Hfc.
    rewrite !bit_upd. unfold upd_view. rewrite !Z.eqb_refl, (Z.eqb_sym DRIVER dl), !(Hdd dl), !(Hdd (ioctl_driver cmd)) by done.
    rewrite (Hin dl) by done. cbn. rewrite clear_range_bits, Z.clearbit_eqb, !ones_bit by lia. unfold bit_at.
    rewrite (Z.eqb_sym dl), (Hdd (ioctl_driver cmd)), (Hin (ioctl_driver cmd)) by lia.
    destruct (ioctl_driver cmd =? dl); cbn; [apply andb_true_r|done].
  - eexists. split; [apply set_perms_ok; [done|exact Hg2]|].
    intros cmd. pose proof (ioctl_driver_range cmd) as Hdc. pose proof (ioctl_func_range cmd) as Hfc.
    rewrite !bit_upd. unfold upd_view. rewrite !Z.eqb_refl, !(Hdd (ioctl_driver cmd)) by done. cbn.
    rewrite clear_range_bits, ones_bit by lia. unfold bit_at.
    rewrite (Hdd (ioctl_driver cmd)), (Hin (ioctl_driver cmd)) by lia. by rewrite orb_false_r, andb_true_r.
Qed.

Lemma apply_xperm_ok k p t : avtab_ok t -> xnodes_ok t -> specified k ∈ kinds -> is_xkey k = true ->
  exists t', apply_xperm k p t = Ret t' /\ avtab_ok t' /\ xnodes_ok t' /\ same_except k t t' /\
    forall cmd, xgranted t' k cmd <->
      if xp_reset p then masked_range p cmd = false else masked_range p cmd = true \/ xgranted t k cmd.
Proof.
  intros Hok Hx Hkind Hk. unfold apply_xperm.
  destruct (collect_ok k t Hok Hx Hkind Hk) as (nl & -> & Hg). cbn [obind]. eexists. split; [reflexivity|].
  destruct (xp_reset p) eqn:Er.
  - destruct (reset_view_ok k t _ _ p Hkind Hk Hg) as (pv' & [Hok' Hx' Hv' Hs'] & Hb). cbv zeta in *.
    split_and!; [done..|]. intros cmd. rewrite (xgranted_view k _ _ cmd Hv'), Hb. apply negb_true_iff.
  - destruct (add_view_ok k t _ _ p Hkind Hk Hg Er) as (pv' & [Hok' Hx' Hv' Hs'] & Hb).
    split_and!; [done..|]. intros cmd. rewrite (xgranted_view k _ _ cmd Hv'), Hb, orb_true_iff.
    by rewrite <- (xgranted_view k (t, nl) _ cmd (g_view _ _ _ _ Hg)).
Qed.

(** *** Rules with wildcards *)

Definition attr_types (db : symbols) : list type_datum := filter (fun d => t_flavor d = TYPE_ATTRIB) (p_types db).*2.
Definition xperm_keys (db : symbols) (src tgt : option type_datum) (cls : option class_datum) (effect : Z) : list avkey :=
  keys_of (choose src (attr_types db)) (choose tgt (attr_types db)) (choose cls (p_classes db).*2) effect.

Lemma add_xperm_keys vers db src tgt cls p effect t : POLICYDB_VERSION_XPERMS_IOCTL <= vers ->
  add_xperm_rule vers db src tgt cls p effect t =
  for_each (fun k => apply_xperm k p) (xperm_keys db src tgt cls effect) t.
Proof.
  intros Hv. unfold add_xperm_rule. rewrite (proj2 (Z.ltb_ge _ _) Hv).
  unfold xperm_keys, add_xperm_rule_tgt, add_xperm_rule_cls, hashtab_for_each. rewrite for_each_keys, for_each_choose.
  destruct src as [a|]; rewrite ?for_each_attr_filter; [|apply for_each_ext; intros a t1];
    rewrite for_each_choose; destruct tgt as [b|]; rewrite ?for_each_attr_filter; try (apply for_each_ext; intros b t2);
    rewrite for_each_choose; destruct cls as [c|]; rewrite ?for_each_fmap; done.
Qed.

(** The same as an interval of commands.  A rule within one driver is about the
    commands from [xp_low] to [xp_high]; a rule over several drivers is about all
    commands of all of them, from the first of the driver of [xp_low] to the last of the
    driver of [xp_high]. *)
Definition range_start (p : Xperm) : Z := if xp_low p / 256 =? xp_high p / 256 then xp_low p else xp_low p / 256 * 256.
Definition range_end (p : Xperm) : Z := if xp_low p / 256 =? xp_high p / 256 then xp_high p else xp_high p / 256 * 256 + 255.

Lemma ioctl_driver_div x : 0 <= x < 65536 -> ioctl_driver x = x / 256.
Proof.
  intros Hx. unfold ioctl_driver. change 255 with (Z.ones 8). rewrite Z.land_ones, Z.shiftr_div_pow2 by lia.
  change (2 ^ 8) with 256. apply Z.mod_small. split; [apply Z.div_pos; lia|apply Z.div_lt_upper_bound; lia].
Qed.

Lemma ioctl_func_mod x : ioctl_func x = x mod 256.
Proof. unfold ioctl_func. change 255 with (Z.ones 8). by rewrite Z.land_ones by lia. Qed.

Lemma masked_range_interval p cmd : 0 <= xp_low p < 65536 -> 0 <= xp_high p < 65536 -> 0 <= cmd < 65536 ->
  masked_range p cmd = true <-> range_start p <= cmd <= range_end p.
Proof.
  intros Hl Hh Hc. unfold masked_range, range_start, range_end. rewrite !ioctl_driver_div, !ioctl_func_mod by done.
  pose proof (Z.div_mod cmd 256). pose proof (Z.mod_pos_bound cmd 256).
  pose proof (Z.div_mod (xp_low p) 256). pose proof (Z.mod_pos_bound (xp_low p) 256).
  pose proof (Z.div_mod (xp_high p) 256). pose proof (Z.mod_pos_bound (xp_high p) 256).
  destruct (Z.eqb_spec (xp_low p / 256) (xp_high p / 256)) as [E|E]; unfold in_interval;
    rewrite ?andb_true_iff, ?Z.eqb_eq, !Z.leb_le; lia.
Qed.

(** The interval has the commands of the rule, and no others when the rule is within one
    driver or about whole drivers. *)
Lemma range_bounds p : range_start p <= xp_low p /\ xp_high p <= range_end p /\
  (xp_low p / 256 = xp_high p / 256 \/ xp_low p mod 256 = 0 /\ xp_high p mod 256 = 255 ->
   range_start p = xp_low p /\ range_end p = xp_high p).
Proof.
  unfold range_start, range_end.
  pose proof (Z.div_mod (xp_low p) 256). pose proof (Z.mod_pos_bound (xp_low p) 256).
  pose proof (Z.div_mod (xp_high p) 256). pose proof (Z.mod_pos_bound (xp_high p) 256).
  destruct (Z.eqb_spec (xp_low p / 256) (xp_high p / 256)); lia.
Qed.

(** What an extended permission rule about the commands from [a] to [b] does: [ks] are
    the keys it is about. *)
Record xperm_effect (ks : list avkey) (reset : bool) (a b : Z) (t t' : avtab) : Prop := XpermEffect {
  xe_ok : avtab_ok t';
  xe_nodes : xnodes_ok t';
  xe_frame : forall m, nkey m ∉ ks -> (m ∈ nodes t' <-> m ∈ nodes t);
  xe_granted : forall k cmd, k ∈ ks -> 0 <= cmd < 65536 -> (xgranted t' k cmd <->
    if reset then ~ (a <= cmd <= b) else a <= cmd <= b \/ xgranted t k cmd) }.

Lemma xgranted_frame t t' k cmd : (forall m, nkey m = k -> (m ∈ nodes t' <-> m ∈ nodes t)) -> xgranted t' k cmd <-> xgranted t k cmd.
Proof.
  intros Hf. unfold xgranted, entry, node_at.
  assert (He : forall s id p, (exists n x, (n ∈ nodes t' /\ nkey n = k /\ nxperms n = Some x /\ slot_of x = Some s) /\ nid n = id /\ x_perms x = p) <->
    (exists n x, (n ∈ nodes t /\ nkey n = k /\ nxperms n = Some x /\ slot_of x = Some s) /\ nid n = id /\ x_perms x = p)).
  { intros s id p. split; intros (n & x & (Hn & Hk & ?) & ?); exists n, x; (split; [|done]); (split; [|done]); by apply (Hf n). }
  split; (intros [(id & p & H' & ?)|(id & p & H' & ?)]; [left|right]); exists id, p; (split; [|done]); by apply He.
Qed.

Lemma apply_xperms_effect ks p t : 0 <= xp_low p < 65536 -> 0 <= xp_high p < 65536 ->
  avtab_ok t -> xnodes_ok t -> Forall (fun k => specified k ∈ kinds /\ is_xkey k = true) ks ->
  exists t', for_each (fun k => apply_xperm k p) ks t = Ret t' /\
    xperm_effect ks (xp_reset p) (range_start p) (range_end p) t t'.
Proof.
  intros Hl Hh Hok Hx Hks. revert t Hok Hx. induction Hks as [|k ks [Hkind Hk] Hks IH]; intros t Hok Hx.
  { exists t. split; [done|]. split; [done|done|done|]. intros k cmd Hk. by apply not_elem_of_nil in Hk. }
  destruct (apply_xperm_ok k p t Hok Hx Hkind Hk) as (t1 & E1 & Hok1 & Hx1 & Hs1 & Hg1').
  assert (Hg1 : forall cmd, 0 <= cmd < 65536 -> (xgranted t1 k cmd <-> if xp_reset p
    then ~ (range_start p <= cmd <= range_end p) else range_start p <= cmd <= range_end p \/ xgranted t k cmd)).
  { intros cmd Hc. rewrite Hg1'. pose proof (masked_range_interval p cmd Hl Hh Hc) as Hi.
    destruct (masked_range p cmd), (xp_reset p); intuition congruence. }
  destruct (IH t1 Hok1 Hx1) as (t2 & E2 & [Hok2 Hx2 Hf2 Hg2]). exists t2. cbn. rewrite E1. split; [done|].
  split; [done|done|..].
  - intros m Hm. rewrite Hf2 by set_solver. apply Hs1. set_solver.
  - intros k' cmd Hk' Hc. destruct (decide (k' ∈ ks)) as [Hin|Hnin].
    + rewrite (Hg2 k' cmd Hin Hc). destruct (decide (k' = k)) as [->|Hne].
      * destruct (xp_reset p); [done|]. rewrite Hg1 by done. tauto.
      * destruct (xp_reset p); [done|]. rewrite (xgranted_frame t t1 k' cmd); [done|]. intros m <-. by apply Hs1.
    + rewrite (xgranted_frame t1 t2 k' cmd) by (intros m <-; by apply Hf2).
      assert (k' = k) as -> by set_solver. by apply Hg1.
Qed.

(** C6: extended permission rules.  On a policy that supports them (version 30 and up) a
    rule succeeds for every pair of 16-bit bounds, and the commands granted for each of
    its keys are then those from [range_start] to [range_end] in addition to those granted
    before or, for a rule that resets, exactly those outside of them; other keys keep
    their nodes, the table stays well formed, and a key still has one node per slot.  The
    bounds are those of the rule when it is within one driver (one high byte) or about
    whole drivers; a rule over several drivers is widened to all the commands of all of
    them. *)
Theorem add_xperm_rule_refines vers db src tgt cls p effect t :
  POLICYDB_VERSION_XPERMS_IOCTL <= vers -> avtab_ok t -> xnodes_ok t ->
  0 <= xp_low p < 65536 -> 0 <= xp_high p < 65536 ->
  effect ∈ [AVTAB_XPERMS_ALLOWED; AVTAB_XPERMS_AUDITALLOW; AVTAB_XPERMS_DONTAUDIT] ->
  (exists t', add_xperm_rule vers db src tgt cls p effect t = Ret t' /\
    xperm_effect (xperm_keys db src tgt cls effect) (xp_reset p) (range_start p) (range_end p) t t') /\
  range_start p <= xp_low p /\ xp_high p <= range_end p /\
  (xp_low p / 256 = xp_high p / 256 \/ xp_low p mod 256 = 0 /\ xp_high p mod 256 = 255 ->
   range_start p = xp_low p /\ range_end p = xp_high p).
Proof.
  intros Hv Hok Hx Hl Hh He. split; [|apply range_bounds].
  rewrite add_xperm_keys by done. apply apply_xperms_effect; [done..|].
  apply Forall_forall. intros k Hk. apply keys_of_spec in Hk as [Hs _]. unfold is_xkey. rewrite Hs.
  assert (Hall : Forall (fun e => e ∈ kinds /\ negb (Z.land e AVTAB_XPERMS =? 0) = true)
    [AVTAB_XPERMS_ALLOWED; AVTAB_XPERMS_AUDITALLOW; AVTAB_XPERMS_DONTAUDIT])
    by (apply (bool_decide_unpack _); vm_compute; exact I).
  rewrite Forall_forall in Hall. by apply Hall.
Qed.
End operations.

Lemma empty_xnodes_ok : xnodes_ok empty_avtab.
Proof.
  split; [intros n Hn; by apply not_elem_of_nil in Hn|].
  intros k s id id' p p' _ (n & x & (Hn & _) & _). by apply not_elem_of_nil in Hn.
Qed.

Lemma add_xperm_rule_refines_witness : exists t',
  add_xperm_rule 30 sample_db None (Some (TypeDatum 2 TYPE_TYPE)) None (XpermRange 35072 35090 true)
    AVTAB_XPERMS_ALLOWED empty_avtab = Ret t' /\
  xgranted t' (AvKey 1 2 1 AVTAB_XPERMS_ALLOWED) 35091 /\ ~ xgranted t' (AvKey 1 2 1 AVTAB_XPERMS_ALLOWED) 35080.
Proof.
  assert (He : AVTAB_XPERMS_ALLOWED ∈ [AVTAB_XPERMS_ALLOWED; AVTAB_XPERMS_AUDITALLOW; AVTAB_XPERMS_DONTAUDIT]) by set_solver.
  destruct (add_xperm_rule_refines 30 sample_db None (Some (TypeDatum 2 TYPE_TYPE)) None (XpermRange 35072 35090 true)
    AVTAB_XPERMS_ALLOWED empty_avtab ltac:(discriminate) empty_avtab_ok empty_xnodes_ok ltac:(cbn; lia) ltac:(cbn; lia) He)
    as ((t' & E & [_ _ _ Hg]) & _ & _ & Hex).
  exists t'. assert (Hk : AvKey 1 2 1 AVTAB_XPERMS_ALLOWED ∈
    xperm_keys sample_db None (Some (TypeDatum 2 TYPE_TYPE)) None AVTAB_XPERMS_ALLOWED)
    by (apply (bool_decide_unpack _); vm_compute; exact I).
  destruct Hex as [Ha Hb]; [left; reflexivity|]. rewrite Ha, Hb in Hg. cbn [xp_low xp_high xp_reset] in Hg.
  split; [exact E|]. split.
  - apply (Hg _ _ Hk); lia.
  - intros Hx. apply (Hg _ _ Hk) in Hx; lia.
Defined.

(** ** Printed ranges *)

(** Ranges in increasing order with a gap between neighbours. *)
Fixpoint gaps (lo : Z) (l : list (Z * Z)) : Prop :=
  match l with [] => True | (a, b) :: l => lo <= a <= b /\ b <= 255 /\ gaps (b + 2) l end.
Definition covers (l : list (Z * Z)) (i : Z) : bool := existsb (fun r => in_interval r.1 r.2 i) l.

Lemma gaps_weaken lo lo' l : lo' <= lo -> gaps lo l -> gaps lo' l.
Proof. destruct l as [|[a b] l]; cbn; [done|]. intros. intuition lia. Qed.

(** [start low i]: where the range that is open at [i] begins. *)
Definition start (low i : Z) : Z := if low <? 0 then i else low.

Lemma in_interval_spec a b i : in_interval a b i = true <-> a <= i <= b.
Proof. unfold in_interval. rewrite andb_true_iff, !Z.leb_le. done. Qed.

Lemma gaps_not_covered lo l j : gaps lo l -> j < lo -> covers l j = false.
Proof.
  revert lo. induction l as [|[a b] l IH]; intros lo; [done|]. cbn. intros (? & ? & Hg) Hj.
  rewrite (not_true_is_false (in_interval a b j)) by (rewrite in_interval_spec; lia). apply (IH (b + 2)); [done|lia].
Qed.

Lemma xperm_ranges_spec fuel perms i low : Z.of_nat fuel = 256 - i -> 0 <= i -> -1 <= low < i ->
  gaps (start low i) (xperm_ranges fuel perms i low) /\
  forall j, start low i <= j < 256 -> (low < 0 \/ i < 256) ->
    covers (xperm_ranges fuel perms i low) j = if j <? i then true else Z.testbit perms j.
Proof.
  revert i low. induction fuel as [|fuel IH]; intros i low Hf Hi Hl.
  { cbn. split; [done|]. intros j Hj [Hn|Hn]; [|lia]. unfold start in Hj. rewrite (proj2 (Z.ltb_lt _ _)) in Hj by done. lia. }
  cbn [xperm_ranges]. destruct (Z.testbit perms i) eqn:Eb.
  - fold (start low i). assert (Hst : 0 <= start low i <= i) by (unfold start; case_match eqn:E; [lia|apply Z.ltb_ge in E; lia]).
    assert (Hst' : start (start low i) (i + 1) = start low i) by (unfold start at 1; by rewrite (proj2 (Z.ltb_ge _ _)) by lia).
    destruct (IH (i + 1) (start low i)) as [Hg Hc]; [lia..|]. rewrite Hst' in Hg, Hc.
    destruct (Z.eqb_spec i 255) as [->|Hne].
    + assert (fuel = O) as -> by lia. cbn. split; [lia|]. intros j Hj _. rewrite orb_false_r.
      rewrite (proj2 (in_interval_spec _ _ _)) by lia. destruct (Z.ltb_spec j 255); [done|]. by assert (j = 255) as -> by lia.
    + cbn [app]. split; [done|]. intros j Hj _. rewrite Hc by lia.
      destruct (Z.ltb_spec j (i + 1)), (Z.ltb_spec j i); try lia; try done. by assert (j = i) as -> by lia.
  - destruct (Z.leb_spec 0 low) as [Hlow|Hlow].
    + assert (Hst : start low i = low) by (unfold start; by rewrite (proj2 (Z.ltb_ge _ _)) by lia). rewrite Hst.
      destruct (IH (i + 1) (-1)) as [Hg Hc]; [lia..|]. change (start (-1) (i + 1)) with (i + 1) in Hg, Hc.
      assert (Hg' : gaps (i - 1 + 2) (xperm_ranges fuel perms (i + 1) (-1))) by (eapply gaps_weaken; [|exact Hg]; lia).
      cbn [gaps]. split; [split; [lia|split; [lia|done]]|]. intros j Hj _. unfold covers. cbn [existsb fst snd].
      destruct (Z.ltb_spec j i) as [Hji|Hji]; [by rewrite (proj2 (in_interval_spec _ _ _)) by lia|].
      rewrite (not_true_is_false (in_interval low (i - 1) j)) by (rewrite in_interval_spec; lia). cbn [orb].
      destruct (decide (j = i)) as [->|Hne].
      * rewrite Eb. eapply gaps_not_covered; [exact Hg|lia].
      * fold (covers (xperm_ranges fuel perms (i + 1) (-1)) j). rewrite Hc by lia.
        by rewrite (proj2 (Z.ltb_ge _ _)) by lia.
    + assert (Hst : start low i = i) by (unfold start; by rewrite (proj2 (Z.ltb_lt _ _)) by lia). rewrite Hst.
      destruct (IH (i + 1) low) as [Hg Hc]; [lia..|].
      assert (Hst' : start low (i + 1) = i + 1) by (unfold start; by rewrite (proj2 (Z.ltb_lt _ _)) by lia).
      rewrite Hst' in Hg, Hc. split; [eapply gaps_weaken; [|exact Hg]; lia|]. intros j Hj _.
      rewrite (proj2 (Z.ltb_ge j i)) by lia. destruct (decide (j = i)) as [->|Hne].
      * rewrite Eb. eapply gaps_not_covered; [exact Hg|lia].
      * rewrite Hc by lia. by rewrite (proj2 (Z.ltb_ge _ _)) by lia.
Qed.

Lemma to_value_func x v : 0 <= x_driver x < 256 -> 0 <= v < 256 -> x_specified x = AVTAB_XPERMS_IOCTLFUNCTION ->
  ioctl_driver (to_value x v) = x_driver x /\ ioctl_func (to_value x v) = v.
Proof.
  intros Hd Hv Hs. unfold to_value, ioctl_driver, ioctl_func. rewrite Hs. cbn [Z.eqb Pos.eqb AVTAB_XPERMS_IOCTLFUNCTION].
  change 255 with (Z.ones 8). rewrite !Z.land_ones, Z.shiftr_lor, Z.shiftr_shiftl_l, Z.shiftl_0_r by lia. split.
  - rewrite (Z.shiftr_div_pow2 v), (Z.div_small v), Z.lor_0_r by lia. by apply Z.mod_small.
  - rewrite <- Z.land_ones, Z.land_lor_distr_l, !Z.land_ones, Z.shiftl_mul_pow2, Z.mod_mul, Z.lor_0_l by lia.
    by apply Z.mod_small.
Qed.

(** The ranges printed for a node are disjoint, increasing and as long as possible,
    and cover exactly the permission bits; and for a function node the printed rule,
    read as ranges of commands again, grants exactly the commands of the node. *)
Theorem printed_ranges_exact perms :
  gaps 0 (print_ranges perms) /\
  (forall i, 0 <= i < 256 -> covers (print_ranges perms) i = Z.testbit perms i) /\
  forall x cmd, x_perms x = perms -> x_specified x = AVTAB_XPERMS_IOCTLFUNCTION -> 0 <= x_driver x < 256 ->
    existsb (fun r => masked_range (XpermRange (to_value x r.1) (to_value x r.2) false) cmd) (print_ranges perms) =
    (ioctl_driver cmd =? x_driver x) && Z.testbit perms (ioctl_func cmd).
Proof.
  destruct (xperm_ranges_spec 256 perms 0 (-1)) as [Hg Hc]; [lia..|]. change (start (-1) 0) with 0 in *.
  unfold print_ranges. generalize dependent (xperm_ranges 256 perms 0 (-1)). intros rs Hg Hc.
  assert (Hcov : forall i, 0 <= i < 256 -> covers rs i = Z.testbit perms i).
  { intros i Hi. rewrite Hc by lia. by rewrite (proj2 (Z.ltb_ge _ _)) by lia. }
  split_and!; [done..|]. intros x cmd Hx Hs Hd. rewrite <- Hcov by apply ioctl_func_range. clear Hc Hcov Hx.
  assert (Hgen : forall l lo, 0 <= lo -> gaps lo l ->
    existsb (fun r => masked_range (XpermRange (to_value x r.1) (to_value x r.2) false) cmd) l =
    (ioctl_driver cmd =? x_driver x) && covers l (ioctl_func cmd)); [|by apply (Hgen rs 0)].
  clear Hg rs.
  induction l as [|[a b] l IH]; intros lo Hlo Hg; cbn [existsb covers]; [by rewrite andb_false_r|].
  destruct Hg as (Hab & Hb & Hg). rewrite (IH (b + 2)) by (done || lia). unfold masked_range, covers. cbn [fst snd xp_low xp_high existsb].
  destruct (to_value_func x a Hd ltac:(lia) Hs) as [-> ->]. destruct (to_value_func x b Hd ltac:(lia) Hs) as [-> ->].
  rewrite Z.eqb_refl. by rewrite andb_orb_distrib_r.
Qed.

(** A driver node with a single driver is printed as one command of that driver. *)
Example driver_node_printed_as_command :
  let x := XPerms AVTAB_XPERMS_IOCTLDRIVER 0 (Z.shiftl 1 137) in
  let v := to_value x 137 in
  print_ranges (x_perms x) = [(137, 137)] /\ v = 35072 /\ masked_range (XpermRange v v false) 35073 = false.
Proof. vm_compute. auto. Qed.
