(* ===== verification/PolicyDb.v ===== *)
(** The other statements of [native/src/sepolicy/sepolicy.cpp]: types and
    attributes, permissive types, genfscon and filename transitions.  Bitmaps, the
    insertion of a symbol and the search of the transition table are libsepol's and
    parameters with their laws. *)

From S2P Require Import Prelude Base Avtab Sepolicy.

(** ** The policy *)

(** [ebitmap_set_bit] reports whether it succeeded; libsepol lets it fail only when a
    node cannot be allocated.  The last law is an assumption of the theorems that use
    it: memory is not exhausted. *)
Class Ebitmap (E : Type) := {
  ebitmap_init : E;
  ebitmap_get_bit : E -> Z -> bool;
  ebitmap_set_bit : E -> Z -> bool -> E * bool }.
Class EbitmapLaws (E : Type) `{Ebitmap E} : Prop := {
  get_init : forall i, ebitmap_get_bit ebitmap_init i = false;
  get_set : forall e i b j, (ebitmap_set_bit e i b).2 = true ->
    ebitmap_get_bit (ebitmap_set_bit e i b).1 j = if j =? i then b else ebitmap_get_bit e j;
  set_ok : forall e i b, (ebitmap_set_bit e i b).2 = true }.

Definition CEXPR_NAMES : Z := 5.

Section db.
Context {E C : Type} `{Ebitmap E, Hashtab}.

(** [constraint_expr_t] *)
Record cexpr := CExpr { e_type : Z; e_type_names : E; e_names : E }.
Record role := Role { r_types : E; r_negset : E; r_cache : E }.

(** The parts of [policydb] the statements use; [constraints] has the expressions of
    all constraints of all classes, [genfs] the paths of each file system. *)
Record policydb := PolicyDb {
  symtab : symbols;
  nprim : Z;
  permissive_map : E;
  type_attr_map : list E;
  attr_type_map : list E;
  constraints : list (list (list cexpr));
  roles : list role;
  genfs : list (bytes * list (bytes * C)) }.

Definition with_types (f : list (bytes * type_datum) -> list (bytes * type_datum)) (db : policydb) : policydb :=
  PolicyDb (Symbols (f (p_types (symtab db))) (p_classes (symtab db))) (nprim db) (permissive_map db)
    (type_attr_map db) (attr_type_map db) (constraints db) (roles db) (genfs db).

Definition set_bit (e : E) (i : Z) (b : bool) : E := (ebitmap_set_bit e i b).1.

(** Writing an element of one of the maps, an array of [nprim] bitmaps. *)
Definition set_map (m : list E) (v i : Z) : outcome (list E) :=
  match m !! Z.to_nat (v - 1) with
  | Some e => if v <? 1 then Fault else Ret (<[Z.to_nat (v - 1) := set_bit e (i - 1) true]> m)
  | None => Fault
  end.

(** *** Attributes of types *)

Definition constrain (type attr : Z) (e : cexpr) : cexpr :=
  if (e_type e =? CEXPR_NAMES) && ebitmap_get_bit (e_type_names e) (attr - 1)
  then CExpr (e_type e) (e_type_names e) (set_bit (e_names e) (type - 1) true) else e.

Definition add_typeattribute_data (type attr : type_datum) (db : policydb) : outcome policydb :=
  let! tam := set_map (type_attr_map db) (t_value type) (t_value attr) in
  let! atm := set_map (attr_type_map db) (t_value attr) (t_value type) in
  Ret (PolicyDb (symtab db) (nprim db) (permissive_map db) tam atm
         (map (map (map (constrain (t_value type) (t_value attr)))) (constraints db)) (roles db) (genfs db)).

Definition add_typeattribute (type attr : bytes) (db : policydb) : outcome (policydb * bool) :=
  match hashtab_find (p_types (symtab db)) type with
  | None => Ret (db, false)
  | Some type_d =>
    if t_flavor type_d =? TYPE_ATTRIB then Ret (db, false)
    else
      match hashtab_find (p_types (symtab db)) attr with
      | None => Ret (db, false)
      | Some attr_d =>
        if negb (t_flavor attr_d =? TYPE_ATTRIB) then Ret (db, false)
        else let! db := add_typeattribute_data type_d attr_d db in Ret (db, true)
      end
  end.

(** *** New types *)

(** libsepol: inserting a symbol, rebuilding the indices, and expanding a type set. *)
Context (symtab_insert : list (bytes * type_datum) -> bytes -> type_datum -> option (list (bytes * type_datum))).
Context (reindex : policydb -> bool).
Context (type_set_expand : policydb -> role -> E).

Definition add_role_type (value : Z) (db : policydb) (r : role) : role :=
  let r := Role (r_types r) (set_bit (r_negset r) (value - 1) false) (r_cache r) in
  let r := Role (set_bit (r_types r) (value - 1) true) (r_negset r) (r_cache r) in
  Role (r_types r) (r_negset r) (type_set_expand db r).

(** [add_type]; the value of the new type is the number of types. *)
Definition add_type (name : bytes) (flavor : Z) (db : policydb) : policydb * bool :=
  match hashtab_find (p_types (symtab db)) name with
  | Some _ => (db, true)
  | None =>
    let value := nprim db + 1 in
    match symtab_insert (p_types (symtab db)) name (TypeDatum value flavor) with
    | None => (db, false)
    | Some types =>
      let db := PolicyDb (Symbols types (p_classes (symtab db))) value (permissive_map db)
        (take (Z.to_nat (value - 1)) (type_attr_map db) ++ [set_bit ebitmap_init (value - 1) true])
        (take (Z.to_nat (value - 1)) (attr_type_map db) ++ [ebitmap_init])
        (constraints db) (roles db) (genfs db) in
      if negb (reindex db) then (db, false)
      else
        (PolicyDb (symtab db) (nprim db) (permissive_map db) (type_attr_map db) (attr_type_map db)
           (constraints db) (map (add_role_type value db) (roles db)) (genfs db), true)
    end
  end.

(** *** Permissive types *)

Definition set_permissive (e : E) (db : policydb) : policydb :=
  PolicyDb (symtab db) (nprim db) e (type_attr_map db) (attr_type_map db) (constraints db) (roles db) (genfs db).

Definition set_type_state (name : bytes) (permissive : bool) (db : policydb) : policydb * bool :=
  match name with
  | [] => (set_permissive (foldl (fun e d => set_bit e (t_value d) permissive) (permissive_map db)
             (p_types (symtab db)).*2) db, true)
  | _ =>
    match hashtab_find (p_types (symtab db)) name with
    | None => (db, false)
    | Some d =>
      let '(e, ok) := ebitmap_set_bit (permissive_map db) (t_value d) permissive in
      (set_permissive e db, ok)
    end
  end.

(** *** File systems *)

(** [list_find] for a node, or a new node at the front; then [f] on it. *)
Fixpoint upd_first {A} (key : bytes) (f : A -> A) (l : list (bytes * A)) : option (list (bytes * A)) :=
  match l with
  | [] => None
  | (k, a) :: l => if bool_decide (k = key) then Some ((k, f a) :: l) else option_map (cons (k, a)) (upd_first key f l)
  end.
Definition find_or_front {A} (key : bytes) (fresh : A) (f : A -> A) (l : list (bytes * A)) : list (bytes * A) :=
  match upd_first key f l with Some l => l | None => (key, f fresh) :: l end.

(** libsepol's parser of contexts. *)
Context (context_from_string : policydb -> bytes -> option C).

Definition set_genfs (g : list (bytes * list (bytes * C))) (db : policydb) : policydb :=
  PolicyDb (symtab db) (nprim db) (permissive_map db) (type_attr_map db) (attr_type_map db) (constraints db) (roles db) g.

Definition add_genfscon (fs_name path context : bytes) (db : policydb) : policydb * bool :=
  match context_from_string db context with
  | None => (db, false)
  | Some ctx =>
    (set_genfs (find_or_front fs_name [] (find_or_front path ctx (fun _ => ctx)) (genfs db)) db, true)
  end.

(** *** Statements over lists of names *)

Definition permissive (types : list bytes) (db : policydb) : outcome policydb :=
  expand types (fun t db => Ret (set_type_state t true db).1) db.
Definition enforce (types : list bytes) (db : policydb) : outcome policydb :=
  expand types (fun t db => Ret (set_type_state t false db).1) db.
Definition typeattribute (types attrs : list bytes) (db : policydb) : outcome policydb :=
  expand types (fun t => expand attrs (fun a db => let! (db, _) := add_typeattribute t a db in Ret db)) db.
Definition type_statement (name : bytes) (attrs : list bytes) (db : policydb) : outcome policydb :=
  expand attrs (fun a db =>
    let '(db, ok) := add_type name TYPE_TYPE db in
    if ok then let! (db, _) := add_typeattribute name a db in Ret db else Ret db) db.
Definition attribute (name : bytes) (db : policydb) : policydb := (add_type name TYPE_ATTRIB db).1.
Definition genfscon (fs_name path ctx : bytes) (db : policydb) : policydb := (add_genfscon fs_name path ctx db).1.
End db.

(** ** Types and attributes *)

Section types.
Context {E C : Type} `{EbitmapLaws E, HashtabLaws}.
Implicit Types (db : policydb (E := E) (C := C)).

(** Bit [i] of the bitmap of type [v]. *)
Definition map_bit (m : list E) (v i : Z) : bool :=
  match m !! Z.to_nat (v - 1) with Some e => ebitmap_get_bit e (i - 1) | None => false end.

(** The two maps have a bitmap for every type and say the same: an attribute is in the
    bitmap of a type exactly when the type is in the bitmap of the attribute. *)
Record maps_ok db : Prop := MapsOk {
  m_names : NoDup (p_types (symtab db)).*1;
  m_values : forall n d, (n, d) ∈ p_types (symtab db) -> 1 <= t_value d <= nprim db;
  m_tam : zlen (type_attr_map db) = nprim db;
  m_atm : zlen (attr_type_map db) = nprim db;
  m_tam_high : forall v i, 1 <= v -> map_bit (type_attr_map db) v i = true -> i <= nprim db;
  m_atm_high : forall v i, 1 <= v -> map_bit (attr_type_map db) v i = true -> i <= nprim db;
  m_same : forall t a, 1 <= t -> 1 <= a -> t <> a ->
    map_bit (type_attr_map db) t a = map_bit (attr_type_map db) a t }.

Lemma set_map_ok m v i : 1 <= v <= zlen m -> exists m', set_map m v i = Ret m' /\ length m' = length m /\
  forall v' i', 1 <= v' -> map_bit m' v' i' = if (v' =? v) && (i' =? i) then true else map_bit m v' i'.
Proof.
  intros Hv. unfold set_map. destruct (lookup_lt_is_Some_2 m (Z.to_nat (v - 1))) as [e He]; [unfold zlen in Hv; lia|].
  rewrite He, (proj2 (Z.ltb_ge _ _)) by lia. eexists. split; [done|]. split; [apply length_insert|].
  intros v' i' Hv'. unfold map_bit. destruct (Z.eqb_spec v' v) as [->|Hne]; cbn.
  - rewrite list_lookup_insert_eq by (by eapply lookup_lt_Some). rewrite He. unfold set_bit. rewrite get_set by apply set_ok.
    destruct (Z.eqb_spec i' i), (Z.eqb_spec (i' - 1) (i - 1)); done || lia.
  - by rewrite list_lookup_insert_ne by lia.
Qed.

Lemma find_type db n d : maps_ok db -> hashtab_find (p_types (symtab db)) n = Some d -> 1 <= t_value d <= nprim db.
Proof. intros Hm E1. unfold hashtab_find in E1. apply hashtab_search_spec in E1; [|apply Hm]. by apply (m_values db Hm) in E1. Qed.

(** A constraint expression before and after a type got an attribute: an expression
    over names whose type set has the attribute lists the type as well, and every other
    expression is the same. *)
Definition names_extended (type attr : Z) (e e' : cexpr (E := E)) : Prop :=
  if bool_decide (e_type e = 5 /\ ebitmap_get_bit (e_type_names e) (attr - 1) = true) then
    e_type e' = e_type e /\ e_type_names e' = e_type_names e /\
    forall i, ebitmap_get_bit (e_names e') i = true <-> i = type - 1 \/ ebitmap_get_bit (e_names e) i = true
  else e' = e.

Lemma constrain_extends type attr e : names_extended type attr e (constrain type attr e).
Proof.
  unfold names_extended, constrain, CEXPR_NAMES. case_bool_decide as Hc.
  - destruct Hc as [-> ->]. cbn. split_and!; [done..|]. intros i. unfold set_bit.
    rewrite get_set by apply set_ok. destruct (Z.eqb_spec i (type - 1)); naive_solver.
  - destruct (Z.eqb_spec (e_type e) 5), (ebitmap_get_bit (e_type_names e) (attr - 1)); naive_solver.
Qed.

Lemma Forall2_map_self {A} (R : A -> A -> Prop) (f : A -> A) l : (forall x, R x (f x)) -> Forall2 R l (map f l).
Proof. intros Hf. induction l; cbn; by constructor. Qed.

Lemma constrain_all type attr (l : list (list (list (cexpr (E := E))))) :
  Forall2 (Forall2 (Forall2 (names_extended type attr))) l (map (map (map (constrain type attr))) l).
Proof.
  apply Forall2_map_self. intros l1. apply Forall2_map_self. intros l2.
  apply Forall2_map_self, constrain_extends.
Qed.

(** C39: [add_typeattribute] keeps the two maps between types and attributes inverse to
    each other, in a policy whose maps have a bitmap for every type and whose types have
    distinct names, as long as libsepol can allocate.  It fails without effect unless the
    first name is a type and the second an attribute; otherwise the attribute is in the
    type's bitmap and the type in the attribute's, no other bit of the maps changes, the
    type is added to the names of exactly the constraint expressions over names whose
    type set has the attribute ([names_extended]), every other expression and every other
    part of the policy stays the same. *)
Theorem add_typeattribute_spec ty at_ db : maps_ok db ->
  exists db' b, add_typeattribute ty at_ db = Ret (db', b) /\ maps_ok db' /\
    match hashtab_find (p_types (symtab db)) ty, hashtab_find (p_types (symtab db)) at_ with
    | Some td, Some ad =>
      if (t_flavor td =? TYPE_ATTRIB) || negb (t_flavor ad =? TYPE_ATTRIB) then db' = db /\ b = false
      else b = true /\
           (forall t a, 1 <= t -> map_bit (type_attr_map db') t a =
             if (t =? t_value td) && (a =? t_value ad) then true else map_bit (type_attr_map db) t a) /\
           (forall a t, 1 <= a -> map_bit (attr_type_map db') a t =
             if (a =? t_value ad) && (t =? t_value td) then true else map_bit (attr_type_map db) a t) /\
           Forall2 (Forall2 (Forall2 (names_extended (t_value td) (t_value ad)))) (constraints db) (constraints db') /\
           symtab db' = symtab db /\ nprim db' = nprim db /\ permissive_map db' = permissive_map db /\
           roles db' = roles db /\ genfs db' = genfs db
    | _, _ => db' = db /\ b = false
    end.
Proof.
  intros Hm. unfold add_typeattribute.
  destruct (hashtab_find (p_types (symtab db)) ty) as [td|] eqn:Et; [|by exists db, false].
  destruct (t_flavor td =? TYPE_ATTRIB) eqn:Ef; cbn.
  { exists db, false. split_and!; [done..|]. by destruct (hashtab_find _ at_). }
  destruct (hashtab_find (p_types (symtab db)) at_) as [ad|] eqn:Ea; [|by exists db, false].
  destruct (negb (t_flavor ad =? TYPE_ATTRIB)) eqn:Eg; [by exists db, false|].
  pose proof (find_type db ty td Hm Et) as Hvt. pose proof (find_type db at_ ad Hm Ea) as Hva.
  unfold add_typeattribute_data.
  destruct (set_map_ok (type_attr_map db) (t_value td) (t_value ad)) as (m1 & -> & Hl1 & Hb1); [rewrite (m_tam db Hm); lia|].
  destruct (set_map_ok (attr_type_map db) (t_value ad) (t_value td)) as (m2 & -> & Hl2 & Hb2); [rewrite (m_atm db Hm); lia|].
  cbn [obind]. eexists _, true. split; [reflexivity|]. destruct Hm as [Hn Hv H1' H2' Hh1 Hh2 Hsame]. split_and!; [|done|done|done|apply constrain_all|done..].
  split; cbn [symtab nprim type_attr_map attr_type_map]; [done|done|unfold zlen in *; congruence|unfold zlen in *; congruence|..].
  - intros v i Hv1. rewrite Hb1 by done. case_match eqn:Ec; [|by apply Hh1].
    apply andb_true_iff in Ec as [_ ->%Z.eqb_eq]. lia.
  - intros v i Hv1. rewrite Hb2 by done. case_match eqn:Ec; [|by apply Hh2].
    apply andb_true_iff in Ec as [_ ->%Z.eqb_eq]. lia.
  - intros t a Ht Ha Hta. rewrite Hb1, Hb2 by done.
    rewrite (andb_comm (a =? t_value ad)). case_match; [done|by apply Hsame].
Qed.

(** *** New types *)

Context (symtab_insert : list (bytes * type_datum) -> bytes -> type_datum -> option (list (bytes * type_datum))).
Context (reindex : policydb (E := E) (C := C) -> bool).
Context (type_set_expand : policydb (E := E) (C := C) -> role (E := E) -> E).
(** libsepol adds the symbol under its name. *)
Hypothesis symtab_insert_law : forall tab name d tab', symtab_insert tab name d = Some tab' -> tab' ≡ₚ (name, d) :: tab.

Lemma map_bit_app m e v i : 1 <= v -> map_bit (m ++ [e]) v i =
  if v =? zlen m + 1 then ebitmap_get_bit e (i - 1) else map_bit m v i.
Proof.
  intros Hv. unfold map_bit, zlen. destruct (Z.eqb_spec v (Z.of_nat (length m) + 1)) as [->|Hne].
  - by rewrite list_lookup_middle by lia.
  - destruct (decide (Z.to_nat (v - 1) < length m)%nat); [by rewrite lookup_app_l by done|].
    rewrite lookup_app_r by lia. rewrite (lookup_ge_None_2 m) by lia.
    by rewrite lookup_ge_None_2 by (cbn; lia).
Qed.

(** [add_type] of a new name either fails or adds one type: it is found under its
    name with a fresh value, every other name keeps its meaning, the maps stay inverse to
    each other with the type in its own bitmap only, and every role may use it.  Adding a
    name that exists changes nothing. *)
Theorem add_type_spec name flavor db db' b : maps_ok db -> copy_str name = name ->
  add_type symtab_insert reindex type_set_expand name flavor db = (db', b) ->
  match hashtab_find (p_types (symtab db)) name with
  | Some _ => db' = db /\ b = true
  | None => b = true ->
    maps_ok db' /\ hashtab_find (p_types (symtab db')) name = Some (TypeDatum (nprim db + 1) flavor) /\
    (forall n, copy_str n <> name -> hashtab_find (p_types (symtab db')) n = hashtab_find (p_types (symtab db)) n) /\
    (forall a, map_bit (type_attr_map db') (nprim db + 1) a = (a =? nprim db + 1)) /\
    Forall (fun r => ebitmap_get_bit (r_types r) (nprim db) = true /\ ebitmap_get_bit (r_negset r) (nprim db) = false)
      (roles db')
  end.
Proof.
  intros Hm Hcopy. unfold add_type, hashtab_find. rewrite Hcopy. set (value := nprim db + 1) in *.
  destruct (hashtab_search (p_types (symtab db)) name) eqn:Ef; [by intros [= <- <-]|].
  destruct (symtab_insert (p_types (symtab db)) name (TypeDatum value flavor)) as [tab|] eqn:Ei; [|by intros [= <- <-]].
  destruct (negb (reindex _)); intros [= <- <-]; [done|]. intros _. apply symtab_insert_law in Ei.
  destruct Hm as [Hn Hv Ht Ha Hh1 Hh2 Hs].
  assert (Hnin : name ∉ (p_types (symtab db)).*1).
  { intros (d & -> & Hd)%list_elem_of_fmap. destruct d as [n d]. apply hashtab_search_spec in Hd; [|done]. cbn in Ef. congruence. }
  assert (Hnd : NoDup tab.*1) by (rewrite Ei; cbn; by constructor).
  assert (Hlen1 : take (Z.to_nat (value - 1)) (type_attr_map db) = type_attr_map db) by (apply take_ge; unfold zlen in Ht; lia).
  assert (Hlen2 : take (Z.to_nat (value - 1)) (attr_type_map db) = attr_type_map db) by (apply take_ge; unfold zlen in Ha; lia).
  assert (Hb1 : forall v i, 1 <= v -> map_bit (type_attr_map db ++ [set_bit ebitmap_init (value - 1) true]) v i =
    if v =? value then i =? value else map_bit (type_attr_map db) v i).
  { intros v i Hvi. rewrite map_bit_app, Ht by done. fold value. case_match; [|done]. unfold set_bit.
    rewrite get_set by apply set_ok. rewrite get_init.
    destruct (Z.eqb_spec (i - 1) (value - 1)), (Z.eqb_spec i value); done || lia. }
  assert (Hb2 : forall v i, 1 <= v -> map_bit (attr_type_map db ++ [ebitmap_init]) v i =
    if v =? value then false else map_bit (attr_type_map db) v i).
  { intros v i Hvi. rewrite map_bit_app, Ha by done. fold value. case_match; [|done]. apply get_init. }
  assert (Hvpos : 1 <= value) by (unfold value; pose proof (zlen_nonneg (type_attr_map db)); lia).
  rewrite Hlen1, Hlen2. split_and!; cbn [symtab p_types type_attr_map roles].
  - split; cbn [symtab p_types nprim type_attr_map attr_type_map]; [done|..].
    + intros n d. rewrite Ei. intros [[= -> ->]|Hd]%elem_of_cons; [cbn; lia|]. apply Hv in Hd. lia.
    + rewrite zlen_app, Ht. done.
    + rewrite zlen_app, Ha. done.
    + intros v i Hv1. rewrite Hb1 by done. case_match; [intros ->%Z.eqb_eq; lia|]. intros Hi%Hh1; lia.
    + intros v i Hv1. rewrite Hb2 by done. case_match; [done|]. intros Hi%Hh2; lia.
    + intros t a Ht1 Ha1 Hta. rewrite Hb1, Hb2 by done.
      destruct (Z.eqb_spec t value) as [->|], (Z.eqb_spec a value) as [->|]; [done|..].
      * symmetry. apply not_true_is_false. intros Hi%Hh2; lia.
      * apply not_true_is_false. intros Hi%Hh1; lia.
      * by apply Hs.
  - apply hashtab_search_spec; [done|]. rewrite Ei. set_solver.
  - intros n Hne. apply option_eq. intros d. rewrite !hashtab_search_spec by done. rewrite Ei, elem_of_cons. naive_solver.
  - intros a. by rewrite Hb1, Z.eqb_refl.
  - apply Forall_map, Forall_true. intros r. cbn. unfold set_bit. rewrite !get_set by apply set_ok.
    unfold value. rewrite Z.add_simpl_r, Z.eqb_refl. done.
Qed.

(** *** Permissive types *)

Lemma foldl_permissive p (l : list type_datum) e i :
  ebitmap_get_bit (foldl (fun e d => set_bit e (t_value d) p) e l) i =
  if bool_decide (i ∈ t_value <$> l) then p else ebitmap_get_bit e i.
Proof.
  revert e. induction l as [|d l IH]; intros e; [done|]. cbn [foldl]. rewrite IH. unfold set_bit.
  rewrite get_set by apply set_ok. rewrite fmap_cons. destruct (Z.eqb_spec i (t_value d)) as [->|].
  - rewrite (bool_decide_eq_true_2 (_ ∈ _ :: _)) by set_solver. by case_match.
  - rewrite (bool_decide_ext (i ∈ t_value d :: _) (i ∈ t_value <$> l)); [done|set_solver].
Qed.

Theorem set_type_state_spec name p db :
  let '(db', b) := set_type_state name p db in
  match name with
  | [] => b = true /\ forall i, ebitmap_get_bit (permissive_map db') i =
      if bool_decide (i ∈ t_value <$> (p_types (symtab db)).*2) then p else ebitmap_get_bit (permissive_map db) i
  | _ => match hashtab_find (p_types (symtab db)) name with
         | None => b = false /\ db' = db
         | Some d => b = true /\ forall i, ebitmap_get_bit (permissive_map db') i =
             if i =? t_value d then p else ebitmap_get_bit (permissive_map db) i
         end
  end.
Proof.
  unfold set_type_state. destruct name as [|x name].
  - split; [done|]. intros i. cbn [set_permissive permissive_map]. apply foldl_permissive.
  - destruct (hashtab_find _ _) as [d|]; [|done]. destruct (ebitmap_set_bit _ _ _) as [e ok] eqn:Es.
    pose proof (set_ok (permissive_map db) (t_value d) p) as Hok. rewrite Es in Hok. cbn in Hok. subst ok.
    split; [done|]. intros i. cbn [set_permissive permissive_map].
    pose proof (get_set (permissive_map db) (t_value d) p i) as Hg. rewrite Es in Hg. by apply Hg.
Qed.

(** *** File systems *)

Fixpoint assoc {A} (key : bytes) (l : list (bytes * A)) : option A :=
  match l with [] => None | (k, a) :: l => if bool_decide (k = key) then Some a else assoc key l end.

Lemma assoc_upd {A} key fresh (f : A -> A) l k :
  assoc k (find_or_front key fresh f l) =
  if bool_decide (k = key) then Some (f (default fresh (assoc key l))) else assoc k l.
Proof.
  unfold find_or_front. assert (Hu : match upd_first key f l with
    | Some l' => (exists a, assoc key l = Some a /\ assoc key l' = Some (f a)) /\ forall k, k <> key -> assoc k l' = assoc k l
    | None => assoc key l = None end).
  { induction l as [|[k' a] l IH]; [done|]. cbn. case_bool_decide as Ek; cbn.
    - subst k'. split; [exists a; by rewrite bool_decide_eq_true_2|]. intros k'' Hk. by rewrite bool_decide_eq_false_2.
    - destruct (upd_first key f l) as [l'|]; cbn; [|done]. destruct IH as [(b & Hb1 & Hb2) Hk]. split.
      + exists b. by rewrite bool_decide_eq_false_2.
      + intros k'' Hne. case_bool_decide; [done|by apply Hk]. }
  destruct (upd_first key f l) as [l'|].
  - destruct Hu as [(a & Ha & Hb) Hk]. case_bool_decide as Ek; [subst; by rewrite Ha|by apply Hk].
  - cbn. rewrite Hu. destruct (decide (k = key)) as [->|].
    + by rewrite !bool_decide_eq_true_2.
    + by rewrite !bool_decide_eq_false_2.
Qed.

Context (context_from_string : policydb (E := E) (C := C) -> bytes -> option C).

(** The context of a path. *)
Definition genfs_context db (fs path : bytes) : option C := assoc fs (genfs db) ≫= assoc path.

(** [add_genfscon] with a valid context sets the context of that path of that file
    system, creating either if it is missing, and changes no other; with an invalid one it
    fails without effect. *)
Theorem add_genfscon_spec fs path ctx db :
  let '(db', b) := add_genfscon context_from_string fs path ctx db in
  match context_from_string db ctx with
  | None => b = false /\ db' = db
  | Some c => b = true /\ forall f p, genfs_context db' f p =
      if bool_decide (f = fs /\ p = path) then Some c else genfs_context db f p
  end.
Proof.
  unfold add_genfscon. destruct (context_from_string db ctx) as [c|]; [|done]. split; [done|].
  intros f p. unfold genfs_context. cbn [genfs set_genfs]. rewrite assoc_upd.
  destruct (decide (f = fs)) as [->|Hf].
  - rewrite bool_decide_eq_true_2 by done. cbn. rewrite assoc_upd.
    destruct (decide (p = path)) as [->|Hp].
    + by rewrite !bool_decide_eq_true_2.
    + rewrite !bool_decide_eq_false_2 by naive_solver. by destruct (assoc fs (genfs db)).
  - rewrite !bool_decide_eq_false_2 by naive_solver. done.
Qed.
End types.

(** ** Filename transitions *)

Record ftkey := FtKey { ft_ttype : Z; ft_tclass : Z; ft_name : option bytes }.

(** [add_filename_trans] passes the key structure (two 32-bit words and a pointer of
    [w] bytes) to [hashtab_find], which takes a string: the structure is copied up to
    its first null byte into a zeroed array, and that array is the key of the search.
    [ptr] is the address of [name]; any other address but null is not a string. *)
Definition key_bytes (w : nat) (ptr : Z) (k : ftkey) : bytes :=
  le_enc 4 (ft_ttype k) ++ le_enc 4 (ft_tclass k) ++ le_enc w ptr.
Definition find_key (w : nat) (ptr : Z) (k : ftkey) : outcome ftkey :=
  let buf := copy_str (key_bytes w ptr k) ++ zeros 16 in
  let p := le_dec (sub buf 8 (Z.of_nat w)) in
  if p =? 0 then Ret (FtKey (le_dec (sub buf 0 4)) (le_dec (sub buf 4 4)) None)
  else if p =? ptr then Ret (FtKey (le_dec (sub buf 0 4)) (le_dec (sub buf 4 4)) (ft_name k))
  else Fault.

Section filename.
Context {E : Type} `{Ebitmap E}.

Record ftdatum := FtDatum { ft_stypes : E; ft_otype : Z }.

(** libsepol's search and insertion for the table of transitions: each key has a
    chain of data; inserting a key that exists fails. *)
Context (ft_search : list (ftkey * list ftdatum) -> ftkey -> outcome (option (list ftdatum))).
Context (ft_insert : list (ftkey * list ftdatum) -> ftkey -> list ftdatum -> list (ftkey * list ftdatum)).
(** Storing through the pointers of a chain found in the table. *)
Context (ft_store : list (ftkey * list ftdatum) -> ftkey -> list ftdatum -> list (ftkey * list ftdatum)).

(** The walk over the chain: where a source has the bit the datum is overwritten, a
    datum with the same result ends the walk, and a new one is added at the end. *)
Inductive ft_walk_result := Overwritten (l : list ftdatum) | Extended (l : list ftdatum).
Fixpoint ft_walk (src def : Z) (l : list ftdatum) : ft_walk_result :=
  match l with
  | [] => Extended [FtDatum (set_bit ebitmap_init (src - 1) true) def]
  | d :: l =>
    if ebitmap_get_bit (ft_stypes d) (src - 1) then Overwritten (FtDatum (ft_stypes d) def :: l)
    else if ft_otype d =? def then Extended (FtDatum (set_bit (ft_stypes d) (src - 1) true) (ft_otype d) :: l)
    else match ft_walk src def l with
         | Overwritten l => Overwritten (d :: l)
         | Extended l => Extended (d :: l)
         end
  end.

(** After the lookups of the names; the second component is the count of transitions. *)
Definition add_filename_trans (w : nat) (ptr : Z) (src tgt cls def : Z) (name : bytes)
  (st : list (ftkey * list ftdatum) * Z) : outcome (list (ftkey * list ftdatum) * Z) :=
  let key := FtKey tgt cls (Some (copy_str name)) in
  let! k := find_key w ptr key in
  let! found := ft_search st.1 k in
  match found with
  | None => Ret (ft_insert st.1 key [FtDatum (set_bit ebitmap_init (src - 1) true) def], st.2 + 1)
  | Some chain =>
    match ft_walk src def chain with
    | Overwritten l => Ret (ft_store st.1 k l, st.2)
    | Extended l => Ret (ft_store st.1 k l, st.2 + 1)
    end
  end.

(** Searching compares keys, and the keys of a table have names. *)
Hypothesis ft_search_law : forall tab k l, ft_search tab k = Ret (Some l) -> exists l', (k, l') ∈ tab.

Lemma cstr_take_zero a b : x00 ∈ a -> cstr (a ++ b) = cstr a.
Proof.
  induction a as [|c a IH]; intros Hin; [by apply not_elem_of_nil in Hin|]. cbn.
  destruct (Byte.eqb c x00) eqn:Ec; [done|]. f_equal. apply IH.
  apply elem_of_cons in Hin as [<-|]; [discriminate Ec|done].
Qed.

Lemma cstr_length a : (length (cstr a) <= length a)%nat.
Proof. induction a as [|c a IH]; [done|]. cbn. destruct (Byte.eqb c x00); cbn; lia. Qed.

Lemma le_dec_zeros n : le_dec (zeros n) = 0.
Proof. unfold zeros. induction (Z.to_nat n) as [|m IH]; [done|]. cbn. by rewrite IH. Qed.

(** A lookup of a filename transition never looks for the name.  The key reaches the
    search with a null name and class 0 whatever the target type (libsepol numbers types
    from one up, far below 2^24), so an existing transition is never found: no rule is
    ever merged with or replaces another one of the same key. *)
Theorem filename_key_lost (w : nat) ptr src tgt cls def name st : (0 < w <= 8)%nat -> 0 <= tgt < 2 ^ 24 ->
  Forall (fun e => ft_name e.1 <> None) st.1 ->
  exists t, find_key w ptr (FtKey tgt cls (Some (copy_str name))) = Ret (FtKey t 0 None) /\
    forall st', add_filename_trans w ptr src tgt cls def name st = Ret st' ->
      st' = (ft_insert st.1 (FtKey tgt cls (Some (copy_str name)))
               [FtDatum (set_bit ebitmap_init (src - 1) true) def], st.2 + 1).
Proof.
  intros Hw Ht Hnames. unfold add_filename_trans.
  set (k0 := FtKey tgt cls (Some (copy_str name))).
  assert (Hc : (length (copy_str (key_bytes w ptr k0)) <= 3)%nat).
  { assert (Hb : le_enc 4 tgt = le_enc 3 tgt ++ [x00]).
    { cbn [le_enc app]. do 3 f_equal. f_equal. apply b2z_inj. rewrite b2z_z2b. change (b2z x00) with 0.
      rewrite !Z.div_div by lia. rewrite Z.div_small; [done|]. cbn in Ht |- *. lia. }
    unfold copy_str, key_bytes. cbn [ft_ttype k0]. rewrite take_ge by (rewrite !length_app, !length_le_enc; lia).
    rewrite Hb, cstr_take_zero by (rewrite elem_of_app; right; set_solver).
    assert (Hz : forall a, cstr (a ++ [x00]) = cstr a).
    { induction a as [|c a IH]; [done|]. cbn. destruct (Byte.eqb c x00); [done|]. by rewrite IH. }
    rewrite Hz. etransitivity; [apply cstr_length|]. by rewrite length_le_enc. }
  assert (Hsub : forall o n, 4 <= o -> 0 <= n -> o + n <= 16 ->
    le_dec (sub (copy_str (key_bytes w ptr k0) ++ zeros 16) o n) = 0).
  { intros o n Ho Hn Hon. rewrite sub_app_r by (unfold zlen; lia). unfold sub, zeros.
    rewrite drop_replicate, take_replicate. fold (zeros (Z.of_nat (Nat.min (Z.to_nat n)
      (Z.to_nat 16 - Z.to_nat (o - zlen (copy_str (key_bytes w ptr k0))))))).
    pose proof (le_dec_zeros (Z.of_nat (Nat.min (Z.to_nat n)
      (Z.to_nat 16 - Z.to_nat (o - zlen (copy_str (key_bytes w ptr k0))))))) as Hz.
    unfold zeros in Hz. by rewrite Nat2Z.id in Hz. }
  eexists. assert (Hfind : find_key w ptr k0 =
    Ret (FtKey (le_dec (sub (copy_str (key_bytes w ptr k0) ++ zeros 16) 0 4)) 0 None)).
  { unfold find_key. rewrite (Hsub 8 (Z.of_nat w)) by lia. cbn [Z.eqb]. by rewrite (Hsub 4 4) by lia. }
  split; [exact Hfind|]. intros st'. rewrite Hfind. cbn [obind].
  destruct (ft_search st.1 _) as [[l|]| | |] eqn:Es; cbn; try done; [|by intros [= <-]].
  destruct (ft_search_law _ _ _ Es) as [l' Hl']. rewrite Forall_forall in Hnames. by apply Hnames in Hl'.
Qed.
End filename.

(** ** A sample policy *)

#[global] Instance set_bitmap : Ebitmap (gset Z) := {|
  ebitmap_init := ∅;
  ebitmap_get_bit e i := bool_decide (i ∈ e);
  ebitmap_set_bit e i b := (if b then {[ i ]} ∪ e else e ∖ {[ i ]}, true) |}.
#[global] Instance set_bitmap_laws : EbitmapLaws (gset Z).
Proof.
  split; cbn; [done| |done]. intros e i b j _. destruct (Z.eqb_spec j i) as [->|Hne], b; cbn.
  - apply bool_decide_eq_true. set_solver.
  - apply bool_decide_eq_false. set_solver.
  - apply bool_decide_ext. set_solver.
  - apply bool_decide_ext. set_solver.
Qed.

(** An attribute and two types, the first of which has the attribute. *)
Definition sample_policy : policydb (E := gset Z) (C := nat) :=
  PolicyDb (Symbols [(bs "domain", TypeDatum 1 TYPE_ATTRIB); (bs "magisk", TypeDatum 2 TYPE_TYPE);
                     (bs "shell", TypeDatum 3 TYPE_TYPE)] []) 3 ∅
    [{[ 0 ]}; {[ 0; 1 ]}; {[ 2 ]}] [{[ 1 ]}; ∅; ∅] [[[CExpr CEXPR_NAMES {[ 0 ]} {[ 1 ]}]]] [Role ∅ ∅ ∅] [].

Lemma map_bit_high (m : list (gset Z)) v i : zlen m < v -> map_bit m v i = false.
Proof. intros Hv. unfold map_bit. rewrite lookup_ge_None_2; [done|]. unfold zlen in Hv. lia. Qed.

Lemma sample_policy_ok : maps_ok sample_policy.
Proof.
  assert (Hc : forall v, 1 <= v -> v = 1 \/ v = 2 \/ v = 3 \/ 3 < v) by lia.
  split.
  - apply (bool_decide_unpack _). vm_compute. exact I.
  - intros n d Hd. cbn in Hd. repeat (apply elem_of_cons in Hd as [[= -> ->]|Hd]; [cbn; lia|]). by apply not_elem_of_nil in Hd.
  - reflexivity.
  - reflexivity.
  - intros v i Hv. destruct (Hc v Hv) as [->|[->|[->|Hv3]]]; [..|by rewrite map_bit_high by (unfold zlen; cbn; lia)];
      unfold map_bit; cbn; intros Hi%bool_decide_eq_true; set_unfold; lia.
  - intros v i Hv. destruct (Hc v Hv) as [->|[->|[->|Hv3]]]; [..|by rewrite map_bit_high by (unfold zlen; cbn; lia)];
      unfold map_bit; cbn; intros Hi%bool_decide_eq_true; set_unfold; lia.
  - intros t a Ht Ha Hta. destruct (Hc t Ht) as [->|[->|[->|Ht3]]], (Hc a Ha) as [->|[->|[->|Ha3]]]; try done;
      rewrite ?(map_bit_high (attr_type_map _)) by (unfold zlen; cbn; lia);
      rewrite ?(map_bit_high (type_attr_map _)) by (unfold zlen; cbn; lia); try done;
      unfold map_bit; cbn; apply bool_decide_eq_false || (symmetry; apply bool_decide_eq_false); set_unfold; lia.
Qed.

Lemma add_typeattribute_spec_witness : exists db',
  add_typeattribute (bs "shell") (bs "domain") sample_policy = Ret (db', true) /\ maps_ok db' /\
  map_bit (type_attr_map db') 3 1 = true /\
  (exists e, constraints db' = [[[e]]] /\ ebitmap_get_bit (e_names e) 2 = true).
Proof.
  destruct (add_typeattribute_spec (bs "shell") (bs "domain") sample_policy sample_policy_ok) as (db' & b & E & Hok & Hs).
  exists db'. change (hashtab_find (p_types (symtab sample_policy)) (bs "shell")) with (Some (TypeDatum 3 TYPE_TYPE)) in Hs.
  change (hashtab_find (p_types (symtab sample_policy)) (bs "domain")) with (Some (TypeDatum 1 TYPE_ATTRIB)) in Hs.
  cbn [t_flavor] in Hs. destruct Hs as (-> & Hb & _ & Hc & _). split; [exact E|]. split; [exact Hok|].
  split; [rewrite Hb by lia; reflexivity|]. cbn [constraints sample_policy] in Hc.
  apply Forall2_cons_inv_l in Hc as (l1 & ? & Hc & ->%Forall2_nil_inv_l & ->).
  apply Forall2_cons_inv_l in Hc as (l2 & ? & Hc & ->%Forall2_nil_inv_l & ->).
  apply Forall2_cons_inv_l in Hc as (e & ? & Hc & ->%Forall2_nil_inv_l & ->).
  exists e. split; [reflexivity|]. unfold names_extended in Hc. cbn [e_type e_type_names] in Hc.
  rewrite bool_decide_eq_true_2 in Hc by (split; reflexivity). apply Hc. by left.
Defined.

Definition push_symbol (tab : list (bytes * type_datum)) (n : bytes) (d : type_datum) := Some ((n, d) :: tab).

Lemma push_symbol_law tab n d tab' : push_symbol tab n d = Some tab' -> tab' ≡ₚ (n, d) :: tab.
Proof. by intros [= <-]. Qed.

Lemma add_type_spec_witness : exists db',
  add_type push_symbol (fun _ => true) (fun _ r => r_types r) (bs "su") TYPE_TYPE sample_policy = (db', true) /\
  maps_ok db' /\ hashtab_find (p_types (symtab db')) (bs "su") = Some (TypeDatum 4 TYPE_TYPE).
Proof.
  destruct (add_type push_symbol (fun _ => true) (fun _ r => r_types r) (bs "su") TYPE_TYPE sample_policy) as [db' b] eqn:E.
  assert (Hb : b = true) by (apply (f_equal snd) in E; vm_compute in E; by rewrite <- E). subst b.
  exists db'. split; [reflexivity|].
  pose proof (add_type_spec push_symbol (fun _ => true) (fun _ r => r_types r) push_symbol_law (bs "su") TYPE_TYPE
    sample_policy db' true sample_policy_ok eq_refl E) as Hs.
  change (hashtab_find (p_types (symtab sample_policy)) (bs "su")) with (@None type_datum) in Hs.
  destruct (Hs eq_refl) as (Hok & Hf & _). split; [exact Hok|exact Hf].
Defined.

Lemma filename_key_lost_witness :
  let search (tab : list (ftkey * list (ftdatum (E := gset Z)))) (k : ftkey) : outcome (option (list ftdatum)) := Ret None in
  exists t, find_key 8 4096 (FtKey 300 5 (Some (bs "su"))) = Ret (FtKey t 0 None) /\
    add_filename_trans search (fun tab k l => (k, l) :: tab) (fun tab k l => tab) 8 4096 2 300 5 3 (bs "su") ([], 0) =
    Ret ([(FtKey 300 5 (Some (bs "su")), [FtDatum (set_bit ebitmap_init 1 true) 3])], 1).
Proof.
  cbv zeta. set (search := fun (tab : list (ftkey * list (ftdatum (E := gset Z)))) (k : ftkey) => Ret (@None (list (ftdatum (E := gset Z))))).
  assert (Hl : forall tab k l, search tab k = Ret (Some l) -> exists l', (k, l') ∈ tab) by discriminate.
  destruct (filename_key_lost search (fun tab k l => (k, l) :: tab) (fun tab k l => tab) Hl 8 4096 2 300 5 3 (bs "su") ([], 0))
    as (t & Hk & Hs); [lia|lia|constructor|].
  exists t. split; [exact Hk|]. 
  assert (Hex : exists st', add_filename_trans search (fun tab k l => (k, l) :: tab) (fun tab k l => tab) 8 4096 2 300 5 3 (bs "su") ([], 0) = Ret st').
  { unfold add_filename_trans. change (copy_str (bs "su")) with (bs "su") in *. rewrite Hk. cbn [obind]. unfold search. cbn [obind]. by eexists. }
  destruct Hex as [st' E]. rewrite E. by rewrite (Hs st' E).
Defined.
