(* ===== verification/PolicyPrint.v ===== *)
(** Printing of a policy: [SePolicy::print_rules] and the [print_*] methods of
    [native/src/sepolicy/sepolicy.cpp].  A text is the list of bytes written to the stream;
    the indexes of libsepol, from values to names and data, are functions of the index. *)

From S2P Require Import Prelude Base Avtab Sepolicy Xperm PolicyDb.

(** [class_perm_names]: the names that were looked up before. *)
Notation perm_cache := (gmap bytes (list (option bytes))) (only parsing).

Section print.
Context {E C : Type} `{Ebitmap E}.
(** [highbit] of a bitmap, the four indexes and [context_to_string]. *)
Context (highbit : E -> Z).
Context (p_type_val_to_name : Z -> option bytes) (p_class_val_to_name : Z -> option bytes).
Context (type_val_to_struct : Z -> option type_datum) (class_val_to_struct : Z -> option class_datum).
Context (context_to_string : C -> option bytes).

Definition NL : byte := x0a.
(** Words after a head, in braces; nothing without words. *)
Definition braced (head : bytes) (words : list bytes) : bytes :=
  match words with [] => [] | _ => head ++ bs " {" ++ concat ((fun w => bs " " ++ w) <$> words) ++ bs " }" ++ [NL] end.
Definition spaced (words : list bytes) : bytes :=
  match words with [] => [] | w :: words => w ++ concat ((fun w => bs " " ++ w) <$> words) end.

(** ** Types *)

(** The loop over the bitmap of a type: the names of its attributes; the structure of a
    value that has none is read through a null pointer. *)
Fixpoint attr_names (bitmap : E) (l : list Z) : outcome (list bytes) :=
  match l with
  | [] => Ret []
  | i :: l =>
    if ebitmap_get_bit bitmap i then
      match type_val_to_struct i with
      | None => Fault
      | Some d =>
        let! rest := attr_names bitmap l in
        Ret (match p_type_val_to_name i with Some n => if t_flavor d =? TYPE_ATTRIB then n :: rest else rest | None => rest end)
      end
    else attr_names bitmap l
  end.

Definition print_type (db : policydb (E := E) (C := C)) (type : type_datum) : outcome bytes :=
  match p_type_val_to_name (t_value type - 1) with
  | None => Ret []
  | Some name =>
    let! decl := (if t_flavor type =? TYPE_ATTRIB then Ret (bs "attribute " ++ name ++ [NL])
                  else if t_flavor type =? TYPE_TYPE then
                    match type_attr_map db !! Z.to_nat (t_value type - 1) with
                    | None => Fault
                    | Some bitmap => let! attrs := attr_names bitmap (seqZ 0 (highbit bitmap + 1)) in Ret (braced (bs "type " ++ name) attrs)
                    end
                  else Ret []) in
    Ret (decl ++ if ebitmap_get_bit (permissive_map db) (t_value type) then bs "permissive " ++ name ++ [NL] else [])
  end.

(** ** Rules *)

(** Storing the names of permissions in an array of 32 pointers. *)
Fixpoint fill_names (perms : list (bytes * Z)) (arr : list (option bytes)) : outcome (list (option bytes)) :=
  match perms with
  | [] => Ret arr
  | (name, v) :: perms => if (1 <=? v) && (v <=? 32) then fill_names perms (<[Z.to_nat (v - 1) := Some name]> arr) else Fault
  end.
Definition class_names (c : class_datum) : outcome (list (option bytes)) :=
  let! arr := fill_names (c_perms c) (replicate 32 None) in
  match c_common c with Some common => fill_names common arr | None => Ret arr end.

Definition cached_names (cls : bytes) (c : class_datum) (cache : perm_cache) : outcome (list (option bytes) * perm_cache) :=
  match cache !! cls with
  | Some arr => Ret (arr, cache)
  | None => let! arr := class_names c in Ret (arr, <[cls := arr]> cache)
  end.

(** The loop over the 32 bits. *)
Definition bit_names (arr : list (option bytes)) (data : Z) : list bytes :=
  omap (fun i => if Z.testbit data i then mjoin (arr !! Z.to_nat i) else None) (seqZ 0 32).

Definition av_name (spec : Z) : option (bytes * bool) :=
  if spec =? AVTAB_ALLOWED then Some (bs "allow", false) else if spec =? AVTAB_AUDITALLOW then Some (bs "auditallow", false)
  else if spec =? AVTAB_AUDITDENY then Some (bs "dontaudit", true) else None.
Definition type_name (spec : Z) : option bytes :=
  if spec =? AVTAB_TRANSITION then Some (bs "type_transition") else if spec =? AVTAB_MEMBER then Some (bs "type_member")
  else if spec =? AVTAB_CHANGE then Some (bs "type_change") else None.
Definition xperm_name (spec : Z) : option bytes :=
  if spec =? AVTAB_XPERMS_ALLOWED then Some (bs "allowxperm") else if spec =? AVTAB_XPERMS_AUDITALLOW then Some (bs "auditallowxperm")
  else if spec =? AVTAB_XPERMS_DONTAUDIT then Some (bs "dontauditxperm") else None.

(** [%04X] of a 16-bit value. *)
Definition hex_upper (z : Z) : byte := if z <? 10 then z2b (48 + z) else z2b (55 + z).
Definition print_04X (v : Z) : bytes := (fun k => hex_upper (Z.land (Z.shiftr v k) 15)) <$> [12; 8; 4; 0].
Definition print_range (x : xperms) (r : Z * Z) : bytes :=
  let low := to_value x r.1 in let high := to_value x r.2 in
  if low =? high then bs "0x" ++ print_04X low else bs "0x" ++ print_04X low ++ bs "-0x" ++ print_04X high.

Definition print_avtab (node : avnode) (cache : perm_cache) : outcome (bytes * perm_cache) :=
  let k := nkey node in
  match p_type_val_to_name (source_type k - 1), p_type_val_to_name (target_type k - 1), p_class_val_to_name (target_class k - 1) with
  | Some src, Some tgt, Some cls =>
    if negb (Z.land (specified k) AVTAB_AV =? 0) then
      match av_name (specified k), class_val_to_struct (target_class k - 1) with
      | Some (name, inverted), Some clz =>
        let data := if inverted : bool then u32 (Z.lnot (ndata node)) else ndata node in
        let! (arr, cache) := cached_names cls clz cache in
        Ret (braced (spaced [name; src; tgt; cls]) (bit_names arr data), cache)
      | _, _ => Ret ([], cache)
      end
    else if negb (Z.land (specified k) AVTAB_TYPE =? 0) then
      match type_name (specified k), p_type_val_to_name (ndata node - 1) with
      | Some name, Some def => Ret (spaced [name; src; tgt; cls; def] ++ [NL], cache)
      | _, _ => Ret ([], cache)
      end
    else if negb (Z.land (specified k) AVTAB_XPERMS =? 0) then
      match xperm_name (specified k), nxperms node with
      | Some name, Some x => Ret (braced (spaced [name; src; tgt; cls; bs "ioctl"]) (print_range x <$> print_ranges (x_perms x)), cache)
      | _, _ => Ret ([], cache)
      end
    else Ret ([], cache)
  | _, _, _ => Ret ([], cache)
  end.

(** ** Filename transitions *)

(** Only the first datum of the chain is visited. *)
Definition print_filename_trans (key : ftkey) (chain : list (ftdatum (E := E))) : outcome bytes :=
  match chain with
  | [] => Fault
  | trans :: _ =>
    match p_type_val_to_name (ft_ttype key - 1), p_class_val_to_name (ft_tclass key - 1), p_type_val_to_name (ft_otype trans - 1), ft_name key with
    | Some tgt, Some cls, Some def, Some name =>
      Ret (concat ((fun i => if ebitmap_get_bit (ft_stypes trans) i then
                               match p_type_val_to_name i with Some src => spaced [bs "type_transition"; src; tgt; cls; def; name] ++ [NL] | None => [] end
                             else []) <$> seqZ 0 (highbit (ft_stypes trans) + 1)))
    | _, _, _, _ => Ret []
    end
  end.

(** ** The whole policy *)

(** Iteration over a table that writes to the stream. *)
Definition printing {A} (f : A -> outcome bytes) (l : list A) (out : bytes) : outcome bytes :=
  for_each (fun a out => let! s := f a in Ret (out ++ s)) l out.

Definition print_rules (db : policydb (E := E) (C := C)) (av : avtab) (trans : list (ftkey * list (ftdatum (E := E)))) (cache : perm_cache)
  : outcome (bytes * perm_cache) :=
  let of_flavor f := filter (fun d => t_flavor d = f) (p_types (symtab db)).*2 in
  let! out := printing (print_type db) (of_flavor TYPE_ATTRIB) [] in
  let! out := printing (print_type db) (of_flavor TYPE_TYPE) out in
  let! (out, cache) := for_each (fun n st => let! (s, cache) := print_avtab n st.2 in Ret (st.1 ++ s, cache)) (nodes av) (out, cache) in
  let! out := printing (fun e => print_filename_trans e.1 e.2) trans out in
  Ret (out ++ concat ((fun g => concat ((fun o => match context_to_string o.2 with
                                                  | Some ctx => spaced [bs "genfscon"; g.1; o.1; ctx] ++ [NL]
                                                  | None => [] end) <$> g.2)) <$> genfs db), cache).
End print.

(** The attributes printed for a type are the named attributes of its bitmap. *)
Lemma attr_names_spec {E : Type} `{Ebitmap E} names structs (bitmap : E) l ns : attr_names names structs bitmap l = Ret ns ->
  forall n, n ∈ ns <-> exists i d, i ∈ l /\ ebitmap_get_bit bitmap i = true /\ structs i = Some d /\ t_flavor d = TYPE_ATTRIB /\ names i = Some n.
Proof.
  revert ns. induction l as [|i l IH]; intros ns; cbn [attr_names].
  { intros [= <-] n. split; [by intros ?%not_elem_of_nil|]. by intros (? & ? & ?%not_elem_of_nil & _). }
  assert (forall P : Z -> Prop, (exists j, j ∈ i :: l /\ P j) <-> P i \/ exists j, j ∈ l /\ P j) as Hex.
  { intros P. split; [intros (j & [->|Hj]%elem_of_cons & HP); eauto|]. intros [HP|(j & Hj & HP)]; eexists; (split; [|exact HP]); set_solver. }
  assert (forall n (l : list Z), (exists j d, j ∈ l /\ ebitmap_get_bit bitmap j = true /\ structs j = Some d /\ t_flavor d = TYPE_ATTRIB /\ names j = Some n) <->
    exists j, j ∈ l /\ exists d, ebitmap_get_bit bitmap j = true /\ structs j = Some d /\ t_flavor d = TYPE_ATTRIB /\ names j = Some n) as Hsw by (intros; split; naive_solver).
  setoid_rewrite Hsw in IH. setoid_rewrite Hsw. setoid_rewrite Hex.
  destruct (ebitmap_get_bit bitmap i) eqn:Eb; [|intros Hr n; rewrite (IH _ Hr); split; [by right|]; by intros [(? & ? & _)|?]].
  destruct (structs i) as [d|] eqn:Es; [|done]. destruct (attr_names _ _ _ l) as [rest| | |]; cbn [obind]; try done. intros [= <-] n. specialize (IH rest eq_refl n).
  destruct (names i) as [m|] eqn:En; [destruct (Z.eqb_spec (t_flavor d) TYPE_ATTRIB)|]; rewrite ?elem_of_cons, IH; naive_solver.
Qed.

(** ** Names of permissions *)

Definition all_perms (c : class_datum) : list (bytes * Z) := c_perms c ++ match c_common c with Some l => l | None => [] end.

(** An array that knows the names of [perms] and of nothing else. *)
Definition knows (perms : list (bytes * Z)) (arr : list (option bytes)) : Prop :=
  length arr = 32%nat /\
  (forall i p, arr !! i = Some (Some p) -> (p, Z.of_nat i + 1) ∈ perms) /\
  (forall p v, (p, v) ∈ perms -> exists p', arr !! Z.to_nat (v - 1) = Some (Some p')).

Lemma fill_names_knows perms : forall seen arr, Forall (fun p => 1 <= p.2 <= 32) perms -> knows seen arr ->
  exists arr', fill_names perms arr = Ret arr' /\ knows (seen ++ perms) arr'.
Proof.
  induction perms as [|[name v] perms IH]; intros seen arr Hr Hk; [exists arr; by rewrite app_nil_r|].
  apply Forall_cons in Hr as [Hv Hr]. cbn in Hv. cbn [fill_names]. rewrite !(proj2 (Z.leb_le _ _)) by lia. cbn [andb].
  destruct Hk as (Hl & Hs & Hc).
  destruct (IH (seen ++ [(name, v)]) (<[Z.to_nat (v - 1) := Some name]> arr) Hr) as (arr' & E & Hk').
  - split; [by rewrite length_insert|]. split.
    + intros i p Hi. destruct (decide (i = Z.to_nat (v - 1))) as [->|Hne].
      * rewrite list_lookup_insert_eq in Hi by lia. injection Hi as <-. replace (Z.of_nat (Z.to_nat (v - 1)) + 1) with v by lia. set_solver.
      * rewrite list_lookup_insert_ne in Hi by done. apply Hs in Hi. set_solver.
    + intros p w Hin. destruct (decide (Z.to_nat (w - 1) = Z.to_nat (v - 1))) as [->|Hne].
      * exists name. rewrite list_lookup_insert_eq; [done|lia].
      * rewrite list_lookup_insert_ne by done. apply elem_of_app in Hin as [Hin|Hin]; [by apply Hc in Hin|].
        apply list_elem_of_singleton in Hin. injection Hin as -> ->. done.
  - exists arr'. split; [done|]. by rewrite <- app_assoc in Hk'.
Qed.

Lemma class_names_knows c : Forall (fun p => 1 <= p.2 <= 32) (all_perms c) -> exists arr, class_names c = Ret arr /\ knows (all_perms c) arr.
Proof.
  unfold all_perms, class_names. intros Hr. apply Forall_app in Hr as [H1 H2].
  destruct (fill_names_knows (c_perms c) [] (replicate 32 None) H1) as (arr & -> & Hk).
  - split; [done|]. split; [|by intros ? ? ?%not_elem_of_nil]. intros i p Hi. apply lookup_replicate in Hi as [? _]. done.
  - cbn [obind app] in *. destruct (c_common c) as [l|]; [by apply fill_names_knows|]. exists arr. by rewrite app_nil_r.
Qed.

Lemma bit_names_spec arr data p : p ∈ bit_names arr data <-> exists i, 0 <= i < 32 /\ Z.testbit data i = true /\ arr !! Z.to_nat i = Some (Some p).
Proof.
  unfold bit_names. rewrite list_elem_of_omap. split.
  - intros (i & Hi & E). apply elem_of_seqZ in Hi. exists i. destruct (Z.testbit data i); [|done]. split; [lia|]. split; [done|].
    destruct (arr !! Z.to_nat i) as [[q|]|]; cbn in E; congruence.
  - intros (i & Hi & Hb & E). exists i. split; [apply elem_of_seqZ; lia|]. by rewrite Hb, E.
Qed.

(** ** Reading printed rules *)

Section readback.
Context `{AvtabLaws, HashtabLaws}.
Context (type_names class_name : Z -> option bytes) (class_struct : Z -> option class_datum) (db : symbols).

(** A name that can be typed: not empty, without a NUL and short enough. *)
Definition plain_name (n : bytes) : Prop := n <> [] /\ copy_str n = n.

(** The indexes are the symbol tables, by value; permission names of a class are distinct. *)
Record index_ok : Prop := IndexOk {
  ix_db : db_ok db;
  ix_types : forall v n, type_names (v - 1) = Some n -> plain_name n /\ exists d, (n, d) ∈ p_types db /\ t_value d = v;
  ix_classes : forall v n c, class_name (v - 1) = Some n -> class_struct (v - 1) = Some c -> plain_name n /\ (n, c) ∈ p_classes db /\ c_value c = v;
  ix_perms : forall n c, (n, c) ∈ p_classes db -> NoDup (all_perms c).*1 /\ Forall (fun p => plain_name p.1) (all_perms c) }.

Definition cache_ok (cache : perm_cache) : Prop :=
  forall cls arr c, cache !! cls = Some arr -> (cls, c) ∈ p_classes db -> class_names c = Ret arr.

Hypothesis Hix : index_ok.

Lemma perms_range n c : (n, c) ∈ p_classes db -> Forall (fun p => 1 <= p.2 <= 32) (all_perms c).
Proof.
  intros Hc. destruct (perms_ok db (ix_db Hix) n c Hc) as (_ & R1 & R2). unfold all_perms. apply Forall_app. split; [done|].
  destruct (c_common c); [by apply R2|constructor].
Qed.

Lemma index_type v n : type_names (v - 1) = Some n -> exists d, find_opt (p_types db) n = Some (Some d) /\ t_value d = v.
Proof.
  intros Hn. destruct (ix_types Hix v n Hn) as ([Hne Hcp] & d & Hin & Hv). exists d. split; [|done]. unfold find_opt, hashtab_find.
  rewrite Hcp. destruct n; [done|]. rewrite (proj2 (hashtab_search_spec _ _ _ d (types_nodup db (ix_db Hix)))); done.
Qed.

Lemma index_class v n c : class_name (v - 1) = Some n -> class_struct (v - 1) = Some c -> find_opt (p_classes db) n = Some (Some c) /\ c_value c = v.
Proof.
  intros Hn Hs. destruct (ix_classes Hix v n c Hn Hs) as ([Hne Hcp] & Hin & Hv). split; [|done]. unfold find_opt, hashtab_find.
  rewrite Hcp. destruct n; [done|]. rewrite (proj2 (hashtab_search_spec _ _ _ c (classes_nodup db (ix_db Hix)))); done.
Qed.

Lemma find_perm_in n c p v : (n, c) ∈ p_classes db -> (p, v) ∈ all_perms c -> find_perm c p = Some v /\ p <> [].
Proof.
  intros Hc Hp. destruct (ix_perms Hix n c Hc) as [Hnd Hpl]. rewrite Forall_forall in Hpl. destruct (Hpl _ Hp) as [Hne Hcp]. cbn [fst] in Hne, Hcp. split; [|done].
  destruct (perms_ok db (ix_db Hix) n c Hc) as (N1 & _ & N2). unfold find_perm, hashtab_find. rewrite Hcp.
  unfold all_perms in Hp, Hnd. rewrite fmap_app, NoDup_app in Hnd. destruct Hnd as (_ & Hdis & _). apply elem_of_app in Hp as [Hp|Hp].
  - by rewrite (proj2 (hashtab_search_spec _ _ _ v N1)).
  - destruct (hashtab_search (c_perms c) p) as [w|] eqn:E.
    + apply hashtab_search_spec in E; [|done]. destruct (Hdis p); [apply list_elem_of_fmap; by exists (p, w)|apply list_elem_of_fmap; by exists (p, v)].
    + destruct (c_common c) as [l|]; [|by apply not_elem_of_nil in Hp]. by apply hashtab_search_spec; [apply N2|].
Qed.

(** The bits of the permissions with the given names. *)
Definition named_bit (c : class_datum) (l : list bytes) (i : Z) : bool := existsb (fun p => bool_decide (find_perm c p = Some (i + 1))) l.

(** A statement about one source, target and class changes the bits it names. *)
Lemma statement_bits (s g : type_datum) cn c sn tn effect invert l : forall t,
  effect ∈ [AVTAB_ALLOWED; AVTAB_AUDITALLOW; AVTAB_AUDITDENY] -> avtab_ok t ->
  find_opt (p_types db) sn = Some (Some s) -> find_opt (p_types db) tn = Some (Some g) -> find_opt (p_classes db) cn = Some (Some c) ->
  Forall (fun p => p <> [] /\ is_Some (find_perm c p)) l ->
  let k := AvKey (t_value s) (t_value g) (c_value c) effect in
  exists t', for_each (fun p av => let! (av, _) := add_rule_str db sn tn cn p effect invert av in Ret av) l t = Ret t' /\ avtab_ok t' /\
    same_except k t t' /\ forall i, 0 <= i < 32 -> Z.testbit (cell t' k) i = if named_bit c l i then negb invert else Z.testbit (cell t k) i.
Proof.
  induction l as [|p l IH]; intros t He Hok Hs Hg Hc Hl k; [exists t; split_and!; try done; by intros m _|].
  apply Forall_cons in Hl as [[Hp [v Hv]] Hl].
  pose proof (add_rule_str_effect db sn tn cn p effect invert t Hok (ix_db Hix) He) as Hr.
  assert (resolve db sn tn cn p = Some (Some s, Some g, Some c, Some v)) as Er.
  { unfold resolve. rewrite Hs, Hg, Hc. cbn. destruct p; [done|]. by rewrite Hv. }
  rewrite Er in Hr. destruct Hr as (t1 & E1 & [Hok1 Hf1 Hb1 _]). change (rule_keys _ _ _ _ _ _) with [k] in Hf1, Hb1.
  destruct (IH t1 He Hok1 Hs Hg Hc Hl) as (t2 & E2 & Hok2 & Hf2 & Hb2). exists t2. cbn [for_each]. rewrite E1. cbn [obind]. split; [done|]. split; [done|]. split.
  - eapply same_except_trans; [|done]. intros m Hm. apply Hf1. set_solver.
  - intros i Hi. rewrite Hb2 by done. fold k. unfold named_bit. cbn [existsb]. rewrite Hb1 by (set_solver || done). unfold rule_bit.
    rewrite Hv. destruct (existsb _ l); [by rewrite orb_true_r|]. rewrite orb_false_r.
    destruct (Z.eqb_spec i (v - 1)) as [->|Hne]; [rewrite bool_decide_true; [done|f_equal; lia]|rewrite bool_decide_false; [done|]].
    intros [= ->]. lia.
Qed.

(** The bits of a class that have a name. *)
Definition has_name (c : class_datum) (i : Z) : Prop := exists p, (p, i + 1) ∈ all_perms c.

Lemma named_printed n c arr data i : (n, c) ∈ p_classes db -> knows (all_perms c) arr -> 0 <= i < 32 ->
  named_bit c (bit_names arr data) i = true <-> Z.testbit data i = true /\ has_name c i.
Proof.
  intros Hc (Hl & Hs & Hk) Hi. unfold named_bit. rewrite existsb_exists. split.
  - intros (p & Hp & Hf). apply list_elem_of_In, bit_names_spec in Hp as (j & Hj & Hb & Ha). apply bool_decide_eq_true in Hf.
    apply Hs in Ha. destruct (find_perm_in n c p _ Hc Ha) as [Hf' _]. rewrite Hf in Hf'. injection Hf' as Hij.
    assert (i = j) as -> by lia. split; [done|]. exists p. by replace (j + 1) with (Z.of_nat (Z.to_nat j) + 1) by lia.
  - intros [Hb (p0 & Hp0)]. destruct (Hk _ _ Hp0) as (p & Hp). replace (i + 1 - 1) with i in Hp by lia.
    exists p. split; [apply list_elem_of_In, bit_names_spec; eauto|]. apply bool_decide_eq_true. apply Hs in Hp.
    replace (Z.of_nat (Z.to_nat i) + 1) with (i + 1) in Hp by lia. by apply (find_perm_in n c).
Qed.

Lemma printed_names_found n c arr data : (n, c) ∈ p_classes db -> knows (all_perms c) arr -> Forall (fun p => p <> [] /\ is_Some (find_perm c p)) (bit_names arr data).
Proof.
  intros Hc (_ & Hs & _). apply Forall_forall. intros p Hp. apply bit_names_spec in Hp as (i & _ & _ & Hp). apply Hs in Hp.
  destruct (find_perm_in n c p _ Hc Hp) as [-> ?]. split; [done|eauto].
Qed.

Lemma cached_names_ok cls c cache : (cls, c) ∈ p_classes db -> cache_ok cache ->
  exists arr cache', cached_names cls c cache = Ret (arr, cache') /\ knows (all_perms c) arr /\ cache_ok cache'.
Proof.
  intros Hc Hca. destruct (class_names_knows c (perms_range cls c Hc)) as (arr & Ea & Hk). unfold cached_names.
  destruct (cache !! cls) as [arr'|] eqn:E.
  - pose proof (Hca _ _ _ E Hc) as E'. rewrite Ea in E'. injection E' as <-. eauto.
  - rewrite Ea. cbn [obind]. eexists _, _. split; [done|]. split; [done|]. intros cls' arr' c' Hl Hc'.
    destruct (decide (cls' = cls)) as [->|Hne]; [|rewrite lookup_insert_ne in Hl by done; by eapply Hca].
    rewrite lookup_insert_eq in Hl. injection Hl as <-. assert (c' = c) as ->; [|done].
    pose proof (classes_nodup db (ix_db Hix)) as Hnd. pose proof (hashtab_search_spec _ _ cls c Hnd) as [_ F1]. pose proof (hashtab_search_spec _ _ cls c' Hnd) as [_ F2].
    specialize (F1 Hc). specialize (F2 Hc'). congruence.
Qed.

(** How a kind of rule is printed: the keyword, and whether the vector is inverted. *)
Lemma av_name_spec spec name inv : av_name spec = Some (name, inv) ->
  spec ∈ [AVTAB_ALLOWED; AVTAB_AUDITALLOW; AVTAB_AUDITDENY] /\ Z.land spec AVTAB_AV <> 0 /\
  forall s g c i, 0 <= i < 32 -> Z.testbit (default_data (AvKey s g c spec)) i = inv.
Proof.
  unfold av_name. destruct (Z.eqb_spec spec AVTAB_ALLOWED) as [->|]; [|destruct (Z.eqb_spec spec AVTAB_AUDITALLOW) as [->|]; [|destruct (Z.eqb_spec spec AVTAB_AUDITDENY) as [->|]; [|done]]].
  all: intros [= _ <-]; split_and!; [set_solver|done|]; intros s g c i Hi; unfold default_data; cbn [specified].
  1,2: apply Z.bits_0. change all_ones with (Z.ones 32). apply Z.ones_spec_low. lia.
Qed.

Lemma bits_equal a b : 0 <= a < 2 ^ 32 -> 0 <= b < 2 ^ 32 -> (forall i, 0 <= i < 32 -> Z.testbit a i = Z.testbit b i) -> a = b.
Proof.
  intros Ha Hb Hi. apply Z.bits_inj'. intros i H0'. destruct (Z.lt_ge_cases i 32); [apply Hi; lia|].
  rewrite <- (Z.mod_small a (2 ^ 32)), <- (Z.mod_small b (2 ^ 32)), !Z.mod_pow2_bits_high by lia. done.
Qed.

Notation print_node := (print_avtab type_names class_name class_struct).

(** C18: printing of access vector rules can be read back, in a policy whose indexes are
    its symbol tables and with a cache of names that holds what was looked up in it.  The
    text of a node is a statement with the names of its permissions; carried out on a table
    that says nothing about the key (or, when no permission has a name, left out) it changes
    no other key, gives every bit that has a name the value it has in the node and leaves
    every other bit at the default of the rule.  So a vector is restored when the bits in
    which it differs from the default have names; the vector with all 32 bits set, which a
    rule for all permissions stores, is restored up to the bits without names. *)
Theorem printed_rule_round_trip node cache t name inv src tgt cls c : let k := nkey node in
  avtab_ok t -> cell t k = default_data k -> 0 <= ndata node < 2 ^ 32 -> cache_ok cache ->
  av_name (specified k) = Some (name, inv) ->
  type_names (source_type k - 1) = Some src -> type_names (target_type k - 1) = Some tgt ->
  class_name (target_class k - 1) = Some cls -> class_struct (target_class k - 1) = Some c ->
  exists perms cache' t', print_node node cache = Ret (braced (spaced [name; src; tgt; cls]) perms, cache') /\ cache_ok cache' /\
    (if decide (perms = []) then t' = t else av_statement db (specified k) inv [src] [tgt] [cls] perms t = Ret t') /\
    same_except k t t' /\
    (forall i, 0 <= i < 32 -> has_name c i -> Z.testbit (cell t' k) i = Z.testbit (ndata node) i) /\
    (forall i, 0 <= i < 32 -> ~ has_name c i -> Z.testbit (cell t' k) i = inv) /\
    ((forall i, 0 <= i < 32 -> Z.testbit (ndata node) i <> inv -> has_name c i) -> cell t' k = ndata node).
Proof.
  intros k Hok Hcell Hd Hca Ha Hs Hg Hc Hst.
  destruct (av_name_spec _ _ _ Ha) as (He & Hav & Hdef).
  destruct (index_type _ _ Hs) as (sd & Fs & Vs). destruct (index_type _ _ Hg) as (gd & Fg & Vg). destruct (index_class _ _ _ Hc Hst) as [Fc Vc].
  destruct (ix_classes Hix _ _ _ Hc Hst) as (_ & Hin & _).
  destruct (cached_names_ok cls c cache Hin Hca) as (arr & cache' & Ec & Hk & Hca').
  set (data := if inv then u32 (Z.lnot (ndata node)) else ndata node).
  assert (forall i, 0 <= i < 32 -> Z.testbit data i = xorb inv (Z.testbit (ndata node) i)) as Hdata.
  { intros i Hi. unfold data, u32. destruct inv; [|done]. rewrite Z.mod_pow2_bits_low, Z.lnot_spec by lia. done. }
  assert (k = AvKey (t_value sd) (t_value gd) (c_value c) (specified k)) as Ek by (rewrite Vs, Vg, Vc; by destruct k).
  destruct (statement_bits sd gd cls c src tgt (specified k) inv (bit_names arr data) t He Hok Fs Fg Fc (printed_names_found cls c arr data Hin Hk))
    as (t' & Et & Hok' & Hf & Hb). rewrite <- Ek in Hf, Hb.
  assert (Hbit : forall i, 0 <= i < 32 -> Z.testbit (cell t' k) i =
    if named_bit c (bit_names arr data) i then negb inv else inv).
  { intros i Hi. rewrite Hb, Hcell by done. rewrite Ek, Hdef by done. done. }
  assert (Hnamed : forall i, 0 <= i < 32 -> has_name c i -> Z.testbit (cell t' k) i = Z.testbit (ndata node) i).
  { intros i Hi Hn. rewrite Hbit by done. pose proof (named_printed cls c arr data i Hin Hk Hi) as Hnp. rewrite Hdata in Hnp by done.
    destruct (named_bit _ _ _), inv, (Z.testbit (ndata node) i); cbn in *; tauto || naive_solver. }
  assert (Hother : forall i, 0 <= i < 32 -> ~ has_name c i -> Z.testbit (cell t' k) i = inv).
  { intros i Hi Hn. rewrite Hbit by done. pose proof (named_printed cls c arr data i Hin Hk Hi) as Hnp.
    destruct (named_bit _ _ _); [naive_solver|done]. }
  exists (bit_names arr data), cache', t'. split.
  { unfold print_avtab. fold k. rewrite Hs, Hg, Hc, Ha, Hst. rewrite (proj2 (Z.eqb_neq _ _)) by done. cbn [negb]. fold data. by rewrite Ec. }
  split; [done|]. split_and!; [|done..|].
  - destruct (decide (bit_names arr data = [])) as [En|En]; [rewrite En in Et; cbn in Et; congruence|].
    unfold av_statement, expand. rewrite !for_each_one. destruct (bit_names arr data); done.
  - intros Hall. apply bits_equal; [by apply cell_range|done|]. intros i Hi.
    destruct (bool_decide (Z.testbit (ndata node) i = inv)) eqn:Eb.
    + apply bool_decide_eq_true in Eb. destruct (named_bit c (bit_names arr data) i) eqn:En.
      * apply (named_printed cls c arr data i Hin Hk Hi) in En as [_ Hn]. by apply Hnamed.
      * rewrite Hbit, En by done. done.
    + apply bool_decide_eq_false in Eb. apply Hnamed; [done|]. by apply Hall.
Qed.
End readback.

(** ** A small policy *)

Definition sample_class : class_datum := ClassDatum 1 [(bs "execute", 3)] (Some [(bs "read", 1); (bs "write", 2)]).
Definition sample_types (i : Z) : option bytes := if i <? 0 then None else (p_types sample_db).*1 !! Z.to_nat i.
Definition sample_class_name (i : Z) : option bytes := if i =? 0 then Some (bs "file") else None.
Definition sample_class_struct (i : Z) : option class_datum := if i =? 0 then Some sample_class else None.

Lemma sample_index_ok : index_ok sample_types sample_class_name sample_class_struct sample_db.
Proof.
  split.
  - apply sample_db_ok.
  - intros v n. unfold sample_types. destruct (Z.ltb_spec (v - 1) 0); [done|]. remember (Z.to_nat (v - 1)) as j eqn:Ej. assert (v = Z.of_nat j + 1) as -> by lia. clear Ej.
    destruct j as [|[|[|[|j]]]]; [..|done]; cbn; intros [= <-]; (split; [split; [done|vm_compute; reflexivity]|eexists; split; [repeat first [apply list_elem_of_here | apply list_elem_of_further]|reflexivity]]).
  - intros v n c. unfold sample_class_name, sample_class_struct. destruct (Z.eqb_spec (v - 1) 0); [|done]. intros [= <-] [= <-].
    split; [split; [done|vm_compute; reflexivity]|]. split; [|cbn; lia]. cbn. set_solver.
  - intros n c Hc. cbn in Hc. apply list_elem_of_singleton in Hc as [= -> ->]. split; [apply (bool_decide_unpack _); vm_compute; exact I|].
    repeat constructor; (done || (vm_compute; reflexivity)).
Qed.

(** A node that allows to read and execute. *)
Definition sample_node : avnode := AvNode 0 (AvKey 2 3 1 AVTAB_ALLOWED) 5 None.
Example sample_node_text : (let! (text, _) := print_avtab sample_types sample_class_name sample_class_struct sample_node ∅ in Ret text) =
  Ret (bs "allow magisk shell file { read execute }" ++ [NL]).
Proof. vm_compute. reflexivity. Qed.

Lemma printed_rule_round_trip_witness : exists perms cache' t',
  print_avtab sample_types sample_class_name sample_class_struct sample_node ∅ =
    Ret (braced (spaced [bs "allow"; bs "magisk"; bs "shell"; bs "file"]) perms, cache') /\
  (if decide (perms = []) then t' = empty_avtab
   else av_statement sample_db AVTAB_ALLOWED false [bs "magisk"] [bs "shell"] [bs "file"] perms empty_avtab = Ret t') /\
  cell t' (AvKey 2 3 1 AVTAB_ALLOWED) = 5.
Proof.
  destruct (printed_rule_round_trip sample_types sample_class_name sample_class_struct sample_db sample_index_ok sample_node ∅ empty_avtab
    (bs "allow") false (bs "magisk") (bs "shell") (bs "file") sample_class) as (perms & cache' & t' & E & _ & Et & _ & _ & _ & Hp).
  - exact empty_avtab_ok.
  - reflexivity.
  - cbn. lia.
  - intros cls arr c Hl. by rewrite lookup_empty in Hl.
  - reflexivity.
  - reflexivity.
  - reflexivity.
  - reflexivity.
  - reflexivity.
  - exists perms, cache', t'. split; [exact E|]. split; [exact Et|]. apply Hp.
    intros i Hi Hb. destruct (decide (i < 3)) as [Hlt|Hge].
    + assert (i = 0 \/ i = 1 \/ i = 2) as [->|[->| ->]] by lia; eexists; repeat first [apply list_elem_of_here | apply list_elem_of_further].
    + destruct Hb. apply Z.bits_above_log2; cbn; lia.
Defined.

(** A rule for all permissions of a class is printed with the names it has. *)
Example all_permissions_text :
  (let! (text, _) := print_avtab sample_types sample_class_name sample_class_struct
     (AvNode 0 (AvKey 2 3 1 AVTAB_ALLOWED) (2 ^ 32 - 1) None) ∅ in Ret text) =
  Ret (bs "allow magisk shell file { read write execute }" ++ [NL]).
Proof. vm_compute. reflexivity. Qed.

(** Types are printed with their attributes, and permissive ones once more. *)
Definition bitmap_high (e : gset Z) : Z := set_fold Z.max 0 e.
Example print_type_text :
  let struct i := snd <$> (p_types (symtab sample_policy)) !! Z.to_nat i in
  let names i := fst <$> (p_types (symtab sample_policy)) !! Z.to_nat i in
  print_type bitmap_high names struct (set_permissive {[ 2 ]} sample_policy) (TypeDatum 2 TYPE_TYPE) =
    Ret (bs "type magisk { domain }" ++ [NL] ++ bs "permissive magisk" ++ [NL]) /\
  print_type bitmap_high names struct sample_policy (TypeDatum 1 TYPE_ATTRIB) = Ret (bs "attribute domain" ++ [NL]).
Proof. vm_compute. split; reflexivity. Qed.

(** A transition of the same key with another result is not printed. *)
Example second_transition_not_printed :
  print_filename_trans bitmap_high sample_types sample_class_name (FtKey 1 1 (Some (bs "su"))) [FtDatum {[ 1 ]} 3; FtDatum {[ 2 ]} 4] =
  print_filename_trans bitmap_high sample_types sample_class_name (FtKey 1 1 (Some (bs "su"))) [FtDatum {[ 1 ]} 3].
Proof. reflexivity. Qed.
