(* ===== verification/Denylist.v ===== *)
(** The deny list: [native/src/core/deny/utils.cpp] and
    [native/src/core/deny/cli.cpp].  The two shared containers are modelled with the
    aliasing the code relies on: [app_id_to_pkgs] holds string views into the keys of
    [pkg_to_procs], so a view carries the address of the key it points into and is only
    readable while that key is in the map.  The database and the directory of
    application data are parameters. *)

From S2P Require Import Prelude Base OrdMap Daemon.

(** ** Names *)

Definition isalnum (c : byte) : bool := isalpha c || isdigit c.
Definition ISOLATED_MAGIC : bytes := bs "isolated".

(** The loop over a process name of an isolated service: everything after a colon is
    accepted. *)
Fixpoint isolated_valid (proc : bytes) : bool :=
  match proc with
  | [] => true
  | c :: proc =>
    if isalnum c || Byte.eqb c x5f || Byte.eqb c x2e then isolated_valid proc
    else Byte.eqb c x3a
  end.
Fixpoint pkg_valid (pkg : bytes) (valid : bool) : bool :=
  match pkg with
  | [] => valid
  | c :: pkg =>
    if isalnum c || Byte.eqb c x5f then pkg_valid pkg valid
    else if Byte.eqb c x2e then pkg_valid pkg true
    else false
  end.
Fixpoint proc_valid (proc : bytes) : bool :=
  match proc with
  | [] => true
  | c :: proc => if isalnum c || Byte.eqb c x5f || Byte.eqb c x3a || Byte.eqb c x2e then proc_valid proc else false
  end.

(** [validate] *)
Definition validate (pkg proc : bytes) : bool :=
  if bool_decide (pkg = ISOLATED_MAGIC) then isolated_valid proc
  else pkg_valid pkg false && proc_valid proc.

(** ** Requests and responses *)

Definition ENFORCE : Z := 0.
Definition DISABLE : Z := 1.
Definition ADD : Z := 2.
Definition REMOVE : Z := 3.
Definition LIST : Z := 4.
Definition STATUS : Z := 5.
Definition SULIST_STATUS : Z := 6.
Definition ENFORCE_SULIST : Z := 7.
Definition DISABLE_SULIST : Z := 8.

Definition D_OK : Z := 0.
Definition ENFORCED : Z := 1.
Definition NOT_ENFORCED : Z := 2.
Definition ITEM_EXIST : Z := 3.
Definition ITEM_NOT_EXIST : Z := 4.
Definition INVALID_PKG : Z := 5.
Definition NO_NS : Z := 6.
Definition D_ERROR : Z := 7.
Definition SULIST_ENFORCED : Z := 8.
Definition SULIST_NOT_ENFORCED : Z := 9.
Definition SULIST_NO_DISABLE : Z := 10.
Definition D_END : Z := 11.

(** ** State *)

(** The data directories of applications: for each user, the packages with the owner
    of their directory, in the order of the directories.  [None]: it cannot be opened. *)
Definition world : Type := option (list (bytes * list (bytes * Z))).

(** The database: statements, and the rows of the table of the list ([true] for the
    table [sulist]). *)
Class DenyDb (D : Type) := {
  db_exec : D -> bytes -> D * bool;
  db_rows : D -> bool -> option (list (bytes * bytes)) }.

(** A view into a key: its contents and the address of the key. *)
Abbreviation view := (bytes * nat)%type.

Section denylist.
Context {D : Type} `{DenyDb D}.

Record deny := Deny {
  pkg_to_procs : gmap bytes (nat * gset bytes);
  app_id_to_pkgs : gmap Z (gset view);
  loaded : bool;                       (* the pointers are not null *)
  fresh_addr : nat;
  enforced : bool;
  sulist : bool;                       (* sulist_enabled; the table is then sulist *)
  skip_rescan : bool;
  kills : list (bytes * bool);         (* kill_process calls: the name, and whether all *)
  database : D }.

Definition set_procs (m : gmap bytes (nat * gset bytes)) (d : deny) : deny :=
  Deny m (app_id_to_pkgs d) (loaded d) (fresh_addr d) (enforced d) (sulist d) (skip_rescan d) (kills d) (database d).
Definition set_ids (m : gmap Z (gset view)) (d : deny) : deny :=
  Deny (pkg_to_procs d) m (loaded d) (fresh_addr d) (enforced d) (sulist d) (skip_rescan d) (kills d) (database d).
Definition set_db (b : D) (d : deny) : deny :=
  Deny (pkg_to_procs d) (app_id_to_pkgs d) (loaded d) (fresh_addr d) (enforced d) (sulist d) (skip_rescan d) (kills d) b.
Definition set_loaded (b : bool) (d : deny) : deny :=
  Deny (pkg_to_procs d) (app_id_to_pkgs d) b (fresh_addr d) (enforced d) (sulist d) (skip_rescan d) (kills d) (database d).
Definition set_enforced (b : bool) (d : deny) : deny :=
  Deny (pkg_to_procs d) (app_id_to_pkgs d) (loaded d) (fresh_addr d) b (sulist d) (skip_rescan d) (kills d) (database d).
Definition set_sulist (b : bool) (d : deny) : deny :=
  Deny (pkg_to_procs d) (app_id_to_pkgs d) (loaded d) (fresh_addr d) (enforced d) b (skip_rescan d) (kills d) (database d).
Definition set_skip (b : bool) (d : deny) : deny :=
  Deny (pkg_to_procs d) (app_id_to_pkgs d) (loaded d) (fresh_addr d) (enforced d) (sulist d) b (kills d) (database d).
Definition add_kill (k : bytes * bool) (d : deny) : deny :=
  Deny (pkg_to_procs d) (app_id_to_pkgs d) (loaded d) (fresh_addr d) (enforced d) (sulist d) (skip_rescan d) (kills d ++ [k]) (database d).

(** A view can be read while its key is in the map. *)
Definition live (d : deny) (v : view) : bool :=
  match pkg_to_procs d !! v.1 with Some (a, _) => Nat.eqb a v.2 | None => false end.

(** Comparing the elements of a set of views reads them. *)
Definition all_live (d : deny) (s : gset view) : bool := bool_decide (set_Forall (fun v => live d v = true) s).

Definition to_app_id (uid : Z) : Z := Z.rem uid 100000.

(** *** Changing the containers *)

(** [add_hide_set]; [false] when the process was there. *)
Definition add_hide_set (pkg proc : bytes) (d : deny) : deny * bool :=
  let '(a, procs) := default (fresh_addr d, ∅) (pkg_to_procs d !! pkg) in
  let next := match pkg_to_procs d !! pkg with Some _ => fresh_addr d | None => S (fresh_addr d) end in
  if bool_decide (proc ∈ procs) then (d, false)
  else
    let d := Deny (<[pkg := (a, {[ proc ]} ∪ procs)]> (pkg_to_procs d)) (app_id_to_pkgs d) (loaded d) next
               (enforced d) (sulist d) (skip_rescan d) (kills d) (database d) in
    (if enforced d then add_kill (proc, bool_decide (pkg = ISOLATED_MAGIC)) d else d, true).

(** [app_id_to_pkgs[app_id].insert (view)] *)
Definition insert_view (app_id : Z) (v : view) (d : deny) : outcome deny :=
  let s := default ∅ (app_id_to_pkgs d !! app_id) in
  if all_live d s then
    Ret (set_ids (<[app_id := if bool_decide (set_Exists (fun w => w.1 = v.1) s) then s else {[ v ]} ∪ s]>
                    (app_id_to_pkgs d)) d)
  else Fault.

(** The body of the loops of [rescan_apps]. *)
Definition scan_entry (e : bytes * Z) (d : deny) : outcome deny :=
  match pkg_to_procs d !! e.1 with
  | Some (a, _) => insert_view (to_app_id e.2) (e.1, a) d
  | None => Ret d
  end.
Fixpoint scan_entries (l : list (bytes * Z)) (d : deny) : outcome deny :=
  match l with [] => Ret d | e :: l => let! d := scan_entry e d in scan_entries l d end.

(** [rescan_apps]; [manager] is the package name of the manager of the settings.  The maps
    are used through their pointers, which are null until the list is loaded. *)
Definition rescan_apps (w : world) (manager : bytes) (d : deny) : outcome deny :=
  if negb (loaded d) then Fault
  else
    let d := if sulist d then (add_hide_set manager manager d).1 else d in
    let d := set_ids ∅ d in
    match w with
    | None => Ret d
    | Some users => scan_entries (users ≫= snd) d
    end.

(** [scan_deny_apps], which the daemon calls when zygote is restarted. *)
Definition scan_deny_apps : world -> bytes -> deny -> outcome deny := rescan_apps.

(** The owner of the first directory of a package. *)
Fixpoint first_uid (pkg : bytes) (users : list (bytes * list (bytes * Z))) : option Z :=
  match users with
  | [] => None
  | u :: users =>
    match find (fun e => bool_decide (e.1 = pkg)) u.2 with
    | Some e => Some e.2
    | None => first_uid pkg users
    end
  end.

(** [update_pkg_uid] *)
Definition update_pkg_uid (w : world) (pkg : view) (remove : bool) (d : deny) : outcome deny :=
  match w ≫= first_uid pkg.1 with
  | None => Ret d
  | Some uid =>
    let app_id := to_app_id uid in
    if remove then
      match app_id_to_pkgs d !! app_id with
      | None => Ret d
      | Some s =>
        if all_live d s then
          let s := filter (fun v => v.1 <> pkg.1) s in
          Ret (set_ids (if bool_decide (s = ∅) then delete app_id (app_id_to_pkgs d)
                        else <[app_id := s]> (app_id_to_pkgs d)) d)
        else Fault
      end
    else insert_view app_id pkg d
  end.

(** [ensure_data]; [false]: the database could not be read. *)
Definition ensure_data (w : world) (manager : bytes) (d : deny) : outcome (deny * bool) :=
  if loaded d then Ret (d, true)
  else
    match db_rows (database d) (sulist d) with
    | None => Ret (set_loaded false (set_ids ∅ (set_procs ∅ d)), false)
    | Some rows =>
      let d := foldl (fun d r => (add_hide_set r.1 r.2 d).1) (set_loaded true (set_procs ∅ d)) rows in
      let! d := rescan_apps w manager d in Ret (d, true)
    end.

(** *** Statements *)

Definition table_name (sulist : bool) : bytes := if sulist then bs "sulist" else bs "hidelist".

(** [ssprintf] into a buffer of 4096 characters. *)
Definition sql_text (s : bytes) : bytes := take 4095 s.
Definition sql_insert (sulist : bool) (pkg proc : bytes) : bytes :=
  sql_text (bs "INSERT INTO " ++ table_name sulist ++ bs " (package_name, process) VALUES('" ++ pkg ++ bs "', '" ++ proc ++ bs "')").
Definition sql_delete_pkg (sulist : bool) (pkg : bytes) : bytes :=
  sql_text (bs "DELETE FROM " ++ table_name sulist ++ bs " WHERE package_name='" ++ pkg ++ bs "'").
Definition sql_delete (sulist : bool) (pkg proc : bytes) : bytes :=
  sql_text (bs "DELETE FROM " ++ table_name sulist ++ bs " WHERE package_name='" ++ pkg ++ bs "' AND process='" ++ proc ++ bs "'").

Definition exec (sql : bytes) (d : deny) : deny * bool :=
  let '(b, ok) := db_exec (database d) sql in (set_db b d, ok).

(** [add_list] *)
Definition add_list (w : world) (manager pkg proc : bytes) (d : deny) : outcome (deny * Z) :=
  let proc := match proc with [] => pkg | _ => proc end in
  if negb (validate pkg proc) then Ret (d, INVALID_PKG)
  else
    let! (d, ok) := ensure_data w manager d in
    if negb ok then Ret (d, D_ERROR)
    else
      let '(d, added) := add_hide_set pkg proc d in
      if negb added then Ret (d, ITEM_EXIST)
      else
        match pkg_to_procs d !! pkg with
        | None => Fault
        | Some (a, _) =>
          let! d := update_pkg_uid w (pkg, a) false d in
          let '(d, ok) := exec (sql_insert (sulist d) pkg proc) d in
          Ret (d, if ok then D_OK else D_ERROR)
        end.

(** [rm_list] *)
Definition rm_list (w : world) (manager pkg proc : bytes) (d : deny) : outcome (deny * Z) :=
  let! (d, ok) := ensure_data w manager d in
  if negb ok then Ret (d, D_ERROR)
  else
    let! (d, remove) :=
      match pkg_to_procs d !! pkg with
      | None => Ret (d, false)
      | Some (a, procs) =>
        match proc with
        | [] =>
          let! d := update_pkg_uid w (pkg, a) true d in
          Ret (set_procs (delete pkg (pkg_to_procs d)) d, true)
        | _ =>
          if bool_decide (proc ∈ procs) then
            let procs := procs ∖ {[ proc ]} in
            let d := set_procs (<[pkg := (a, procs)]> (pkg_to_procs d)) d in
            if bool_decide (procs = ∅) then
              let! d := update_pkg_uid w (pkg, a) true d in
              Ret (set_procs (delete pkg (pkg_to_procs d)) d, true)
            else Ret (d, true)
          else Ret (d, false)
        end
      end in
    if negb remove then Ret (d, ITEM_NOT_EXIST)
    else
      let sql := match proc with [] => sql_delete_pkg (sulist d) pkg | _ => sql_delete (sulist d) pkg proc end in
      let '(d, ok) := exec sql d in
      Ret (d, if ok then D_OK else D_ERROR).

(** *** Listing *)

(** The order of [std::map] and [std::set]. *)
Definition sorted (l : list bytes) : list bytes := omerge (fun s => s) [] l.

Definition get_users (w : world) : list bytes :=
  sorted (bs "0" :: match w with Some users => users.*1 | None => [] end).

(** [access] of a data directory. *)
Definition installed (w : world) (user pkg : bytes) : bool :=
  match w with
  | None => false
  | Some users => existsb (fun u => bool_decide (u.1 = user) && existsb (fun e => bool_decide (e.1 = pkg)) u.2) users
  end.

Definition pkgs_to_rm (w : world) (d : deny) : list bytes :=
  filter (fun pkg => pkg <> ISOLATED_MAGIC /\ existsb (fun u => installed w u pkg) (get_users w) = false)
    (sorted (map_to_list (pkg_to_procs d)).*1).

(** Isolated processes of no listed package.  The search reads views until one is a
    prefix; that any of them may be read is taken as a need to read all. *)
Definition isolated_to_rm (d : deny) : outcome (list bytes) :=
  match pkg_to_procs d !! ISOLATED_MAGIC with
  | None => Ret []
  | Some (_, procs) =>
    let views := (map_to_list (app_id_to_pkgs d)).*2 ≫= elements in
    if bool_decide (procs = ∅) || forallb (live d) views then
      Ret (filter (fun proc => existsb (fun v => str_starts proc v.1) views = false) (sorted (elements procs)))
    else Fault
  end.

Definition ls_remove_pkg (w : world) (d : deny) (pkg : bytes) : outcome deny :=
  match pkg_to_procs d !! pkg with
  | None => Ret (exec (sql_delete_pkg (sulist d) pkg) d).1
  | Some (a, _) =>
    let! d := update_pkg_uid w (pkg, a) true d in
    let d := set_procs (delete pkg (pkg_to_procs d)) d in
    Ret (exec (sql_delete_pkg (sulist d) pkg) d).1
  end.
Fixpoint ls_remove_pkgs (w : world) (l : list bytes) (d : deny) : outcome deny :=
  match l with [] => Ret d | p :: l => let! d := ls_remove_pkg w d p in ls_remove_pkgs w l d end.

(** Erasing an isolated process; once the set is empty its node is erased too, and a
    further use of the iterator would be undefined ([None]). *)
Definition ls_remove_isolated (d : deny) (proc : bytes) : outcome deny :=
  match pkg_to_procs d !! ISOLATED_MAGIC with
  | None => Fault
  | Some (a, procs) =>
    let d := if bool_decide (proc ∈ procs) then
               let procs := procs ∖ {[ proc ]} in
               set_procs (if bool_decide (procs = ∅) then delete ISOLATED_MAGIC (pkg_to_procs d)
                          else <[ISOLATED_MAGIC := (a, procs)]> (pkg_to_procs d)) d
             else d in
    Ret (exec (sql_delete (sulist d) ISOLATED_MAGIC proc) d).1
  end.
Fixpoint ls_remove_isolateds (l : list bytes) (d : deny) : outcome deny :=
  match l with [] => Ret d | p :: l => let! d := ls_remove_isolated d p in ls_remove_isolateds l d end.

(** What is sent: a length, and the pair. *)
Definition list_item (pkg proc : bytes) : bytes := write_string (pkg ++ bs "|" ++ proc).
Definition list_items (d : deny) : list (bytes * bytes) :=
  pkg ← sorted (map_to_list (pkg_to_procs d)).*1;
  match pkg_to_procs d !! pkg with
  | Some (_, procs) => (pkg,.) <$> sorted (elements procs)
  | None => []
  end.

(** [ls_list]; the bytes are what the client receives. *)
Definition ls_list (w : world) (manager : bytes) (d : deny) : outcome (deny * bytes) :=
  let! (d, ok) := ensure_data w manager d in
  if negb ok then Ret (d, write_int D_ERROR)
  else
    let pkgs := pkgs_to_rm w d in
    let! isolated := isolated_to_rm d in
    let! d := ls_remove_pkgs w pkgs d in
    let! d := match pkg_to_procs d !! ISOLATED_MAGIC with
              | None => Ret d
              | Some _ => ls_remove_isolateds isolated d
              end in
    Ret (d, write_int D_OK ++ concat (map (fun i => list_item i.1 i.2) (list_items d)) ++ write_int 0).

(** *** Enabling *)

Definition setting_sql (key : bytes) (v : bool) : bytes :=
  bs "REPLACE INTO settings (key,value) VALUES('" ++ key ++ bs "'," ++ (if v then bs "1" else bs "0") ++ bs ")".
Definition update_deny_config (d : deny) : deny := (exec (setting_sql (bs "magiskhide") (enforced d)) d).1.
Definition update_sulist_config (enable : bool) (d : deny) : deny := (exec (setting_sql (bs "sulist") enable) d).1.

(** What the system answers: mount namespaces, /proc, the monitor thread, the SDK. *)
Record platform := Platform { has_ns : bool; has_proc : bool; thread_ok : bool; sdk_int : Z }.
Definition JAVA_PACKAGE_NAME : bytes := bs "io.github.huskydg.magisk".

Definition enable_deny (p : platform) (w : world) (manager : bytes) (d : deny) : outcome (deny * Z) :=
  if enforced d then Ret (d, D_OK)
  else if negb (has_ns p) then Ret (update_sulist_config false (set_sulist false d), NO_NS)
  else if negb (has_proc p) then Ret (d, D_ERROR)
  else
    let! (d, ok) := ensure_data w manager d in
    if negb ok then Ret (d, D_ERROR)
    else if negb (thread_ok p) then Ret (d, D_ERROR)
    else
      let d := set_enforced true d in
      let d := if sulist d then
                 foldl (fun d n => (add_hide_set n n d).1) d
                   [bs "com.android.systemui"; bs "com.android.settings"; JAVA_PACKAGE_NAME]
               else d in
      let d := if 29 <=? sdk_int p then
                 foldl (fun d k => add_kill (k, true) d) d [bs "usap32"; bs "usap64"; bs "u:r:app_zygote:s0"]
               else d in
      Ret (update_deny_config d, D_OK).

Definition disable_deny (d : deny) : deny * Z :=
  if sulist d then (d, SULIST_NO_DISABLE)
  else (update_deny_config (set_enforced false d), D_OK).

(** [initialize_denylist]; the settings are those of the database. *)
Definition initialize_denylist (p : platform) (w : world) (manager : bytes) (denylist_config sulist_config : bool)
  (d : deny) : outcome deny :=
  if enforced d then Ret d
  else if denylist_config then
    let! (d, _) := enable_deny p w manager (if sulist_config then set_sulist true d else d) in Ret d
  else Ret d.

(** *** Queries *)

(** [get_manager ()] of [deny_wrappers.cpp], called without a string for the name. *)
Definition get_manager (have_pkg : bool) (uid : Z) : Z := if have_pkg then uid else -1.

Definition long_prefix (max_len : Z) (s process : bytes) : bool :=
  (max_len <? zlen s) && (max_len <? zlen process) && str_starts s process.

(** The loops over the views of an application. *)
Fixpoint match_views (f : view -> gset bytes -> bool) (d : deny) (l : list view) : outcome bool :=
  match l with
  | [] => Ret false
  | v :: l =>
    if live d v then
      match pkg_to_procs d !! v.1 with
      | Some (_, procs) => if f v procs then Ret true else match_views f d l
      | None => Fault
      end
    else Fault
  end.

Definition is_deny_target (w : world) (manager : bytes) (uid : Z) (process : bytes) (max_len : Z) (d : deny)
  : outcome (deny * bool) :=
  let! (d, ok) := ensure_data w manager d in
  if negb ok then Ret (d, false)
  else
    let! d := if skip_rescan d then Ret d else rescan_apps w manager (set_skip true d) in
    let app_id := to_app_id uid in
    if app_id =? get_manager false uid then Ret (d, sulist d)
    else if 90000 <=? app_id then
      match pkg_to_procs d !! ISOLATED_MAGIC with
      | None => Ret (d, false)
      | Some (_, procs) =>
        Ret (d, existsb (fun s => long_prefix max_len s process || str_starts process s) (sorted (elements procs)))
      end
    else
      match app_id_to_pkgs d !! app_id with
      | None => Ret (d, false)
      | Some s =>
        let! b := match_views (fun _ procs => bool_decide (process ∈ procs)) d (elements s) in
        if b then Ret (d, true)
        else let! b := match_views (fun v _ => long_prefix max_len v.1 process || bool_decide (v.1 = process)) d (elements s) in
             Ret (d, b)
      end.

Definition is_uid_on_list (uid : Z) (d : deny) : outcome bool :=
  if negb (loaded d) then Fault
  else
    match app_id_to_pkgs d !! Z.rem uid 100000 with
    | None => Ret false
    | Some s => match_views (fun _ procs => 0 <? Z.of_nat (size procs)) d (elements s)
    end.

(** *** The daemon's side and the command line *)

(** [denylist_handler] for a client that sends [s]; the bytes are the answer. *)
Definition denylist_handler (p : platform) (w : world) (manager : bytes) (s : bytes) (d : deny) : outcome (deny * bytes) :=
  let '(req, s) := read_int s in
  let answer (m : outcome (deny * Z)) := let! (d, r) := m in Ret (d, write_int r) in
  if req =? ENFORCE then answer (enable_deny p w manager d)
  else if req =? DISABLE then answer (Ret (disable_deny d))
  else if req =? ADD then
    let! (pkg, _, s) := read_string s in let! (proc, _, s) := read_string s in
    answer (add_list w manager (cstr pkg) (cstr proc) d)
  else if req =? REMOVE then
    let! (pkg, _, s) := read_string s in let! (proc, _, s) := read_string s in
    answer (rm_list w manager (cstr pkg) (cstr proc) d)
  else if req =? LIST then ls_list w manager d
  else if req =? ENFORCE_SULIST then answer (Ret (update_sulist_config true d, D_OK))
  else if req =? DISABLE_SULIST then answer (Ret (update_sulist_config false d, D_OK))
  else if req =? STATUS then answer (Ret (d, if enforced d then ENFORCED else NOT_ENFORCED))
  else if req =? SULIST_STATUS then answer (Ret (d, if sulist d then SULIST_ENFORCED else SULIST_NOT_ENFORCED))
  else answer (Ret (d, D_ERROR)).
End denylist.
Arguments deny D : clear implicits.

(** The request of a command line; [None]: the usage, or a command that does not ask
    the daemon. *)
Definition cli_request (argv : list bytes) : option Z :=
  match argv with
  | [] => None
  | a :: rest =>
    if bool_decide (a = bs "enable") then Some ENFORCE
    else if bool_decide (a = bs "disable") then Some DISABLE
    else if bool_decide (a = bs "add") then Some ADD
    else if bool_decide (a = bs "rm") then Some REMOVE
    else if bool_decide (a = bs "ls") then Some LIST
    else if bool_decide (a = bs "status") then Some STATUS
    else if bool_decide (a = bs "sulist") then
      Some (match rest with
            | [] => SULIST_STATUS
            | b :: _ => if bool_decide (b = bs "enable") then ENFORCE_SULIST
                        else if bool_decide (b = bs "disable") then DISABLE_SULIST else -1
            end)
    else None
  end.

(** What the command line tool sends; [argv [2]] is null when it is missing. *)
Definition cli_send (argv : list bytes) (req : Z) : outcome bytes :=
  if (req =? ADD) || (req =? REMOVE) then
    match argv with
    | _ :: pkg :: rest => Ret (write_int req ++ write_string pkg ++ write_string (default [] (head rest)))
    | _ => Fault
    end
  else Ret (write_int req).

(** The exit status for an answer. *)
Definition cli_status (req res : Z) : Z :=
  let res := if (res <? 0) || (D_END <=? res) then D_ERROR else res in
  if res =? SULIST_NOT_ENFORCED then 1
  else if res =? SULIST_ENFORCED then 0
  else if (res =? D_ERROR) || (res =? SULIST_NO_DISABLE) then -1
  else Z.b2z (if req =? STATUS then negb (res =? ENFORCED) else negb (res =? D_OK)).

(** ** Names that reach a statement *)

Definition name_char (c : byte) : Prop := isalnum c = true \/ c ∈ [x5f; x2e; x3a].

Lemma proc_valid_chars proc : proc_valid proc = true <-> Forall name_char proc.
Proof.
  induction proc as [|c proc IH]; cbn; [by split|]. rewrite Forall_cons, <- IH. unfold name_char.
  destruct (isalnum c) eqn:Ea; cbn; [tauto|]. rewrite !elem_of_cons, elem_of_nil.
  destruct (Byte.eqb c x5f) eqn:E1, (Byte.eqb c x3a) eqn:E2, (Byte.eqb c x2e) eqn:E3; cbn;
    try (apply Byte.byte_dec_bl in E1); try (apply Byte.byte_dec_bl in E2); try (apply Byte.byte_dec_bl in E3); subst; try tauto.
  split; [done|]. intros [[?|[->|[->|[->|[]]]]] _]; done.
Qed.

Lemma pkg_valid_chars pkg v : pkg_valid pkg v = true ->
  Forall (fun c => isalnum c = true \/ c ∈ [x5f; x2e]) pkg /\ (v = true \/ x2e ∈ pkg).
Proof.
  revert v. induction pkg as [|c pkg IH]; intros v; cbn; [by split; [constructor|left]|].
  destruct (isalnum c) eqn:Ea; cbn.
  { intros [Hf Hd]%IH. split; [constructor; auto|]. set_solver. }
  destruct (Byte.eqb c x5f) eqn:E1; [apply Byte.byte_dec_bl in E1 as ->|].
  { intros [Hf Hd]%IH. split; [constructor; [set_solver|done]|set_solver]. }
  destruct (Byte.eqb c x2e) eqn:E2; [apply Byte.byte_dec_bl in E2 as ->|done].
  intros [Hf Hd]%IH. split; [constructor; [set_solver|done]|set_solver].
Qed.

Lemma name_char_no_quote l : Forall name_char l -> x27 ∉ l.
Proof.
  intros Hl Hin. rewrite Forall_forall in Hl. apply Hl in Hin as [Hc|Hc]; [discriminate Hc|].
  revert Hc. apply (bool_decide_unpack (x27 ∉ [x5f; x2e; x3a])). exact I.
Qed.

(** A package that is accepted has a dot and only letters, digits, underscores and
    dots, its process only these and colons, so neither can end the quotation of a
    statement; but under the name of the isolated services everything is accepted after
    the first colon, quotes included. *)
Theorem validate_quotes pkg proc :
  (validate pkg proc = true -> pkg <> ISOLATED_MAGIC -> x2e ∈ pkg /\ x27 ∉ pkg ++ proc) /\
  validate ISOLATED_MAGIC (bs "x:" ++ proc) = true.
Proof.
  split.
  - unfold validate. intros Hv Hne. rewrite bool_decide_eq_false_2 in Hv by done.
    apply andb_true_iff in Hv as [[Hp [Hd|Hd]]%pkg_valid_chars Hq%proc_valid_chars]; [done|].
    split; [done|]. apply name_char_no_quote. apply Forall_app. split; [|done].
    eapply Forall_impl; [exact Hp|]. intros c [Hc|Hc]; [by left|right; set_solver].
  - reflexivity.
Qed.

(** ** The views *)

(** The application id of a package, which Android gives it for all users; a package
    has a dot in its name. *)
Definition app_of (w : world) (pkg : bytes) : option Z := to_app_id <$> (w ≫= first_uid pkg).
Record world_ok (w : world) : Prop := WorldOk {
  w_apps : forall users u e, w = Some users -> u ∈ users -> e ∈ u.2 -> app_of w e.1 = Some (to_app_id e.2);
  w_isolated : app_of w ISOLATED_MAGIC = None }.

Section views.
Context {D : Type} `{DenyDb D}.
Implicit Types (d : deny D) (w : world).

(** Every view points into a key of the map, and is filed under the application that
    owns the directory of its package. *)
Record views_ok w d : Prop := ViewsOk {
  views_live : forall id s v, app_id_to_pkgs d !! id = Some s -> v ∈ s -> live d v = true /\ app_of w v.1 = Some id;
  views_none : loaded d = false -> app_id_to_pkgs d = ∅ }.

Lemma all_live_ok w d id s : views_ok w d -> app_id_to_pkgs d !! id = Some s -> all_live d s = true.
Proof. intros [Hv _] Hs. apply bool_decide_eq_true. intros v Hvs. by apply (Hv id s). Qed.

(** Changes that keep the keys of the map keep the views. *)
Lemma views_mono w d d' : views_ok w d -> app_id_to_pkgs d' = app_id_to_pkgs d ->
  (forall v, live d v = true -> live d' v = true) -> (loaded d' = false -> loaded d = false) -> views_ok w d'.
Proof.
  intros [Hv Hn] Ei Hl Hld. split.
  - intros id s v Hs Hin. rewrite Ei in Hs. destruct (Hv id s v Hs Hin). auto.
  - rewrite Ei. auto.
Qed.

Lemma add_hide_set_live pkg proc d v : live d v = true -> live (add_hide_set pkg proc d).1 v = true.
Proof.
  unfold add_hide_set, live. destruct (pkg_to_procs d !! pkg) as [[a procs]|] eqn:Ep; cbn; case_bool_decide; cbn; try done.
  - intros Hl. assert (Hm : match (<[pkg:=(a, {[proc]} ∪ procs)]> (pkg_to_procs d)) !! v.1 with
      | Some (a0, _) => Nat.eqb a0 v.2 | None => false end = true).
    { destruct (decide (pkg = v.1)) as [->|]; [rewrite lookup_insert_eq; by rewrite Ep in Hl|by rewrite lookup_insert_ne]. }
    by destruct (enforced d).
  - intros Hl. assert (Hm : match (<[pkg:=(fresh_addr d, {[proc]} ∪ ∅)]> (pkg_to_procs d)) !! v.1 with
      | Some (a0, _) => Nat.eqb a0 v.2 | None => false end = true).
    { destruct (decide (pkg = v.1)) as [->|]; [by rewrite Ep in Hl|by rewrite lookup_insert_ne]. }
    by destruct (enforced d).
Qed.

Lemma add_hide_set_frame pkg proc d : let d' := (add_hide_set pkg proc d).1 in
  app_id_to_pkgs d' = app_id_to_pkgs d /\ loaded d' = loaded d /\ sulist d' = sulist d /\ enforced d' = enforced d /\
  skip_rescan d' = skip_rescan d /\ database d' = database d.
Proof.
  unfold add_hide_set. destruct (pkg_to_procs d !! pkg) as [[a procs]|]; cbn; case_bool_decide; cbn; try done;
    by destruct (enforced d).
Qed.

Lemma add_hide_set_views w pkg proc d : views_ok w d -> views_ok w (add_hide_set pkg proc d).1.
Proof.
  intros Hv. destruct (add_hide_set_frame pkg proc d) as (Hi & Hl & _).
  eapply views_mono; [exact Hv|done|apply add_hide_set_live|congruence].
Qed.

Lemma insert_view_ok w d id v : views_ok w d -> loaded d = true -> live d v = true -> app_of w v.1 = Some id ->
  exists d', insert_view id v d = Ret d' /\ views_ok w d' /\ loaded d' = true /\
    pkg_to_procs d' = pkg_to_procs d /\ sulist d' = sulist d /\ database d' = database d /\
    exists s, app_id_to_pkgs d' !! id = Some s /\ exists a, (v.1, a) ∈ s.
Proof.
  intros Hv Hld Hl Ha. unfold insert_view.
  assert (Hall : all_live d (default ∅ (app_id_to_pkgs d !! id)) = true).
  { destruct (app_id_to_pkgs d !! id) as [s|] eqn:Es; cbn; [by eapply all_live_ok|].
    apply bool_decide_eq_true. by apply set_Forall_empty. }
  rewrite Hall. eexists. split; [reflexivity|]. split_and!; [|done..|].
  - split; [|cbn; congruence]. intros id' s u Hs Hu. cbn in Hs.
    change (live (set_ids _ d) u) with (live d u). destruct (decide (id = id')) as [<-|Hne].
    + rewrite lookup_insert_eq in Hs. injection Hs as <-.
      assert (Hcase : u = v \/ u ∈ default ∅ (app_id_to_pkgs d !! id)) by (case_bool_decide; set_solver).
      destruct Hcase as [->|Hu']; [done|]. destruct (app_id_to_pkgs d !! id) as [s0|] eqn:E0; cbn in Hu'; [|set_solver].
      by apply (views_live w d Hv id s0).
    + rewrite lookup_insert_ne in Hs by done. by apply (views_live w d Hv id' s).
  - eexists. cbn. rewrite lookup_insert_eq. split; [reflexivity|]. case_bool_decide as He.
    + destruct He as ([n a] & Hw & Hn). cbn in Hn. exists a. by rewrite <- Hn.
    + exists v.2. destruct v. set_solver.
Qed.

Lemma insert_view_inv i v d d' : insert_view i v d = Ret d' ->
  exists s, d' = set_ids (<[i := s]> (app_id_to_pkgs d)) d /\ default ∅ (app_id_to_pkgs d !! i) ⊆ s.
Proof.
  unfold insert_view. destruct (all_live _ _); [|done]. intros [= <-]. eexists. split; [reflexivity|].
  destruct (bool_decide _); set_solver.
Qed.

(** What the operations on the containers have in common. *)
Definition kept d d' : Prop :=
  loaded d' = true /\ sulist d' = sulist d /\ skip_rescan d' = skip_rescan d /\ enforced d' = enforced d /\
  database d' = database d.

Lemma scan_entries_ok w l d : views_ok w d -> loaded d = true -> Forall (fun e => app_of w e.1 = Some (to_app_id e.2)) l ->
  exists d', scan_entries l d = Ret d' /\ views_ok w d' /\ kept d d' /\ pkg_to_procs d' = pkg_to_procs d /\
    (forall e, e ∈ l -> is_Some (pkg_to_procs d !! e.1) ->
       exists s a, app_id_to_pkgs d' !! to_app_id e.2 = Some s /\ (e.1, a) ∈ s) /\
    (forall id s v, app_id_to_pkgs d !! id = Some s -> v ∈ s -> exists s', app_id_to_pkgs d' !! id = Some s' /\ v ∈ s').
Proof.
  intros Hv Hld Hl. revert d Hv Hld. induction Hl as [|e l He Hl IH]; intros d Hv Hld; cbn [scan_entries].
  { exists d. split_and!; [done..| |eauto]. intros e He. by apply not_elem_of_nil in He. }
  unfold scan_entry. destruct (pkg_to_procs d !! e.1) as [[a procs]|] eqn:Ep.
  - assert (Hlive : live d (e.1, a) = true) by (unfold live; cbn; by rewrite Ep, Nat.eqb_refl).
    destruct (insert_view_ok w d (to_app_id e.2) (e.1, a) Hv Hld Hlive He) as (d1 & E1 & Hv1 & Hld1 & Hp1 & Hs1 & Hdb1 & s1 & Hs1' & a1 & Ha1).
    assert (Hmono : forall id s v, app_id_to_pkgs d !! id = Some s -> v ∈ s -> exists s', app_id_to_pkgs d1 !! id = Some s' /\ v ∈ s').
    { intros id s v Hs Hvs. apply insert_view_inv in E1 as (s' & -> & Hsub). cbn.
      destruct (decide (to_app_id e.2 = id)) as [<-|]; [|rewrite lookup_insert_ne by done; eauto].
      rewrite lookup_insert_eq. eexists. split; [reflexivity|]. apply Hsub. by rewrite Hs. }
    assert (Hk1 : kept d d1).
    { by apply insert_view_inv in E1 as (s' & -> & _). }
    destruct (IH d1 Hv1 Hld1) as (d2 & E2 & Hv2 & Hk2 & Hp2 & Hin2 & Hm2).
    exists d2. rewrite E1. cbn [obind]. split_and!; [done|done| |congruence|..].
    + destruct Hk1 as (? & ? & ? & ? & ?), Hk2 as (? & ? & ? & ? & ?). split_and!; congruence.
    + intros e' [->|He']%elem_of_cons Hsome.
      * cbn in Ha1. destruct (Hm2 _ _ _ Hs1' Ha1) as (s' & Hs' & Hin'). eauto.
      * apply Hin2; [done|]. by rewrite Hp1.
    + intros id s v Hs Hvs. destruct (Hmono id s v Hs Hvs) as (s' & Hs' & Hvs'). eauto.
  - cbn [obind]. destruct (IH d Hv Hld) as (d2 & E2 & Hv2 & Hk2 & Hp2 & Hin2 & Hm2).
    exists d2. split_and!; [done..| |done]. intros e' [->|He']%elem_of_cons Hsome; [|by apply Hin2].
    rewrite Ep in Hsome. by destruct Hsome.
Qed.

Lemma views_empty w d : loaded d = true -> views_ok w (set_ids ∅ d).
Proof. intros Hld. split; [|done]. intros id s v Hs. cbn in Hs. by rewrite lookup_empty in Hs. Qed.

Lemma rescan_ok w manager d : world_ok w -> views_ok w d -> loaded d = true ->
  exists d', rescan_apps w manager d = Ret d' /\ views_ok w d' /\ kept d d' /\
    pkg_to_procs d' = pkg_to_procs (if sulist d then (add_hide_set manager manager d).1 else d) /\
    (forall pkg id, is_Some (pkg_to_procs d' !! pkg) -> app_of w pkg = Some id ->
       exists s a, app_id_to_pkgs d' !! id = Some s /\ (pkg, a) ∈ s).
Proof.
  intros Hw Hv Hld. unfold rescan_apps. rewrite Hld. cbn [negb]. set (d1 := if sulist d then _ else d).
  assert (Hk : kept d d1).
  { unfold d1. destruct (sulist d) eqn:Es; [|by unfold kept; rewrite Hld, Es].
    destruct (add_hide_set_frame manager manager d) as (_ & ? & ? & ? & ? & ?). split_and!; congruence. }
  pose proof (views_empty w d1 (proj1 Hk)) as Hv1.
  destruct w as [users|].
  2:{ eexists. split; [reflexivity|]. split_and!; [done..|]. intros pkg id _ Ha. done. }
  assert (Hf : Forall (fun e => app_of (Some users) e.1 = Some (to_app_id e.2)) (users ≫= snd)).
  { apply Forall_forall. intros e (u & He & Hu)%list_elem_of_bind. by apply (w_apps _ Hw users u e). }
  destruct (scan_entries_ok (Some users) _ (set_ids ∅ d1) Hv1 (proj1 Hk) Hf) as (d2 & E2 & Hv2 & Hk2 & Hp2 & Hin & _).
  exists d2. split_and!; [done|done| |done|].
  - destruct Hk as (? & ? & ? & ? & ?), Hk2 as (? & ? & ? & ? & ?). cbn in *. split_and!; congruence.
  - intros pkg id Hsome Ha. unfold app_of in Ha. cbn in Ha. apply fmap_Some in Ha as (uid & Hu & ->).
    rewrite Hp2 in Hsome. clear -Hu Hin Hsome.
    assert (Hex : exists u e, u ∈ users /\ e ∈ u.2 /\ e = (pkg, uid)).
    { induction users as [|u users IH]; [done|]. cbn in Hu. destruct (find _ u.2) as [e|] eqn:Ef.
      - injection Hu as <-. apply find_some in Ef as [He Ek%bool_decide_eq_true]. exists u, e.
        split_and!; [set_solver|by apply list_elem_of_In|]. destruct e; cbn in *. by subst.
      - destruct IH as (u' & e & Hu' & ?); [|done|].
        + intros e He. apply Hin. rewrite bind_cons. set_solver.
        + exists u', e. set_solver. }
    destruct Hex as (u & e & Hu' & He & ->). apply (Hin (pkg, uid)); [|done].
    apply list_elem_of_bind. exists u. done.
Qed.

Lemma ensure_ok w manager d : world_ok w -> views_ok w d ->
  exists d' b, ensure_data w manager d = Ret (d', b) /\ views_ok w d' /\ (b = true -> loaded d' = true) /\
    (loaded d = true -> d' = d /\ b = true) /\
    sulist d' = sulist d /\ skip_rescan d' = skip_rescan d /\ enforced d' = enforced d /\ database d' = database d.
Proof.
  intros Hw Hv. unfold ensure_data. destruct (loaded d) eqn:Hld; [by exists d, true|].
  destruct (db_rows (database d) (sulist d)) as [rows|].
  - set (d1 := foldl _ _ rows).
    assert (Hd1 : views_ok w d1 /\ kept d d1).
    { unfold d1. assert (Hgen : forall d0, views_ok w d0 -> kept d d0 ->
        views_ok w (foldl (fun d r => (add_hide_set r.1 r.2 d).1) d0 rows) /\
        kept d (foldl (fun d r => (add_hide_set r.1 r.2 d).1) d0 rows)).
      { induction rows as [|r rows IH]; intros d0 Hv0 Hk0; [done|]. cbn [foldl]. apply IH; [by apply add_hide_set_views|].
        destruct (add_hide_set_frame r.1 r.2 d0) as (_ & ? & ? & ? & ? & ?), Hk0 as (? & ? & ? & ? & ?). split_and!; congruence. }
      apply Hgen; [|done]. split; [|done]. intros id s v Hs. cbn in Hs. rewrite (views_none w d Hv Hld) in Hs. by rewrite lookup_empty in Hs. }
    destruct Hd1 as [Hv1 Hk1]. destruct (rescan_ok w manager d1 Hw Hv1 (proj1 Hk1)) as (d2 & E2 & Hv2 & Hk2 & _).
    exists d2, true. rewrite E2. cbn [obind]. destruct Hk1 as (? & ? & ? & ? & ?), Hk2 as (? & ? & ? & ? & ?).
    split_and!; [done|done|done|done|congruence..].
  - eexists _, false. split; [reflexivity|]. split_and!; [|done..]. split; [|done].
    intros id s v Hs. cbn in Hs. by rewrite lookup_empty in Hs.
Qed.

(** Erasing a package: its views are gone before its key is. *)
Lemma erase_pkg_ok w pkg a procs d : views_ok w d -> loaded d = true -> pkg_to_procs d !! pkg = Some (a, procs) ->
  exists d1, update_pkg_uid w (pkg, a) true d = Ret d1 /\ views_ok w (set_procs (delete pkg (pkg_to_procs d1)) d1) /\
    pkg_to_procs d1 = pkg_to_procs d /\ kept d d1.
Proof.
  intros Hv Hld Hp. unfold update_pkg_uid. cbn [fst].
  assert (Hgone : forall d1, kept d d1 -> pkg_to_procs d1 = pkg_to_procs d ->
    (forall id s v, app_id_to_pkgs d1 !! id = Some s -> v ∈ s -> v.1 <> pkg /\ live d v = true /\ app_of w v.1 = Some id) ->
    views_ok w (set_procs (delete pkg (pkg_to_procs d1)) d1)).
  { intros d1 Hk Hpk Hin. split; [|cbn; destruct Hk; congruence]. intros id s v Hs Hvs. cbn in Hs.
    destruct (Hin id s v Hs Hvs) as (Hne & Hl & Ha). split; [|done]. unfold live in *. cbn. rewrite Hpk.
    by rewrite lookup_delete_ne. }
  assert (Hk0 : kept d d) by (unfold kept; by rewrite Hld).
  destruct (w ≫= first_uid pkg) as [uid|] eqn:Eu.
  2:{ exists d. split_and!; [done| |done|done]. apply Hgone; [done..|]. intros id s v Hs Hvs.
      destruct (views_live w d Hv id s v Hs Hvs) as [Hl Ha]. split_and!; [|done..]. intros E. unfold app_of in Ha. by rewrite E, Eu in Ha. }
  assert (Happ : forall id s v, app_id_to_pkgs d !! id = Some s -> v ∈ s -> v.1 = pkg -> id = to_app_id uid).
  { intros id s v Hs Hvs E. destruct (views_live w d Hv id s v Hs Hvs) as [_ Ha]. unfold app_of in Ha. rewrite E, Eu in Ha. by injection Ha. }
  destruct (app_id_to_pkgs d !! to_app_id uid) as [s0|] eqn:E0.
  2:{ exists d. split_and!; [done| |done|done]. apply Hgone; [done..|]. intros id s v Hs Hvs.
      destruct (views_live w d Hv id s v Hs Hvs) as [Hl Ha]. split_and!; [|done..]. intros E.
      rewrite (Happ id s v Hs Hvs E) in Hs. congruence. }
  rewrite (all_live_ok w d _ s0 Hv E0). eexists. split; [reflexivity|]. split_and!; [|done|done].
  apply Hgone; [done|done|]. intros id s v Hs Hvs. cbn in Hs.
  set (s1 := filter (fun v => v.1 <> pkg) s0) in *.
  assert (Hcase : (id = to_app_id uid /\ s = s1) \/ (id <> to_app_id uid /\ app_id_to_pkgs d !! id = Some s)).
  { destruct (decide (id = to_app_id uid)) as [->|Hne].
    - left. case_bool_decide; [by rewrite lookup_delete_eq in Hs|]. rewrite lookup_insert_eq in Hs. by injection Hs as <-.
    - right. split; [done|]. case_bool_decide; [by rewrite lookup_delete_ne in Hs|by rewrite lookup_insert_ne in Hs]. }
  destruct Hcase as [[-> ->]|[Hne Hs']].
  - unfold s1 in Hvs. apply elem_of_filter in Hvs as [Hn Hvs]. split; [done|]. by apply (views_live w d Hv _ s0).
  - split; [|by apply (views_live w d Hv id s)]. intros E. apply Hne. by apply (Happ id s v).
Qed.

(** *** No operation reads a dead view *)

Lemma exec_views w sql d : views_ok w d -> views_ok w (exec sql d).1.
Proof.
  intros [Hv Hn]. unfold exec. destruct (db_exec (database d) sql). split; [exact Hv|exact Hn].
Qed.

(** The process a command means. *)
Definition the_proc (pkg proc : bytes) : bytes := match proc with [] => pkg | _ => proc end.

(** A listed process: in the map, with a view of its package if it is installed. *)
Definition listed w d (pkg proc : bytes) : Prop :=
  loaded d = true /\ (exists a procs, pkg_to_procs d !! pkg = Some (a, procs) /\ proc ∈ procs) /\
  forall i, app_of w pkg = Some i -> exists s a, app_id_to_pkgs d !! i = Some s /\ (pkg, a) ∈ s.

Lemma add_list_safe w manager pkg proc d : world_ok w -> views_ok w d ->
  exists d' r, add_list w manager pkg proc d = Ret (d', r) /\ views_ok w d' /\
    (r = D_OK -> listed w d' pkg (the_proc pkg proc)).
Proof.
  intros Hw Hv. unfold add_list. fold (the_proc pkg proc). set (q := the_proc pkg proc).
  destruct (negb (validate pkg q)); [by exists d, INVALID_PKG|].
  destruct (ensure_ok w manager d Hw Hv) as (d1 & b & -> & Hv1 & Hld1 & _). cbn [obind].
  destruct b; cbn [negb]; [|by exists d1, D_ERROR]. specialize (Hld1 eq_refl).
  pose proof (add_hide_set_views w pkg q d1 Hv1) as Hv2. destruct (add_hide_set_frame pkg q d1) as (_ & Hld2 & _).
  destruct (add_hide_set pkg q d1) as [d2 added] eqn:E2. cbn [fst] in *.
  destruct added; cbn [negb]; [|by exists d2, ITEM_EXIST].
  assert (Hp : exists a procs, pkg_to_procs d2 !! pkg = Some (a, procs) /\ q ∈ procs).
  { unfold add_hide_set in E2. destruct (default _ _) as [a procs]. case_bool_decide; [done|]. injection E2 as <-.
    cbn. destruct (enforced d1); cbn; rewrite lookup_insert_eq; eexists _, _; (split; [reflexivity|]); set_solver. }
  destruct Hp as (a & procs & Hp & Hq). rewrite Hp.
  assert (Hup : exists d3, update_pkg_uid w (pkg, a) false d2 = Ret d3 /\ views_ok w d3 /\ listed w d3 pkg q).
  { unfold update_pkg_uid, listed, app_of. cbn [fst]. destruct (w ≫= first_uid pkg) as [uid|] eqn:Eu.
    2:{ exists d2. split_and!; [done|done|congruence|eauto|done]. }
    destruct (insert_view_ok w d2 (to_app_id uid) (pkg, a) Hv2) as (d3 & E3 & Hv3 & Hld3 & Hp3 & _ & _ & s & Hs & a' & Ha');
      [congruence| | |].
    - unfold live. cbn. by rewrite Hp, Nat.eqb_refl.
    - unfold app_of. cbn. by rewrite Eu.
    - exists d3. split_and!; [done|done|done|rewrite Hp3; eauto|]. intros i [= <-]. eauto. }
  destruct Hup as (d3 & -> & Hv3 & Hl3). cbn [obind].
  pose proof (exec_views w (sql_insert (sulist d3) pkg q) d3 Hv3) as Hv4.
  unfold exec in *. destruct (db_exec (database d3) _) as [b4 ok]. cbn [fst] in Hv4. eexists _, _.
  split; [reflexivity|]. split; [exact Hv4|]. intros _. exact Hl3.
Qed.

Lemma set_procs_live_views w m d : views_ok w d -> loaded d = true ->
  (forall k a p, pkg_to_procs d !! k = Some (a, p) -> exists p', m !! k = Some (a, p')) -> views_ok w (set_procs m d).
Proof.
  intros Hv Hld Hm. eapply views_mono; [exact Hv|done| |done]. intros v. unfold live. cbn.
  destruct (pkg_to_procs d !! v.1) as [[a p]|] eqn:E; [|done]. destruct (Hm _ _ _ E) as [p' ->]. done.
Qed.

Lemma rm_list_safe w manager pkg proc d : world_ok w -> views_ok w d ->
  exists d' r, rm_list w manager pkg proc d = Ret (d', r) /\ views_ok w d'.
Proof.
  intros Hw Hv. unfold rm_list. destruct (ensure_ok w manager d Hw Hv) as (d1 & b & -> & Hv1 & Hld1 & _). cbn [obind].
  destruct b; cbn [negb]; [|by exists d1, D_ERROR]. specialize (Hld1 eq_refl).
  match goal with |- context [obind ?m _] => assert (Hm : exists d2 b, m = Ret (d2, b) /\ views_ok w d2) end.
  { destruct (pkg_to_procs d1 !! pkg) as [[a procs]|] eqn:Ep; [|eauto]. destruct proc as [|c proc].
    - destruct (erase_pkg_ok w pkg a procs d1 Hv1 Hld1 Ep) as (d2 & -> & Hv2 & _). cbn [obind]. eauto.
    - case_bool_decide; [|eauto].
      assert (Hv2 : views_ok w (set_procs (<[pkg := (a, procs ∖ {[c :: proc]})]> (pkg_to_procs d1)) d1)).
      { apply set_procs_live_views; [done..|]. intros k a' p' Hk. destruct (decide (pkg = k)) as [<-|].
        - rewrite lookup_insert_eq. replace a' with a by congruence. eauto.
        - rewrite lookup_insert_ne by done. eauto. }
      case_bool_decide; [|eauto].
      destruct (erase_pkg_ok w pkg a (procs ∖ {[c :: proc]}) _ Hv2 Hld1) as (d2 & -> & Hv3 & _); [cbn; by rewrite lookup_insert_eq|].
      cbn [obind]. eauto. }
  destruct Hm as (d2 & b & -> & Hv2). cbn [obind]. destruct b; cbn [negb]; [|eauto].
  match goal with |- context [exec ?sql d2] => pose proof (exec_views w sql d2 Hv2) as Hv3; destruct (exec sql d2) as [d3 ok] end.
  eauto.
Qed.

Lemma ls_remove_pkgs_ok w l d : views_ok w d -> loaded d = true ->
  exists d', ls_remove_pkgs w l d = Ret d' /\ views_ok w d' /\ loaded d' = true.
Proof.
  intros Hv Hld. revert d Hv Hld. induction l as [|pkg l IH]; intros d Hv Hld; [by exists d|]. cbn [ls_remove_pkgs].
  assert (Hone : exists d1, ls_remove_pkg w d pkg = Ret d1 /\ views_ok w d1 /\ loaded d1 = true).
  { unfold ls_remove_pkg. destruct (pkg_to_procs d !! pkg) as [[a procs]|] eqn:Ep.
    - destruct (erase_pkg_ok w pkg a procs d Hv Hld Ep) as (d1 & -> & Hv1 & _ & Hk). cbn [obind]. eexists. split; [reflexivity|].
      split; [by apply exec_views|]. unfold exec. destruct (db_exec _ _). apply Hk.
    - eexists. split; [reflexivity|]. split; [by apply exec_views|]. unfold exec. by destruct (db_exec _ _). }
  destruct Hone as (d1 & -> & Hv1 & Hld1). cbn [obind]. by apply IH.
Qed.

Lemma sorted_spec l x : x ∈ sorted l <-> x ∈ l.
Proof.
  unfold sorted, omerge. assert (Hgen : forall acc, x ∈ fold_left (fun l v => oemplace (fun s => s) v l) l acc <-> x ∈ acc \/ x ∈ l).
  { induction l as [|y l IH]; intros acc; cbn; [set_solver|]. rewrite IH.
    assert (He : x ∈ oemplace (fun s => s) y acc <-> x = y \/ x ∈ acc); [|set_solver].
    clear IH. induction acc as [|z acc IHa]; cbn; [set_solver|]. case_bool_decide; [set_solver|].
    destruct (sv_lt y z); set_solver. }
  rewrite Hgen. set_solver.
Qed.

Lemma sorted_nodup l : NoDup (sorted l).
Proof.
  assert (Ho : ordered (fun s => s) (sorted l)) by (apply omerge_ordered; constructor).
  induction Ho as [|x k Hk IH Hx]; constructor; [|done]. intros Hin. rewrite Forall_forall in Hx.
  apply Hx in Hin. by rewrite sv_lt_irrefl in Hin.
Qed.

(** The iterator stays valid: the processes to erase are distinct members of the set,
    so it only becomes empty with the last of them. *)
Lemma ls_remove_isolateds_ok w l d a procs : views_ok w d -> loaded d = true ->
  pkg_to_procs d !! ISOLATED_MAGIC = Some (a, procs) -> NoDup l -> (forall x, x ∈ l -> x ∈ procs) ->
  (forall id s v, app_id_to_pkgs d !! id = Some s -> v ∈ s -> v.1 <> ISOLATED_MAGIC) ->
  exists d', ls_remove_isolateds l d = Ret d' /\ views_ok w d'.
Proof.
  revert d procs. induction l as [|x l IH]; intros d procs Hv Hld Hp Hnd Hin Hni; [by exists d|]. cbn [ls_remove_isolateds].
  apply NoDup_cons in Hnd as [Hx Hnd]. unfold ls_remove_isolated. rewrite Hp, bool_decide_eq_true_2 by (apply Hin; set_solver).
  cbn [obind]. set (m := if bool_decide (procs ∖ {[x]} = ∅) then _ else _).
  assert (Hv1 : views_ok w (set_procs m d)).
  { split; [|cbn; congruence]. intros id s v Hs Hvs. cbn in Hs. destruct (views_live w d Hv id s v Hs Hvs) as [Hl Ha].
    split; [|done]. pose proof (Hni id s v Hs Hvs) as Hne. unfold live in *. cbn. unfold m.
    case_bool_decide; [by rewrite lookup_delete_ne|by rewrite lookup_insert_ne]. }
  set (d1 := (exec (sql_delete (sulist (set_procs m d)) ISOLATED_MAGIC x) (set_procs m d)).1).
  assert (Hd1 : views_ok w d1 /\ loaded d1 = true /\ pkg_to_procs d1 = m /\ app_id_to_pkgs d1 = app_id_to_pkgs d).
  { split; [by apply exec_views|]. unfold d1, exec. destruct (db_exec _ _). done. }
  destruct Hd1 as (Hv2 & Hld2 & Hp2 & Hi2). destruct l as [|y l]; [by exists d1|].
  apply (IH d1 (procs ∖ {[x]})); [done|done| |done|set_solver|by rewrite Hi2].
  rewrite Hp2. unfold m. rewrite bool_decide_eq_false_2; [by rewrite lookup_insert_eq|].
  assert (Hy : y ∈ procs ∖ {[x]}) by set_solver. intros E. rewrite E in Hy. set_solver.
Qed.

Lemma views_not_isolated w d i s v : world_ok w -> views_ok w d -> app_id_to_pkgs d !! i = Some s -> v ∈ s -> v.1 <> ISOLATED_MAGIC.
Proof.
  intros Hw Hv Hs Hvs E. destruct (views_live w d Hv i s v Hs Hvs) as [_ Ha]. rewrite E, (w_isolated w Hw) in Ha. done.
Qed.

Lemma all_views_live w d : views_ok w d -> forallb (live d) ((map_to_list (app_id_to_pkgs d)).*2 ≫= elements) = true.
Proof.
  intros Hv. apply forallb_forall. intros v Hin%list_elem_of_In. apply list_elem_of_bind in Hin as (s & Hvs & Hs).
  apply list_elem_of_fmap in Hs as ([i s'] & -> & Hs). apply elem_of_map_to_list in Hs. cbn in Hvs.
  apply elem_of_elements in Hvs. by apply (views_live w d Hv i s').
Qed.

Lemma ls_remove_pkgs_isolated w l d d' : ISOLATED_MAGIC ∉ l -> ls_remove_pkgs w l d = Ret d' ->
  pkg_to_procs d' !! ISOLATED_MAGIC = pkg_to_procs d !! ISOLATED_MAGIC.
Proof.
  revert d. induction l as [|p l IH]; intros d Hni E; cbn in E; [by simplify_eq|].
  apply bind_Ret_inv in E as (d1 & E1 & E). rewrite (IH d1) by (done || set_solver).
  unfold ls_remove_pkg in E1. destruct (pkg_to_procs d !! p) as [[a procs]|] eqn:Ep.
  - apply bind_Ret_inv in E1 as (d2 & E2 & E1). injection E1 as <-.
    assert (Hp2 : pkg_to_procs d2 = pkg_to_procs d).
    { unfold update_pkg_uid in E2. destruct (w ≫= first_uid _); [|by simplify_eq]. destruct (app_id_to_pkgs d !! _); [|by simplify_eq].
      destruct (all_live _ _); [|done]. by injection E2 as <-. }
    unfold exec. destruct (db_exec _ _). cbn. rewrite lookup_delete_ne by set_solver. by rewrite Hp2.
  - injection E1 as <-. unfold exec. by destruct (db_exec _ _).
Qed.

Lemma ls_list_safe w manager d : world_ok w -> views_ok w d ->
  exists d' r, ls_list w manager d = Ret (d', r) /\ views_ok w d'.
Proof.
  intros Hw Hv. unfold ls_list. destruct (ensure_ok w manager d Hw Hv) as (d1 & b & -> & Hv1 & Hld1 & _). cbn [obind].
  destruct b; cbn [negb]; [|by eexists d1, _]. specialize (Hld1 eq_refl).
  assert (Hiso : exists l, isolated_to_rm d1 = Ret l /\ NoDup l /\
    forall a procs, pkg_to_procs d1 !! ISOLATED_MAGIC = Some (a, procs) -> forall x, x ∈ l -> x ∈ procs).
  { unfold isolated_to_rm. destruct (pkg_to_procs d1 !! ISOLATED_MAGIC) as [[a procs]|] eqn:Ep.
    - rewrite (all_views_live w d1 Hv1), orb_true_r. eexists. split; [reflexivity|]. split; [apply NoDup_filter, sorted_nodup|].
      intros a' procs' [= <- <-] x Hx. apply list_elem_of_filter in Hx as [_ Hx]. apply sorted_spec, elem_of_elements in Hx. done.
    - exists []. split_and!; [done|constructor|done]. }
  destruct Hiso as (l & -> & Hnd & Hl). cbn [obind].
  destruct (ls_remove_pkgs_ok w (pkgs_to_rm w d1) d1 Hv1 Hld1) as (d2 & E2 & Hv2 & Hld2). rewrite E2. cbn [obind].
  assert (Hsame : pkg_to_procs d2 !! ISOLATED_MAGIC = pkg_to_procs d1 !! ISOLATED_MAGIC).
  { eapply ls_remove_pkgs_isolated; [|exact E2]. unfold pkgs_to_rm. intros [[Hne _] _]%list_elem_of_filter. done. }
  destruct (pkg_to_procs d2 !! ISOLATED_MAGIC) as [[a procs]|] eqn:Ep.
  - destruct (ls_remove_isolateds_ok w l d2 a procs Hv2 Hld2 Ep Hnd) as (d3 & -> & Hv3).
    + intros x Hx. by eapply Hl.
    + intros i s v Hs Hvs. by eapply views_not_isolated.
    + cbn [obind]. eauto.
  - cbn [obind]. eauto.
Qed.

Lemma match_views_ok w f d i s : views_ok w d -> app_id_to_pkgs d !! i = Some s ->
  exists b, match_views f d (elements s) = Ret b /\
    (b = true <-> exists v a procs, v ∈ s /\ pkg_to_procs d !! v.1 = Some (a, procs) /\ f v procs = true).
Proof.
  intros Hv Hs. assert (Hl : forall v, v ∈ elements s -> live d v = true).
  { intros v Hvs%elem_of_elements. by apply (views_live w d Hv i s). }
  assert (Hgen : exists b, match_views f d (elements s) = Ret b /\
    (b = true <-> exists v a procs, v ∈ elements s /\ pkg_to_procs d !! v.1 = Some (a, procs) /\ f v procs = true)).
  { induction (elements s) as [|v l IH]; cbn [match_views].
    - exists false. split; [done|]. split; [done|]. intros (v & a & p & Hin & _). by apply not_elem_of_nil in Hin.
    - pose proof (Hl v ltac:(set_solver)) as Hlv. rewrite Hlv. unfold live in Hlv.
      destruct (pkg_to_procs d !! v.1) as [[a procs]|] eqn:Ep; [|done]. destruct (f v procs) eqn:Ef.
      + exists true. split; [done|]. split; [|done]. intros _. exists v, a, procs. set_solver.
      + destruct IH as (b & Eb & Hb); [intros; apply Hl; set_solver|]. exists b. split; [done|]. rewrite Hb. split.
        * intros (u & a' & p & Hin & ?). exists u, a', p. set_solver.
        * intros (u & a' & p & [->|Hin]%elem_of_cons & Hp' & Hf'); [congruence|eauto 10]. }
  destruct Hgen as (b & Eb & Hb). exists b. split; [done|]. rewrite Hb.
  split; intros (v & a & p & Hin & ?); exists v, a, p; (split; [by apply elem_of_elements|done]).
Qed.

Lemma is_deny_target_safe w manager uid process max_len d : world_ok w -> views_ok w d ->
  exists d' r, is_deny_target w manager uid process max_len d = Ret (d', r) /\ views_ok w d'.
Proof.
  intros Hw Hv. unfold is_deny_target. destruct (ensure_ok w manager d Hw Hv) as (d1 & b & -> & Hv1 & Hld1 & _). cbn [obind].
  destruct b; cbn [negb]; [|by exists d1, false]. specialize (Hld1 eq_refl).
  assert (Hre : exists d2, (if skip_rescan d1 then Ret d1 else rescan_apps w manager (set_skip true d1)) = Ret d2 /\ views_ok w d2).
  { destruct (skip_rescan d1); [eauto|].
    destruct (rescan_ok w manager (set_skip true d1) Hw) as (d2 & E2 & Hv2 & _); [|done|eauto].
    by eapply views_mono; [exact Hv1|..]. }
  destruct Hre as (d2 & -> & Hv2). cbn [obind]. destruct (_ =? _); [eauto|]. destruct (90000 <=? _).
  { destruct (pkg_to_procs d2 !! ISOLATED_MAGIC) as [[a procs]|]; eauto. }
  destruct (app_id_to_pkgs d2 !! to_app_id uid) as [s|] eqn:Es; [|eauto].
  destruct (match_views_ok w (fun _ procs => bool_decide (process ∈ procs)) d2 _ s Hv2 Es) as (b1 & -> & _). cbn [obind].
  destruct b1; [eauto|].
  destruct (match_views_ok w (fun v _ => long_prefix max_len v.1 process || bool_decide (v.1 = process)) d2 _ s Hv2 Es) as (b2 & -> & _).
  cbn [obind]. eauto.
Qed.

(** A question about a loaded list leaves it loaded. *)
Lemma is_deny_target_loaded w manager uid process max_len d d' r : world_ok w -> views_ok w d -> loaded d = true ->
  is_deny_target w manager uid process max_len d = Ret (d', r) -> loaded d' = true.
Proof.
  intros Hw Hv Hld. unfold is_deny_target, ensure_data. rewrite Hld. cbn [obind negb]. intros E.
  apply bind_Ret_inv in E as (d2 & E2 & E).
  assert (Hld2 : loaded d2 = true).
  { destruct (skip_rescan d); [by injection E2 as <-|].
    destruct (rescan_ok w manager (set_skip true d) Hw) as (d3 & E3 & _ & Hk & _); [by eapply views_mono; [exact Hv|..]|done|].
    rewrite E3 in E2. injection E2 as <-. apply Hk. }
  destruct (_ =? _); [by injection E as <- _|]. destruct (90000 <=? _).
  { destruct (pkg_to_procs d2 !! ISOLATED_MAGIC) as [[? ?]|]; by injection E as <- _. }
  destruct (app_id_to_pkgs d2 !! _); [|by injection E as <- _]. apply bind_Ret_inv in E as (b1 & _ & E).
  destruct b1; [by injection E as <- _|]. apply bind_Ret_inv in E as (b2 & _ & E). by injection E as <- _.
Qed.

Lemma is_uid_on_list_safe w uid d : views_ok w d -> loaded d = true -> exists b, is_uid_on_list uid d = Ret b.
Proof.
  intros Hv Hld. unfold is_uid_on_list. rewrite Hld. cbn [negb]. destruct (app_id_to_pkgs d !! _) as [s|] eqn:Es; [|eauto].
  destruct (match_views_ok w (fun _ procs => 0 <? Z.of_nat (size procs)) d _ s Hv Es) as (b & -> & _). eauto.
Qed.

(** C31: while the installed applications stay as they are, the deny list never reads a
    string view into an erased key.  Adding, removing, listing and asking for a target
    ([add_list], [rm_list], [ls_list], [is_deny_target]) return on every input, whatever the
    database answers, and leave every view pointing into a key of the map; so do the scan of
    the installed applications and the question for an application ([scan_deny_apps],
    [is_uid_on_list]) on a list that is loaded, while on one that is not they use a null
    pointer. *)
Theorem deny_ops_safe w manager d : world_ok w -> views_ok w d ->
  (forall pkg proc, exists d' r, add_list w manager pkg proc d = Ret (d', r) /\ views_ok w d') /\
  (forall pkg proc, exists d' r, rm_list w manager pkg proc d = Ret (d', r) /\ views_ok w d') /\
  (exists d' r, ls_list w manager d = Ret (d', r) /\ views_ok w d') /\
  (forall uid process max_len, exists d' r,
     is_deny_target w manager uid process max_len d = Ret (d', r) /\ views_ok w d') /\
  (if loaded d
   then (exists d', scan_deny_apps w manager d = Ret d' /\ views_ok w d' /\ loaded d' = true) /\
        (forall uid, exists b, is_uid_on_list uid d = Ret b)
   else scan_deny_apps w manager d = Fault /\ forall uid, is_uid_on_list uid d = Fault).
Proof.
  intros Hw Hv. split_and!; intros; [|by apply rm_list_safe|by apply ls_list_safe|by apply is_deny_target_safe|].
  - destruct (add_list_safe w manager pkg proc d Hw Hv) as (d' & r & E & Hv' & _). eauto.
  - destruct (loaded d) eqn:Hld.
    + destruct (rescan_ok w manager d Hw Hv Hld) as (d' & E & Hv' & Hk & _). split; [|intros; by eapply is_uid_on_list_safe].
      exists d'. split_and!; [done..|]. apply Hk.
    + unfold scan_deny_apps, rescan_apps, is_uid_on_list. by rewrite Hld.
Qed.

Lemma add_hide_set_keeps m n pkg q d a p : pkg_to_procs d !! pkg = Some (a, p) -> q ∈ p ->
  exists a' p', pkg_to_procs (add_hide_set m n d).1 !! pkg = Some (a', p') /\ q ∈ p'.
Proof.
  intros Hp Hq. unfold add_hide_set. destruct (default _ _) as [a0 p0] eqn:E0. case_bool_decide; cbn [fst]; [eauto|].
  assert (Hm : exists a1 p1, (<[m := (a0, {[n]} ∪ p0)]> (pkg_to_procs d)) !! pkg = Some (a1, p1) /\ q ∈ p1).
  { destruct (decide (m = pkg)) as [->|]; [|rewrite lookup_insert_ne by done; eauto].
    rewrite lookup_insert_eq. eexists _, _. split; [reflexivity|]. rewrite Hp in E0. injection E0 as <- <-. set_solver. }
  by destruct (enforced d).
Qed.

(** After a process of an installed application was added, the application is a
    target under that process name, whether or not the packages are scanned again. *)
Theorem add_list_targets w manager pkg proc d d' uid max_len : world_ok w -> views_ok w d ->
  add_list w manager pkg proc d = Ret (d', D_OK) ->
  app_of w pkg = Some (to_app_id uid) -> 0 <= to_app_id uid < 90000 ->
  exists d'', is_deny_target w manager uid (match proc with [] => pkg | _ => proc end) max_len d' = Ret (d'', true).
Proof.
  intros Hw Hv Ea Happ Hid. destruct (add_list_safe w manager pkg proc d Hw Hv) as (d1 & r & E1 & Hv1 & Hl).
  rewrite Ea in E1. injection E1 as <- <-. destruct (Hl eq_refl) as (Hld & (a & procs & Hp & Hq) & Hview).
  fold (the_proc pkg proc). set (q := the_proc pkg proc) in *.
  unfold is_deny_target, ensure_data. rewrite Hld. cbn [obind negb].
  assert (Hre : exists d2, (if skip_rescan d' then Ret d' else rescan_apps w manager (set_skip true d')) = Ret d2 /\ views_ok w d2 /\
    (exists a procs, pkg_to_procs d2 !! pkg = Some (a, procs) /\ q ∈ procs) /\
    exists s a, app_id_to_pkgs d2 !! to_app_id uid = Some s /\ (pkg, a) ∈ s).
  { destruct (skip_rescan d'); [exists d'; split_and!; eauto|].
    destruct (rescan_ok w manager (set_skip true d') Hw) as (d2 & E2 & Hv2 & _ & Hp2 & Hall);
      [by eapply views_mono; [exact Hv1|..]|done|].
    assert (Hin : exists a procs, pkg_to_procs d2 !! pkg = Some (a, procs) /\ q ∈ procs).
    { rewrite Hp2. cbn [sulist set_skip]. destruct (sulist d'); [|eauto].
      by eapply add_hide_set_keeps. }
    exists d2. split_and!; [done..|]. destruct Hin as (a2 & p2 & Hp2' & _). apply (Hall pkg); [by eexists|done]. }
  destruct Hre as (d2 & -> & Hv2 & (a2 & p2 & Hp2 & Hq2) & s & a' & Hs & Ha'). cbn [obind].
  unfold get_manager. rewrite (proj2 (Z.eqb_neq _ _)) by lia. rewrite (proj2 (Z.leb_gt _ _)) by lia. rewrite Hs.
  destruct (match_views_ok w (fun _ procs => bool_decide (q ∈ procs)) d2 _ s Hv2 Hs) as (b1 & -> & Hb). cbn [obind].
  rewrite (proj2 Hb); [eauto|]. exists (pkg, a'), a2, p2. split_and!; [done..|]. by apply bool_decide_eq_true.
Qed.
End views.

(** ** The list and the database *)

(** What statements do to the table when the names they quote have no quotes and the
    text fits the buffer. *)
Definition quotable (sql : bytes) (names : list bytes) : Prop := Forall (fun n => x27 ∉ n) names /\ zlen sql < 4095.
Class DenyDbLaws (D : Type) `{DenyDb D} : Prop := {
  rows_insert : forall b b' sul p q rows, quotable (sql_insert sul p q) [p; q] ->
    db_exec b (sql_insert sul p q) = (b', true) -> db_rows b sul = Some rows ->
    exists rows', db_rows b' sul = Some rows' /\ forall x, x ∈ rows' <-> x = (p, q) \/ x ∈ rows;
  rows_delete : forall b b' sul p q rows, quotable (sql_delete sul p q) [p; q] ->
    db_exec b (sql_delete sul p q) = (b', true) -> db_rows b sul = Some rows ->
    exists rows', db_rows b' sul = Some rows' /\ forall x, x ∈ rows' <-> x <> (p, q) /\ x ∈ rows;
  rows_delete_pkg : forall b b' sul p rows, quotable (sql_delete_pkg sul p) [p] ->
    db_exec b (sql_delete_pkg sul p) = (b', true) -> db_rows b sul = Some rows ->
    exists rows', db_rows b' sul = Some rows' /\ forall x, x ∈ rows' <-> x.1 <> p /\ x ∈ rows }.

Section persistence.
Context {D : Type} `{DenyDbLaws D}.
Implicit Types (d : deny D) (w : world).

Definition on_list d (p q : bytes) : Prop := exists a procs, pkg_to_procs d !! p = Some (a, procs) /\ q ∈ procs.

(** The map and the rows of the table are the same list. *)
Definition agree d : Prop :=
  loaded d = true /\ exists rows, db_rows (database d) (sulist d) = Some rows /\
    forall p q, (p, q) ∈ rows <-> on_list d p q.

Lemma update_pkg_uid_frame w v r d d' : update_pkg_uid w v r d = Ret d' ->
  pkg_to_procs d' = pkg_to_procs d /\ sulist d' = sulist d /\ database d' = database d /\ loaded d' = loaded d.
Proof.
  unfold update_pkg_uid. destruct (w ≫= first_uid v.1); [|by intros [= <-]]. destruct r.
  - destruct (app_id_to_pkgs d !! _); [|by intros [= <-]]. destruct (all_live _ _); [|done]. by intros [= <-].
  - intros (s & -> & _)%insert_view_inv. done.
Qed.

Lemma add_hide_set_mem pkg proc d d' : add_hide_set pkg proc d = (d', true) ->
  forall p q, on_list d' p q <-> (p = pkg /\ q = proc) \/ on_list d p q.
Proof.
  intros E p q. unfold add_hide_set in E. destruct (default _ _) as [a0 p0] eqn:E0. case_bool_decide; [done|].
  injection E as <-. unfold on_list.
  assert (Hm : forall e, pkg_to_procs e = <[pkg := (a0, {[proc]} ∪ p0)]> (pkg_to_procs d) ->
    ((exists a procs, pkg_to_procs (D := D) e !! p = Some (a, procs) /\ q ∈ procs) <->
     (p = pkg /\ q = proc) \/ exists a procs, pkg_to_procs d !! p = Some (a, procs) /\ q ∈ procs)).
  { intros e ->. destruct (decide (pkg = p)) as [->|Hne].
    - rewrite lookup_insert_eq. split.
      + intros (a & procs & [= <- <-] & Hq). destruct (decide (q = proc)) as [->|]; [by left|right].
        destruct (pkg_to_procs d !! p) as [[a1 p1]|]; injection E0 as <- <-; [|set_solver]. eexists _, _. split; [reflexivity|]. set_solver.
      + intros [[_ ->]|(a & procs & Hp & Hq)]; eexists _, _; (split; [reflexivity|]); [set_solver|].
        rewrite Hp in E0. injection E0 as <- <-. set_solver.
    - rewrite lookup_insert_ne by done. naive_solver. }
  destruct (enforced d); by apply Hm.
Qed.

Lemma agree_add w manager pkg proc d d' : agree d ->
  quotable (sql_insert (sulist d) pkg (the_proc pkg proc)) [pkg; the_proc pkg proc] ->
  add_list w manager pkg proc d = Ret (d', D_OK) -> agree d'.
Proof.
  intros (Hld & rows & Hr & Ha) Hq E. unfold add_list in E. fold (the_proc pkg proc) in E. set (q := the_proc pkg proc) in *.
  destruct (negb (validate pkg q)); [done|]. unfold ensure_data in E. rewrite Hld in E. cbn [obind negb] in E.
  destruct (add_hide_set_frame pkg q d) as (_ & Hld1 & Hs1 & _ & _ & Hdb1).
  destruct (add_hide_set pkg q d) as [d1 added] eqn:E1. cbn [fst] in *. destruct added; [|done]. cbn [negb] in E.
  destruct (pkg_to_procs d1 !! pkg) as [[a procs]|]; [|done]. apply bind_Ret_inv in E as (d2 & E2 & E).
  apply update_pkg_uid_frame in E2 as (Hp2 & Hs2 & Hdb2 & Hld2). unfold exec in E.
  rewrite Hdb2, Hdb1, Hs2, Hs1 in E. destruct (db_exec (database d) _) as [b ok] eqn:Ex. destruct ok; [|done]. injection E as <-.
  destruct (rows_insert _ _ _ _ _ _ Hq Ex Hr) as (rows' & Hr' & Hin). split; [cbn; congruence|]. exists rows'. cbn.
  split; [by rewrite Hs2, Hs1|]. intros p' q'. rewrite Hin, Ha. unfold on_list. cbn. rewrite Hp2.
  rewrite (add_hide_set_mem pkg q d d1 E1 p' q'). unfold on_list. naive_solver.
Qed.

Lemma agree_rm w manager pkg proc d d' : agree d ->
  match proc with [] => quotable (sql_delete_pkg (sulist d) pkg) [pkg]
                | _ => quotable (sql_delete (sulist d) pkg proc) [pkg; proc] end ->
  rm_list w manager pkg proc d = Ret (d', D_OK) -> agree d'.
Proof.
  intros (Hld & rows & Hr & Ha) Hq E. unfold rm_list in E. unfold ensure_data in E. rewrite Hld in E. cbn [obind negb] in E.
  apply bind_Ret_inv in E as ([d1 removed] & E1 & E). destruct removed; [|done]. cbn [negb] in E.
  destruct (pkg_to_procs d !! pkg) as [[a procs]|] eqn:Ep; [|done].
  assert (Hd1 : sulist d1 = sulist d /\ database d1 = database d /\ loaded d1 = true /\
    forall p q, on_list d1 p q <-> (match proc with [] => p <> pkg | _ => (p, q) <> (pkg, proc) end) /\ on_list d p q).
  { unfold on_list. destruct proc as [|c proc].
    - apply bind_Ret_inv in E1 as (d2 & E2 & E1). injection E1 as <-. apply update_pkg_uid_frame in E2 as (Hp2 & Hs2 & Hdb2 & Hld2).
      cbn. split_and!; [done|done|congruence|]. intros p q. rewrite Hp2. destruct (decide (p = pkg)) as [->|].
      + rewrite lookup_delete_eq. naive_solver.
      + rewrite lookup_delete_ne by done. naive_solver.
    - case_bool_decide; [|done]. case_bool_decide as He.
      + apply bind_Ret_inv in E1 as (d2 & E2 & E1). injection E1 as <-. apply update_pkg_uid_frame in E2 as (Hp2 & Hs2 & Hdb2 & Hld2).
        cbn in *. split_and!; [done|done|congruence|]. intros p q. rewrite Hp2. destruct (decide (p = pkg)) as [->|].
        * rewrite lookup_delete_eq. split; [by intros (? & ? & ? & ?)|]. intros [Hne (a' & procs' & Hp' & Hq')].
          rewrite Ep in Hp'. injection Hp' as <- <-. destruct (decide (q = c :: proc)) as [->|]; [done|].
          assert (q ∈ procs ∖ {[c :: proc]}) by set_solver. rewrite He in *. set_solver.
        * rewrite lookup_delete_ne, lookup_insert_ne by done. naive_solver.
      + injection E1 as <-. cbn. split_and!; [done|done|done|]. intros p q. destruct (decide (p = pkg)) as [->|].
        * rewrite lookup_insert_eq, Ep. split.
          -- intros (a' & procs' & [= <- <-] & Hq'). split; [set_solver|]. eexists _, _. split; [done|set_solver].
          -- intros [Hne (a' & procs' & [= <- <-] & Hq')]. eexists _, _. split; [done|]. set_solver.
        * rewrite lookup_insert_ne by done. naive_solver. }
  destruct Hd1 as (Hs1 & Hdb1 & Hld1 & Hm1). unfold exec in E. rewrite Hdb1, Hs1 in E.
  destruct (db_exec (database d) _) as [b ok] eqn:Ex. destruct ok; [|done]. injection E as <-. split; [done|]. cbn.
  change (on_list (set_db b d1)) with (on_list d1). destruct proc as [|c proc].
  - destruct (rows_delete_pkg _ _ _ _ _ Hq Ex Hr) as (rows' & Hr' & Hin). exists rows'. split; [by rewrite Hs1|].
    intros p q. by rewrite Hin, Ha, Hm1.
  - destruct (rows_delete _ _ _ _ _ _ Hq Ex Hr) as (rows' & Hr' & Hin). exists rows'. split; [by rewrite Hs1|].
    intros p q. by rewrite Hin, Ha, Hm1.
Qed.

(** C32: the list in memory and the table in the database stay the same list.  Let the list
    be loaded and be the same in memory and in the table (the sulist entries that are kept
    in memory only are not in this situation); then an addition or removal that reports
    success made the same change to both, provided the names have no quote (the check of the
    names lets quotes through in the part of an isolated process after the colon) and the
    statement fits its buffer. *)
Theorem list_persistent w manager pkg proc d d' : agree d ->
  (quotable (sql_insert (sulist d) pkg (the_proc pkg proc)) [pkg; the_proc pkg proc] ->
   add_list w manager pkg proc d = Ret (d', D_OK) -> agree d') /\
  (match proc with [] => quotable (sql_delete_pkg (sulist d) pkg) [pkg]
                 | _ => quotable (sql_delete (sulist d) pkg proc) [pkg; proc] end ->
   rm_list w manager pkg proc d = Ret (d', D_OK) -> agree d').
Proof. intros Ha. split; [by apply agree_add|by apply agree_rm]. Qed.
End persistence.

(** ** A database of two lists *)

(** Statements are read by cutting them at the quotes. *)
Fixpoint cut_quotes (cur s : bytes) : list bytes :=
  match s with
  | [] => [cur]
  | c :: s => if Byte.eqb c x27 then cur :: cut_quotes [] s else cut_quotes (cur ++ [c]) s
  end.

Definition two_lists : Type := list (bytes * bytes) * list (bytes * bytes).
Definition rows_of (b : two_lists) (sul : bool) : list (bytes * bytes) := if sul then b.2 else b.1.
Definition set_rows (b : two_lists) (sul : bool) (rows : list (bytes * bytes)) : two_lists := if sul then (b.1, rows) else (rows, b.2).
Definition insert_head (sul : bool) : bytes := bs "INSERT INTO " ++ table_name sul ++ bs " (package_name, process) VALUES(".
Definition delete_head (sul : bool) : bytes := bs "DELETE FROM " ++ table_name sul ++ bs " WHERE package_name=".

Definition run_sql (b : two_lists) (sul : bool) (parts : list bytes) : option two_lists :=
  match parts with
  | [h; p; m; q; t] =>
    if bool_decide (h = insert_head sul /\ m = bs ", " /\ t = bs ")") then Some (set_rows b sul ((p, q) :: rows_of b sul))
    else if bool_decide (h = delete_head sul /\ m = bs " AND process=" /\ t = [])
    then Some (set_rows b sul (filter (fun x => x <> (p, q)) (rows_of b sul)))
    else None
  | [h; p; t] =>
    if bool_decide (h = delete_head sul /\ t = []) then Some (set_rows b sul (filter (fun x => x.1 <> p) (rows_of b sul))) else None
  | _ => None
  end.

#[global] Instance lists_db : DenyDb two_lists := {|
  db_exec b sql :=
    match run_sql b false (cut_quotes [] sql) with
    | Some b => (b, true)
    | None => match run_sql b true (cut_quotes [] sql) with Some b => (b, true) | None => (b, false) end
    end;
  db_rows b sul := Some (rows_of b sul) |}.

Lemma cut_quotes_app a cur s : x27 ∉ a -> cut_quotes cur (a ++ x27 :: s) = (cur ++ a) :: cut_quotes [] s.
Proof.
  revert cur. induction a as [|c a IH]; intros cur Hn; cbn.
  - by rewrite app_nil_r.
  - destruct (Byte.eqb c x27) eqn:E; [apply Byte.byte_dec_bl in E; set_solver|].
    rewrite IH by set_solver. by rewrite <- app_assoc.
Qed.
Lemma cut_quotes_end a cur : x27 ∉ a -> cut_quotes cur a = [cur ++ a].
Proof.
  revert cur. induction a as [|c a IH]; intros cur Hn; cbn.
  - by rewrite app_nil_r.
  - destruct (Byte.eqb c x27) eqn:E; [apply Byte.byte_dec_bl in E; set_solver|].
    rewrite IH by set_solver. by rewrite <- app_assoc.
Qed.

Lemma sql_text_id s : zlen (sql_text s) < 4095 -> sql_text s = s.
Proof. unfold sql_text, zlen. intros Hl. rewrite length_take in Hl. apply take_ge. lia. Qed.

Ltac no_quote := apply (bool_decide_unpack (x27 ∉ _)); vm_compute; exact I.

Lemma cut_insert sul p q : quotable (sql_insert sul p q) [p; q] ->
  cut_quotes [] (sql_insert sul p q) = [insert_head sul; p; bs ", "; q; bs ")"].
Proof.
  intros [Hq Hl]. apply Forall_cons in Hq as [Hp [Hq _]%Forall_cons]. unfold sql_insert in *. rewrite sql_text_id by done.
  transitivity (cut_quotes [] (insert_head sul ++ x27 :: p ++ x27 :: bs ", " ++ x27 :: q ++ x27 :: bs ")")).
  { f_equal. unfold insert_head. destruct sul; cbn; by rewrite <- ?app_assoc. }
  rewrite cut_quotes_app by (destruct sul; no_quote). rewrite cut_quotes_app, cut_quotes_app by (done || no_quote).
  rewrite cut_quotes_app by done. by rewrite cut_quotes_end by no_quote.
Qed.

Lemma cut_delete sul p q : quotable (sql_delete sul p q) [p; q] ->
  cut_quotes [] (sql_delete sul p q) = [delete_head sul; p; bs " AND process="; q; []].
Proof.
  intros [Hq Hl]. apply Forall_cons in Hq as [Hp [Hq _]%Forall_cons]. unfold sql_delete in *. rewrite sql_text_id by done.
  transitivity (cut_quotes [] (delete_head sul ++ x27 :: p ++ x27 :: bs " AND process=" ++ x27 :: q ++ x27 :: [])).
  { f_equal. unfold delete_head. destruct sul; cbn; by rewrite <- ?app_assoc. }
  rewrite cut_quotes_app by (destruct sul; no_quote). rewrite cut_quotes_app, cut_quotes_app by (done || no_quote).
  by rewrite cut_quotes_app by done.
Qed.

Lemma cut_delete_pkg sul p : quotable (sql_delete_pkg sul p) [p] ->
  cut_quotes [] (sql_delete_pkg sul p) = [delete_head sul; p; []].
Proof.
  intros [Hq Hl]. apply Forall_cons in Hq as [Hp _]. unfold sql_delete_pkg in *. rewrite sql_text_id by done.
  transitivity (cut_quotes [] (delete_head sul ++ x27 :: p ++ x27 :: [])).
  { f_equal. unfold delete_head. destruct sul; cbn; by rewrite <- ?app_assoc. }
  rewrite cut_quotes_app by (destruct sul; no_quote). by rewrite cut_quotes_app by done.
Qed.

Lemma rows_set b sul rows : rows_of (set_rows b sul rows) sul = rows.
Proof. by destruct sul. Qed.

Lemma heads_differ sul : insert_head true <> insert_head false /\ delete_head true <> delete_head false /\
  delete_head sul <> insert_head false /\ delete_head sul <> insert_head true /\
  insert_head sul <> delete_head false /\ insert_head sul <> delete_head true.
Proof. destruct sul; vm_compute; split_and!; discriminate. Qed.

Ltac run_sql := unfold db_exec, lists_db, run_sql;
  repeat first [rewrite bool_decide_eq_true_2 by (split_and!; reflexivity) | rewrite bool_decide_eq_false_2 by naive_solver]; reflexivity.

Lemma exec_insert b sul p q : quotable (sql_insert sul p q) [p; q] ->
  db_exec b (sql_insert sul p q) = (set_rows b sul ((p, q) :: rows_of b sul), true).
Proof.
  intros Hq. destruct (heads_differ sul) as (Ha & Hb & Hc & Hd & He & Hf).
  unfold db_exec, lists_db. rewrite (cut_insert sul p q Hq). destruct sul; run_sql.
Qed.
Lemma exec_delete b sul p q : quotable (sql_delete sul p q) [p; q] ->
  db_exec b (sql_delete sul p q) = (set_rows b sul (filter (fun x => x <> (p, q)) (rows_of b sul)), true).
Proof.
  intros Hq. destruct (heads_differ sul) as (Ha & Hb & Hc & Hd & He & Hf).
  unfold db_exec, lists_db. rewrite (cut_delete sul p q Hq). destruct sul; run_sql.
Qed.
Lemma exec_delete_pkg b sul p : quotable (sql_delete_pkg sul p) [p] ->
  db_exec b (sql_delete_pkg sul p) = (set_rows b sul (filter (fun x => x.1 <> p) (rows_of b sul)), true).
Proof.
  intros Hq. destruct (heads_differ sul) as (Ha & Hb & Hc & Hd & He & Hf).
  unfold db_exec, lists_db. rewrite (cut_delete_pkg sul p Hq). destruct sul; run_sql.
Qed.

#[global] Instance lists_db_laws : DenyDbLaws two_lists.
Proof.
  split.
  - intros b b' sul p q rows Hq Hx [= <-]. rewrite exec_insert in Hx by done. injection Hx as <-. cbn [db_rows lists_db].
    rewrite rows_set. eexists. split; [reflexivity|]. intros x. by rewrite elem_of_cons.
  - intros b b' sul p q rows Hq Hx [= <-]. rewrite exec_delete in Hx by done. injection Hx as <-. cbn [db_rows lists_db].
    rewrite rows_set. eexists. split; [reflexivity|]. intros x. by rewrite list_elem_of_filter.
  - intros b b' sul p rows Hq Hx [= <-]. rewrite exec_delete_pkg in Hx by done. injection Hx as <-. cbn [db_rows lists_db].
    rewrite rows_set. eexists. split; [reflexivity|]. intros x. by rewrite list_elem_of_filter.
Qed.

(** ** A history *)

Definition world0 : world := Some [(bs "0", [(bs "com.app", 10100)])].
Definition deny0 : deny two_lists := Deny ∅ ∅ false 0 false false false [] ([], []).

Lemma world0_ok : world_ok world0.
Proof.
  split; [|reflexivity]. intros users u e [= <-] Hu He. apply list_elem_of_singleton in Hu as ->.
  apply list_elem_of_singleton in He as ->. reflexivity.
Qed.
Lemma deny0_ok w : views_ok w deny0.
Proof. split; [|done]. intros i s v Hs. cbn in Hs. by rewrite lookup_empty in Hs. Qed.

Lemma deny_ops_safe_witness : exists d' r,
  ls_list world0 JAVA_PACKAGE_NAME deny0 = Ret (d', r) /\ views_ok world0 d'.
Proof.
  destruct (deny_ops_safe world0 JAVA_PACKAGE_NAME deny0 world0_ok (deny0_ok world0)) as (_ & _ & Hl & _). exact Hl.
Defined.

Lemma app_added : exists x, add_list world0 JAVA_PACKAGE_NAME (bs "com.app") (bs "com.app:x") deny0 = Ret x /\ (x.2 =? D_OK) = true.
Proof. apply Ret_check. vm_compute. reflexivity. Qed.

Lemma add_list_targets_witness : exists d d', add_list world0 JAVA_PACKAGE_NAME (bs "com.app") (bs "com.app:x") deny0 = Ret (d, D_OK) /\
  is_deny_target world0 JAVA_PACKAGE_NAME 10100 (bs "com.app:x") 95 d = Ret (d', true).
Proof.
  destruct app_added as ([d r] & E & Hr%Z.eqb_eq). cbn in Hr. subst r.
  destruct (add_list_targets world0 JAVA_PACKAGE_NAME (bs "com.app") (bs "com.app:x") deny0 d 10100 95
    world0_ok (deny0_ok world0) E eq_refl ltac:(vm_compute; split; [discriminate|reflexivity])) as [d' E'].
  exists d, d'. split; [exact E|exact E'].
Defined.

(** The list was read from an empty table. *)
Definition deny_loaded : deny two_lists := Deny ∅ ∅ true 0 false false true [] ([], []).
Lemma loaded_agree : agree deny_loaded.
Proof.
  split; [reflexivity|]. exists []. split; [reflexivity|]. intros p q. split; [by intros ?%not_elem_of_nil|].
  intros (a & procs & Hp & _). cbn in Hp. by rewrite lookup_empty in Hp.
Qed.

Lemma list_persistent_witness : exists d, add_list world0 JAVA_PACKAGE_NAME (bs "com.app") (bs "com.app:x") deny_loaded = Ret (d, D_OK) /\ agree d.
Proof.
  assert (Hc : exists x, add_list world0 JAVA_PACKAGE_NAME (bs "com.app") (bs "com.app:x") deny_loaded = Ret x /\ (x.2 =? D_OK) = true)
    by (apply Ret_check; vm_compute; reflexivity).
  destruct Hc as ([d r] & E & Hr%Z.eqb_eq). cbn in Hr. subst r. exists d. split; [exact E|].
  destruct (list_persistent world0 JAVA_PACKAGE_NAME (bs "com.app") (bs "com.app:x") deny_loaded d loaded_agree) as [Ha _].
  apply Ha; [|exact E]. split; [|vm_compute; reflexivity].
  apply (bool_decide_unpack _). vm_compute. exact I.
Defined.

(** A package that is removed from the list after it was uninstalled leaves its view
    behind.  [rm_list] looks for the application id in the data directories, finds none,
    and erases the key: the next question about that application id (which Android gives
    to the next application it installs) reads freed memory. *)
Theorem uninstalled_view_dangles :
  let gone : world := Some [(bs "0", [])] in
  exists d, (let! (d, _) := add_list world0 JAVA_PACKAGE_NAME (bs "com.app") [] deny0 in
             let! (d, _) := is_deny_target world0 JAVA_PACKAGE_NAME 10100 (bs "com.app") 95 d in
             rm_list gone JAVA_PACKAGE_NAME (bs "com.app") [] d) = Ret (d, D_OK) /\
    is_deny_target gone JAVA_PACKAGE_NAME 10100 (bs "com.other") 95 d = Fault.
Proof.
  cbv zeta.
  match goal with |- exists d, ?m = Ret (d, D_OK) /\ _ => assert (Hc : exists x, m = Ret x /\
    (x.2 =? D_OK) && match is_deny_target (Some [(bs "0", [])]) JAVA_PACKAGE_NAME 10100 (bs "com.other") 95 x.1 with Fault => true | _ => false end = true) end.
  { apply Ret_check. vm_compute. reflexivity. }
  destruct Hc as ([d r] & E & Hr). cbn [fst snd] in Hr. apply andb_true_iff in Hr as [->%Z.eqb_eq Hf]. exists d. split; [exact E|].
  destruct (is_deny_target _ _ _ _ _ d); done.
Qed.

(** ** The protocol *)

(** The loop of the command line tool that prints the list. *)
Fixpoint cli_read_list (fuel : nat) (s : bytes) : outcome (list bytes) :=
  match fuel with
  | O => Loop
  | S fuel =>
    let! (out, _, s) := read_string s in
    match out with
    | [] => Ret []
    | _ => let! l := cli_read_list fuel s in Ret (out :: l)
    end
  end.

Lemma cli_read_S fuel s : cli_read_list (S fuel) s =
  let! (out, _, s) := read_string s in
  match out with [] => Ret [] | _ => let! l := cli_read_list fuel s in Ret (out :: l) end.
Proof. reflexivity. Qed.

Lemma cli_read_items l : Forall (fun i => zlen (i.1 ++ bs "|" ++ i.2) < 2 ^ 31) l ->
  cli_read_list (S (length l)) (concat (map (fun i => list_item i.1 i.2) l) ++ write_int 0) =
  Ret (map (fun i => i.1 ++ bs "|" ++ i.2) l).
Proof.
  induction 1 as [|[p q] l Hi Hl IH]; [reflexivity|].
  cbn [length map concat]. unfold list_item. cbn [fst snd] in *.
  rewrite cli_read_S, <- app_assoc, read_string_write by done. cbn [obind].
  destruct (p ++ bs "|" ++ q) as [|c r] eqn:E; [by destruct p|]. unfold list_item in IH. rewrite IH. reflexivity.
Qed.

Lemma add_list_codes {D} `{DenyDb D} w manager pkg proc (d d' : deny D) r : add_list w manager pkg proc d = Ret (d', r) ->
  r ∈ [D_OK; ITEM_EXIST; INVALID_PKG; D_ERROR].
Proof.
  unfold add_list. destruct (negb (validate _ _)); [intros [= _ <-]; set_solver|].
  intros ([d1 b] & _ & E)%bind_Ret_inv. destruct (negb b); [injection E as _ <-; set_solver|].
  destruct (add_hide_set _ _ _) as [d2 added]. destruct (negb added); [injection E as _ <-; set_solver|].
  destruct (pkg_to_procs d2 !! pkg) as [[a procs]|]; [|done]. apply bind_Ret_inv in E as (d3 & _ & E).
  destruct (exec _ _) as [d4 ok]. injection E as _ <-. destruct ok; set_solver.
Qed.

(** C33: the command line and the daemon agree.  An addition asked for with a package and a
    process reaches [add_list] with these names and exits with 0 exactly when it reports
    success; and the listing printed is the list after the cleaning up, one line per
    process, in order. *)
Theorem deny_protocol {D} `{DenyDb D} p w manager pkg proc (d : deny D) :
  cstr pkg = pkg -> cstr proc = proc -> zlen pkg < 2 ^ 31 -> zlen proc < 2 ^ 31 ->
  (exists req msg, cli_request [bs "add"; pkg; proc] = Some req /\ cli_send [bs "add"; pkg; proc] req = Ret msg /\
     forall d' r, add_list w manager pkg proc d = Ret (d', r) ->
       denylist_handler p w manager msg d = Ret (d', write_int r) /\
       (cli_status req (read_int (write_int r)).1 = 0 <-> r = D_OK)) /\
  (forall d' out, ls_list w manager d = Ret (d', out) -> (read_int out).1 = D_OK ->
     Forall (fun i => zlen (i.1 ++ bs "|" ++ i.2) < 2 ^ 31) (list_items d') ->
     cli_read_list (S (length (list_items d'))) (read_int out).2 = Ret (map (fun i => i.1 ++ bs "|" ++ i.2) (list_items d'))).
Proof.
  intros Hc1 Hc2 Hl1 Hl2. split.
  - exists ADD, (write_int ADD ++ write_string pkg ++ write_string proc).
    split; [reflexivity|]. split; [reflexivity|]. intros d' r E. split.
    + unfold denylist_handler. rewrite read_write_int by (unfold ADD; lia).
      change (ADD =? ENFORCE) with false. change (ADD =? DISABLE) with false. change (ADD =? ADD) with true. cbv iota.
      rewrite read_string_write by done. cbn [obind from_option]. unfold id.
      rewrite <- (app_nil_r (write_string proc)), read_string_write by done. cbn [obind].
      rewrite Hc1, Hc2, E. reflexivity.
    + apply add_list_codes in E.
      repeat (apply elem_of_cons in E as [->|E]; [vm_compute; split; intros; discriminate || reflexivity|]).
      by apply not_elem_of_nil in E.
  - intros d' out E Hok Hlen. unfold ls_list in E. apply bind_Ret_inv in E as ([d1 b] & E1 & E).
    destruct b; cbn [negb] in E; [|injection E as <- <-; vm_compute in Hok; discriminate Hok].
    apply bind_Ret_inv in E as (l & E2 & E). apply bind_Ret_inv in E as (d2 & E3 & E). apply bind_Ret_inv in E as (d3 & E4 & E).
    assert (Ep : (d3, write_int D_OK ++ concat (map (fun i => list_item i.1 i.2) (list_items d3)) ++ write_int 0) = (d', out)) by congruence.
    apply pair_equal_spec in Ep as [<- <-]. rewrite read_write_int by (unfold D_OK; lia). cbn [snd]. by apply cli_read_items.
Qed.

Lemma deny_protocol_witness : exists d msg,
  cli_send [bs "add"; bs "com.app"; bs "com.app:x"] ADD = Ret msg /\
  denylist_handler (Platform true true true 33) world0 JAVA_PACKAGE_NAME msg deny0 = Ret (d, write_int D_OK).
Proof.
  destruct (deny_protocol (Platform true true true 33) world0 JAVA_PACKAGE_NAME (bs "com.app") (bs "com.app:x") deny0
    eq_refl eq_refl ltac:(vm_compute; reflexivity) ltac:(vm_compute; reflexivity)) as [(req & msg & Hr & Hm & Hh) _].
  injection Hr as <-. destruct app_added as ([d r] & E & Hz%Z.eqb_eq). cbn in Hz. subst r.
  exists d, msg. split; [exact Hm|]. apply (Hh d D_OK E).
Defined.
