(* ===== verification/Sql.v ===== *)
(** The settings database: [native/src/core/sqlite.cpp].  SQLite is loaded at run
    time; its calls are the class [SqliteLib].  [exec_stmt] says what the few kinds of
    SQL statement the program uses mean, and the laws of SQLite say that the text of
    such a statement has that meaning. *)

From S2P Require Import Prelude Base.

(** ** The statements of the program and their meaning *)

Inductive value : Type :=
| NULL
| INTEGER (z : Z)
| TEXT (s : bytes).

#[global] Instance value_eq_dec : EqDecision value.
Proof. solve_decision. Defined.

Abbreviation row := (list value).

Inductive stmt : Type :=
| CreateTable (t : bytes) (cols : list (bytes * bytes)) (pk : list bytes)  (* IF NOT EXISTS; names and types *)
| RenameTable (t t' : bytes)
| InsertSelect (t : bytes) (what : option (list bytes)) (from : bytes)     (* [None] is the star *)
| DropTable (t : bytes)
| DropIfExists (t : bytes)
| DeleteKey (t k : bytes)                                                  (* WHERE key='k' *)
| ReplaceKey (t k : bytes) (v : Z)
| GetVersion
| SetVersion (v : Z)
| SelectAll (t : bytes)
| SelectKey (t k : bytes)
| BeginTransaction
| Commit.

#[global] Instance stmt_eq_dec : EqDecision stmt.
Proof. solve_decision. Defined.

Record table := Table { t_cols : list bytes; t_pk : list bytes; t_rows : list row }.

(** [txn] is what a rollback goes back to. *)
Record db := Db { tables : gmap bytes table; user_version : Z; txn : option (gmap bytes table * Z) }.

(** The value of a named column; [NULL] stands for a column that is not there, which
    [columns_in] excludes. *)
Fixpoint column (cols : list bytes) (r : row) (n : bytes) : value :=
  match cols, r with
  | c :: cols, v :: r => if bool_decide (c = n) then v else column cols r n
  | _, _ => NULL
  end.
Definition columns_in (cols names : list bytes) : bool := forallb (fun n => bool_decide (n ∈ cols)) names.
Definition project (cols names : list bytes) (r : row) : row := map (column cols r) names.

(** The primary keys of rows; a key with [NULL] in it is different from every other. *)
Definition no_null (r : row) : bool := bool_decide (NULL ∉ r).
Definition keys (cols pk : list bytes) (rows : list row) : list row :=
  filter (fun k => no_null k = true) (map (project cols pk) rows).
Definition unique (cols pk : list bytes) (rows : list row) : bool := bool_decide (NoDup (keys cols pk rows)).

Definition set_tables (m : gmap bytes table) (d : db) : db := Db m (user_version d) (txn d).

Definition KEY : bytes := bs "key".

(** The database after a statement and the rows it returns; [None] is an error, which
    leaves the database as it is. *)
Definition exec_stmt (s : stmt) (d : db) : option (db * list row) :=
  match s with
  | CreateTable t cols pk =>
    match tables d !! t with
    | Some _ => Some (d, [])
    | None => Some (set_tables (<[t := Table (map fst cols) pk []]> (tables d)) d, [])
    end
  | RenameTable t t' =>
    match tables d !! t, tables d !! t' with
    | Some x, None => Some (set_tables (<[t' := x]> (delete t (tables d))) d, [])
    | _, _ => None
    end
  | InsertSelect t what from =>
    match tables d !! t, tables d !! from with
    | Some x, Some y =>
      let names := default (t_cols y) what in
      let rows := t_rows x ++ map (project (t_cols y) names) (t_rows y) in
      if columns_in (t_cols y) names && (length names =? length (t_cols x))%nat && unique (t_cols x) (t_pk x) rows
      then Some (set_tables (<[t := Table (t_cols x) (t_pk x) rows]> (tables d)) d, [])
      else None
    | _, _ => None
    end
  | DropTable t => match tables d !! t with Some _ => Some (set_tables (delete t (tables d)) d, []) | None => None end
  | DropIfExists t => Some (set_tables (delete t (tables d)) d, [])
  | DeleteKey t k =>
    match tables d !! t with
    | Some x =>
      if columns_in (t_cols x) [KEY] then
        let rows := filter (fun r => column (t_cols x) r KEY <> TEXT k) (t_rows x) in
        Some (set_tables (<[t := Table (t_cols x) (t_pk x) rows]> (tables d)) d, [])
      else None
    | None => None
    end
  | ReplaceKey t k v =>
    match tables d !! t with
    | Some x =>
      if bool_decide (t_cols x = [KEY; bs "value"] /\ t_pk x = [KEY]) then
        let rows := filter (fun r => column (t_cols x) r KEY <> TEXT k) (t_rows x) ++ [[TEXT k; INTEGER v]] in
        Some (set_tables (<[t := Table (t_cols x) (t_pk x) rows]> (tables d)) d, [])
      else None
    | None => None
    end
  | GetVersion => Some (d, [[INTEGER (user_version d)]])
  | SetVersion v => Some (Db (tables d) v (txn d), [])
  | SelectAll t => x ← tables d !! t; Some (d, t_rows x)
  | SelectKey t k =>
    x ← tables d !! t;
    if columns_in (t_cols x) [KEY] then Some (d, filter (fun r => column (t_cols x) r KEY = TEXT k) (t_rows x)) else None
  | BeginTransaction =>
    match txn d with
    | Some _ => None
    | None => Some (Db (tables d) (user_version d) (Some (tables d, user_version d)), [])
    end
  | Commit => match txn d with Some _ => Some (Db (tables d) (user_version d) None, []) | None => None end
  end.

(** The columns of the answer of a query. *)
Definition answer_columns (s : stmt) (d : db) : list bytes :=
  match s with
  | GetVersion => [bs "user_version"]
  | SelectAll t | SelectKey t _ => from_option t_cols [] (tables d !! t)
  | _ => []
  end.

(** A script runs until its first error. *)
Fixpoint exec_script (l : list stmt) (d : db) : db * bool :=
  match l with
  | [] => (d, true)
  | s :: l => match exec_stmt s d with Some (d', _) => exec_script l d' | None => (d, false) end
  end.

(** Closing a connection rolls back. *)
Definition rollback (d : db) : db :=
  match txn d with Some (m, v) => Db m v None | None => d end.

(** ** SQL text *)

Fixpoint commas (l : list bytes) : bytes :=
  match l with [] => [] | [x] => x | x :: l => x ++ bs ", " ++ commas l end.

Definition sql_text (s : stmt) : bytes :=
  match s with
  | CreateTable t cols pk =>
    bs "CREATE TABLE IF NOT EXISTS " ++ t ++ bs " (" ++ commas (map (fun c => c.1 ++ bs " " ++ c.2) cols) ++
    bs ", PRIMARY KEY(" ++ commas pk ++ bs "))"
  | RenameTable t t' => bs "ALTER TABLE " ++ t ++ bs " RENAME TO " ++ t'
  | InsertSelect t None from => bs "INSERT INTO " ++ t ++ bs " SELECT * FROM " ++ from
  | InsertSelect t (Some l) from =>
    (* the one projection that names its result *)
    bs "INSERT INTO " ++ t ++ bs " SELECT " ++
    (if bool_decide (l = [bs "process"; bs "process"]) then bs "process as package_name, process" else commas l) ++
    bs " FROM " ++ from
  | DropTable t => bs "DROP TABLE " ++ t
  | DropIfExists t => bs "DROP TABLE IF EXISTS " ++ t
  | DeleteKey t k => bs "DELETE FROM " ++ t ++ bs " WHERE key='" ++ k ++ bs "'"
  | ReplaceKey t k v => bs "REPLACE INTO " ++ t ++ bs " (key,value) VALUES('" ++ k ++ bs "'," ++ print_dec v ++ bs ")"
  | GetVersion => bs "PRAGMA user_version"
  | SetVersion v => bs "PRAGMA user_version=" ++ print_dec v
  | SelectAll t => bs "SELECT * FROM " ++ t
  | SelectKey t k => bs "SELECT * FROM " ++ t ++ bs " WHERE key='" ++ k ++ bs "'"
  | BeginTransaction => bs "BEGIN TRANSACTION"
  | Commit => bs "COMMIT"
  end.

(** Several statements in one string, each with its semicolon. *)
Definition script_text (l : list stmt) : bytes := concat (map (fun s => sql_text s ++ bs ";") l).

(** ** The statements of the source *)

Definition DB_VERSION : Z := 12.

Definition CREATE_POLICY : bytes := bs
  "CREATE TABLE IF NOT EXISTS policies (uid INT, policy INT, until INT, logging INT, notification INT, PRIMARY KEY(uid))".
Definition CREATE_SETTINGS : bytes := bs "CREATE TABLE IF NOT EXISTS settings (key TEXT, value INT, PRIMARY KEY(key))".
Definition CREATE_STRINGS : bytes := bs "CREATE TABLE IF NOT EXISTS strings (key TEXT, value TEXT, PRIMARY KEY(key))".
Definition CREATE_DENYLIST : bytes := bs
  "CREATE TABLE IF NOT EXISTS denylist (package_name TEXT, process TEXT, PRIMARY KEY(package_name, process))".
Definition CREATE_HIDELIST : bytes := bs
  "CREATE TABLE IF NOT EXISTS hidelist (package_name TEXT, process TEXT, PRIMARY KEY(package_name, process))".
Definition CREATE_SULIST : bytes := bs
  "CREATE TABLE IF NOT EXISTS sulist (package_name TEXT, process TEXT, PRIMARY KEY(package_name, process))".
Definition REBUILD_HIDELIST_7 : bytes :=
  bs "BEGIN TRANSACTION;" ++ bs "ALTER TABLE hidelist RENAME TO hidelist_tmp;" ++
  CREATE_HIDELIST ++ bs ";" ++
  bs "INSERT INTO hidelist SELECT process as package_name, process FROM hidelist_tmp;" ++
  bs "DROP TABLE hidelist_tmp;" ++ bs "COMMIT;".
Definition REBUILD_HIDELIST_8 : bytes :=
  bs "BEGIN TRANSACTION;" ++ bs "ALTER TABLE hidelist RENAME TO hidelist_tmp;" ++
  CREATE_HIDELIST ++ bs ";" ++
  bs "INSERT INTO hidelist SELECT * FROM hidelist_tmp;" ++
  bs "DROP TABLE hidelist_tmp;" ++ bs "COMMIT;".
Definition DROP_LOGS : bytes := bs "DROP TABLE IF EXISTS logs".
Definition DELETE_MAGISKHIDE : bytes := bs "DELETE FROM settings WHERE key='magiskhide';".
Definition REBUILD_POLICIES : bytes :=
  bs "BEGIN TRANSACTION;" ++ bs "ALTER TABLE policies RENAME TO policies_tmp;" ++
  CREATE_POLICY ++ bs ";" ++
  bs "INSERT INTO policies SELECT uid, policy, until, logging, notification FROM policies_tmp;" ++
  bs "DROP TABLE policies_tmp;" ++ bs "COMMIT;".
Definition GET_VERSION : bytes := bs "PRAGMA user_version".
Definition SET_VERSION : bytes := bs "PRAGMA user_version=12".

(** ** SQLite *)

Definition SQLITE_OK : Z := 0.
Definition SQLITE_DONE : Z := 101.

Inductive DbArg : Type :=
| ArgInt (v : Z)
| ArgText (v : bytes).

(** [sqlite3_step] answers the rows until the first code that is not [SQLITE_ROW];
    [sqlite3_exec] answers the calls of its callback (names and texts, [None] for a null
    pointer) and its error message. *)
Class SqliteLib := {
  disk : Type;
  conn : Type;
  sql_st : Type;
  no_file : disk;
  sqlite3_open_v2 : disk -> Z * conn;
  sqlite3_close : conn -> disk;
  sqlite3_prepare_v2 : conn -> bytes -> Z * option sql_st * bytes;
  sqlite3_bind_parameter_count : sql_st -> nat;
  sqlite3_bind : sql_st -> nat -> DbArg -> sql_st * Z;
  sqlite3_column_names : sql_st -> list bytes;
  sqlite3_step : conn -> sql_st -> conn * list row * Z;
  sqlite3_exec : conn -> bytes -> conn * list (list bytes * list (option bytes)) * option bytes }.

(** [sqlite3_column_int] of an integer. *)
Definition column_int (v : value) : Z := match v with INTEGER z => z | _ => 0 end.

Section sqlite.
Context `{SqliteLib}.

Record DbArgs := Args { args : list DbArg; curr : nat }.

(** [DbArgs::operator()]. *)
Definition bind_arg (index : nat) (st : sql_st) (a : DbArgs) : sql_st * DbArgs * Z :=
  match args a !! curr a with
  | Some v => let '(st', rc) := sqlite3_bind st index v in (st', Args (args a) (S (curr a)), rc)
  | None => (st, a, SQLITE_OK)
  end.

Fixpoint bind_args (n index : nat) (st : sql_st) (a : DbArgs) : sql_st * DbArgs * Z :=
  match n with
  | O => (st, a, SQLITE_OK)
  | S n =>
    let '(st, a, rc) := bind_arg index st a in
    if rc =? SQLITE_OK then bind_args n (S index) st a else (st, a, rc)
  end.

(** [sql_exec_impl]: the connection, the arguments, the calls of [exec_cb] and the
    result.  [a] is [None] when there is no [bind_cb]. *)
Fixpoint sql_exec_loop (fuel : nat) (c : conn) (sql : bytes) (a : option DbArgs) (calls : list (list bytes * row))
  : outcome (conn * option DbArgs * list (list bytes * row) * Z) :=
  match sql, fuel with
  | [], _ => Ret (c, a, calls, SQLITE_OK)
  | _, O => Loop
  | _, S fuel =>
    let '(rc, st, tail) := sqlite3_prepare_v2 c sql in
    if negb (rc =? SQLITE_OK) then Ret (c, a, calls, rc)
    else match st with
    | None => sql_exec_loop fuel c tail a calls
    | Some st =>
      let '(st, a, rc) :=
        match a with
        | None => (st, None, SQLITE_OK)
        | Some a => let '(st, a, rc) := bind_args (sqlite3_bind_parameter_count st) 1 st a in (st, Some a, rc)
        end in
      if negb (rc =? SQLITE_OK) then Ret (c, a, calls, rc)
      else
        let '(c, rows, rc) := sqlite3_step c st in
        let calls := calls ++ map (fun r => (sqlite3_column_names st, r)) rows in
        if rc =? SQLITE_DONE then sql_exec_loop fuel c tail a calls else Ret (c, a, calls, rc)
    end
  end.

Definition sql_exec_impl (c : conn) (sql : bytes) (a : option DbArgs)
  : outcome (conn * option DbArgs * list (list bytes * row) * Z) :=
  sql_exec_loop (length sql) c sql a [].

(** [sql_exec_impl] with its result compared with [SQLITE_OK]. *)
Definition sql_chk (c : conn) (sql : bytes) : outcome (conn * bool) :=
  let! (c, _, _, rc) := sql_exec_impl c sql None in Ret (c, rc =? SQLITE_OK).

(** *** Migrations *)

(** The variables [ver] and [upgrade]; [mg_ok] is false after an early return. *)
Record mig := Mig { mg_conn : conn; mg_ver : Z; mg_upgrade : bool; mg_ok : bool }.

Section migrate.
Context (exec : conn -> bytes -> outcome (conn * bool)).

Fixpoint exec_all (c : conn) (sqls : list bytes) : outcome (conn * bool) :=
  match sqls with
  | [] => Ret (c, true)
  | q :: sqls => let! (c, ok) := exec c q in if ok then exec_all c sqls else Ret (c, false)
  end.

(** [if (cond(ver)) { ...; ver = to; upgrade = true; }] *)
Definition upgrade_if (e : (Z -> bool) * list bytes * Z) (m : mig) : outcome mig :=
  let '(cond, sqls, to) := e in
  if mg_ok m && cond (mg_ver m) then
    let! (c, ok) := exec_all (mg_conn m) sqls in
    Ret (if ok then Mig c to true true else Mig c (mg_ver m) (mg_upgrade m) false)
  else Ret m.

Fixpoint upgrades (l : list ((Z -> bool) * list bytes * Z)) (m : mig) : outcome mig :=
  match l with [] => Ret m | e :: l => let! m := upgrade_if e m in upgrades l m end.

(** The version is written when anything was upgraded. *)
Definition set_version (sql : bytes) (m : mig) : outcome mig :=
  if mg_ok m && mg_upgrade m then
    let! (c, ok) := exec (mg_conn m) sql in Ret (Mig c (mg_ver m) true ok)
  else Ret m.
End migrate.

(** The blocks of [open_and_init_db] in [sqlite.cpp]. *)
Definition changelog : list ((Z -> bool) * list bytes * Z) :=
  [(fun ver => ver <=? 6, [CREATE_POLICY; CREATE_SETTINGS; CREATE_STRINGS; CREATE_DENYLIST; CREATE_HIDELIST; CREATE_SULIST],
    DB_VERSION);
   (Z.eqb 7, [REBUILD_HIDELIST_7], 9);
   (Z.eqb 8, [REBUILD_HIDELIST_8], 9);
   (Z.eqb 9, [DROP_LOGS], 10);
   (Z.eqb 10, [DELETE_MAGISKHIDE; CREATE_DENYLIST; CREATE_HIDELIST; CREATE_SULIST], 11);
   (Z.eqb 11, [REBUILD_POLICIES], 12)].

Definition migrate (ver : Z) (c : conn) : outcome mig :=
  let! m := upgrades sql_chk changelog (Mig c ver false true) in set_version sql_chk SET_VERSION m.

(** [open_and_init_db]: the connection, [None] for the null pointer, and the file; while
    the connection is open the file is what the connection shows.  [loaded] is the answer
    of [load_sqlite]; the recursion opens a file that is not there. *)
Fixpoint open_and_init_db (fuel : nat) (loaded : bool) (d : disk) : outcome (option conn * disk) :=
  match fuel with
  | O => Loop
  | S fuel =>
    if negb loaded then Ret (None, d)
    else
      let '(rc, c) := sqlite3_open_v2 d in
      if negb (rc =? SQLITE_OK) then Ret (None, d)
      else
        let! (c, _, calls, rc) := sql_exec_impl c GET_VERSION None in
        if negb (rc =? SQLITE_OK) then Ret (None, sqlite3_close c)
        else
          let ver := from_option (fun r => column_int (default NULL (head r.2))) 0 (last calls) in
          if DB_VERSION <? ver then open_and_init_db fuel loaded no_file
          else
            let! m := migrate ver c in
            if mg_ok m then Ret (Some (mg_conn m), d) else Ret (None, sqlite3_close (mg_conn m))
  end.
End sqlite.

(** ** What is known of SQLite *)

(** Every statement of the program. *)
Definition POLICY_COLS : list (bytes * bytes) :=
  [(bs "uid", bs "INT"); (bs "policy", bs "INT"); (bs "until", bs "INT"); (bs "logging", bs "INT");
   (bs "notification", bs "INT")].
Definition PROC_COLS : list (bytes * bytes) := [(bs "package_name", bs "TEXT"); (bs "process", bs "TEXT")].
Definition create_list (t : bytes) : stmt := CreateTable t PROC_COLS [bs "package_name"; bs "process"].
Definition create_policy : stmt := CreateTable (bs "policies") POLICY_COLS [bs "uid"].
Definition create_settings : stmt :=
  CreateTable (bs "settings") [(KEY, bs "TEXT"); (bs "value", bs "INT")] [KEY].
Definition create_strings : stmt :=
  CreateTable (bs "strings") [(KEY, bs "TEXT"); (bs "value", bs "TEXT")] [KEY].

Definition rebuild (t t' : bytes) (create : stmt) (what : option (list bytes)) : list stmt :=
  [BeginTransaction; RenameTable t t'; create; InsertSelect t what t'; DropTable t'; Commit].
Definition rebuild_hidelist (what : option (list bytes)) : list stmt :=
  rebuild (bs "hidelist") (bs "hidelist_tmp") (create_list (bs "hidelist")) what.
Definition rebuild_policies : list stmt :=
  rebuild (bs "policies") (bs "policies_tmp") create_policy (Some (map fst POLICY_COLS)).

(** The keys that queries ask for. *)
Definition SETTING_KEYS : list bytes :=
  [bs "root_access"; bs "su_biometric"; bs "multiuser_mode"; bs "mnt_ns"; bs "magiskhide"; bs "sulist";
   bs "nethunter_mode"; bs "modules_hiding"; bs "modules_filter"; bs "zygisk"].
Definition STRING_KEYS : list bytes := [bs "requester"].

Definition program_stmts : list stmt :=
  [create_policy; create_settings; create_strings] ++
  map create_list [bs "denylist"; bs "hidelist"; bs "sulist"] ++
  rebuild_hidelist (Some [bs "process"; bs "process"]) ++ rebuild_hidelist None ++ rebuild_policies ++
  [DropIfExists (bs "logs"); DeleteKey (bs "settings") (bs "magiskhide"); ReplaceKey (bs "settings") (bs "denylist") 0;
   GetVersion; SetVersion 12; SelectAll (bs "settings"); SelectAll (bs "strings")] ++
  map (SelectKey (bs "settings")) SETTING_KEYS ++ map (SelectKey (bs "strings")) STRING_KEYS.

(** A statement at the start of a text: the whole of it, or up to its semicolon. *)
Definition sql_input (s : stmt) (text rest : bytes) : Prop :=
  text = sql_text s /\ rest = [] \/ text = sql_text s ++ x3b :: rest.

(** [sqlite3_column_text]. *)
Definition column_text (v : value) : option bytes :=
  match v with NULL => None | INTEGER z => Some (if z <? 0 then x2d :: print_dec (- z) else print_dec z) | TEXT s => Some s end.

(** [shows c d]: through the connection the database is [d]; [holds f d] for a file.
    The order of rows is not defined, so [d] is one of several. *)
Class SqliteLaws `{SqliteLib} := {
  shows : conn -> db -> Prop;
  holds : disk -> db -> Prop;
  open_law f d c : holds f d -> sqlite3_open_v2 f = (SQLITE_OK, c) -> shows c d;
  close_law c d : shows c d -> holds (sqlite3_close c) (rollback d);
  no_file_law : holds no_file (Db ∅ 0 None);
  prepare_law c d s text rest : s ∈ program_stmts -> shows c d -> sql_input s text rest ->
    match exec_stmt s d with
    | Some (d', rows) => exists st c' rows',
        sqlite3_prepare_v2 c text = (SQLITE_OK, Some st, rest) /\ sqlite3_column_names st = answer_columns s d /\
        sqlite3_step c st = (c', rows', SQLITE_DONE) /\ rows' ≡ₚ rows /\ shows c' d'
    | None =>
        (exists rc st tail, sqlite3_prepare_v2 c text = (rc, st, tail) /\ rc <> SQLITE_OK) \/
        (exists st c' rows' rc, sqlite3_prepare_v2 c text = (SQLITE_OK, Some st, rest) /\
           sqlite3_step c st = (c', rows', rc) /\ rc <> SQLITE_OK /\ rc <> SQLITE_DONE /\ shows c' d)
    end;
  exec_law c d l text : Forall (.∈ program_stmts) l -> shows c d ->
    text = script_text l \/ (exists s, l = [s] /\ text = sql_text s) ->
    exists c' calls err, sqlite3_exec c text = (c', calls, err) /\
      shows c' (exec_script l d).1 /\ (err = None <-> (exec_script l d).2 = true);
  exec_query_law c d s d' rows : s ∈ program_stmts -> shows c d -> exec_stmt s d = Some (d', rows) ->
    exists calls, (sqlite3_exec c (sql_text s)).1.2 = calls /\
      calls ≡ₚ map (fun r => (answer_columns s d, map column_text r)) rows }.

(** ** Scripts *)

(** A text that holds these statements. *)
Definition text_of (l : list stmt) (text : bytes) : Prop :=
  text = script_text l \/ exists s, l = [s] /\ text = sql_text s.

Lemma source_texts :
  text_of [create_policy] CREATE_POLICY /\ text_of [create_settings] CREATE_SETTINGS /\
  text_of [create_strings] CREATE_STRINGS /\ text_of [create_list (bs "denylist")] CREATE_DENYLIST /\
  text_of [create_list (bs "hidelist")] CREATE_HIDELIST /\ text_of [create_list (bs "sulist")] CREATE_SULIST /\
  text_of (rebuild_hidelist (Some [bs "process"; bs "process"])) REBUILD_HIDELIST_7 /\
  text_of (rebuild_hidelist None) REBUILD_HIDELIST_8 /\ text_of [DropIfExists (bs "logs")] DROP_LOGS /\
  text_of [DeleteKey (bs "settings") (bs "magiskhide")] DELETE_MAGISKHIDE /\
  text_of rebuild_policies REBUILD_POLICIES /\ text_of [GetVersion] GET_VERSION /\ text_of [SetVersion 12] SET_VERSION.
Proof.
  split_and!; first
    [ left; vm_compute; reflexivity
    | right; eexists; split; [reflexivity|vm_compute; reflexivity] ].
Qed.

Lemma exec_script_app l1 l2 d : exec_script (l1 ++ l2) d =
  let '(d1, ok) := exec_script l1 d in if ok then exec_script l2 d1 else (d1, false).
Proof.
  revert d. induction l1 as [|s l1 IH]; intros d; [done|]. simpl. destruct (exec_stmt s d) as [[d' r]|]; [apply IH|done].
Qed.

Lemma program_text s : s ∈ program_stmts -> sql_text s <> [].
Proof.
  intros Hs. assert (H : forallb (fun s => negb (bool_decide (sql_text s = []))) program_stmts = true)
    by (vm_compute; reflexivity).
  rewrite forallb_forall in H. apply list_elem_of_In, H, negb_true_iff, bool_decide_eq_false in Hs. done.
Qed.

Section scripts.
Context `{SqliteLaws}.

(** One statement of a text, up to its end or its semicolon. *)
Lemma sql_step fuel c d s text rest calls : s ∈ program_stmts -> shows c d -> sql_input s text rest ->
  match exec_stmt s d with
  | Some (d', rows) => exists c' rows', rows' ≡ₚ rows /\ shows c' d' /\
      sql_exec_loop (S fuel) c text None calls =
      sql_exec_loop fuel c' rest None (calls ++ map (fun r => (answer_columns s d, r)) rows')
  | None => exists c' calls' rc, sql_exec_loop (S fuel) c text None calls = Ret (c', None, calls', rc) /\
      rc <> SQLITE_OK /\ shows c' d
  end.
Proof.
  intros Hs Hc Ht. assert (Hne : text <> []).
  { pose proof (program_text s Hs). destruct Ht as [[-> _]| ->]; [done|]. by destruct (sql_text s). }
  pose proof (prepare_law c d s text rest Hs Hc Ht) as HP.
  destruct text as [|b text]; [done|]. cbn [sql_exec_loop].
  destruct (exec_stmt s d) as [[d' rows]|].
  - destruct HP as (st & c' & rows' & -> & Hn & Es & Hp & Hc'). cbn. rewrite Es. cbn. rewrite Hn. eauto.
  - destruct HP as [(rc & st & tail & -> & Hrc)|(st & c' & rows' & rc & -> & Es & Hr0 & Hr1 & Hc')].
    + rewrite (proj2 (Z.eqb_neq _ _) Hrc). cbn. by exists c, calls, rc.
    + cbn. rewrite Es. rewrite (proj2 (Z.eqb_neq _ _) Hr1). cbn. eexists c', _, rc. eauto.
Qed.

(** A script run by [sql_exec_impl] runs its statements in order until the first error. *)
Lemma sql_script_loop l : Forall (.∈ program_stmts) l -> forall fuel c d calls, (length l <= fuel)%nat -> shows c d ->
  exists c' calls' rc, sql_exec_loop fuel c (script_text l) None calls = Ret (c', None, calls', rc) /\
    (rc = SQLITE_OK <-> (exec_script l d).2 = true) /\ shows c' (exec_script l d).1.
Proof.
  induction 1 as [|s l Hs Hl IH]; intros fuel c d calls Hf Hc.
  - exists c, calls, SQLITE_OK. by destruct fuel.
  - destruct fuel as [|fuel]; [simpl in Hf; lia|].
    assert (Ht : sql_input s (script_text (s :: l)) (script_text l)).
    { right. unfold script_text. simpl. by rewrite <- app_assoc. }
    pose proof (sql_step fuel c d s _ _ calls Hs Hc Ht) as HS. cbn [exec_script].
    destruct (exec_stmt s d) as [[d' rows]|].
    + destruct HS as (c' & rows' & _ & Hc' & ->). apply IH; [simpl in Hf; lia|done].
    + destruct HS as (c' & calls' & rc & -> & Hrc & Hc'). exists c', calls', rc. simpl. split_and!; [done| |done].
      by split.
Qed.

Lemma script_length l : (length l <= length (script_text l))%nat.
Proof. induction l as [|s l IH]; [done|]. unfold script_text in *. simpl. rewrite !length_app. simpl. lia. Qed.

(** What the migrations ask of the function that runs a text. *)
Definition runs_scripts (exec : conn -> bytes -> outcome (conn * bool)) : Prop :=
  forall c d l text, Forall (.∈ program_stmts) l -> shows c d -> text_of l text ->
    exists c', exec c text = Ret (c', (exec_script l d).2) /\ shows c' (exec_script l d).1.

Lemma sql_chk_runs : runs_scripts sql_chk.
Proof.
  intros c d l text Hl Hc [->|(s & -> & ->)]; unfold sql_chk, sql_exec_impl.
  - destruct (sql_script_loop l Hl (length (script_text l)) c d [] (script_length l) Hc) as (c' & calls & rc & -> & Hrc & Hc').
    exists c'. cbn. split; [|done]. do 2 f_equal. destruct (Z.eqb_spec rc SQLITE_OK) as [E|E]; [symmetry; by apply Hrc|].
    symmetry. apply not_true_is_false. by rewrite <- Hrc.
  - apply Forall_cons_1 in Hl as [Hl _]. pose proof (program_text s Hl) as Hne.
    destruct (length (sql_text s)) as [|n] eqn:En; [by destruct (sql_text s)|].
    pose proof (sql_step n c d s (sql_text s) [] [] Hl Hc (or_introl (conj eq_refl eq_refl))) as HS. cbn [exec_script].
    destruct (exec_stmt s d) as [[d' rows]|].
    + destruct HS as (c' & rows' & _ & Hc' & ->). exists c'. by destruct n.
    + destruct HS as (c' & calls' & rc & -> & Hrc & Hc'). exists c'. cbn. by rewrite (proj2 (Z.eqb_neq _ _) Hrc).
Qed.
End scripts.

(** ** Migrations *)

(** The same blocks on the database itself. *)
Record rmig := RMig { rm_db : db; rm_ver : Z; rm_upgrade : bool; rm_ok : bool }.

Definition upgrade_ref (e : (Z -> bool) * list (list stmt) * Z) (m : rmig) : rmig :=
  let '(cond, ls, to) := e in
  if rm_ok m && cond (rm_ver m) then
    let '(d, ok) := exec_script (concat ls) (rm_db m) in
    if ok then RMig d to true true else RMig d (rm_ver m) (rm_upgrade m) false
  else m.

Definition set_version_ref (m : rmig) : rmig :=
  if rm_ok m && rm_upgrade m then
    let '(d, ok) := exec_script [SetVersion 12] (rm_db m) in RMig d (rm_ver m) true ok
  else m.

Definition changelog_ref : list ((Z -> bool) * list (list stmt) * Z) :=
  [(fun ver => ver <=? 6, [[create_policy]; [create_settings]; [create_strings]; [create_list (bs "denylist")];
     [create_list (bs "hidelist")]; [create_list (bs "sulist")]], DB_VERSION);
   (Z.eqb 7, [rebuild_hidelist (Some [bs "process"; bs "process"])], 9);
   (Z.eqb 8, [rebuild_hidelist None], 9);
   (Z.eqb 9, [[DropIfExists (bs "logs")]], 10);
   (Z.eqb 10, [[DeleteKey (bs "settings") (bs "magiskhide")]; [create_list (bs "denylist")]; [create_list (bs "hidelist")];
     [create_list (bs "sulist")]], 11);
   (Z.eqb 11, [rebuild_policies], 12)].

Definition migrate_ref (ver : Z) (d : db) : rmig :=
  set_version_ref (fold_left (fun m e => upgrade_ref e m) changelog_ref (RMig d ver false true)).

(** A block and its statements. *)
Definition same_block (e : (Z -> bool) * list bytes * Z) (r : (Z -> bool) * list (list stmt) * Z) : Prop :=
  e.1.1 = r.1.1 /\ e.2 = r.2 /\ Forall2 (fun q l => text_of l q /\ Forall (.∈ program_stmts) l) e.1.2 r.1.2.

Lemma in_program (l : list stmt) : forallb (fun s => bool_decide (s ∈ program_stmts)) l = true -> Forall (.∈ program_stmts) l.
Proof.
  intros Hl. apply Forall_forall. intros s Hs. rewrite forallb_forall in Hl.
  apply list_elem_of_In, Hl in Hs. by apply bool_decide_eq_true in Hs.
Qed.

Ltac program := apply in_program; vm_compute; reflexivity.

Lemma changelog_blocks : Forall2 same_block changelog changelog_ref.
Proof.
  destruct source_texts as (?&?&?&?&?&?&?&?&?&?&?&?&?).
  unfold changelog, changelog_ref.
  repeat (apply List.Forall2_cons; [split; [reflexivity|split; [reflexivity|]]; cbn [fst snd];
    repeat (apply List.Forall2_cons; [split; [assumption|program]|]); apply List.Forall2_nil|]); apply List.Forall2_nil.
Qed.

Section simulation.
Context `{SqliteLaws}.
Context (exec : conn -> bytes -> outcome (conn * bool)) (Hexec : runs_scripts exec).

Definition sim (m : mig) (r : rmig) : Prop :=
  shows (mg_conn m) (rm_db r) /\ mg_ver m = rm_ver r /\ mg_upgrade m = rm_upgrade r /\ mg_ok m = rm_ok r.

Lemma exec_all_sim qs ls : Forall2 (fun q l => text_of l q /\ Forall (.∈ program_stmts) l) qs ls ->
  forall c d, shows c d -> exists c', exec_all exec c qs = Ret (c', (exec_script (concat ls) d).2) /\
    shows c' (exec_script (concat ls) d).1.
Proof using Hexec.
  induction 1 as [|q l qs ls [Ht Hl] _ IH]; intros c d Hc; [by exists c|]. cbn [exec_all concat].
  destruct (Hexec c d l q Hl Hc Ht) as (c1 & -> & Hc1). cbn [obind]. rewrite exec_script_app.
  destruct (exec_script l d) as [d1 []]; cbn in *; [by apply IH|by exists c1].
Qed.

Lemma upgrade_sim e r m rm : same_block e r -> sim m rm ->
  exists m', upgrade_if exec e m = Ret m' /\ sim m' (upgrade_ref r rm).
Proof using Hexec.
  destruct e as [[cond qs] to], r as [[cond' ls] to']. intros (E1 & E2 & HF) (Hc & Hv & Hu & Ho). cbn in *. subst cond' to'.
  rewrite Ho, Hv. destruct (rm_ok rm && cond (rm_ver rm)) eqn:Eb; [|by exists m].
  apply andb_true_iff in Eb as [Ho' _]. destruct (exec_all_sim qs ls HF _ _ Hc) as (c' & -> & Hc'). cbn [obind].
  destruct (exec_script (concat ls) (rm_db rm)) as [d1 []]; eexists; (split; [reflexivity|done]).
Qed.

Lemma upgrades_sim es rs : Forall2 same_block es rs -> forall m rm, sim m rm ->
  exists m', upgrades exec es m = Ret m' /\ sim m' (fold_left (fun m e => upgrade_ref e m) rs rm).
Proof using Hexec.
  induction 1 as [|e r es rs He _ IH]; intros m rm Hm; [by exists m|]. cbn [upgrades fold_left].
  destruct (upgrade_sim e r m rm He Hm) as (m' & -> & Hm'). by apply IH.
Qed.

Lemma set_version_sim m rm : sim m rm -> exists m', set_version exec SET_VERSION m = Ret m' /\ sim m' (set_version_ref rm).
Proof using Hexec.
  intros (Hc & Hv & Hu & Ho). unfold set_version, set_version_ref. rewrite Ho, Hu.
  destruct (rm_ok rm && rm_upgrade rm); [|by exists m].
  assert (Hp : Forall (.∈ program_stmts) [SetVersion 12]) by program.
  destruct (Hexec (mg_conn m) (rm_db rm) [SetVersion 12] SET_VERSION Hp Hc) as (c' & -> & Hc'); [apply source_texts|].
  destruct (exec_script [SetVersion 12] (rm_db rm)) as [d1 ok]. eexists. by split.
Qed.
End simulation.

Lemma migrate_sim `{SqliteLaws} v c d : shows c d -> exists m, migrate v c = Ret m /\ sim m (migrate_ref v d).
Proof.
  intros Hc. unfold migrate, migrate_ref.
  destruct (upgrades_sim sql_chk sql_chk_runs _ _ changelog_blocks (Mig c v false true) (RMig d v false true)) as (m & -> & Hm);
    [done|]. by apply set_version_sim; [apply sql_chk_runs|].
Qed.

(** *** What the migrations keep *)

Definition table_ok (x : table) : Prop :=
  NoDup (t_cols x) /\ Forall (fun r => length r = length (t_cols x)) (t_rows x) /\
  unique (t_cols x) (t_pk x) (t_rows x) = true.

(** A table is rebuilt from the projection of its rows. *)
Lemma rebuild_ok t t' cols pk what d x : t <> t' -> txn d = None -> tables d !! t = Some x -> tables d !! t' = None ->
  let names := default (t_cols x) what in
  let rows := map (project (t_cols x) names) (t_rows x) in
  columns_in (t_cols x) names = true -> length names = length cols -> unique (map fst cols) pk rows = true ->
  exec_script (rebuild t t' (CreateTable t cols pk) what) d =
  (Db (<[t := Table (map fst cols) pk rows]> (tables d)) (user_version d) None, true).
Proof.
  intros Hn Ht Ex Ex' names rows Hin Hlen Hu. destruct d as [m v tx]. cbn in Ht, Ex, Ex'. subst tx. cbn [rebuild exec_script].
  unfold exec_stmt at 1. cbn [txn]. cbn [exec_script]. unfold exec_stmt at 1. cbn [tables]. rewrite Ex, Ex'.
  cbn [exec_script]. unfold exec_stmt at 1, set_tables. cbn [tables user_version txn].
  rewrite lookup_insert_ne, lookup_delete_eq by done. cbn [exec_script].
  unfold exec_stmt at 1, set_tables. cbn [tables user_version txn]. rewrite lookup_insert_eq, lookup_insert_ne, lookup_insert_eq by done.
  cbn [t_cols t_pk t_rows app]. fold names. fold rows. rewrite Hin, length_map, Hlen, Nat.eqb_refl, Hu. cbn [andb exec_script].
  unfold exec_stmt at 1, set_tables. cbn [tables user_version txn].
  rewrite lookup_insert_ne, lookup_insert_ne, lookup_insert_eq by done. cbn [exec_script].
  unfold exec_stmt at 1. cbn [txn tables user_version]. do 2 f_equal. apply map_eq. intros i.
  destruct (decide (i = t')) as [->|N]; [rewrite lookup_delete_eq, lookup_insert_ne by done; done|].
  rewrite lookup_delete_ne by done. destruct (decide (i = t)) as [->|N']; [by rewrite !lookup_insert_eq|].
  by rewrite !lookup_insert_ne, lookup_delete_ne by done.
Qed.

(** Uniqueness of keys carries over to rows whose keys determine the old ones. *)
Lemma unique_map cols pk cols' pk' (f : row -> row) rows : unique cols pk rows = true ->
  (forall r, r ∈ rows -> no_null (project cols' pk' (f r)) = true -> no_null (project cols pk r) = true) ->
  (forall r r', r ∈ rows -> r' ∈ rows -> project cols' pk' (f r) = project cols' pk' (f r') -> project cols pk r = project cols pk r') ->
  unique cols' pk' (map f rows) = true.
Proof.
  unfold unique, keys. rewrite !bool_decide_eq_true, map_map. induction rows as [|r rows IH]; intros Hu Hn Hi; [constructor|].
  cbn [map] in *. rewrite filter_cons in Hu |- *.
  assert (IH' : NoDup (filter (fun k => no_null k = true) (map (project cols pk) rows)) ->
    NoDup (filter (fun k => no_null k = true) (map (fun x => project cols' pk' (f x)) rows))).
  { intros Hu'. apply IH; [done|intros; apply Hn; [set_solver|done]|intros; apply Hi; [set_solver|set_solver|done]]. }
  destruct (decide (no_null (project cols' pk' (f r)) = true)) as [Hk'|Hk'].
  - assert (Hk : no_null (project cols pk r) = true). { apply Hn; [set_solver|exact Hk']. } rewrite decide_True in Hu by done.
    apply NoDup_cons in Hu as [Hnot Hu]. apply NoDup_cons. split; [|auto]. intros [_ Hin]%list_elem_of_filter. apply Hnot.
    apply list_elem_of_fmap in Hin as (r' & E & Hr'). apply list_elem_of_filter. split; [done|].
    rewrite (Hi r r' ltac:(set_solver) ltac:(set_solver) E). by apply (list_elem_of_fmap_2 (project cols pk)).
  - case_decide; [apply NoDup_cons in Hu as [_ Hu]|]; auto.
Qed.

Definition POLICIES : bytes := bs "policies".
Definition HIDELIST : bytes := bs "hidelist".
Definition SETTINGS : bytes := bs "settings".
Definition POLICY_NAMES : list bytes := map fst POLICY_COLS.
Definition PROC_NAMES : list bytes := map fst PROC_COLS.
Definition empty_list : table := Table PROC_NAMES PROC_NAMES [].

(** The effect of each block on the tables. *)
Definition rebuilt (t : bytes) (cols pk : list bytes) (what : option (list bytes)) (m : gmap bytes table) : gmap bytes table :=
  match m !! t with
  | Some x => <[t := Table cols pk (map (project (t_cols x) (default (t_cols x) what)) (t_rows x))]> m
  | None => m
  end.
Definition ensure (t : bytes) (x : table) (m : gmap bytes table) : gmap bytes table :=
  match m !! t with Some _ => m | None => <[t := x]> m end.
Definition without_key (k : bytes) (x : table) : table :=
  Table (t_cols x) (t_pk x) (filter (fun r => column (t_cols x) r KEY <> TEXT k) (t_rows x)).

Definition up7 := rebuilt HIDELIST PROC_NAMES PROC_NAMES (Some [bs "process"; bs "process"]).
Definition up8 := rebuilt HIDELIST PROC_NAMES PROC_NAMES None.
Definition up9 : gmap bytes table -> gmap bytes table := delete (bs "logs").
Definition up10 (m : gmap bytes table) : gmap bytes table :=
  ensure (bs "sulist") empty_list (ensure HIDELIST empty_list (ensure (bs "denylist") empty_list
    (alter (without_key (bs "magiskhide")) SETTINGS m))).
Definition up11 := rebuilt POLICIES POLICY_NAMES [bs "uid"] (Some POLICY_NAMES).

(** The tables every version from 7 up has. *)
Definition policies_ok (x : table) : Prop :=
  table_ok x /\ t_pk x = [bs "uid"] /\ columns_in (t_cols x) POLICY_NAMES = true.
Definition settings_ok (x : table) : Prop := table_ok x /\ t_cols x = [KEY; bs "value"] /\ t_pk x = [KEY].

Definition tables_ok (m : gmap bytes table) : Prop :=
  (exists p, m !! POLICIES = Some p /\ policies_ok p) /\ (exists s, m !! SETTINGS = Some s /\ settings_ok s) /\
  m !! bs "policies_tmp" = None /\ m !! bs "hidelist_tmp" = None.

(** The schema of a version, from the changelog in [sqlite.cpp]. *)
Definition schema (v : Z) (d : db) : Prop :=
  user_version d = v /\ txn d = None /\ tables_ok (tables d) /\
  (v = 7 -> exists h, tables d !! HIDELIST = Some h /\ table_ok h /\ t_cols h = [bs "process"] /\ t_pk h = [bs "process"]) /\
  (v = 8 -> exists h, tables d !! HIDELIST = Some h /\ table_ok h /\ t_cols h = PROC_NAMES /\ t_pk h = [bs "process"]).

Lemma exec_create t cols pk d :
  exec_stmt (CreateTable t cols pk) d = Some (set_tables (ensure t (Table (map fst cols) pk []) (tables d)) d, []).
Proof. unfold exec_stmt, ensure. destruct d as [m v x]; cbn. by destruct (m !! t). Qed.

Lemma no_null_one v v' : no_null [v; v'] = true -> no_null [v'] = true.
Proof. unfold no_null. rewrite !bool_decide_eq_true. set_solver. Qed.

Lemma exec_7 d h : txn d = None -> tables d !! HIDELIST = Some h -> tables d !! bs "hidelist_tmp" = None ->
  table_ok h -> t_cols h = [bs "process"] -> t_pk h = [bs "process"] ->
  exec_script (rebuild_hidelist (Some [bs "process"; bs "process"])) d = (Db (up7 (tables d)) (user_version d) None, true).
Proof.
  intros Ht Eh Et (_ & _ & Hu) Ec Ek. unfold up7, rebuilt. rewrite Eh. rewrite Ec, Ek in Hu.
  unfold rebuild_hidelist, create_list. rewrite (rebuild_ok _ _ _ _ _ _ h); [done|done|done|done|done| | |]; rewrite Ec;
    [done|done|].
  eapply unique_map; [exact Hu| |]; intros r; [intros _; apply no_null_one|intros r' _ _ E; exact (f_equal (drop 1) E)].
Qed.

Lemma exec_8 d h : txn d = None -> tables d !! HIDELIST = Some h -> tables d !! bs "hidelist_tmp" = None ->
  table_ok h -> t_cols h = PROC_NAMES -> t_pk h = [bs "process"] ->
  exec_script (rebuild_hidelist None) d = (Db (up8 (tables d)) (user_version d) None, true).
Proof.
  intros Ht Eh Et (_ & _ & Hu) Ec Ek. unfold up8, rebuilt. rewrite Eh. rewrite Ec, Ek in Hu.
  unfold rebuild_hidelist, create_list. rewrite (rebuild_ok _ _ _ _ _ _ h); [done|done|done|done|done| | |]; cbn [default];
    rewrite Ec; [done|done|].
  eapply unique_map; [exact Hu| |]; intros r; [intros _; apply no_null_one|intros r' _ _ E; exact (f_equal (drop 1) E)].
Qed.

Lemma exec_11 d : txn d = None -> tables_ok (tables d) ->
  exec_script rebuild_policies d = (Db (up11 (tables d)) (user_version d) None, true).
Proof.
  intros Ht ((p & Ep & (_ & _ & Hu) & Ek & Hin) & _ & Et & _). unfold up11, rebuilt. rewrite Ep. rewrite Ek in Hu.
  unfold rebuild_policies, create_policy. rewrite (rebuild_ok _ _ _ _ _ _ p); try done.
  eapply unique_map; [exact Hu| |]; intros r; [intros _ E; exact E|intros r' _ _ E; exact E].
Qed.

Lemma exec_delete_key t k d x : tables d !! t = Some x -> columns_in (t_cols x) [KEY] = true ->
  exec_stmt (DeleteKey t k) d = Some (set_tables (alter (without_key k) t (tables d)) d, []).
Proof.
  intros Ex Hin. unfold exec_stmt. rewrite Ex, Hin. do 3 f_equal. unfold alter, map_alter, without_key.
  apply map_eq. intros i. destruct (decide (i = t)) as [->|N].
  - by rewrite lookup_insert_eq, lookup_partial_alter_eq, Ex.
  - by rewrite lookup_insert_ne, lookup_partial_alter_ne.
Qed.

Lemma exec_10 d : tables_ok (tables d) -> txn d = None ->
  exec_script (concat [[DeleteKey (bs "settings") (bs "magiskhide")]; [create_list (bs "denylist")]; [create_list (bs "hidelist")];
    [create_list (bs "sulist")]]) d = (Db (up10 (tables d)) (user_version d) None, true).
Proof.
  intros (_ & (s & Es & _ & Ec & _) & _) Ht. cbn [concat app exec_script].
  rewrite (exec_delete_key _ _ _ s Es) by (by rewrite Ec). unfold create_list. rewrite !exec_create. unfold set_tables. cbn [tables user_version txn].
  by rewrite Ht.
Qed.

(** The blocks keep the tables that later blocks work on. *)
Lemma tables_ok_keep m m' : tables_ok m -> (forall t, t ∈ [POLICIES; SETTINGS; bs "policies_tmp"; bs "hidelist_tmp"] ->
  m' !! t = m !! t) -> tables_ok m'.
Proof.
  intros (Hp & Hs & H1 & H2) Hm. unfold tables_ok. rewrite !Hm; [done|..]; set_solver.
Qed.

Lemma rebuilt_other t cols pk what m i : i <> t -> rebuilt t cols pk what m !! i = m !! i.
Proof. intros N. unfold rebuilt. destruct (m !! t); [by rewrite lookup_insert_ne|done]. Qed.
Lemma ensure_lookup t x m i : ensure t x m !! i = if bool_decide (i = t) then Some (default x (m !! t)) else m !! i.
Proof.
  unfold ensure. destruct (m !! t) as [y|] eqn:E; case_bool_decide as Hi; try subst i; try done.
  - by rewrite lookup_insert_eq.
  - by rewrite lookup_insert_ne.
Qed.

Lemma up10_lookup m i : up10 m !! i =
  if bool_decide (i = bs "sulist") then Some (default empty_list (m !! i)) else
  if bool_decide (i = HIDELIST) then Some (default empty_list (m !! i)) else
  if bool_decide (i = bs "denylist") then Some (default empty_list (m !! i)) else
  if bool_decide (i = SETTINGS) then without_key (bs "magiskhide") <$> m !! i else m !! i.
Proof.
  unfold up10. rewrite !ensure_lookup.
  repeat match goal with |- context [bool_decide (i = ?t)] => destruct (decide (i = t)) as [->|?]; [rewrite (bool_decide_eq_true_2 (t = t)) by done|rewrite (bool_decide_eq_false_2 (i = t)) by done] end.
  all: repeat (rewrite bool_decide_eq_false_2 by done).
  all: rewrite ?lookup_alter_eq, ?lookup_alter_ne by done; done.
Qed.

Definition upgraded (v : Z) (m : gmap bytes table) : gmap bytes table :=
  let m := if v =? 7 then up7 m else if v =? 8 then up8 m else m in
  let m := if v <=? 9 then up9 m else m in
  let m := if v <=? 10 then up10 m else m in
  if v <=? 11 then up11 m else m.

Lemma up7_keep m : tables_ok m -> tables_ok (up7 m).
Proof.
  intros Hm. apply (tables_ok_keep m); [done|]. intros t Ht. apply rebuilt_other.
  set_unfold in Ht. destruct Ht as [->|[->|[->|[->|[]]]]]; discriminate.
Qed.
Lemma up8_keep m : tables_ok m -> tables_ok (up8 m).
Proof.
  intros Hm. apply (tables_ok_keep m); [done|]. intros t Ht. apply rebuilt_other.
  set_unfold in Ht. destruct Ht as [->|[->|[->|[->|[]]]]]; discriminate.
Qed.
Lemma up9_keep m : tables_ok m -> tables_ok (up9 m).
Proof.
  intros Hm. apply (tables_ok_keep m); [done|]. intros t Ht. apply lookup_delete_ne.
  set_unfold in Ht. destruct Ht as [->|[->|[->|[->|[]]]]]; discriminate.
Qed.
(** Fewer rows have fewer keys. *)
Lemma unique_sublist cols pk rows rows' : rows' `sublist_of` rows -> unique cols pk rows = true -> unique cols pk rows' = true.
Proof.
  unfold unique, keys. rewrite !bool_decide_eq_true. intros Hs Hu. eapply sublist_NoDup; [exact Hu|]. clear Hu.
  induction Hs as [|r rows' rows _ IH|r rows' rows _ IH]; cbn [map]; [done| |]; rewrite !filter_cons; case_decide;
    by first [exact IH|apply sublist_skip|apply sublist_cons].
Qed.

Lemma up10_keep m : tables_ok m -> tables_ok (up10 m).
Proof.
  intros (Hp & (s & Es & (Hn & Hl & Hu) & Ec & Ek) & H1 & H2). unfold tables_ok. rewrite !up10_lookup.
  split_and!; [exact Hp| |exact H1|exact H2]. exists (without_key (bs "magiskhide") s).
  split; [change (without_key (bs "magiskhide") <$> m !! SETTINGS = Some (without_key (bs "magiskhide") s)); by rewrite Es|].
  split; [|done]. split_and!; [done| |].
  - apply Forall_forall. intros r [_ Hr]%list_elem_of_filter. rewrite Forall_forall in Hl. auto.
  - eapply unique_sublist; [apply sublist_filter|exact Hu].
Qed.

Lemma from_10 d u : tables_ok (tables d) -> txn d = None ->
  set_version_ref (fold_left (fun m e => upgrade_ref e m) (drop 4 changelog_ref) (RMig d 10 u true)) =
  RMig (Db (up11 (up10 (tables d))) 12 None) 12 true true.
Proof.
  intros Hm Ht. cbn [drop changelog_ref fold_left]. unfold upgrade_ref at 2. cbn [rm_ok rm_ver rm_db rm_upgrade].
  change (true && (10 =? 10)) with true. cbv iota. rewrite exec_10 by done. cbv iota beta.
  unfold upgrade_ref. cbn [rm_ok rm_ver rm_db rm_upgrade]. change (true && (11 =? 11)) with true. cbv iota.
  cbn [concat]. rewrite app_nil_r, exec_11; [done|done|by apply up10_keep].
Qed.

Lemma from_9 d u : tables_ok (tables d) -> txn d = None ->
  set_version_ref (fold_left (fun m e => upgrade_ref e m) (drop 3 changelog_ref) (RMig d 9 u true)) =
  RMig (Db (up11 (up10 (up9 (tables d)))) 12 None) 12 true true.
Proof.
  intros Hm Ht. etrans; [|apply (from_10 (Db (up9 (tables d)) (user_version d) None) true); [by apply up9_keep|done]].
  cbn [drop changelog_ref fold_left]. do 3 f_equal. unfold upgrade_ref. cbn. unfold set_tables. by rewrite Ht.
Qed.

Lemma migrate_ref_ok v d : schema v d -> 7 <= v <= 12 ->
  migrate_ref v d = RMig (Db (upgraded v (tables d)) 12 None) 12 (v <=? 11) true.
Proof.
  intros (Hv & Ht & Hm & H7 & H8) Hr. unfold migrate_ref.
  assert (v = 7 \/ v = 8 \/ v = 9 \/ v = 10 \/ v = 11 \/ v = 12) as [->|[->|[->|[->|[->| ->]]]]] by lia.
  - destruct (H7 eq_refl) as (h & Eh & Hh & Ec & Ek).
    change (upgraded 7 (tables d)) with (up11 (up10 (up9 (up7 (tables d))))).
    etrans; [|apply (from_9 (Db (up7 (tables d)) (user_version d) None) true); [by apply up7_keep|done]].
    cbn [drop changelog_ref fold_left]. do 4 f_equal. unfold upgrade_ref at 3. cbn [rm_ok rm_ver rm_db rm_upgrade].
    change (true && (7 <=? 6)) with false. cbv iota. unfold upgrade_ref at 2. cbn [rm_ok rm_ver rm_db rm_upgrade].
    change (true && (7 =? 7)) with true. cbv iota. cbn [concat].
    rewrite app_nil_r, (exec_7 _ h) by (try done; apply Hm). done.
  - destruct (H8 eq_refl) as (h & Eh & Hh & Ec & Ek).
    change (upgraded 8 (tables d)) with (up11 (up10 (up9 (up8 (tables d))))).
    etrans; [|apply (from_9 (Db (up8 (tables d)) (user_version d) None) true); [by apply up8_keep|done]].
    cbn [drop changelog_ref fold_left]. do 4 f_equal. unfold upgrade_ref. cbn [rm_ok rm_ver rm_db rm_upgrade].
    change (true && (8 <=? 6)) with false. cbv iota. cbn [rm_ok rm_ver rm_db rm_upgrade].
    change (true && (7 =? 8)) with false. cbv iota. cbn [rm_ok rm_ver rm_db rm_upgrade].
    change (true && (8 =? 8)) with true. cbv iota. cbn [concat]. rewrite app_nil_r, (exec_8 _ h) by (try done; apply Hm). done.
  - by apply (from_9 d false).
  - by apply (from_10 d false).
  - cbn [changelog_ref fold_left]. unfold upgrade_ref. cbn -[exec_script rebuild_policies].
    rewrite app_nil_r, exec_11 by done. done.
  - destruct d as [m w x]. cbn in Hv, Ht. by subst w x.
Qed.

(** What an upgrade from version [v] does to the tables. *)
Record migrated (v : Z) (m m' : gmap bytes table) : Prop := {
  mg_policies : forall p, m !! POLICIES = Some p -> m' !! POLICIES = Some
    (if v =? 12 then p else Table POLICY_NAMES [bs "uid"] (map (project (t_cols p) POLICY_NAMES) (t_rows p)));
  mg_settings : m' !! SETTINGS = if v <=? 10 then without_key (bs "magiskhide") <$> m !! SETTINGS else m !! SETTINGS;
  mg_hidelist : forall h, m !! HIDELIST = Some h -> exists h', m' !! HIDELIST = Some h' /\
    t_rows h' = if v =? 7 then map (fun r => r ++ r) (t_rows h) else t_rows h;
  mg_lists : forall t, t ∈ [bs "denylist"; bs "sulist"] ->
    (forall x, m !! t = Some x -> m' !! t = Some x) /\ (v <= 10 -> is_Some (m' !! t));
  mg_other : forall t, t ∉ [POLICIES; SETTINGS; HIDELIST; bs "denylist"; bs "sulist"; bs "logs"] -> m' !! t = m !! t }.

Lemma project_self cols r : NoDup cols -> length r = length cols -> project cols cols r = r.
Proof.
  revert r. induction cols as [|c cols IH]; intros [|v r] Hn Hl; try done. apply NoDup_cons in Hn as [Hc Hn].
  unfold project. cbn [map column]. rewrite bool_decide_eq_true_2 by done. f_equal.
  etrans; [|apply IH; [done|by injection Hl]]. apply map_ext_in. intros n Hin%list_elem_of_In. cbn [column].
  rewrite bool_decide_eq_false_2; [done|congruence].
Qed.

Lemma up7_rows m h : m !! HIDELIST = Some h -> table_ok h -> t_cols h = [bs "process"] ->
  exists h', up7 m !! HIDELIST = Some h' /\ t_rows h' = map (fun r => r ++ r) (t_rows h).
Proof.
  intros Eh (_ & Hl & _) Ec. unfold up7, rebuilt. rewrite Eh, lookup_insert_eq. eexists. split; [done|].
  cbn [t_rows]. rewrite Ec in *. apply map_ext_in. intros r Hr%list_elem_of_In. rewrite Forall_forall in Hl.
  specialize (Hl r Hr). destruct r as [|v [|]]; done.
Qed.

Lemma up8_rows m h : m !! HIDELIST = Some h -> table_ok h -> exists h', up8 m !! HIDELIST = Some h' /\ t_rows h' = t_rows h.
Proof.
  intros Eh (Hn & Hl & _). unfold up8, rebuilt. rewrite Eh, lookup_insert_eq. eexists. split; [done|].
  cbn [t_rows default]. etrans; [|apply map_id]. apply map_ext_in. intros r Hr%list_elem_of_In. rewrite Forall_forall in Hl.
  apply project_self; auto.
Qed.

Lemma up11_policies m p : m !! POLICIES = Some p ->
  up11 m !! POLICIES = Some (Table POLICY_NAMES [bs "uid"] (map (project (t_cols p) POLICY_NAMES) (t_rows p))).
Proof. intros E. unfold up11, rebuilt. by rewrite E, lookup_insert_eq. Qed.

(** The part of an upgrade that versions up to 10 share. *)
Definition late (v : Z) (m : gmap bytes table) : gmap bytes table :=
  let m := if v <=? 9 then up9 m else m in
  let m := if v <=? 10 then up10 m else m in
  if v <=? 11 then up11 m else m.

Lemma late_lookup v m t : t ∉ [POLICIES; bs "logs"] ->
  late v m !! t = if v <=? 10 then up10 m !! t else m !! t.
Proof.
  intros Ht. unfold late.
  assert (H11 : forall m', (if v <=? 11 then up11 m' else m') !! t = m' !! t).
  { intros m'. destruct (v <=? 11); [|done]. apply rebuilt_other. set_solver. }
  rewrite H11. destruct (Z.leb_spec v 10); [|by rewrite (proj2 (Z.leb_gt v 9)) by lia].
  rewrite !up10_lookup. destruct (v <=? 9); [|done].
  unfold up9. by rewrite lookup_delete_ne by set_solver.
Qed.

Lemma late_policies v m p : m !! POLICIES = Some p -> late v m !! POLICIES = Some
  (if v <=? 11 then Table POLICY_NAMES [bs "uid"] (map (project (t_cols p) POLICY_NAMES) (t_rows p)) else p).
Proof.
  intros Ep. unfold late.
  assert (E9 : (if v <=? 9 then up9 m else m) !! POLICIES = Some p)
    by (destruct (v <=? 9); [unfold up9; by rewrite lookup_delete_ne|done]).
  assert (E10 : forall m', m' !! POLICIES = Some p -> (if v <=? 10 then up10 m' else m') !! POLICIES = Some p)
    by (intros m' E; destruct (v <=? 10); [by rewrite up10_lookup|done]).
  destruct (v <=? 11); [apply up11_policies|]; by apply E10.
Qed.

Lemma upgraded_migrated v d : schema v d -> 7 <= v <= 12 -> migrated v (tables d) (upgraded v (tables d)).
Proof.
  intros (_ & _ & _ & H7 & H8) Hv. set (m := tables d) in *.
  set (m0 := if v =? 7 then up7 m else if v =? 8 then up8 m else m).
  change (upgraded v m) with (late v m0).
  assert (Hm0 : forall t, t <> HIDELIST -> m0 !! t = m !! t).
  { intros t Ht. unfold m0. destruct (v =? 7); [by apply rebuilt_other|]. destruct (v =? 8); [by apply rebuilt_other|done]. }
  split.
  - intros p Ep. rewrite <- Hm0 in Ep by done. rewrite (late_policies v m0 p Ep).
    by destruct (Z.eqb_spec v 12), (Z.leb_spec v 11); try lia.
  - rewrite late_lookup, !up10_lookup, Hm0 by (try set_solver; done). done.
  - intros h Eh. assert (Hh : exists h', m0 !! HIDELIST = Some h' /\
      t_rows h' = if v =? 7 then map (fun r => r ++ r) (t_rows h) else t_rows h).
    { unfold m0. destruct (Z.eqb_spec v 7) as [E7|]; [|destruct (Z.eqb_spec v 8) as [E8|]; [|eauto]].
      - destruct (H7 E7) as (h' & E' & Hh' & Ec & _). assert (h' = h) as -> by congruence. by apply up7_rows.
      - destruct (H8 E8) as (h' & E' & Hh' & _). assert (h' = h) as -> by congruence. by apply up8_rows. }
    destruct Hh as (h' & E' & Hr). exists h'. rewrite late_lookup, up10_lookup by set_solver.
    split; [|done]. rewrite E'. by destruct (v <=? 10).
  - intros t Ht. assert (Hn : t <> HIDELIST /\ (t ∉ [POLICIES; bs "logs"]) /\ t <> SETTINGS)
      by (set_unfold in Ht; destruct Ht as [->|[->|[]]]; set_solver).
    rewrite late_lookup, Hm0 by apply Hn. split.
    + intros x Ex. destruct (v <=? 10); [|done]. rewrite up10_lookup, Hm0, Ex by apply Hn.
      by set_unfold in Ht; destruct Ht as [->|[->|[]]].
    + intros Hv10. rewrite (proj2 (Z.leb_le _ _) Hv10), up10_lookup.
      set_unfold in Ht; destruct Ht as [->|[->|[]]]; by eexists.
  - intros t Ht. rewrite late_lookup, up10_lookup, Hm0 by set_solver.
    destruct (v <=? 10); [|done]. by rewrite !bool_decide_eq_false_2 by set_solver.
Qed.

(** ** Opening the database *)

(** The tables of a new file. *)
Definition fresh_tables : gmap bytes table :=
  ensure (bs "sulist") empty_list (ensure HIDELIST empty_list (ensure (bs "denylist") empty_list
  (ensure (bs "strings") (Table [KEY; bs "value"] [KEY] []) (ensure SETTINGS (Table [KEY; bs "value"] [KEY] [])
  (ensure POLICIES (Table POLICY_NAMES [bs "uid"] []) ∅))))).

Lemma migrate_fresh : migrate_ref 0 (Db ∅ 0 None) = RMig (Db fresh_tables 12 None) 12 true true.
Proof.
  unfold migrate_ref. cbn [changelog_ref fold_left]. unfold upgrade_ref at 6. cbn [rm_ok rm_ver rm_db rm_upgrade].
  change (true && (0 <=? 6)) with true. cbv iota. cbn [concat app exec_script]. unfold create_policy, create_settings, create_strings, create_list.
  rewrite !exec_create. reflexivity.
Qed.

Section opening.
Context `{SqliteLaws}.

(** The version of a database is read from the one row of the pragma. *)
Lemma get_version c d : shows c d -> exists c' cols,
  sql_exec_impl c GET_VERSION None = Ret (c', None, [(cols, [INTEGER (user_version d)])], SQLITE_OK) /\ shows c' d.
Proof.
  intros Hc. assert (Hp : GetVersion ∈ program_stmts) by (apply (bool_decide_unpack (_ ∈ _)); vm_compute; exact I).
  pose proof (sql_step 18 c d GetVersion GET_VERSION [] [] Hp Hc (or_introl (conj eq_refl eq_refl))) as HS.
  cbn [exec_stmt] in HS. destruct HS as (c' & rows & Hr & Hc' & E). apply Permutation_singleton_r in Hr as ->.
  exists c', (answer_columns GetVersion d). split; [|done]. exact E.
Qed.

Lemma open_migrates fuel f d c r : holds f d -> sqlite3_open_v2 f = (SQLITE_OK, c) -> user_version d <= 12 ->
  migrate_ref (user_version d) d = r -> rm_ok r = true ->
  exists c', open_and_init_db (S fuel) true f = Ret (Some c', f) /\ shows c' (rm_db r).
Proof.
  intros Hf Eo Hv Em Hok. cbn [open_and_init_db negb]. rewrite Eo. cbn [negb Z.eqb SQLITE_OK].
  destruct (get_version c d (open_law _ _ _ Hf Eo)) as (c1 & cols & -> & Hc1). cbn [obind negb Z.eqb SQLITE_OK last snd head default from_option column_int id].
   rewrite (proj2 (Z.ltb_ge DB_VERSION (user_version d))) by done.
  destruct (migrate_sim (user_version d) c1 d Hc1) as (m & -> & Hs & _ & _ & Ho). cbn [obind]. rewrite Em in Hs, Ho.
  rewrite Ho, Hok. eauto.
Qed.

(** C9: Upgrades of the database.  When SQLite can open the file, a database of a version
    from 7 to 12 that has the schema of its version is opened and brought to version 12 with
    what is in it: the policies with the columns that are left, the settings but for
    [magiskhide], which upgrades from versions up to 10 drop, the rows of the hide list (which
    version 7 kept without the package; the table stays, although the list of versions in the
    source says that version 11 removes it), existing lists of denied and of trusted
    processes, and every other table but the logs.  A database of a later version is replaced
    by an empty one. *)
Theorem open_upgrades f d : (forall g, (sqlite3_open_v2 g).1 = SQLITE_OK) -> holds f d ->
  (forall v, schema v d -> 7 <= v <= 12 -> exists c' d', open_and_init_db 1 true f = Ret (Some c', f) /\ shows c' d' /\
     user_version d' = 12 /\ txn d' = None /\ migrated v (tables d) (tables d')) /\
  (12 < user_version d -> exists c', open_and_init_db 2 true f = Ret (Some c', no_file) /\ shows c' (Db fresh_tables 12 None)).
Proof.
  intros Ho Hf. split.
  - intros v Hs Hv. destruct (sqlite3_open_v2 f) as [rc c0] eqn:Eo. specialize (Ho f) as Ho'. rewrite Eo in Ho'. cbn in Ho'. subst rc.
    pose proof (migrate_ref_ok v d Hs Hv) as Em. assert (Ev : user_version d = v) by apply Hs.
    destruct (open_migrates 0 f d c0 _ Hf Eo ltac:(lia) eq_refl) as (c' & E & Hc').
    { by rewrite Ev, Em. }
    rewrite Ev, Em in Hc'. eexists c', _. split; [exact E|]. split; [exact Hc'|]. split; [done|]. split; [done|].
    by apply upgraded_migrated.
  - intros Hv. assert (Hopen : forall g, exists c0, sqlite3_open_v2 g = (SQLITE_OK, c0)).
    { intros g. specialize (Ho g). destruct (sqlite3_open_v2 g) as [rc c0]. cbn in Ho. subst rc. by exists c0. }
    destruct (Hopen f) as [c0 Eo], (Hopen no_file) as [c1 Eo1].
    destruct (open_migrates 0 no_file _ c1 _ no_file_law Eo1 ltac:(done) migrate_fresh eq_refl) as (c' & E & Hc').
    exists c'. split; [|exact Hc']. rewrite <- E. clear E. cbn [open_and_init_db negb]. rewrite Eo. cbn [negb Z.eqb SQLITE_OK].
    destruct (get_version c0 d (open_law _ _ _ Hf Eo)) as (c2 & cols & -> & _).
    cbn [obind negb Z.eqb SQLITE_OK last snd head default from_option column_int id].
    rewrite (proj2 (Z.ltb_lt DB_VERSION (user_version d))) by done. done.
Qed.
End opening.

(** ** A database in memory *)

(** The rest of a text after one statement and its semicolon. *)
Fixpoint after_text (p text : bytes) : option bytes :=
  match p, text with
  | [], [] => Some []
  | [], c :: rest => if Byte.eqb c x3b then Some rest else None
  | b :: p, c :: text => if Byte.eqb b c then after_text p text else None
  | _ :: _, [] => None
  end.

Fixpoint parse_stmt (l : list stmt) (text : bytes) : option (stmt * bytes) :=
  match l with
  | [] => None
  | s :: l => match after_text (sql_text s) text with Some rest => Some (s, rest) | None => parse_stmt l text end
  end.

Fixpoint mem_exec (fuel : nat) (d : db) (text : bytes) (calls : list (list bytes * list (option bytes)))
  : db * list (list bytes * list (option bytes)) * option bytes :=
  match text, fuel with
  | [], _ => (d, calls, None)
  | _, O => (d, calls, Some (bs "too long"))
  | _, S fuel =>
    match parse_stmt program_stmts text with
    | Some (s, rest) =>
      match exec_stmt s d with
      | Some (d', rows) => mem_exec fuel d' rest (calls ++ map (fun r => (answer_columns s d, map column_text r)) rows)
      | None => (d, calls, Some (bs "error"))
      end
    | None => (d, calls, Some (bs "syntax error"))
    end
  end.

#[global] Instance mem_sqlite : SqliteLib := {
  disk := db;
  conn := db;
  sql_st := stmt * list bytes;
  no_file := Db ∅ 0 None;
  sqlite3_open_v2 f := (SQLITE_OK, f);
  sqlite3_close := rollback;
  sqlite3_prepare_v2 d text :=
    match parse_stmt program_stmts text with
    | Some (s, rest) => (SQLITE_OK, Some (s, answer_columns s d), rest)
    | None => (1, None, [])
    end;
  sqlite3_bind_parameter_count _ := O;
  sqlite3_bind st _ _ := (st, SQLITE_OK);
  sqlite3_column_names st := st.2;
  sqlite3_step d st :=
    match exec_stmt st.1 d with
    | Some (d', rows) => (d', rows, SQLITE_DONE)
    | None => (d, [], 1)
    end;
  sqlite3_exec d text := mem_exec (length text) d text [] }.

Lemma after_text_spec p : x3b ∉ p -> forall t, x3b ∉ t ->
  after_text p t = (if bool_decide (p = t) then Some [] else None) /\
  forall rest, after_text p (t ++ x3b :: rest) = if bool_decide (p = t) then Some rest else None.
Proof.
  induction p as [|b p IH]; intros Hp [|c t] Ht; cbn [after_text app]; try done.
  - assert (Byte.eqb c x3b = false) as -> by (apply not_true_is_false; intros ->%Byte.byte_dec_bl; set_solver). done.
  - split; [done|]. intros rest. destruct (Byte.eqb b x3b) eqn:E; [|done]. apply Byte.byte_dec_bl in E. set_solver.
  - destruct (Byte.eqb b c) eqn:E.
    + apply Byte.byte_dec_bl in E as ->. destruct (IH ltac:(set_solver) t ltac:(set_solver)) as [-> E2].
      rewrite (bool_decide_ext (c :: p = c :: t) (p = t)) by naive_solver. split; [done|exact E2].
    + assert (b <> c) by (intros ->; rewrite (Byte.byte_dec_lb eq_refl) in E; done).
      by rewrite bool_decide_eq_false_2 by congruence.
Qed.

(** No statement has a semicolon in it, and texts of statements are different. *)
Lemma program_plain s : s ∈ program_stmts -> (x3b ∉ sql_text s) /\
  List.find (fun s' => bool_decide (sql_text s' = sql_text s)) program_stmts = Some s.
Proof.
  intros Hs. assert (H : forallb (fun s => bool_decide (x3b ∉ sql_text s) &&
    bool_decide (List.find (fun s' => bool_decide (sql_text s' = sql_text s)) program_stmts = Some s)) program_stmts = true)
    by (vm_compute; reflexivity).
  rewrite forallb_forall in H. apply list_elem_of_In, H, andb_true_iff in Hs as [H1 H2]. by rewrite bool_decide_eq_true in H1, H2.
Qed.

Lemma parse_find l s text rest : s ∈ program_stmts -> Forall (.∈ program_stmts) l -> sql_input s text rest ->
  parse_stmt l text = (fun s => (s, rest)) <$> List.find (fun s' => bool_decide (sql_text s' = sql_text s)) l.
Proof.
  intros Hs Hl Ht. destruct (program_plain s Hs) as [Hp _]. induction Hl as [|s' l Hs' _ IH]; [done|]. cbn [parse_stmt List.find].
  destruct (after_text_spec (sql_text s') (proj1 (program_plain s' Hs')) (sql_text s) Hp) as [E1 E2].
  assert (after_text (sql_text s') text = if bool_decide (sql_text s' = sql_text s) then Some rest else None) as ->
    by (destruct Ht as [[-> ->]| ->]; auto).
  by case_bool_decide.
Qed.

Lemma parse_input s text rest : s ∈ program_stmts -> sql_input s text rest -> parse_stmt program_stmts text = Some (s, rest).
Proof.
  intros Hs Ht. rewrite (parse_find _ s text rest); [|done|by apply Forall_forall|done].
  by rewrite (proj2 (program_plain s Hs)).
Qed.

Lemma mem_exec_script l : Forall (.∈ program_stmts) l -> forall fuel d calls, (length l <= fuel)%nat ->
  exists calls' err, mem_exec fuel d (script_text l) calls = ((exec_script l d).1, calls', err) /\
    (err = None <-> (exec_script l d).2 = true).
Proof.
  induction 1 as [|s l Hs Hl IH]; intros fuel d calls Hf; [by exists calls, None; destruct fuel|].
  destruct fuel as [|fuel]; [simpl in Hf; lia|].
  assert (Ht : sql_input s (script_text (s :: l)) (script_text l)) by (right; unfold script_text; simpl; by rewrite <- app_assoc).
  assert (Hne : script_text (s :: l) <> []) by (intros E; pose proof (script_length (s :: l)) as Hl'; rewrite E in Hl'; simpl in Hl'; lia).
  pose proof (parse_input _ _ _ Hs Ht) as Ep. destruct (script_text (s :: l)) as [|b t] eqn:E; [done|]. cbn [mem_exec exec_script].
  rewrite Ep. destruct (exec_stmt s d) as [[d' rows]|]; [apply IH; simpl in Hf; lia|].
  eexists _, _. split; [reflexivity|]. by split.
Qed.

Ltac mem_lib := cbn [disk conn sql_st sqlite3_prepare_v2 sqlite3_column_names sqlite3_step sqlite3_exec mem_sqlite fst snd].

#[global] Instance mem_laws : SqliteLaws.
Proof.
  refine {| shows := fun c d => c = d; holds := fun f d => f = d |}.
  - intros f d c -> [= ->]. done.
  - by intros c d ->.
  - done.
  - intros c d s text rest Hs -> Ht. mem_lib. rewrite (parse_input _ _ _ Hs Ht). destruct (exec_stmt s d) as [[d' rows]|] eqn:E.
    + eexists _, _, _. split_and!; try reflexivity. mem_lib. by rewrite E.
    + right. eexists _, _, _, _. split; [reflexivity|]. mem_lib. rewrite E. done.
  - intros c d l text Hl -> [->|(s & -> & ->)]; mem_lib.
    + destruct (mem_exec_script l Hl (length (script_text l)) d [] (script_length l)) as (calls & err & E & He).
      exists (exec_script l d).1, calls, err. by rewrite E.
    + apply Forall_cons_1 in Hl as [Hs _]. pose proof (program_text s Hs). pose proof (parse_input s _ _ Hs (or_introl (conj eq_refl eq_refl))) as Ep.
      destruct (sql_text s) as [|b t] eqn:E; [done|]. cbn [length mem_exec]. rewrite Ep.
      cbn [exec_script]. destruct (exec_stmt s d) as [[d' rows]|]; eexists _, _, _; (split; [by destruct (length t)|]); cbn [exec_script fst snd]; by split.
  - intros c d s d' rows Hs -> Ex. eexists. split; [reflexivity|]. mem_lib. pose proof (program_text s Hs).
    pose proof (parse_input s _ _ Hs (or_introl (conj eq_refl eq_refl))) as Ep.
    destruct (sql_text s) as [|b t] eqn:E; [done|]. cbn [length mem_exec]. rewrite Ep, Ex. by destruct (length t).
Defined.

(** A database of version 7. *)
Definition sample_7 : db :=
  Db (<[POLICIES := Table (bs "uid" :: bs "package_name" :: tail POLICY_NAMES) [bs "uid"]
          [[INTEGER 10100; TEXT (bs "com.app"); INTEGER 2; INTEGER 0; INTEGER 1; INTEGER 1]]]>
     (<[SETTINGS := Table [KEY; bs "value"] [KEY] [[TEXT (bs "magiskhide"); INTEGER 1]; [TEXT (bs "mnt_ns"); INTEGER 2]]]>
     (<[HIDELIST := Table [bs "process"] [bs "process"] [[TEXT (bs "com.bank")]; [TEXT (bs "com.game")]]]>
     (<[bs "logs" := Table [bs "time"] [] []]> ∅)))) 7 None.

Lemma sample_7_ok : schema 7 sample_7.
Proof.
  assert (Hok : forall x, unique (t_cols x) (t_pk x) (t_rows x) && bool_decide (NoDup (t_cols x)) &&
    forallb (fun r => length r =? length (t_cols x))%nat (t_rows x) = true -> table_ok x).
  { intros x. rewrite !andb_true_iff, bool_decide_eq_true, forallb_forall. intros [[H1 H2] H3]. split_and!; [done| |done].
    apply Forall_forall. intros r Hr%list_elem_of_In. by apply Nat.eqb_eq, H3. }
  split_and!; [done|done| | |done].
  - split_and!; [| |done|done]; (eexists; split; [reflexivity|]).
    + split_and!; [apply Hok; vm_compute; reflexivity|done|done].
    + split_and!; [apply Hok; vm_compute; reflexivity|done|done].
  - intros _. eexists. split; [reflexivity|]. split_and!; [apply Hok; vm_compute; reflexivity|done|done].
Qed.

Lemma open_upgrades_witness : exists (c' : db) h, @open_and_init_db mem_sqlite 1 true sample_7 = Ret (Some c', sample_7) /\
  tables c' !! HIDELIST = Some h /\
  t_rows h = [[TEXT (bs "com.bank"); TEXT (bs "com.bank")]; [TEXT (bs "com.game"); TEXT (bs "com.game")]] /\
  tables c' !! POLICIES = Some (Table POLICY_NAMES [bs "uid"] [[INTEGER 10100; INTEGER 2; INTEGER 0; INTEGER 1; INTEGER 1]]).
Proof.
  destruct (proj1 (@open_upgrades mem_sqlite mem_laws sample_7 sample_7 (fun _ => eq_refl) eq_refl) 7 sample_7_ok ltac:(lia))
    as (c' & d' & E & Hc & _ & _ & Hm). cbn in Hc. subst d'.
  destruct (mg_hidelist _ _ _ Hm _ eq_refl) as (h & Eh & Hr).
  exists c', h. split; [exact E|]. split; [exact Eh|]. split; [exact Hr|]. exact (mg_policies _ _ _ Hm _ eq_refl).
Defined.

(** The parameters of a script are bound in order, across its statements. *)
Lemma bind_args_spec `{SqliteLib} n : forall index st a st' a' rc, (curr a <= length (args a))%nat ->
  bind_args n index st a = (st', a', rc) -> rc = SQLITE_OK ->
  args a' = args a /\ curr a' = Nat.min (curr a + n) (length (args a)).
Proof.
  induction n as [|n IH]; intros index st a st' a' rc Hc; cbn [bind_args].
  - intros [= _ <- _] _. split; [done|]. lia.
  - unfold bind_arg. destruct (args a !! curr a) as [v|] eqn:Ev.
    + destruct (sqlite3_bind st index v) as [st1 rc1]. apply lookup_lt_Some in Ev as Hlt. destruct (Z.eqb_spec rc1 SQLITE_OK).
      * intros E Hrc. apply IH in E as [E1 E2]; [|cbn; lia|done]. cbn [args curr] in E1, E2. split; [done|lia].
      * intros [= _ _ <-] Hrc. done.
    + apply lookup_ge_None in Ev. change (SQLITE_OK =? SQLITE_OK) with true. cbv iota.
      intros E Hrc. apply IH in E as [E1 E2]; [|done|done]. split; [done|lia].
Qed.
