(* ===== verification/Db.v ===== *)
(** Settings and queries: [native/src/core/db.cpp] and [include/db.hpp], the second
    user of the database file, with its own upgrades, the table of settings, and the
    query command of [core/magisk.cpp].  SQLite is the class of [Sql]. *)

From S2P Require Import Prelude Base OrdMap Daemon Sql.

(** ** Dictionaries with fixed keys *)

(** [get_idx]: the index of a key, or the one past the last. *)
Fixpoint get_idx (keys : list bytes) (key : bytes) : nat :=
  match keys with
  | [] => O
  | k :: keys => if bool_decide (key = k) then O else S (get_idx keys key)
  end.

Definition ROOT_ACCESS : nat := 0.
Definition SU_BIOMETRIC : nat := 1.
Definition SU_MULTIUSER_MODE : nat := 2.
Definition SU_MNT_NS : nat := 3.
Definition DENYLIST_CONFIG : nat := 4.
Definition SULIST_CONFIG : nat := 5.
Definition NETHUNTER_MODE_CONFIG : nat := 6.
Definition ZYGISK_CONFIG : nat := 9.

Definition ROOT_ACCESS_APPS_AND_ADB : Z := 3.
Definition BIOMETRIC_DISABLED : Z := 0.
Definition MULTIUSER_MODE_OWNER_ONLY : Z := 0.
Definition NAMESPACE_MODE_REQUESTER : Z := 1.

(** [db_dict::data] has one element more than there are keys; [None] is an element that
    was never assigned. *)
Definition db_settings_new : list (option Z) :=
  let data := replicate (S (length SETTING_KEYS)) None in
  let data := <[ROOT_ACCESS := Some ROOT_ACCESS_APPS_AND_ADB]> data in
  let data := <[SU_BIOMETRIC := Some BIOMETRIC_DISABLED]> data in
  let data := <[SU_MULTIUSER_MODE := Some MULTIUSER_MODE_OWNER_ONLY]> data in
  let data := <[SU_MNT_NS := Some NAMESPACE_MODE_REQUESTER]> data in
  let data := <[DENYLIST_CONFIG := Some 0]> data in
  let data := <[ZYGISK_CONFIG := Some 0]> data in
  <[SULIST_CONFIG := Some 0]> data.

(** [cfg[key] = v]; the index is checked. *)
Definition dict_set {A} (keys : list bytes) (key : bytes) (v : A) (data : list (option A)) : outcome (list (option A)) :=
  let i := get_idx keys key in
  if (i <? length data)%nat then Ret (<[i := Some v]> data) else Fault.

(** ** Rows *)

(** [sqlite_db_row_callback]: the columns in a map; a null pointer is not a string. *)
Fixpoint make_row (cols : list bytes) (data : list (option bytes)) (row : list (bytes * bytes))
  : outcome (list (bytes * bytes)) :=
  match cols, data with
  | c :: cols, Some v :: data => make_row cols data (oemplace fst (c, v) (oerase fst c row))
  | _ :: _, None :: _ => Fault
  | _, _ => Ret row
  end.

(** [row[k]]: an empty view when the key is not there. *)
Definition row_get (row : list (bytes * bytes)) (k : bytes) : bytes := from_option snd [] (ofind fst k row).

(** ** Upgrades *)

Section db.
Context `{SqliteLib}.

Definition CLEANUP : bytes :=
  bs "REPLACE INTO settings (key,value) VALUES('denylist',0);" ++ CREATE_HIDELIST ++ bs ";" ++ CREATE_SULIST ++ bs ";".

(** [sqlite3_exec] without a callback: whether there was no error. *)
Definition db_run (c : conn) (sql : bytes) : outcome (conn * bool) :=
  let '(c, _, err) := sqlite3_exec c sql in Ret (c, bool_decide (err = None)).

(** The blocks of [open_and_init_db] in [db.cpp]. *)
Definition db_changelog : list ((Z -> bool) * list bytes * Z) :=
  [(fun ver => ver <=? 6, [CREATE_POLICY; CREATE_SETTINGS; CREATE_STRINGS; CREATE_DENYLIST], DB_VERSION);
   (fun ver => (ver =? 7) || (ver =? 8), [REBUILD_HIDELIST_8], 9);
   (Z.eqb 9, [DROP_LOGS], 10);
   (Z.eqb 10, [CREATE_DENYLIST], 11);
   (Z.eqb 11, [REBUILD_POLICIES], 12)].

(** [open_and_init_db(mDB)]: the new value of the reference ([None] when it is not
    assigned) and whether there was no error. *)
Definition db_open (loaded : bool) (f : disk) : outcome (option conn * bool) :=
  if negb loaded then Ret (None, false)
  else
    let '(rc, c) := sqlite3_open_v2 f in
    if negb (rc =? SQLITE_OK) then Ret (Some c, false)
    else
      let '(c, calls, err) := sqlite3_exec c GET_VERSION in
      let! ver := foldl (fun ver call =>
          let! _ := ver in match snd call with Some t :: _ => parse_int t | _ => Fault end) (Ret 0) calls in
      if negb (bool_decide (err = None)) then Ret (Some c, false)
      else if DB_VERSION <? ver then Ret (Some c, false)
      else
        let! m := upgrades db_run db_changelog (Mig c ver false true) in
        let! m := set_version db_run (bs "PRAGMA user_version=" ++ print_dec (mg_ver m)) m in
        if mg_ok m then
          let! (c, _) := db_run (mg_conn m) CLEANUP in Ret (Some c, true)
        else Ret (Some (mg_conn m), false).

Record dbst := DbSt { mDB : option conn; db_file : disk }.

(** The beginning of [db_exec_impl]: a database that cannot be opened is deleted. *)
Definition ensure_open (loaded : bool) (st : dbst) : outcome (dbst * bool) :=
  match mDB st with
  | Some _ => Ret (st, true)
  | None =>
    let! (c, ok) := db_open loaded (db_file st) in
    if ok then Ret (DbSt c (db_file st), true)
    else
      let! (c', ok) := db_open loaded no_file in
      Ret (DbSt (match c' with Some _ => c' | None => c end) no_file, ok)
  end.

(** [db_exec_impl]: the calls of the callback and whether there was no error. *)
Definition db_exec_impl (loaded : bool) (sql : bytes) (st : dbst)
  : outcome (dbst * list (list bytes * list (option bytes)) * bool) :=
  let! (st, ok) := ensure_open loaded st in
  if negb ok then Ret (st, [], false)
  else match mDB st with
  | None => Ret (st, [], true)
  | Some c => let '(c, calls, err) := sqlite3_exec c sql in Ret (DbSt (Some c) (db_file st), calls, bool_decide (err = None))
  end.

(** The rows of a query go through a callback, in order. *)
Fixpoint each_row {A} (f : list (bytes * bytes) -> A -> outcome A) (calls : list (list bytes * list (option bytes))) (a : A)
  : outcome A :=
  match calls with
  | [] => Ret a
  | (cols, data) :: calls => let! row := make_row cols data [] in let! a := f row a in each_row f calls a
  end.

(** [SELECT * FROM t], or for one key; the buffer has room for every key. *)
Definition dict_query (t : bytes) (keys : list bytes) (key : Z) : bytes :=
  bs "SELECT * FROM " ++ t ++
  match (if 0 <=? key then keys !! Z.to_nat key else None) with
  | Some k => bs " WHERE key='" ++ k ++ bs "'"
  | None => []
  end.

Definition settings_cb (row : list (bytes * bytes)) (cfg : list (option Z)) : outcome (list (option Z)) :=
  let! v := parse_int (row_get row (bs "value")) in dict_set SETTING_KEYS (row_get row KEY) v cfg.

Definition get_db_settings (loaded : bool) (cfg : list (option Z)) (key : Z) (st : dbst)
  : outcome (dbst * list (option Z) * Z) :=
  let! (st, calls, ok) := db_exec_impl loaded (dict_query SETTINGS SETTING_KEYS key) st in
  let! cfg := each_row settings_cb calls cfg in
  Ret (st, cfg, if ok then 0 else 1).

Definition string_cb (row : list (bytes * bytes)) (str : list (option bytes)) : outcome (list (option bytes)) :=
  dict_set STRING_KEYS (row_get row KEY) (row_get row (bs "value")) str.

Definition get_db_strings (loaded : bool) (str : list (option bytes)) (key : Z) (st : dbst)
  : outcome (dbst * list (option bytes) * Z) :=
  let! (st, calls, ok) := db_exec_impl loaded (dict_query (bs "strings") STRING_KEYS key) st in
  let! str := each_row string_cb calls str in
  Ret (st, str, if ok then 0 else 1).

(** ** Queries of clients *)

(** The line of a row. *)
Fixpoint row_text (row : list (bytes * bytes)) : bytes :=
  match row with
  | [] => []
  | [(k, v)] => k ++ bs "=" ++ v
  | (k, v) :: row => k ++ bs "=" ++ v ++ bs "|" ++ row_text row
  end.

(** [exec_sql]: what is written to the client; the error is only logged. *)
Definition exec_sql (loaded : bool) (client : bytes) (st : dbst) : outcome (dbst * bytes) :=
  let! (sql, _, _) := read_string client in
  let! (st, calls, _) := db_exec_impl loaded (cstr sql) st in
  let! out := each_row (fun row out => Ret (out ++ write_string (row_text row))) calls [] in
  Ret (st, out ++ write_int 0).
End db.

(** [magisk --sqlite]: the lines printed. *)
Fixpoint sqlite_cmd (fuel : nat) (s : bytes) : outcome (list bytes) :=
  match fuel with
  | O => Loop
  | S fuel =>
    let! (res, _, s) := read_string s in
    match res with
    | [] => Ret []
    | _ => let! l := sqlite_cmd fuel s in Ret (cstr res :: l)
    end
  end.

(** ** Reading settings *)

Lemma get_idx_bound ks k : (get_idx ks k <= length ks)%nat.
Proof. induction ks as [|k' ks IH]; simpl; [lia|]. case_bool_decide; lia. Qed.

Lemma get_idx_lookup ks k i : NoDup ks -> ks !! i = Some k -> get_idx ks k = i.
Proof.
  revert i. induction ks as [|k' ks IH]; intros i Hn Hi; [done|]. apply NoDup_cons in Hn as [Hk Hn]. cbn [get_idx].
  destruct i as [|i]; cbn in Hi; [injection Hi as ->; by rewrite bool_decide_eq_true_2|].
  rewrite bool_decide_eq_false_2; [f_equal; by apply IH|]. intros ->. apply Hk. by eapply list_elem_of_lookup_2.
Qed.

Lemma get_idx_inv ks k k' i : ks !! i = Some k -> get_idx ks k' = i -> k' = k.
Proof.
  revert i. induction ks as [|a ks IH]; intros i Hi Hg; [done|]. cbn [get_idx] in Hg. case_bool_decide as Hb.
  - subst. cbn in Hi. congruence.
  - subst i. cbn in Hi. by eapply IH.
Qed.

Lemma setting_keys_nodup : NoDup SETTING_KEYS.
Proof. apply (bool_decide_unpack (NoDup _)). vm_compute. exact I. Qed.

(** A row of the settings table as the program writes them. *)
Definition setting_row (r : row) : Prop := exists k z, r = [TEXT k; INTEGER z] /\ 0 <= z < 2 ^ 31.

Lemma setting_call k z cfg : 0 <= z < 2 ^ 31 -> (S (length SETTING_KEYS) = length cfg)%nat ->
  (let! row := make_row [KEY; bs "value"] (map column_text [TEXT k; INTEGER z]) [] in settings_cb row cfg) =
  Ret (<[get_idx SETTING_KEYS k := Some z]> cfg).
Proof.
  intros Hz Hl. assert (make_row [KEY; bs "value"] (map column_text [TEXT k; INTEGER z]) [] =
    Ret [(KEY, k); (bs "value", if z <? 0 then x2d :: print_dec (- z) else print_dec z)]) as -> by reflexivity.
  rewrite (proj2 (Z.ltb_ge _ _)) by lia. cbn [obind]. unfold settings_cb.
  change (row_get _ (bs "value")) with (print_dec z). rewrite parse_int_print by done. cbn [obind].
  change (row_get _ KEY) with k. unfold dict_set. rewrite (proj2 (Nat.ltb_lt _ _)); [done|].
  pose proof (get_idx_bound SETTING_KEYS k). lia.
Qed.

(** The value a list of rows gives a setting. *)
Definition stored (rows : list row) (k : bytes) : option Z :=
  head (omap (fun r => match r with [TEXT k'; INTEGER z] => if bool_decide (k' = k) then Some z else None | _ => None end) rows).

Definition row_key (r : row) : value := column [KEY; bs "value"] r KEY.

Lemma stored_cons k z rows k' : stored ([TEXT k; INTEGER z] :: rows) k' = if bool_decide (k = k') then Some z else stored rows k'.
Proof. unfold stored. cbn. by case_bool_decide. Qed.

Lemma stored_none rows k : Forall setting_row rows -> TEXT k ∉ map row_key rows -> stored rows k = None.
Proof.
  induction 1 as [|r rows (k' & z & -> & _) _ IH]; intros Hk; [done|]. rewrite stored_cons. cbn [map] in Hk.
  change (row_key [TEXT k'; INTEGER z]) with (TEXT k') in Hk. rewrite bool_decide_eq_false_2 by set_solver. apply IH. set_solver.
Qed.

Lemma settings_calls rows : Forall setting_row rows -> NoDup (map row_key rows) ->
  forall cfg, length cfg = S (length SETTING_KEYS) -> exists cfg',
  each_row settings_cb (map (fun r => ([KEY; bs "value"], map column_text r)) rows) cfg = Ret cfg' /\
  length cfg' = length cfg /\
  forall i k, SETTING_KEYS !! i = Some k ->
    cfg' !! i = match stored rows k with Some z => Some (Some z) | None => cfg !! i end.
Proof.
  induction 1 as [|r rows (k & z & -> & Hz) Hr IH]; intros Hn cfg Hl; [by exists cfg|].
  cbn [map] in Hn. apply NoDup_cons in Hn as [Hk Hn]. change (row_key [TEXT k; INTEGER z]) with (TEXT k) in Hk.
  destruct (IH Hn (<[get_idx SETTING_KEYS k := Some z]> cfg)) as (cfg' & E & Hl' & Hc); [by rewrite length_insert|].
  exists cfg'. rewrite length_insert in Hl'. split; [|split; [done|]].
  - cbn [map each_row]. pose proof (setting_call k z cfg Hz ltac:(lia)) as E1.
    destruct (make_row _ _ []) as [row| | |] eqn:Em; try done. cbn [obind] in E1 |- *. by rewrite E1.
  - intros i k' Hi. rewrite (Hc i k' Hi), stored_cons. case_bool_decide as Hb.
    + subst k'. rewrite stored_none by done. rewrite (get_idx_lookup _ k i setting_keys_nodup Hi).
      apply list_lookup_insert_eq. rewrite Hl. apply lookup_lt_Some in Hi. lia.
    + destruct (stored rows k') as [z'|]; [done|]. apply list_lookup_insert_ne. intros Eg. apply Hb.
      exact (get_idx_inv _ _ _ _ Hi Eg).
Qed.

Lemma stored_spec rows k z : Forall setting_row rows -> NoDup (map row_key rows) ->
  stored rows k = Some z <-> [TEXT k; INTEGER z] ∈ rows.
Proof.
  induction 1 as [|r rows (k' & z' & -> & _) Hr IH]; intros Hn; [by split; [|intros ?%elem_of_nil]|].
  cbn [map] in Hn. apply NoDup_cons in Hn as [Hk Hn]. change (row_key [TEXT k'; INTEGER z']) with (TEXT k') in Hk.
  rewrite stored_cons, elem_of_cons. case_bool_decide as Hb.
  - subst k'. split; [intros [= ->]; by left|]. intros [[= ->]|Hin]; [done|]. exfalso. apply Hk.
    exact (list_elem_of_fmap_2 row_key _ _ Hin).
  - rewrite (IH Hn). naive_solver.
Qed.

(** The keys of the table are different texts. *)
Lemma settings_nodup x : settings_ok x -> Forall setting_row (t_rows x) -> NoDup (map row_key (t_rows x)).
Proof.
  intros ((_ & _ & Hu) & Ec & Ek) Hr. rewrite Ec, Ek in Hu. unfold unique, keys in Hu. apply bool_decide_eq_true in Hu.
  induction Hr as [|r rows (k & z & -> & _) Hr IH]; [constructor|]. cbn [map] in Hu |- *. rewrite filter_cons, decide_True in Hu by done.
  apply NoDup_cons in Hu as [Hk Hu]. apply NoDup_cons. split; [|auto]. intros Hin. apply Hk, list_elem_of_filter. split; [done|].
  apply list_elem_of_fmap in Hin as (r' & E & Hr'). apply list_elem_of_fmap. exists r'. split; [exact (f_equal (fun v => [v]) E)|done].
Qed.

Lemma filter_setting (P : row -> Prop) `{!forall r, Decision (P r)} rows : Forall setting_row rows -> NoDup (map row_key rows) ->
  Forall setting_row (filter P rows) /\ NoDup (map row_key (filter P rows)).
Proof.
  intros Hr Hn. split; [apply Forall_forall; rewrite Forall_forall in Hr; intros r [_ Hin]%list_elem_of_filter; auto|]. eapply sublist_NoDup; [exact Hn|]. apply (fmap_sublist row_key), sublist_filter.
Qed.

Section reading.
Context `{SqliteLaws}.

(** A query of the program on an open database. *)
Lemma query_calls c f s d' d rows : s ∈ program_stmts -> shows c d -> exec_stmt s d = Some (d', rows) ->
  exists c' rows', db_exec_impl true (sql_text s) (DbSt (Some c) f) =
    Ret (DbSt (Some c') f, map (fun r => (answer_columns s d, map column_text r)) rows', true) /\
    rows' ≡ₚ rows /\ shows c' d'.
Proof.
  intros Hs Hc Ex. destruct (exec_query_law c d s d' rows Hs Hc Ex) as (calls & Ec & Hp).
  destruct (exec_law c d [s] (sql_text s)) as (c' & calls' & err & E & Hc' & He); [by constructor|done|right; by exists s|].
  rewrite E in Ec. cbn in Ec. subst calls'. cbn [exec_script] in Hc', He. rewrite Ex in Hc', He. cbn in Hc', He.
  apply Permutation_map_inv in Hp as (rows' & -> & Hp). exists c', rows'. split; [|done].
  unfold db_exec_impl, ensure_open. cbn [mDB obind negb db_file]. rewrite E. by rewrite bool_decide_eq_true_2 by (by apply He).
Qed.

Lemma settings_query i : (i < length SETTING_KEYS)%nat -> exists k, SETTING_KEYS !! i = Some k /\
  dict_query SETTINGS SETTING_KEYS (Z.of_nat i) = sql_text (SelectKey SETTINGS k) /\ SelectKey SETTINGS k ∈ program_stmts.
Proof.
  intros Hi. destruct (lookup_lt_is_Some_2 _ _ Hi) as [k Ek]. exists k. split; [done|]. split.
  - unfold dict_query. rewrite (proj2 (Z.leb_le _ _)), Nat2Z.id, Ek by lia. done.
  - apply list_elem_of_lookup_2 in Ek. unfold program_stmts. rewrite !elem_of_app. do 6 right. left. by apply (list_elem_of_fmap_2 (SelectKey SETTINGS)).
Qed.

(** The answer to any query of the settings goes into the dictionary. *)
Lemma read_settings c f d s rows cfg : shows c d -> length cfg = S (length SETTING_KEYS) ->
  s ∈ program_stmts -> exec_stmt s d = Some (d, rows) -> answer_columns s d = [KEY; bs "value"] ->
  Forall setting_row rows -> NoDup (map row_key rows) -> exists c' cfg',
  (let! (st, calls, ok) := db_exec_impl true (sql_text s) (DbSt (Some c) f) in
   let! cfg := each_row settings_cb calls cfg in Ret (st, cfg, if ok then 0 else 1)) = Ret (DbSt (Some c') f, cfg', 0) /\
  shows c' d /\ length cfg' = length cfg /\ forall i k, SETTING_KEYS !! i = Some k ->
    cfg' !! i = match stored rows k with Some z => Some (Some z) | None => cfg !! i end.
Proof.
  intros Hc Hl Hs Es Ea Hr Hn. destruct (query_calls c f s d d rows Hs Hc Es) as (c' & rows' & -> & Hp & Hc').
  rewrite Ea. cbn [obind].
  assert (Hr' : Forall setting_row rows') by (by rewrite Hp).
  assert (Hn' : NoDup (map row_key rows')).
  { assert (Hm : map row_key rows' ≡ₚ map row_key rows) by (by apply Permutation_map). by rewrite Hm. }
  destruct (settings_calls rows' Hr' Hn' cfg Hl) as (cfg' & -> & Hl' & Hcfg).
  exists c', cfg'. cbn [obind]. split_and!; [done|done|done|]. intros i k Hi. rewrite (Hcfg i k Hi).
  assert (stored rows' k = stored rows k) as ->; [|done]. apply option_eq. intros z. by rewrite !stored_spec, Hp.
Qed.

(** Reading settings.  With the whole table every setting that is stored gets its
    value and every other keeps its default; with one key only that setting changes.
    Keys the program does not know are put in the spare element, never outside. *)
Theorem get_db_settings_spec c f d x cfg : shows c d -> tables d !! SETTINGS = Some x -> settings_ok x ->
  Forall setting_row (t_rows x) -> length cfg = S (length SETTING_KEYS) ->
  (exists c' cfg', get_db_settings true cfg (-1) (DbSt (Some c) f) = Ret (DbSt (Some c') f, cfg', 0) /\ shows c' d /\
     length cfg' = length cfg /\ forall i k, SETTING_KEYS !! i = Some k ->
       cfg' !! i = match stored (t_rows x) k with Some z => Some (Some z) | None => cfg !! i end) /\
  (forall j kj, SETTING_KEYS !! j = Some kj -> exists c' cfg',
     get_db_settings true cfg (Z.of_nat j) (DbSt (Some c) f) = Ret (DbSt (Some c') f, cfg', 0) /\ shows c' d /\
     forall i k, SETTING_KEYS !! i = Some k ->
       cfg' !! i = match stored (t_rows x) k with
                   | Some z => if bool_decide (i = j) then Some (Some z) else cfg !! i
                   | None => cfg !! i
                   end).
Proof.
  intros Hc Ex Hx Hr Hl. pose proof (settings_nodup x Hx Hr) as Hn. destruct Hx as (_ & Ecols & _).
  split.
  - apply (read_settings c f d (SelectAll SETTINGS) (t_rows x)); try done; [|unfold exec_stmt; by rewrite Ex|unfold answer_columns; by rewrite Ex].
    apply (bool_decide_unpack (_ ∈ _)). vm_compute. exact I.
  - intros j kj Hj. destruct (settings_query j ltac:(by eapply lookup_lt_Some)) as (k' & Ek & Eq & Hs).
    assert (k' = kj) as -> by congruence.
    destruct (filter_setting (fun r => column (t_cols x) r KEY = TEXT kj) (t_rows x) Hr Hn) as [Hfr Hfn].
    destruct (read_settings c f d (SelectKey SETTINGS kj) _ cfg Hc Hl Hs ltac:(unfold exec_stmt; rewrite Ex; cbn [mbind option_bind]; rewrite Ecols; reflexivity)
      ltac:(unfold answer_columns; by rewrite Ex) ltac:(by rewrite Ecols in Hfr) ltac:(by rewrite Ecols in Hfn)) as (c' & cfg' & E & Hc' & _ & Hcfg).
    exists c', cfg'. unfold get_db_settings. rewrite Eq. split; [exact E|]. split; [done|]. intros i k Hi. rewrite (Hcfg i k Hi).
    destruct (decide (i = j)) as [->|Nij].
    + assert (k = kj) as -> by congruence. rewrite (bool_decide_eq_true_2 (j = j)) by done.
      assert (stored (filter (fun r => column [KEY; bs "value"] r KEY = TEXT kj) (t_rows x)) kj = stored (t_rows x) kj) as ->; [|done].
      rewrite Ecols in Hfr, Hfn. apply option_eq. intros z. rewrite !stored_spec, list_elem_of_filter by done. naive_solver.
    + rewrite (bool_decide_eq_false_2 (i = j)) by done.
      rewrite stored_none; [by destruct (stored _ _)|by rewrite Ecols in Hfr|].
      intros (r & E1 & [E2 _]%list_elem_of_filter)%list_elem_of_fmap. assert (k = kj) as -> by (unfold row_key in E1; congruence).
      apply Nij. by rewrite <- (get_idx_lookup _ _ _ setting_keys_nodup Hi), <- (get_idx_lookup _ _ _ setting_keys_nodup Hj).
Qed.
End reading.

(** ** Upgrades *)

Definition db_changelog_ref : list ((Z -> bool) * list (list stmt) * Z) :=
  [(fun ver => ver <=? 6, [[create_policy]; [create_settings]; [create_strings]; [create_list (bs "denylist")]], DB_VERSION);
   (fun ver => (ver =? 7) || (ver =? 8), [rebuild_hidelist None], 9);
   (Z.eqb 9, [[DropIfExists (bs "logs")]], 10);
   (Z.eqb 10, [[create_list (bs "denylist")]], 11);
   (Z.eqb 11, [rebuild_policies], 12)].

Definition db_migrate_ref (v : Z) (d : db) : rmig :=
  set_version_ref (fold_left (fun m e => upgrade_ref e m) db_changelog_ref (RMig d v false true)).

Definition cleanup_stmts : list stmt :=
  [ReplaceKey SETTINGS (bs "denylist") 0; create_list HIDELIST; create_list (bs "sulist")].

Lemma db_changelog_blocks : Forall2 same_block db_changelog db_changelog_ref.
Proof.
  destruct source_texts as (?&?&?&?&?&?&?&?&?&?&?&?&?). unfold db_changelog, db_changelog_ref.
  repeat (apply List.Forall2_cons; [split; [reflexivity|split; [reflexivity|]]; cbn [fst snd];
    repeat (apply List.Forall2_cons; [split; [assumption|program]|]); apply List.Forall2_nil|]); apply List.Forall2_nil.
Qed.

(** The effect on the tables, for databases that are not of version 7. *)
Definition db_up10 : gmap bytes table -> gmap bytes table := ensure (bs "denylist") empty_list.
Definition db_upgraded (v : Z) (m : gmap bytes table) : gmap bytes table :=
  let m := if v =? 8 then up8 m else m in
  let m := if v <=? 9 then up9 m else m in
  let m := if v <=? 10 then db_up10 m else m in
  if v <=? 11 then up11 m else m.

Lemma ensure_keep t x m : t ∉ [POLICIES; SETTINGS; bs "policies_tmp"; bs "hidelist_tmp"] -> tables_ok m -> tables_ok (ensure t x m).
Proof.
  intros Ht Hm. apply (tables_ok_keep m); [done|]. intros i Hi. rewrite ensure_lookup, bool_decide_eq_false_2; [done|].
  intros ->. done.
Qed.

Lemma db_from_10 d u : tables_ok (tables d) -> txn d = None ->
  set_version_ref (fold_left (fun m e => upgrade_ref e m) (drop 3 db_changelog_ref) (RMig d 10 u true)) =
  RMig (Db (up11 (db_up10 (tables d))) 12 None) 12 true true.
Proof.
  intros Hm Ht. cbn [drop db_changelog_ref fold_left]. unfold upgrade_ref at 2. cbn [rm_ok rm_ver rm_db rm_upgrade].
  change (true && (10 =? 10)) with true. cbv iota. cbn [concat app exec_script]. unfold create_list at 1. rewrite exec_create. cbv iota beta.
  unfold upgrade_ref. cbn [rm_ok rm_ver rm_db rm_upgrade]. change (true && (11 =? 11)) with true. cbv iota.
  cbn [concat]. rewrite app_nil_r, exec_11; [done|done|]. apply ensure_keep; [|done].
  apply (bool_decide_unpack (_ ∉ _)). vm_compute. exact I.
Qed.

Lemma db_from_9 d u : tables_ok (tables d) -> txn d = None ->
  set_version_ref (fold_left (fun m e => upgrade_ref e m) (drop 2 db_changelog_ref) (RMig d 9 u true)) =
  RMig (Db (up11 (db_up10 (up9 (tables d)))) 12 None) 12 true true.
Proof.
  intros Hm Ht. etrans; [|apply (db_from_10 (Db (up9 (tables d)) (user_version d) None) true); [by apply up9_keep|done]].
  cbn [drop db_changelog_ref fold_left]. do 3 f_equal. unfold upgrade_ref. cbn. unfold set_tables. by rewrite Ht.
Qed.

Lemma db_migrate_ok v d : schema v d -> 8 <= v <= 12 ->
  db_migrate_ref v d = RMig (Db (db_upgraded v (tables d)) 12 None) 12 (v <=? 11) true.
Proof.
  intros (Hv & Ht & Hm & _ & H8) Hr. unfold db_migrate_ref.
  assert (v = 8 \/ v = 9 \/ v = 10 \/ v = 11 \/ v = 12) as [->|[->|[->|[->| ->]]]] by lia.
  - destruct (H8 eq_refl) as (h & Eh & Hh & Ec & Ek).
    change (db_upgraded 8 (tables d)) with (up11 (db_up10 (up9 (up8 (tables d))))).
    etrans; [|apply (db_from_9 (Db (up8 (tables d)) (user_version d) None) true); [by apply up8_keep|done]].
    cbn [drop db_changelog_ref fold_left]. do 4 f_equal. unfold upgrade_ref. cbn [rm_ok rm_ver rm_db rm_upgrade].
    change (true && (8 <=? 6)) with false. cbv iota. cbn [rm_ok rm_ver rm_db rm_upgrade].
    change (true && ((8 =? 7) || (8 =? 8))) with true. cbv iota. cbn [concat]. rewrite app_nil_r, (exec_8 _ h) by (try done; apply Hm). done.
  - by apply (db_from_9 d false).
  - by apply (db_from_10 d false).
  - cbn [db_changelog_ref fold_left]. unfold upgrade_ref. cbn -[exec_script rebuild_policies].
    rewrite app_nil_r, exec_11 by done. done.
  - destruct d as [m w x]. cbn in Hv, Ht. by subst w x.
Qed.

(** Version 7 has no column for the package: its rows do not fit. *)
Lemma db_migrate_7 d : schema 7 d -> rm_ok (db_migrate_ref 7 d) = false.
Proof.
  intros (_ & Ht & (_ & _ & _ & Et) & H7 & _). destruct (H7 eq_refl) as (h & Eh & _ & Ec & _).
  assert (E : (exec_script (rebuild_hidelist None) d).2 = false).
  { unfold rebuild_hidelist, rebuild. cbn [exec_script]. unfold exec_stmt at 1. rewrite Ht. cbn [exec_script]. unfold exec_stmt at 1. cbn [tables].
    unfold HIDELIST in Eh. rewrite Eh, Et. cbn [exec_script]. unfold create_list. rewrite exec_create. unfold set_tables.
    cbn [exec_script tables user_version txn]. unfold exec_stmt at 1. cbn [tables].
    rewrite !ensure_lookup, (bool_decide_eq_true_2 (bs "hidelist" = bs "hidelist")),
      (bool_decide_eq_false_2 (bs "hidelist_tmp" = bs "hidelist")), (lookup_insert_ne _ (bs "hidelist_tmp") (bs "hidelist")), lookup_delete_eq, lookup_insert_eq by done.
    cbn [default t_cols t_pk t_rows]. rewrite Ec. cbn [length map fst Nat.eqb]. by rewrite andb_false_r. }
  unfold db_migrate_ref. cbn [db_changelog_ref fold_left]. unfold upgrade_ref at 4 5. cbn [rm_ok rm_ver rm_db rm_upgrade].
  change (true && (7 <=? 6)) with false. cbv iota. cbn [rm_ok rm_ver rm_db rm_upgrade].
  change (true && ((7 =? 7) || (7 =? 8))) with true. cbv iota. cbn [concat]. rewrite app_nil_r.
  destruct (exec_script (rebuild_hidelist None) d) as [d1 ok]. cbn in E. subst ok. done.
Qed.

Definition reset_denylist (x : table) : table :=
  Table (t_cols x) (t_pk x) (t_rows (without_key (bs "denylist") x) ++ [[TEXT (bs "denylist"); INTEGER 0]]).
Definition cleaned (m : gmap bytes table) : gmap bytes table :=
  ensure (bs "sulist") empty_list (ensure HIDELIST empty_list (alter reset_denylist SETTINGS m)).

Lemma exec_cleanup d x : tables d !! SETTINGS = Some x -> t_cols x = [KEY; bs "value"] -> t_pk x = [KEY] ->
  exec_script cleanup_stmts d = (Db (cleaned (tables d)) (user_version d) (txn d), true).
Proof.
  intros Ex Ec Ek. cbn [cleanup_stmts exec_script]. unfold exec_stmt at 1. rewrite Ex, bool_decide_eq_true_2 by done.
  unfold create_list. rewrite !exec_create. unfold set_tables. cbn [tables user_version txn].
  unfold cleaned. do 4 f_equal. apply map_eq. intros i. destruct (decide (i = SETTINGS)) as [->|N].
  - by rewrite lookup_insert_eq, lookup_alter_eq, Ex.
  - by rewrite lookup_insert_ne, lookup_alter_ne.
Qed.

(** The tables of a new file. *)
Definition db_fresh : gmap bytes table :=
  ensure (bs "denylist") empty_list (ensure (bs "strings") (Table [KEY; bs "value"] [KEY] [])
  (ensure SETTINGS (Table [KEY; bs "value"] [KEY] []) (ensure POLICIES (Table POLICY_NAMES [bs "uid"] []) ∅))).

Lemma db_migrate_fresh : db_migrate_ref 0 (Db ∅ 0 None) = RMig (Db db_fresh 12 None) 12 true true.
Proof.
  unfold db_migrate_ref. cbn [db_changelog_ref fold_left]. unfold upgrade_ref at 5. cbn [rm_ok rm_ver rm_db rm_upgrade].
  change (true && (0 <=? 6)) with true. cbv iota. cbn [concat app exec_script]. unfold create_policy, create_settings, create_strings, create_list.
  rewrite !exec_create. reflexivity.
Qed.

Lemma cleaned_lookup m t : t ∉ [SETTINGS; HIDELIST; bs "sulist"] -> cleaned m !! t = m !! t.
Proof.
  intros Ht. unfold cleaned. rewrite !ensure_lookup, !bool_decide_eq_false_2, lookup_alter_ne by set_solver. done.
Qed.

Lemma cleaned_settings m : cleaned m !! SETTINGS = reset_denylist <$> m !! SETTINGS.
Proof.
  unfold cleaned. rewrite !ensure_lookup, !bool_decide_eq_false_2, lookup_alter_eq by done. done.
Qed.

Lemma cleaned_list m t x : t ∈ [HIDELIST; bs "sulist"] -> m !! t = Some x -> cleaned m !! t = Some x.
Proof.
  intros Ht E. set_unfold in Ht. unfold cleaned. destruct Ht as [->|[->|[]]]; rewrite !ensure_lookup.
  - rewrite (bool_decide_eq_false_2 (HIDELIST = bs "sulist")), (bool_decide_eq_true_2 (HIDELIST = HIDELIST)), lookup_alter_ne, E by done. done.
  - rewrite (bool_decide_eq_true_2 (bs "sulist" = bs "sulist")), (bool_decide_eq_false_2 (bs "sulist" = HIDELIST)), lookup_alter_ne, E by done.
    done.
Qed.

Lemma cleaned_made m t : t ∈ [HIDELIST; bs "sulist"] -> is_Some (cleaned m !! t).
Proof.
  intros Ht. set_unfold in Ht. unfold cleaned. destruct Ht as [->|[->|[]]]; rewrite !ensure_lookup.
  - rewrite (bool_decide_eq_false_2 (HIDELIST = bs "sulist")), (bool_decide_eq_true_2 (HIDELIST = HIDELIST)) by done. eauto.
  - rewrite (bool_decide_eq_true_2 (bs "sulist" = bs "sulist")) by done. eauto.
Qed.

(** Upgrades of the blocks leave the other tables and the rows of the hide list. *)
Lemma db_upgraded_lookup v m t : t ∉ [POLICIES; HIDELIST; bs "logs"; bs "denylist"] -> db_upgraded v m !! t = m !! t.
Proof.
  intros Ht. unfold db_upgraded, db_up10.
  assert (H11 : forall m', (if v <=? 11 then up11 m' else m') !! t = m' !! t)
    by (intros m'; destruct (v <=? 11); [apply rebuilt_other; set_solver|done]).
  assert (H10 : forall m', (if v <=? 10 then ensure (bs "denylist") empty_list m' else m') !! t = m' !! t).
  { intros m'. destruct (v <=? 10); [|done]. by rewrite ensure_lookup, bool_decide_eq_false_2 by set_solver. }
  assert (H9 : forall m', (if v <=? 9 then up9 m' else m') !! t = m' !! t)
    by (intros m'; destruct (v <=? 9); [apply lookup_delete_ne; set_solver|done]).
  rewrite H11, H10, H9. destruct (v =? 8); [apply rebuilt_other; set_solver|done].
Qed.

Lemma db_upgraded_policies v m p : m !! POLICIES = Some p -> db_upgraded v m !! POLICIES = Some
  (if v <=? 11 then Table POLICY_NAMES [bs "uid"] (map (project (t_cols p) POLICY_NAMES) (t_rows p)) else p).
Proof.
  intros Ep. unfold db_upgraded, db_up10.
  assert (E8 : (if v =? 8 then up8 m else m) !! POLICIES = Some p)
    by (destruct (v =? 8); [unfold up8; by rewrite rebuilt_other|done]).
  assert (E9 : forall m', m' !! POLICIES = Some p -> (if v <=? 9 then up9 m' else m') !! POLICIES = Some p)
    by (intros m' E; destruct (v <=? 9); [unfold up9; by rewrite lookup_delete_ne|done]).
  assert (E10 : forall m', m' !! POLICIES = Some p ->
    (if v <=? 10 then ensure (bs "denylist") empty_list m' else m') !! POLICIES = Some p).
  { intros m' E. destruct (v <=? 10); [|done]. by rewrite ensure_lookup, bool_decide_eq_false_2. }
  destruct (v <=? 11); [apply up11_policies|]; by apply E10, E9.
Qed.

Lemma db_upgraded_hidelist v m h : m !! HIDELIST = Some h -> (v = 8 -> table_ok h) ->
  exists h', db_upgraded v m !! HIDELIST = Some h' /\ t_rows h' = t_rows h.
Proof.
  intros Eh Hh. unfold db_upgraded, db_up10.
  assert (H11 : forall m', (if v <=? 11 then up11 m' else m') !! HIDELIST = m' !! HIDELIST)
    by (intros m'; destruct (v <=? 11); [by apply rebuilt_other|done]).
  assert (H10 : forall m', (if v <=? 10 then ensure (bs "denylist") empty_list m' else m') !! HIDELIST = m' !! HIDELIST).
  { intros m'. destruct (v <=? 10); [|done]. by rewrite ensure_lookup, bool_decide_eq_false_2. }
  assert (H9 : forall m', (if v <=? 9 then up9 m' else m') !! HIDELIST = m' !! HIDELIST)
    by (intros m'; destruct (v <=? 9); [by apply lookup_delete_ne|done]).
  rewrite H11, H10, H9. destruct (Z.eqb_spec v 8) as [E8|]; [apply up8_rows; auto|eauto].
Qed.

(** The deny list is made from version 10 on and an existing one is kept; the logs of
    versions up to 9 are dropped. *)
Lemma db_upgraded_denylist v m x : m !! bs "denylist" = Some x -> db_upgraded v m !! bs "denylist" = Some x.
Proof.
  intros Ex. unfold db_upgraded, db_up10.
  assert (H11 : forall m', (if v <=? 11 then up11 m' else m') !! bs "denylist" = m' !! bs "denylist")
    by (intros m'; destruct (v <=? 11); [by apply rebuilt_other|done]).
  assert (H9 : forall m', (if v <=? 9 then up9 m' else m') !! bs "denylist" = m' !! bs "denylist")
    by (intros m'; destruct (v <=? 9); [by apply lookup_delete_ne|done]).
  assert (H8 : (if v =? 8 then up8 m else m) !! bs "denylist" = Some x)
    by (destruct (v =? 8); [unfold up8; by rewrite rebuilt_other|done]).
  rewrite H11. destruct (v <=? 10); [|by rewrite H9]. by rewrite ensure_lookup, bool_decide_eq_true_2, H9, H8 by done.
Qed.

Lemma db_upgraded_made v m : v <= 10 -> is_Some (db_upgraded v m !! bs "denylist").
Proof.
  intros Hv. unfold db_upgraded, db_up10. rewrite (proj2 (Z.leb_le v 10)), (proj2 (Z.leb_le v 11)) by lia.
  unfold up11. rewrite rebuilt_other by done. rewrite ensure_lookup, bool_decide_eq_true_2 by done. eauto.
Qed.

Lemma db_upgraded_logs v m : db_upgraded v m !! bs "logs" = if v <=? 9 then None else m !! bs "logs".
Proof.
  unfold db_upgraded, db_up10.
  assert (H11 : forall m', (if v <=? 11 then up11 m' else m') !! bs "logs" = m' !! bs "logs")
    by (intros m'; destruct (v <=? 11); [by apply rebuilt_other|done]).
  assert (H10 : forall m', (if v <=? 10 then ensure (bs "denylist") empty_list m' else m') !! bs "logs" = m' !! bs "logs").
  { intros m'. destruct (v <=? 10); [|done]. by rewrite ensure_lookup, bool_decide_eq_false_2. }
  rewrite H11, H10. destruct (v <=? 9) eqn:E; [by apply lookup_delete_eq|].
  apply Z.leb_gt in E. by rewrite (proj2 (Z.eqb_neq v 8)) by lia.
Qed.

Section db_opening.
Context `{SqliteLaws}.

Lemma db_run_runs : runs_scripts db_run.
Proof.
  intros c d l text Hl Hc Ht. destruct (exec_law c d l text Hl Hc Ht) as (c' & calls & err & E & Hc' & He).
  exists c'. unfold db_run. rewrite E. split; [|done]. do 2 f_equal. destruct (exec_script l d).2; [by apply bool_decide_eq_true, He|].
  apply bool_decide_eq_false. intros Herr%He. done.
Qed.

Lemma db_version c d : shows c d -> 0 <= user_version d < 2 ^ 31 -> exists c' calls,
  sqlite3_exec c GET_VERSION = (c', calls, None) /\ shows c' d /\
  foldl (fun ver call => let! _ := ver in match snd call with Some t :: _ => parse_int t | _ => Fault end) (Ret 0) calls =
  Ret (user_version d).
Proof.
  intros Hc Hv. assert (Hp : GetVersion ∈ program_stmts) by (apply (bool_decide_unpack (_ ∈ _)); vm_compute; exact I).
  destruct (exec_query_law c d GetVersion d _ Hp Hc eq_refl) as (calls & Ec & Hperm).
  destruct (exec_law c d [GetVersion] GET_VERSION) as (c' & calls' & err & E & Hc' & He); [by constructor|done|right; by exists GetVersion|].
  change (sql_text GetVersion) with GET_VERSION in Ec. rewrite E in Ec. cbn in Ec. subst calls'.
  assert (err = None) as -> by (by apply He). apply Permutation_singleton_r in Hperm as ->.
  exists c'. eexists. split; [exact E|]. split; [done|]. cbn -[print_dec]. rewrite (proj2 (Z.ltb_ge _ _)) by lia. by apply parse_int_print.
Qed.

Lemma db_open_sim f d c r : holds f d -> sqlite3_open_v2 f = (SQLITE_OK, c) -> 0 <= user_version d <= 12 ->
  db_migrate_ref (user_version d) d = r ->
  exists c', if rm_ok r then rm_ver r = 12 -> exists c', db_open true f = Ret (Some c', true) /\ shows c' (exec_script cleanup_stmts (rm_db r)).1
             else db_open true f = Ret (Some c', false).
Proof.
  intros Hf Eo Hv Em. unfold db_open. cbn [negb]. rewrite Eo. cbn [negb Z.eqb SQLITE_OK].
  destruct (db_version c d (open_law _ _ _ Hf Eo) ltac:(lia)) as (c1 & calls & -> & Hc1 & ->). cbn [obind].
  rewrite bool_decide_eq_true_2 by done. cbn [negb]. rewrite (proj2 (Z.ltb_ge _ _)) by (unfold DB_VERSION; lia).
  destruct (upgrades_sim db_run db_run_runs _ _ db_changelog_blocks (Mig c1 (user_version d) false true)
    (RMig d (user_version d) false true)) as (m & -> & Hm); [done|]. cbn [obind].
  unfold db_migrate_ref in Em. set (rm := fold_left _ _ _) in *. destruct Hm as (Hs & Hver & Hup & Hok).
  assert (Hsv : rm_ver r = 12 -> exists m', set_version db_run (bs "PRAGMA user_version=" ++ print_dec (mg_ver m)) m = Ret m' /\ sim m' r).
  { intros Hr. assert (mg_ver m = 12) as ->.
    { rewrite Hver, <- Hr, <- Em. unfold set_version_ref. destruct (_ && _); [|done]. by destruct (exec_script _ _). }
    rewrite <- Em. apply (set_version_sim db_run db_run_runs). done. }
  destruct (rm_ok r) eqn:Er.
  - exists c. intros Hr. destruct (Hsv Hr) as (m' & -> & Hs' & _ & _ & Hok'). cbn [obind]. rewrite Hok', Er.
    destruct (db_run_runs (mg_conn m') (rm_db r) cleanup_stmts CLEANUP) as (c' & -> & Hc'); [program|done|left; vm_compute; reflexivity|].
    exists c'. done.
  - destruct (rm_ok rm) eqn:Erm.
    + unfold set_version_ref in Em. rewrite Erm in Em. cbn [andb] in Em.
      destruct (rm_upgrade rm); [|congruence]. rewrite <- Em in Er. discriminate Er.
    + exists (mg_conn m). unfold set_version. rewrite Hok. cbn [andb obind]. by rewrite Hok.
Qed.

(** C35: The second user of the file upgrades it too, but not from version 7.  Let the file
    have the schema of its version and let SQLite be able to open it.  From version 8 to 12
    the file is brought to version 12; the policies keep their values, the hide list its
    rows, a deny list, a list of trusted processes and every other table stay as they are
    and exist afterwards; the settings stay except that [denylist] is set to 0 at every
    opening; the table of logs is dropped from versions up to 9 and kept from later ones.
    The hide list of version 7 has no package column, the upgrade fails on it, and because
    a database that fails to open is deleted, every policy and setting is lost. *)
Theorem db_upgrades f d : (forall g, (sqlite3_open_v2 g).1 = SQLITE_OK) -> holds f d ->
  (forall v, schema v d -> 8 <= v <= 12 -> exists c' d', ensure_open true (DbSt None f) = Ret (DbSt (Some c') f, true) /\
     shows c' d' /\ user_version d' = 12 /\
     (forall p, tables d !! POLICIES = Some p -> exists p', tables d' !! POLICIES = Some p' /\
        map (project (t_cols p') POLICY_NAMES) (t_rows p') = map (project (t_cols p) POLICY_NAMES) (t_rows p)) /\
     (forall s, tables d !! SETTINGS = Some s -> tables d' !! SETTINGS = Some (reset_denylist s)) /\
     (forall h, tables d !! HIDELIST = Some h -> exists h', tables d' !! HIDELIST = Some h' /\ t_rows h' = t_rows h) /\
     (forall t x, t ∈ [bs "denylist"; bs "sulist"] -> tables d !! t = Some x -> tables d' !! t = Some x) /\
     (forall t, t ∈ [HIDELIST; bs "sulist"] \/ (t = bs "denylist" /\ v <= 10) -> is_Some (tables d' !! t)) /\
     tables d' !! bs "logs" = (if v <=? 9 then None else tables d !! bs "logs") /\
     (forall t, t ∉ [POLICIES; SETTINGS; HIDELIST; bs "logs"; bs "denylist"; bs "sulist"] -> tables d' !! t = tables d !! t)) /\
  (schema 7 d -> exists c', ensure_open true (DbSt None f) = Ret (DbSt (Some c') no_file, true) /\
     shows c' (Db (cleaned db_fresh) 12 None)).
Proof.
  intros Ho Hf. assert (Hopen : forall g, exists c, sqlite3_open_v2 g = (SQLITE_OK, c)).
  { intros g. specialize (Ho g). destruct (sqlite3_open_v2 g) as [rc c]. cbn in Ho. subst rc. by exists c. }
  destruct (Hopen f) as [c Eo]. split.
  - intros v Hs Hv. pose proof (db_migrate_ok v d Hs Hv) as Em. destruct Hs as (Ev & Ht & Hm & _ & H8). subst v.
    destruct (db_open_sim f d c _ Hf Eo ltac:(lia) Em) as [? HD]. cbn [rm_ok rm_ver rm_db] in HD.
    destruct (HD eq_refl) as (c' & E & Hc'). destruct Hm as (_ & (s & Es & _ & Ec & Ek) & _).
    assert (Es' : db_upgraded (user_version d) (tables d) !! SETTINGS = Some s) by (rewrite db_upgraded_lookup; [done|set_solver]).
    rewrite (exec_cleanup _ s) in Hc' by done. cbn [fst tables user_version txn] in Hc'.
    eexists c', _. split; [unfold ensure_open; cbn [mDB db_file]; by rewrite E|]. split; [exact Hc'|]. cbn [tables user_version].
    split; [done|]. split_and!.
    + intros p Ep. rewrite cleaned_lookup by set_solver. rewrite (db_upgraded_policies _ _ p Ep). eexists. split; [done|].
      destruct (user_version d <=? 11); [|done]. cbn [t_cols t_rows]. rewrite map_map. by apply map_ext.
    + intros s' Es''. rewrite cleaned_settings, Es'. cbn. congruence.
    + intros h Eh. destruct (db_upgraded_hidelist (user_version d) _ h Eh) as (h' & E' & Hr).
      { intros E8. destruct (H8 E8) as (h0 & Eh0 & Hh0 & _). congruence. }
      exists h'. split; [|done]. apply cleaned_list; [set_solver|done].
    + intros t y Ht' Ey. set_unfold in Ht'. destruct Ht' as [->|[->|[]]].
      * rewrite cleaned_lookup by set_solver. by apply db_upgraded_denylist.
      * apply cleaned_list; [set_solver|]. rewrite db_upgraded_lookup; [done|set_solver].
    + intros t [Ht'|[-> Hle]]; [by apply cleaned_made|]. rewrite cleaned_lookup by set_solver. by apply db_upgraded_made.
    + rewrite cleaned_lookup by set_solver. apply db_upgraded_logs.
    + intros t Hnt. rewrite cleaned_lookup, db_upgraded_lookup; [done|set_solver|set_solver].
  - intros Hs. pose proof (db_migrate_7 d Hs) as E7. destruct Hs as (Ev & _).
    destruct (db_open_sim f d c _ Hf Eo ltac:(lia) eq_refl) as [c1 HD]. rewrite Ev, E7 in HD.
    destruct (Hopen no_file) as [c2 Eo2].
    destruct (db_open_sim no_file _ c2 _ no_file_law Eo2 ltac:(done) db_migrate_fresh) as [? HD2]. cbn [rm_ok rm_ver rm_db] in HD2.
    destruct (HD2 eq_refl) as (c' & E2 & Hc'). exists c'. unfold ensure_open. cbn [mDB db_file]. rewrite HD. cbn [obind]. rewrite E2.
    split; [done|]. rewrite (exec_cleanup _ (Table [KEY; bs "value"] [KEY] [])) in Hc'; [exact Hc'|vm_compute; reflexivity|done|done].
Qed.
End db_opening.

(** ** Queries *)

Lemma make_row_spec cols data row : NoDup cols -> length data = length cols -> Forall (fun v => v <> None) data ->
  ordered fst row -> Forall (fun e => e.1 ∉ cols) row ->
  exists row', make_row cols data row = Ret row' /\ ordered fst row' /\
    forall k v, ofind fst k row' = Some (k, v) <-> ofind fst k row = Some (k, v) \/ (k, Some v) ∈ zip cols data.
Proof.
  revert data row. induction cols as [|c cols IH]; intros [|[v|] data] row Hn Hl Hd Ho Hf; try done.
  - exists row. split_and!; [done|done|]. intros k v. split; [by left|]. by intros [?|?%elem_of_nil].
  - apply NoDup_cons in Hn as [Hc Hn]. apply Forall_cons in Hd as [_ Hd]. cbn [make_row].
    assert (Ef : ofind fst c row = None).
    { apply ofind_None. eapply Forall_impl; [exact Hf|]. cbn. intros e He E. apply He. rewrite E. set_solver. }
    assert (Hrow : ordered fst (oemplace fst (c, v) (oerase fst c row))) by (by apply oemplace_ordered, oerase_ordered).
    destruct (IH data (oemplace fst (c, v) (oerase fst c row))) as (row' & E & Ho' & Hr'); try done.
    + by injection Hl.
    + apply Forall_oemplace; [done|]. apply Forall_oerase. eapply Forall_impl; [exact Hf|]. cbn. intros e He. set_solver.
    + exists row'. split_and!; [done|done|]. intros k w. rewrite Hr', ofind_oemplace by (by apply oerase_ordered). cbn [fst zip_with].
      rewrite elem_of_cons, !ofind_oerase by done. case_bool_decide as Hk.
      * subst k. rewrite bool_decide_eq_true_2 by done. rewrite Ef. naive_solver.
      * rewrite bool_decide_eq_false_2 by congruence. naive_solver.
  - apply Forall_cons in Hd as [Hd _]. done.
Qed.

(** A callback of a query: columns with different names and no null. *)
Definition plain_call (call : list bytes * list (option bytes)) : Prop :=
  NoDup call.1 /\ call.1 <> [] /\ length call.2 = length call.1 /\ Forall (fun v => v <> None) call.2.

(** The row of a call: the columns in the order of their names. *)
Definition row_of (call : list bytes * list (option bytes)) (row : list (bytes * bytes)) : Prop :=
  make_row call.1 call.2 [] = Ret row /\ ordered fst row /\
  forall k v, ofind fst k row = Some (k, v) <-> (k, Some v) ∈ zip call.1 call.2.

Lemma call_row call : plain_call call -> exists row, row_of call row /\ row <> [].
Proof.
  destruct call as [cols data]. intros (Hn & Hne & Hl & Hd). cbn in *.
  destruct (make_row_spec cols data [] Hn Hl Hd) as (row & E & Ho & Hr); [constructor|constructor|].
  assert (Hr' : forall k v, ofind fst k row = Some (k, v) <-> (k, Some v) ∈ zip cols data)
    by (intros k v; rewrite Hr; split; [by intros [?|?]|by right]).
  exists row. split; [by split|]. intros ->. destruct cols as [|c cols], data as [|[v|] data]; try done.
  assert (Hin : (c, Some v) ∈ zip (c :: cols) (Some v :: data)) by (cbn; apply elem_of_cons; by left). apply Hr' in Hin. done.
Qed.

Lemma row_text_ne row : row <> [] -> row_text row <> [].
Proof. destruct row as [|[k v] [|e row]]; [done| |]; intros _; cbn [row_text]; by destruct k. Qed.

Lemma each_row_out calls rows out : Forall2 row_of calls rows ->
  each_row (fun row out => Ret (out ++ write_string (row_text row))) calls out =
  Ret (out ++ concat (map (fun row => write_string (row_text row)) rows)).
Proof.
  intros HF. revert out. induction HF as [|[cols data] row calls rows (E & _) _ IH]; intros out; [cbn; by rewrite app_nil_r|].
  cbn [each_row]. cbn in E. rewrite E. cbn [obind]. rewrite IH. cbn [map concat]. by rewrite <- app_assoc.
Qed.

Lemma sqlite_cmd_lines l : Forall (fun t => t <> [] /\ zlen t < 2 ^ 31) l ->
  sqlite_cmd (S (length l)) (concat (map write_string l) ++ write_int 0) = Ret (map cstr l).
Proof.
  induction 1 as [|t l [Hne Hl] _ IH]; [reflexivity|]. cbn [length map concat]. rewrite <- app_assoc.
  change (sqlite_cmd (S (S (length l))) ?x) with
    (let! (res, _, s) := read_string x in
     match res with [] => Ret [] | _ => let! l' := sqlite_cmd (S (length l)) s in Ret (cstr res :: l') end).
  rewrite read_string_write by done. cbn [obind]. destruct t as [|b t]; [done|]. rewrite IH. done.
Qed.

(** Queries of clients of [exec_sql].  For every statement a client sends, the rows
    SQLite calls back with are printed one per line and in order, each with all of its
    columns, sorted by name; rows before an error are printed too. *)
Theorem sqlite_query_printed `{SqliteLib} c f sql c' calls err : zlen sql < 2 ^ 31 ->
  sqlite3_exec c (cstr sql) = (c', calls, err) -> Forall plain_call calls ->
  (forall call row, call ∈ calls -> row_of call row -> zlen (row_text row) < 2 ^ 31) ->
  exists rows out, exec_sql true (write_string sql) (DbSt (Some c) f) = Ret (DbSt (Some c') f, out) /\
    Forall2 row_of calls rows /\ sqlite_cmd (S (length rows)) out = Ret (map (fun row => cstr (row_text row)) rows).
Proof.
  intros Hl E Hp Hlen. assert (Hrows : exists rows, Forall2 row_of calls rows /\ Forall (fun row => row_text row <> [] /\ zlen (row_text row) < 2 ^ 31) rows).
  { clear E. induction Hp as [|call calls Hc _ IH]; [by exists []; split|].
    destruct IH as (rows & HF & HF'); [intros; eapply Hlen; [by right|done]|]. destruct (call_row call Hc) as (row & Hr & Hne).
    exists (row :: rows). split; [by constructor|]. constructor; [|done].
    split; [by apply row_text_ne|]. by apply (Hlen call); [left|]. }
  destruct Hrows as (rows & HF & HF'). exists rows. eexists. split; [|split; [exact HF|]].
  - unfold exec_sql. rewrite <- (app_nil_r (write_string sql)), read_string_write by done. cbn [obind].
    unfold db_exec_impl, ensure_open. cbn [mDB obind negb db_file]. rewrite E. cbn [obind].
    rewrite (each_row_out _ _ _ HF). reflexivity.
  - cbn [app]. rewrite <- (length_map row_text rows), <- (map_map row_text cstr), <- (map_map row_text write_string).
    apply sqlite_cmd_lines. apply Forall_map. exact HF'.
Qed.

(** ** Examples *)

Definition sample_settings : table :=
  Table [KEY; bs "value"] [KEY] [[TEXT (bs "mnt_ns"); INTEGER 2]; [TEXT (bs "future"); INTEGER 7]; [TEXT (bs "zygisk"); INTEGER 1]].
Definition sample_12 : db :=
  Db (<[SETTINGS := sample_settings]> (<[POLICIES := Table POLICY_NAMES [bs "uid"] []]> ∅)) 12 None.

Lemma sample_settings_ok : settings_ok sample_settings /\ Forall setting_row (t_rows sample_settings).
Proof.
  split.
  - split; [|done]. split_and!; [|repeat constructor|vm_compute; reflexivity].
    apply (bool_decide_unpack (NoDup _)). vm_compute. exact I.
  - repeat constructor; eexists _, _; (split; [reflexivity|lia]).
Qed.

Lemma get_db_settings_spec_witness : exists (c' : db) cfg',
  @get_db_settings mem_sqlite true db_settings_new (-1) (@DbSt mem_sqlite (Some sample_12) sample_12) =
    Ret (@DbSt mem_sqlite (Some c') sample_12, cfg', 0) /\
  cfg' !! SU_MNT_NS = Some (Some 2) /\ cfg' !! ZYGISK_CONFIG = Some (Some 1) /\
  cfg' !! ROOT_ACCESS = Some (Some ROOT_ACCESS_APPS_AND_ADB).
Proof.
  destruct (@get_db_settings_spec mem_sqlite mem_laws sample_12 sample_12 sample_12 sample_settings db_settings_new eq_refl
    ltac:(vm_compute; reflexivity) (proj1 sample_settings_ok) (proj2 sample_settings_ok) eq_refl) as [(c' & cfg' & E & _ & _ & Hc) _].
  exists c', cfg'. split; [exact E|]. split; [exact (Hc 3%nat (bs "mnt_ns") eq_refl)|].
  split; [exact (Hc 9%nat (bs "zygisk") eq_refl)|exact (Hc 0%nat (bs "root_access") eq_refl)].
Defined.

(** The settings of the modules that were added last have no default. *)
Example settings_without_default : db_settings_new !! NETHUNTER_MODE_CONFIG = Some None.
Proof. reflexivity. Qed.

(** The same file at version 9, with a deny list. *)
Definition sample_9 : db :=
  Db (<[bs "denylist" := Table PROC_NAMES PROC_NAMES [[TEXT (bs "com.app"); TEXT (bs "com.app")]]]> (tables sample_7)) 9 None.

Lemma sample_9_ok : schema 9 sample_9.
Proof.
  split_and!; [done|done| |done|done]. apply (tables_ok_keep (tables sample_7)); [apply sample_7_ok|].
  intros t Ht. unfold sample_9. cbn [tables]. rewrite lookup_insert_ne; [done|]. intros <-. revert Ht.
  apply (bool_decide_unpack (_ ∉ _)). vm_compute. exact I.
Qed.

Lemma db_upgrades_witness :
  (exists c' : db, @ensure_open mem_sqlite true (@DbSt mem_sqlite None sample_7) = Ret (@DbSt mem_sqlite (Some c') no_file, true) /\
     tables c' !! POLICIES = Some (Table POLICY_NAMES [bs "uid"] [])) /\
  (exists c' : db, @ensure_open mem_sqlite true (@DbSt mem_sqlite None sample_9) = Ret (@DbSt mem_sqlite (Some c') sample_9, true) /\
     tables c' !! bs "denylist" = Some (Table PROC_NAMES PROC_NAMES [[TEXT (bs "com.app"); TEXT (bs "com.app")]]) /\
     tables c' !! bs "logs" = None).
Proof.
  split.
  - destruct (proj2 (@db_upgrades mem_sqlite mem_laws sample_7 sample_7 (fun _ => eq_refl) eq_refl) sample_7_ok) as (c' & E & Hc).
    exists c'. split; [exact E|]. cbn in Hc. subst c'. vm_compute. reflexivity.
  - destruct (proj1 (@db_upgrades mem_sqlite mem_laws sample_9 sample_9 (fun _ => eq_refl) eq_refl) 9 sample_9_ok ltac:(lia))
      as (c' & d' & E & Hc & _ & _ & _ & _ & Hk & _ & Hl & _). cbn in Hc. subst d'.
    exists c'. split; [exact E|]. split; [|exact Hl]. apply Hk; [by left|]. vm_compute. reflexivity.
Defined.

(** When the library cannot be loaded the database is deleted as well. *)
Example unloadable_deletes : @ensure_open mem_sqlite false (@DbSt mem_sqlite None sample_12) = Ret (@DbSt mem_sqlite None no_file, false).
Proof. reflexivity. Qed.

Lemma sqlite_query_printed_witness : exists out,
  @exec_sql mem_sqlite true (write_string (bs "SELECT * FROM settings")) (@DbSt mem_sqlite (Some sample_12) sample_12) =
    Ret (@DbSt mem_sqlite (Some sample_12) sample_12, out) /\
  sqlite_cmd 4 out = Ret [bs "key=mnt_ns|value=2"; bs "key=future|value=7"; bs "key=zygisk|value=1"].
Proof.
  assert (HP : forall call, call ∈ map (fun r => ([KEY; bs "value"], map column_text r)) (t_rows sample_settings) ->
    plain_call call /\ forall row, row_of call row -> zlen (row_text row) < 2 ^ 31).
  { intros call Hin. apply list_elem_of_In in Hin. repeat destruct Hin as [<-|Hin]; try destruct Hin as [].
    all: split; [split_and!; [apply (bool_decide_unpack (NoDup _)); vm_compute; exact I|done|done|repeat constructor; done]|].
    all: intros row (E & _); vm_compute in E; injection E as <-; vm_compute; reflexivity. }
  destruct (@sqlite_query_printed mem_sqlite sample_12 sample_12 (bs "SELECT * FROM settings") sample_12
    (map (fun r => ([KEY; bs "value"], map column_text r)) (t_rows sample_settings)) None
    ltac:(vm_compute; reflexivity) ltac:(vm_compute; reflexivity)) as (rows & out & E & HF & Hc).
  - apply Forall_forall. intros call Hin. apply HP, Hin.
  - intros call row Hin. apply HP, Hin.
  - exists out. split; [exact E|].
    assert (Hrows : rows = [[(KEY, bs "mnt_ns"); (bs "value", bs "2")]; [(KEY, bs "future"); (bs "value", bs "7")];
      [(KEY, bs "zygisk"); (bs "value", bs "1")]]).
    { repeat match goal with H : Forall2 _ (_ :: _) _ |- _ => apply Forall2_cons_inv_l in H as (? & ? & (? & _) & ? & ->)
        | H : Forall2 _ (map _ _) _ |- _ => cbn [map t_rows sample_settings] in H
        | H : Forall2 _ [] _ |- _ => apply Forall2_nil_inv_l in H as -> end.
      repeat match goal with H : make_row _ _ _ = Ret _ |- _ => vm_compute in H; injection H as <- end. reflexivity. }
    subst rows. etrans; [exact Hc|]. vm_compute. reflexivity.
Defined.

(** A null value in an answer is not a string. *)
Example null_answer_faults : make_row [bs "x"] [None] [] = Fault.
Proof. reflexivity. Qed.
