(* ===== verification/BootConfig.v ===== *)
(** Boot parameters: [native/src/init/getinfo.cpp].  The kernel command line, the boot
    configuration and the partition map are parsed by one function with different
    separators; [BootConfig] keeps what magiskinit needs of them in fixed buffers. *)

From S2P Require Import Prelude Base Files.

Definition QUOTE : byte := x22.

(** ** Parsing *)

(** [str.find_first_of(set, from)] and [str.find_first_not_of(set, from)]; [None] is
    [npos]. *)
Definition find_from (str set : bytes) (from : nat) : option nat :=
  Nat.add from <$> find_first_of (drop from str) set.

Fixpoint first_not_of (s set : bytes) : option nat :=
  match s with
  | [] => None
  | c :: t => if is_delim set c then S <$> first_not_of t set else Some O
  end.
Definition find_not_from (str set : bytes) (from : nat) : option nat :=
  Nat.add from <$> first_not_of (drop from str) set.

Definition kv_pairs := (list (bytes * bytes)).

(** The loop of [extract_quoted_str_until]: the result, the new [pos] and [quoted]. *)
Fixpoint extract_loop (fuel : nat) (escapes breaks str : bytes) (cur pos : nat) (quoted : bool) (result : bytes)
  : outcome (bytes * option nat * bool) :=
  match fuel with
  | O => Loop
  | S fuel =>
    match find_from str (escapes ++ breaks ++ [QUOTE]) cur with
    | None => Ret (result ++ drop pos str, None, quoted)
    | Some cur =>
      let c := default x00 (str !! cur) in
      if is_delim breaks c || (negb quoted && is_delim escapes c) then
        Ret (result ++ take (cur - pos) (drop pos str), Some cur, quoted)
      else if Byte.eqb c QUOTE then
        extract_loop fuel escapes breaks str (S cur) (S cur) (negb quoted) (result ++ take (cur - pos) (drop pos str))
      else extract_loop fuel escapes breaks str (S cur) pos quoted result
    end
  end.
Definition extract_quoted_str_until (escapes breaks str : bytes) (pos : nat) (quoted : bool)
  : outcome (bytes * option nat * bool) :=
  extract_loop (S (length str)) escapes breaks str pos pos quoted [].

Section parse.
Context (delim eq : byte) (padding : bytes).

Fixpoint parse_loop (fuel : nat) (str : bytes) (pos : option nat) (quoted : bool) (kv : kv_pairs) : outcome kv_pairs :=
  match fuel with
  | O => Loop
  | S fuel =>
    match pos with
    | None => Ret kv
    | Some p =>
      if negb (p <? length str)%nat then Ret kv
      else
        let! (key, pos, quoted) := extract_quoted_str_until (padding ++ [delim]) [eq] str p quoted in
        match pos ≫= find_not_from str (eq :: padding) with
        | None => parse_loop fuel str None quoted (kv ++ [(key, [])])
        | Some p =>
          if bool_decide (str !! p = Some delim) then
            parse_loop fuel str (find_not_from str [delim] p) quoted (kv ++ [(key, [])])
          else
            let! (value, pos, quoted) := extract_quoted_str_until [delim] [] str p quoted in
            parse_loop fuel str (pos ≫= find_not_from str [delim]) quoted (kv ++ [(key, value)])
        end
    end
  end.
Definition parse_impl (str : bytes) : outcome kv_pairs := parse_loop (S (S (length str))) str (Some O) false [].
End parse.

Definition parse_cmdline : bytes -> outcome kv_pairs := parse_impl x20 x3d [].
Definition parse_bootconfig : bytes -> outcome kv_pairs := parse_impl x0a x3d [x20].
Definition parse_partition_map : bytes -> outcome kv_pairs := parse_impl x3b x2c [].

(** ** The configuration *)

Record BootConfig := BC {
  skip_initramfs : bool;
  force_normal_boot : bool;
  rootwait : bool;
  emulator : bool;
  slot : bytes;
  dt_dir : bytes;
  fstab_suffix : bytes;
  hardware : bytes;
  hardware_plat : bytes;
  partition_map : kv_pairs }.

(** A value-initialised configuration: the sizes of the arrays are those of
    [init/lib.rs]. *)
Definition new_config : BootConfig := BC false false false false (zeros 3) (zeros 64) (zeros 32) (zeros 32) (zeros 32) [].

Definition set_slot v c := BC (skip_initramfs c) (force_normal_boot c) (rootwait c) (emulator c) v (dt_dir c) (fstab_suffix c) (hardware c) (hardware_plat c) (partition_map c).
Definition set_dt_dir v c := BC (skip_initramfs c) (force_normal_boot c) (rootwait c) (emulator c) (slot c) v (fstab_suffix c) (hardware c) (hardware_plat c) (partition_map c).
Definition set_fstab_suffix v c := BC (skip_initramfs c) (force_normal_boot c) (rootwait c) (emulator c) (slot c) (dt_dir c) v (hardware c) (hardware_plat c) (partition_map c).
Definition set_hardware v c := BC (skip_initramfs c) (force_normal_boot c) (rootwait c) (emulator c) (slot c) (dt_dir c) (fstab_suffix c) v (hardware_plat c) (partition_map c).
Definition set_hardware_plat v c := BC (skip_initramfs c) (force_normal_boot c) (rootwait c) (emulator c) (slot c) (dt_dir c) (fstab_suffix c) (hardware c) v (partition_map c).
Definition set_partition_map v c := BC (skip_initramfs c) (force_normal_boot c) (rootwait c) (emulator c) (slot c) (dt_dir c) (fstab_suffix c) (hardware c) (hardware_plat c) v.
Definition set_flags skip force wait emu c := BC skip force wait emu (slot c) (dt_dir c) (fstab_suffix c) (hardware c) (hardware_plat c) (partition_map c).

(** [strscpy(buf.data(), value.data(), buf.size())] *)
Definition copy_value (buf value : bytes) : outcome bytes :=
  let! (b, _) := strscpy buf (cstr value) (zlen buf) in Ret b.

Definition set_one (c : BootConfig) (key value : bytes) : outcome BootConfig :=
  if bool_decide (key = bs "androidboot.slot_suffix") then
    if bool_decide (value = bs "normal") then Ret c
    else let! b := copy_value (slot c) value in Ret (set_slot b c)
  else if bool_decide (key = bs "androidboot.slot") then
    let! b := copy_value (drop 1 (slot c)) value in Ret (set_slot (x5f :: b) c)
  else if bool_decide (key = bs "skip_initramfs") then Ret (set_flags true (force_normal_boot c) (rootwait c) (emulator c) c)
  else if bool_decide (key = bs "androidboot.force_normal_boot") then
    Ret (set_flags (skip_initramfs c) (bool_decide (head value = Some x31)) (rootwait c) (emulator c) c)
  else if bool_decide (key = bs "rootwait") then Ret (set_flags (skip_initramfs c) (force_normal_boot c) true (emulator c) c)
  else if bool_decide (key = bs "androidboot.android_dt_dir") then
    let! b := copy_value (dt_dir c) value in Ret (set_dt_dir b c)
  else if bool_decide (key = bs "androidboot.hardware") then
    let! b := copy_value (hardware c) value in Ret (set_hardware b c)
  else if bool_decide (key = bs "androidboot.hardware.platform") then
    let! b := copy_value (hardware_plat c) value in Ret (set_hardware_plat b c)
  else if bool_decide (key = bs "androidboot.fstab_suffix") then
    let! b := copy_value (fstab_suffix c) value in Ret (set_fstab_suffix b c)
  else if bool_decide (key = bs "qemu") then
    Ret (set_flags (skip_initramfs c) (force_normal_boot c) (rootwait c) true c)
  else if bool_decide (key = bs "androidboot.partition_map") then
    let! kv := parse_partition_map value in Ret (set_partition_map (partition_map c ++ kv) c)
  else Ret c.

(** [BootConfig::set] *)
Fixpoint set_config (kv : kv_pairs) (c : BootConfig) : outcome BootConfig :=
  match kv with
  | [] => Ret c
  | (k, v) :: kv => let! c := set_one c k v in set_config kv c
  end.

(** ** Keys in recovery mode *)

(** A device: whether the node can be made and opened, whether it has the key, and
    whether the key is held at each check. *)
Record keydev := KeyDev { kd_mknod : bool; kd_open : bool; kd_volup : bool; kd_held : nat -> bool }.

Fixpoint count_held (n i count : nat) (events : list keydev) : bool :=
  match n with
  | O => false
  | S n =>
    let count := if existsb (fun d => kd_held d i) events then S count else count in
    if (300 <=? count)%nat then true else count_held n (S i) count events
  end.

Definition check_volume_up (devs : list keydev) : bool :=
  match filter (fun d => kd_mknod d && kd_open d && kd_volup d = true) devs with
  | [] => false
  | events => count_held 500 0 0 events
  end.

(** ** Initialisation *)

Definition DEFAULT_DT_DIR : bytes := bs "/proc/device-tree/firmware/android".

(** [read_dt]: the text of a node of the device tree without its last byte; the name of
    the file is cut off at 127 bytes. *)
Definition read_dt (files : bytes -> option bytes) (c : BootConfig) (name buf : bytes) : outcome bytes :=
  match files (take 127 (cstr (dt_dir c) ++ bs "/" ++ name)) with
  | None | Some [] => Ret buf
  | Some data => copy_value buf (removelast data)
  end.

(** [BootConfig::init]; [files] are the readable files, and a file that is not there
    reads as empty. *)
Definition init_config (files : bytes -> option bytes) (devs : list keydev) (c : BootConfig) : outcome BootConfig :=
  let! kv := parse_cmdline (default [] (files (bs "/proc/cmdline"))) in
  let! c := set_config kv c in
  let! kv := parse_bootconfig (default [] (files (bs "/proc/bootconfig"))) in
  let! c := set_config kv c in
  let c := parse_prop_file (default [] (files (bs "/.backup/.magisk")))
    (fun c key value =>
       if bool_decide (key = bs "RECOVERYMODE" /\ value = bs "true") then
         (set_flags (emulator c || negb (check_volume_up devs)) (force_normal_boot c) (rootwait c) (emulator c) c, false)
       else (c, true)) c in
  let! c := (if bool_decide (head (dt_dir c) = Some x00) then
               let! b := copy_value (dt_dir c) DEFAULT_DT_DIR in Ret (set_dt_dir b c)
             else Ret c) in
  let! b := read_dt files c (bs "fstab_suffix") (fstab_suffix c) in let c := set_fstab_suffix b c in
  let! b := read_dt files c (bs "hardware") (hardware c) in let c := set_hardware b c in
  let! b := read_dt files c (bs "hardware.platform") (hardware_plat c) in Ret (set_hardware_plat b c).

(** ** The parser on what is left of its input *)

(** The reference: one character at a time. *)
Fixpoint extract_ref (escapes breaks s : bytes) (quoted : bool) : bytes * bytes * bool :=
  match s with
  | [] => ([], [], quoted)
  | c :: t =>
    if is_delim breaks c || (negb quoted && is_delim escapes c) then ([], s, quoted)
    else if Byte.eqb c QUOTE then extract_ref escapes breaks t (negb quoted)
    else let '(r, rest, q) := extract_ref escapes breaks t quoted in (c :: r, rest, q)
  end.

(** The position of what is left. *)
Definition pos_of (str rest : bytes) : option nat :=
  match rest with [] => None | _ => Some (length str - length rest)%nat end.

Lemma find_first_of_head c t set : find_first_of (c :: t) set = if is_delim set c then Some O else S <$> find_first_of t set.
Proof. done. Qed.

Lemma extract_ref_rest escapes breaks s q : exists k,
  (extract_ref escapes breaks s q).1.2 = drop k s /\ (k <= length s)%nat.
Proof.
  revert q. induction s as [|c t IH]; intros q; cbn [extract_ref]; [by exists O|].
  destruct (_ || _); [exists O; split; [done|lia]|]. destruct (Byte.eqb c QUOTE).
  - destruct (IH (negb q)) as (k & E & Hk). exists (S k). cbn. split; [done|lia].
  - destruct (IH q) as (k & E & Hk). destruct (extract_ref escapes breaks t q) as [[r rest] q']. cbn in E.
    exists (S k). cbn. split; [done|lia].
Qed.

(** Characters that are not searched for go to the result. *)
Lemma extract_ref_skip escapes breaks s q k : find_first_of s (escapes ++ breaks ++ [QUOTE]) = Some k ->
  extract_ref escapes breaks s q =
  let '(r, rest, q') := extract_ref escapes breaks (drop k s) q in (take k s ++ r, rest, q').
Proof.
  revert k. induction s as [|c t IH]; intros k; [done|]. rewrite find_first_of_head. unfold is_delim at 1. case_bool_decide as Hc.
  - intros [= <-]. rewrite drop_0, take_0. by destruct (extract_ref escapes breaks (c :: t) q) as [[r rest] q'].
  - intros (j & Ej & ->)%fmap_Some. cbn [extract_ref]. unfold is_delim.
    rewrite !elem_of_app, list_elem_of_singleton in Hc. rewrite !bool_decide_eq_false_2 by tauto. rewrite andb_false_r. cbn [orb].
    assert (Byte.eqb c QUOTE = false) as -> by (apply not_true_is_false; intros E%Byte.byte_dec_bl; apply Hc; right; right; exact E).
    rewrite (IH j Ej). cbn [drop take]. destruct (extract_ref _ _ (drop j t) q) as [[r rest] q']. done.
Qed.

Lemma extract_ref_none escapes breaks s q : find_first_of s (escapes ++ breaks ++ [QUOTE]) = None ->
  extract_ref escapes breaks s q = (s, [], q).
Proof.
  induction s as [|c t IH]; [done|]. rewrite find_first_of_head. unfold is_delim at 1. case_bool_decide as Hc; [done|].
  intros Ht%fmap_None. cbn [extract_ref]. unfold is_delim. rewrite !elem_of_app, list_elem_of_singleton in Hc.
  rewrite !bool_decide_eq_false_2 by tauto. rewrite andb_false_r. cbn [orb].
  assert (Byte.eqb c QUOTE = false) as -> by (apply not_true_is_false; intros E%Byte.byte_dec_bl; apply Hc; right; right; exact E).
  by rewrite (IH Ht).
Qed.

Lemma drop_lookup_cons (l : bytes) i : (i < length l)%nat -> exists c, l !! i = Some c /\ drop i l = c :: drop (S i) l.
Proof. intros Hi. destruct (lookup_lt_is_Some_2 l i Hi) as [c Hc]. exists c. split; [done|]. by apply drop_S. Qed.

(** The loop of the source computes the reference. *)
Lemma extract_loop_ref escapes breaks str fuel : forall cur pos q res, (pos <= cur <= length str)%nat -> (length str - cur < fuel)%nat ->
  extract_loop fuel escapes breaks str cur pos q res =
  let '(r, rest, q') := extract_ref escapes breaks (drop cur str) q in
  Ret (res ++ take (cur - pos) (drop pos str) ++ r, pos_of str rest, q').
Proof.
  induction fuel as [|fuel IH]; intros cur pos q res Hp Hf; [lia|]. cbn [extract_loop]. unfold find_from.
  assert (Hsplit : forall n, (pos <= n <= length str)%nat -> take (n - pos) (drop pos str) ++ drop n str = drop pos str).
  { intros n Hn. rewrite <- (take_drop (n - pos) (drop pos str)) at 2. rewrite drop_drop. do 2 f_equal. lia. }
  destruct (find_first_of (drop cur str) (escapes ++ breaks ++ [QUOTE])) as [k|] eqn:Ek; cbn [fmap option_fmap option_map].
  - pose proof (find_first_of_Some _ _ _ Ek) as (d & Hd & Hdin & _ & Hk). rewrite length_drop in Hk.
    destruct (drop_lookup_cons str (cur + k) ltac:(lia)) as (c & Ec & Ed). rewrite Ec. cbn [default id].
    rewrite (extract_ref_skip _ _ _ q k Ek), drop_drop, Ed. cbn [extract_ref].
    assert (Htake : take (cur - pos) (drop pos str) ++ take k (drop cur str) = take (cur + k - pos) (drop pos str)).
    { replace (drop cur str) with (drop (cur - pos) (drop pos str)) by (rewrite drop_drop; f_equal; lia).
      rewrite take_take_drop. f_equal. lia. }
    destruct (is_delim breaks c || negb q && is_delim escapes c) eqn:Eb.
    + rewrite app_nil_r, Htake. unfold pos_of. rewrite <- Ed, length_drop.
      replace (length str - (length str - (cur + k)))%nat with (cur + k)%nat by lia. done.
    + destruct (Byte.eqb c QUOTE).
      * rewrite IH by lia. destruct (extract_ref escapes breaks (drop (S (cur + k)) str) (negb q)) as [[r rest] q'].
        rewrite Nat.sub_diag. cbn [take app]. by rewrite <- app_assoc, app_assoc, <- Htake, <- !app_assoc.
      * rewrite IH by lia. destruct (extract_ref escapes breaks (drop (S (cur + k)) str) q) as [[r rest] q'].
        do 3 f_equal. rewrite (app_assoc (take (cur - pos) (drop pos str))), Htake.
        replace (S (cur + k) - pos)%nat with ((cur + k - pos) + 1)%nat by lia. rewrite <- take_take_drop, drop_drop.
        replace (pos + (cur + k - pos))%nat with (cur + k)%nat by lia. rewrite Ed. cbn [take]. by rewrite <- app_assoc.
  - rewrite (extract_ref_none _ _ _ q Ek). cbn. do 4 f_equal. symmetry. by apply Hsplit.
Qed.

Lemma extract_spec escapes breaks str pos q : (pos <= length str)%nat ->
  extract_quoted_str_until escapes breaks str pos q =
  let '(r, rest, q') := extract_ref escapes breaks (drop pos str) q in Ret (r, pos_of str rest, q').
Proof.
  intros Hp. unfold extract_quoted_str_until. rewrite extract_loop_ref by lia.
  destruct (extract_ref _ _ _ _) as [[r rest] q']. by rewrite Nat.sub_diag.
Qed.

(** Dropping the characters of a set. *)
Fixpoint skip_set (set s : bytes) : bytes :=
  match s with [] => [] | c :: t => if is_delim set c then skip_set set t else s end.

Lemma skip_set_drop set s : exists k, skip_set set s = drop k s /\ (k <= length s)%nat.
Proof.
  induction s as [|c t (k & E & Hk)]; [by exists O|]. cbn [skip_set]. destruct (is_delim set c); [|exists O; split; [done|lia]].
  exists (S k). cbn. split; [done|lia].
Qed.

Lemma find_not_skip str set pos : (pos <= length str)%nat -> find_not_from str set pos = pos_of str (skip_set set (drop pos str)).
Proof.
  intros Hp. unfold find_not_from. remember (drop pos str) as s eqn:Es.
  assert (Hs : length s = (length str - pos)%nat) by (subst s; apply length_drop). clear Es.
  revert pos Hp Hs. induction s as [|c t IH]; intros pos Hp Hs; [done|]. cbn [first_not_of skip_set]. destruct (is_delim set c).
  - cbn [length] in Hs. specialize (IH (S pos) ltac:(lia) ltac:(lia)). rewrite <- IH. destruct (first_not_of t set); cbn; [f_equal; lia|done].
  - cbn [fmap option_fmap option_map pos_of]. f_equal. lia.
Qed.

Section reference.
Context (delim eq : byte) (padding : bytes).

Fixpoint parse_ref (fuel : nat) (s : bytes) (quoted : bool) : option kv_pairs :=
  match fuel with
  | O => None
  | S fuel =>
    match s with
    | [] => Some []
    | _ =>
      let '(key, rest, quoted) := extract_ref (padding ++ [delim]) [eq] s quoted in
      match skip_set (eq :: padding) rest with
      | [] => Some [(key, [])]
      | c :: t =>
        if bool_decide (c = delim) then cons (key, []) <$> parse_ref fuel (skip_set [delim] (c :: t)) quoted
        else
          let '(value, rest, quoted) := extract_ref [delim] [] (c :: t) quoted in
          cons (key, value) <$> parse_ref fuel (skip_set [delim] rest) quoted
      end
    end
  end.

(** What is left gets shorter in every round. *)
Lemma extract_ref_length escapes breaks s q : (length (extract_ref escapes breaks s q).1.2 <= length s)%nat.
Proof. destruct (extract_ref_rest escapes breaks s q) as (k & -> & _). rewrite length_drop. lia. Qed.
Lemma skip_set_length set s : (length (skip_set set s) <= length s)%nat.
Proof. destruct (skip_set_drop set s) as (k & -> & _). rewrite length_drop. lia. Qed.

Lemma value_shorter c t q : c <> delim -> (length (extract_ref [delim] [] (c :: t) q).1.2 <= length t)%nat.
Proof.
  intros Hc. cbn [extract_ref]. unfold is_delim. rewrite !bool_decide_eq_false_2 by set_solver. rewrite andb_false_r. cbn [orb].
  destruct (Byte.eqb c QUOTE); [apply extract_ref_length|].
  pose proof (extract_ref_length [delim] [] t q) as Hl. by destruct (extract_ref [delim] [] t q) as [[r rest] q'].
Qed.

Lemma parse_ref_total fuel : forall s q, (length s < fuel)%nat -> exists kv, parse_ref fuel s q = Some kv.
Proof.
  induction fuel as [|fuel IH]; intros s q Hf; [lia|]. cbn [parse_ref]. destruct s as [|c0 s0] eqn:Es; [by exists []|]. rewrite <- Es in *.
  pose proof (extract_ref_length (padding ++ [delim]) [eq] s q) as Hk.
  destruct (extract_ref (padding ++ [delim]) [eq] s q) as [[key rest] q']. cbn in Hk.
  pose proof (skip_set_length (eq :: padding) rest) as Hs. destruct (skip_set (eq :: padding) rest) as [|c t]; [by exists [(key, [])]|].
  cbn [length] in Hs. case_bool_decide as Hc.
  - destruct (IH (skip_set [delim] (c :: t)) q') as [kv ->]; [|by exists ((key, []) :: kv)].
    cbn [skip_set]. unfold is_delim. rewrite bool_decide_eq_true_2 by set_solver. pose proof (skip_set_length [delim] t). lia.
  - pose proof (value_shorter c t q' Hc) as Hv. destruct (extract_ref [delim] [] (c :: t) q') as [[value rest'] q'']. cbn in Hv.
    destruct (IH (skip_set [delim] rest') q'') as [kv ->]; [|by exists ((key, value) :: kv)].
    pose proof (skip_set_length [delim] rest'). lia.
Qed.

(** What is left of an input. *)
Definition tail_of (str s : bytes) : Prop := exists k, s = drop k str /\ (k <= length str)%nat.

Lemma tail_pos str s : tail_of str s -> s <> [] -> exists p, pos_of str s = Some p /\ s = drop p str /\ (p < length str)%nat.
Proof.
  intros (k & -> & Hk) Hne. destruct (drop k str) as [|c t] eqn:Ed; [done|].
  assert (Hl : length (c :: t) = (length str - k)%nat) by (rewrite <- Ed; apply length_drop).
  exists k. cbn [pos_of]. rewrite Hl. cbn [length] in Hl. split; [f_equal; lia|]. split; [done|lia].
Qed.

Lemma tail_trans str s f : tail_of str s -> tail_of s f -> tail_of str f.
Proof. intros (k & -> & Hk) (j & -> & Hj). rewrite length_drop in Hj. exists (k + j)%nat. rewrite drop_drop. split; [done|lia]. Qed.

Lemma tail_skip str s set : tail_of str s -> pos_of str s ≫= find_not_from str set = pos_of str (skip_set set s).
Proof.
  intros Hs. destruct s as [|c t] eqn:Es; [done|]. rewrite <- Es in *.
  destruct (tail_pos str s Hs ltac:(by subst)) as (p & -> & Ep & Hp). cbn [mbind option_bind]. rewrite find_not_skip by lia. by rewrite <- Ep.
Qed.

(** The loop of the source on a position is the reference on what is left there. *)
Lemma parse_loop_ref str fuel : forall s pos q kv kv', pos = pos_of str s -> tail_of str s ->
  parse_ref fuel s q = Some kv' -> parse_loop delim eq padding (S fuel) str pos q kv = Ret (kv ++ kv').
Proof.
  induction fuel as [|fuel IH]; intros s pos q kv kv' -> Hs Hr; [done|]. cbn [parse_ref] in Hr.
  destruct s as [|c0 s0] eqn:Es; [injection Hr as <-; by rewrite app_nil_r|]. rewrite <- Es in *.
  destruct (tail_pos str s Hs ltac:(by subst)) as (p & Ep & Ed & Hp). remember (S fuel) as fuel' eqn:Ef. cbn [parse_loop]. subst fuel'. rewrite Ep.
  rewrite (proj2 (Nat.ltb_lt _ _) Hp). cbn [negb]. rewrite extract_spec, <- Ed by lia.
  pose proof (extract_ref_rest (padding ++ [delim]) [eq] s q) as Hk.
  destruct (extract_ref (padding ++ [delim]) [eq] s q) as [[key rest] q']. cbn in Hk. cbn [obind].
  pose proof (tail_trans _ _ _ Hs Hk) as Hrest. rewrite (tail_skip str rest _ Hrest). pose proof (tail_trans _ _ _ Hrest (skip_set_drop (eq :: padding) rest)) as Hs2.
  destruct (skip_set (eq :: padding) rest) as [|c t] eqn:E2; [injection Hr as <-; by destruct fuel|]. rewrite <- E2 in *.
  destruct (tail_pos str _ Hs2 ltac:(by rewrite E2)) as (p2 & Ep2 & Ed2 & Hp2). rewrite Ep2.
  assert (Hc : str !! p2 = Some c).
  { destruct (drop_lookup_cons str p2 Hp2) as (c' & Hc' & E'). rewrite Hc'. rewrite <- Ed2, E2 in E'. congruence. }
  rewrite Hc. destruct (decide (c = delim)) as [Ec|Nc].
  - rewrite (bool_decide_eq_true_2 (Some c = Some delim)), (bool_decide_eq_true_2 (c = delim)) in * by congruence.
    apply fmap_Some in Hr as (kv1 & Hr & ->).
    rewrite (IH (skip_set [delim] (skip_set (eq :: padding) rest)) _ q' _ kv1); [by rewrite <- app_assoc|..].
    + rewrite <- (tail_skip str _ [delim] Hs2), Ep2. done.
    + apply (tail_trans _ _ _ Hs2), skip_set_drop.
    + exact Hr.
  - rewrite (bool_decide_eq_false_2 (Some c = Some delim)), (bool_decide_eq_false_2 (c = delim)) in * by congruence.
    rewrite extract_spec, <- Ed2 by lia. rewrite E2 in *.
    pose proof (extract_ref_rest [delim] [] (c :: t) q') as Hv.
    destruct (extract_ref [delim] [] (c :: t) q') as [[value rest'] q'']. cbn [fst snd] in Hv. cbn [obind].
    apply fmap_Some in Hr as (kv1 & Hr & ->). pose proof (tail_trans _ _ _ Hs2 Hv) as Hrest'.
    rewrite (IH (skip_set [delim] rest') _ q'' _ kv1); [by rewrite <- app_assoc|by apply tail_skip|apply (tail_trans _ _ _ Hrest'), skip_set_drop|done].
Qed.
End reference.

(** Parsing always ends, with the result of the reference. *)
Lemma parse_impl_ref delim eq padding str : exists kv,
  parse_ref delim eq padding (S (length str)) str false = Some kv /\ parse_impl delim eq padding str = Ret kv.
Proof.
  destruct (parse_ref_total delim eq padding (S (length str)) str false) as [kv E]; [lia|]. exists kv. split; [done|].
  destruct str as [|c t] eqn:Es; [injection E as <-; done|]. rewrite <- Es in *. unfold parse_impl.
  rewrite (parse_loop_ref _ _ _ str (S (length str)) str (Some O) false [] kv); [done| |exists O; split; [done|lia]|done].
  subst str. cbn [pos_of]. f_equal. lia.
Qed.

(** ** Printing and parsing *)

Inductive item : Type :=
| Flag (k : bytes)
| Plain (k v : bytes)
| Quoted (k v : bytes).

Definition item_pair (i : item) : bytes * bytes :=
  match i with Flag k => (k, []) | Plain k v | Quoted k v => (k, v) end.

Section print.
Context (delim eq : byte) (padding pad : bytes).

Definition print_item (i : item) : bytes :=
  match i with
  | Flag k => k
  | Plain k v => k ++ pad ++ [eq] ++ pad ++ v
  | Quoted k v => k ++ pad ++ [eq] ++ pad ++ [QUOTE] ++ v ++ [QUOTE]
  end.
Fixpoint print_items (l : list item) : bytes :=
  match l with [] => [] | [i] => print_item i | i :: l => print_item i ++ [delim] ++ print_items l end.

Definition key_ok (k : bytes) : Prop := Forall (fun c => c ∉ QUOTE :: delim :: eq :: padding) k.
Definition item_ok (i : item) : Prop :=
  match i with
  | Flag k => key_ok k /\ k <> []
  | Plain k v => key_ok k /\ v <> [] /\ Forall (fun c => c ∉ [QUOTE; delim]) v /\ (forall c, head v = Some c -> c ∉ eq :: padding)
  | Quoted k v => key_ok k /\ Forall (fun c => c <> QUOTE) v
  end.
End print.

(** Characters without a meaning go to the result. *)
Lemma extract_plain escapes breaks a rest q :
  Forall (fun c => (c ∉ breaks) /\ (c ∈ escapes -> q = true) /\ c <> QUOTE) a ->
  extract_ref escapes breaks (a ++ rest) q =
  let '(r, rest', q') := extract_ref escapes breaks rest q in (a ++ r, rest', q').
Proof.
  induction 1 as [|c a (Hb & He & Hq) _ IH]; [cbn [app]; by destruct (extract_ref escapes breaks rest q) as [[r rest'] q']|].
  cbn [app extract_ref]. unfold is_delim. rewrite bool_decide_eq_false_2 by done. cbn [orb].
  assert (negb q && bool_decide (c ∈ escapes) = false) as ->.
  { case_bool_decide as Hc; [rewrite (He Hc); done|apply andb_false_r]. }
  rewrite eqb_false by done. rewrite IH. by destruct (extract_ref escapes breaks rest q) as [[r rest'] q'].
Qed.

Lemma extract_stop escapes breaks s : (forall c, head s = Some c -> c ∈ escapes ++ breaks) -> extract_ref escapes breaks s false = ([], s, false).
Proof.
  destruct s as [|c t]; [done|]. intros Hc. specialize (Hc c eq_refl). cbn [extract_ref]. unfold is_delim. cbn [negb andb].
  apply elem_of_app in Hc as [Hc|Hc]; [by rewrite (bool_decide_eq_true_2 (c ∈ escapes)), orb_true_r|].
  by rewrite (bool_decide_eq_true_2 (c ∈ breaks)).
Qed.

Lemma skip_all set a s : Forall (.∈ set) a -> skip_set set (a ++ s) = skip_set set s.
Proof. induction 1 as [|c a Hc _ IH]; [done|]. cbn [app skip_set]. unfold is_delim. by rewrite bool_decide_eq_true_2. Qed.
Lemma skip_stop set s : (forall c, head s = Some c -> c ∉ set) -> skip_set set s = s.
Proof. destruct s as [|c t]; [done|]. intros Hc. cbn [skip_set]. unfold is_delim. rewrite bool_decide_eq_false_2; [done|by apply Hc]. Qed.

Lemma print_item_ne delim eq padding pad i : item_ok delim eq padding i -> print_item eq pad i <> [].
Proof. destruct i as [k|k v|k v]; [by intros [_ Hk]|..]; intros _; cbn; by destruct k, pad. Qed.

Section round_trip.
Context (delim eq : byte) (padding pad : bytes).
Context (Hde : delim <> eq) (Hdp : delim ∉ padding) (Hq : QUOTE ∉ delim :: eq :: padding) (Hpad : Forall (.∈ padding) pad).

Abbreviation item_ok' := (item_ok delim eq padding).

Lemma value_item v w rest : (forall c, head rest = Some c -> c = delim) ->
  w = v /\ v <> [] /\ Forall (fun c => c ∉ [QUOTE; delim]) v \/ w = [QUOTE] ++ v ++ [QUOTE] /\ Forall (fun c => c <> QUOTE) v ->
  extract_ref [delim] [] (w ++ rest) false = (v, rest, false).
Proof using All.
  intros Hr [(-> & _ & Hv)|[-> Hv]].
  - rewrite extract_plain, extract_stop; [by rewrite app_nil_r| |].
    + intros c Hc. apply Hr in Hc. set_solver.
    + eapply Forall_impl; [exact Hv|]. cbn. intros c Hc. set_solver.
  - rewrite <- !app_assoc. cbn [app extract_ref]. unfold is_delim. rewrite !bool_decide_eq_false_2 by set_solver. cbn [orb negb andb].
    rewrite (Byte.byte_dec_lb eq_refl), extract_plain.
    + cbn [extract_ref]. unfold is_delim. rewrite bool_decide_eq_false_2 by set_solver. cbn [orb negb andb].
      rewrite (Byte.byte_dec_lb eq_refl), extract_stop; [by rewrite app_nil_r|]. intros c Hc. apply Hr in Hc. set_solver.
    + eapply Forall_impl; [exact Hv|]. cbn. intros c Hc. split_and!; [set_solver|done|done].
Qed.

Lemma key_item k rest : key_ok delim eq padding k -> (forall c, head rest = Some c -> c ∈ delim :: eq :: padding) ->
  extract_ref (padding ++ [delim]) [eq] (k ++ rest) false = (k, rest, false).
Proof using All.
  intros Hk Hr. rewrite extract_plain, extract_stop; [by rewrite app_nil_r| |].
  - intros c Hc. apply Hr in Hc. set_solver.
  - eapply Forall_impl; [exact Hk|]. cbn. intros c Hc. set_solver.
Qed.

(** One item, at the end or before a delimiter. *)
Lemma parse_item fuel i rest : item_ok' i -> (forall c, head rest = Some c -> c = delim) ->
  parse_ref delim eq padding (S (S fuel)) (print_item eq pad i ++ rest) false =
  cons (item_pair i) <$> parse_ref delim eq padding (S fuel) (skip_set [delim] rest) false.
Proof using All.
  intros Hi Hr. pose proof (print_item_ne delim eq padding pad i Hi) as Hne. remember (S fuel) as n eqn:En. cbn [parse_ref].
  destruct (print_item eq pad i ++ rest) as [|c0 s0] eqn:Es; [by destruct (print_item eq pad i)|]. rewrite <- Es. clear c0 s0 Es.
  assert (Hval : forall k v w, key_ok delim eq padding k -> (forall c, head (w ++ rest) = Some c -> c ∉ delim :: eq :: padding) -> w <> [] ->
    extract_ref [delim] [] (w ++ rest) false = (v, rest, false) ->
    (let '(key, rest, quoted) := extract_ref (padding ++ [delim]) [eq] ((k ++ pad ++ [eq] ++ pad ++ w) ++ rest) false in
     match skip_set (eq :: padding) rest with
     | [] => Some [(key, [])]
     | c :: t =>
       if bool_decide (c = delim) then cons (key, []) <$> parse_ref delim eq padding n (skip_set [delim] (c :: t)) quoted
       else let '(value, rest, quoted) := extract_ref [delim] [] (c :: t) quoted in
            cons (key, value) <$> parse_ref delim eq padding n (skip_set [delim] rest) quoted
     end) = cons (k, v) <$> parse_ref delim eq padding n (skip_set [delim] rest) false).
  { intros k v w Hk Hw Hwne Ev. rewrite <- app_assoc, key_item; [|done|].
    - assert (skip_set (eq :: padding) ((pad ++ [eq] ++ pad ++ w) ++ rest) = w ++ rest) as ->.
      { rewrite <- !app_assoc. rewrite skip_all by (eapply Forall_impl; [exact Hpad|]; set_solver).
        rewrite skip_all by (repeat constructor; set_solver). rewrite skip_all by (eapply Forall_impl; [exact Hpad|]; set_solver).
        apply skip_stop. intros c Hc. apply Hw in Hc. set_solver. }
      destruct (w ++ rest) as [|c t] eqn:Ew; [by destruct w|]. specialize (Hw c eq_refl).
      rewrite bool_decide_eq_false_2 by set_solver. by rewrite Ev.
    - intros c Hc. destruct pad as [|p pad']; [cbn in Hc; injection Hc as <-; set_solver|].
      cbn in Hc. injection Hc as <-. apply Forall_cons in Hpad as [Hp _]. set_solver. }
  destruct i as [k|k v|k v]; cbn [print_item item_pair] in *.
  - destruct Hi as [Hk _]. rewrite key_item; [|done|intros c Hc; apply Hr in Hc; set_solver].
    rewrite skip_stop by (intros c Hc; apply Hr in Hc; set_solver). destruct rest as [|c t]; [by subst n|].
    specialize (Hr c eq_refl). by rewrite bool_decide_eq_true_2.
  - destruct Hi as (Hk & Hvne & Hv & Hh). apply Hval; [done| |done|apply value_item; [done|by left]].
    intros c Hc. destruct v as [|c0 v]; [done|]. cbn in Hc. injection Hc as <-. apply Forall_cons in Hv as [Hv _].
    specialize (Hh c0 eq_refl). set_solver.
  - destruct Hi as (Hk & Hv). apply Hval; [done| |done|apply value_item; [done|by right]].
    intros c Hc. cbn in Hc. injection Hc as <-. done.
Qed.

Lemma item_head i c : item_ok' i -> head (print_item eq pad i) = Some c -> c <> delim.
Proof using All.
  assert (Hk : forall k s, key_ok delim eq padding k -> head (k ++ pad ++ [eq] ++ s) = Some c -> c <> delim).
  { intros [|c0 k] s Hk Hc; cbn in Hc.
    - destruct pad as [|p pad']; cbn in Hc; injection Hc as <-; [congruence|]. apply Forall_cons in Hpad as [Hp _]. set_solver.
    - injection Hc as <-. apply Forall_cons in Hk as [Hk _]. set_solver. }
  destruct i as [k|k v|k v]; cbn [print_item].
  - intros [Hk' _] Hc. destruct k as [|c0 k]; [done|]. injection Hc as <-. apply Forall_cons in Hk' as [Hk' _]. set_solver.
  - intros (Hk' & _). by apply Hk.
  - intros (Hk' & _). by apply Hk.
Qed.

Lemma parse_items l fuel : Forall item_ok' l -> (length l < fuel)%nat ->
  parse_ref delim eq padding fuel (print_items delim eq pad l) false = Some (map item_pair l).
Proof using All.
  intros Hl. revert fuel. induction Hl as [|i l Hi Hl IH]; intros fuel Hf; [destruct fuel; [lia|done]|].
  destruct fuel as [|[|fuel]]; [cbn in Hf; lia..|]. destruct l as [|i' l'] eqn:El.
  - cbn [print_items]. rewrite <- (app_nil_r (print_item eq pad i)), parse_item by done. done.
  - rewrite <- El in *. assert (print_items delim eq pad (i :: l) = print_item eq pad i ++ [delim] ++ print_items delim eq pad l) as -> by (by subst l).
    rewrite parse_item; [|done|intros c Hc; cbn in Hc; congruence]. rewrite skip_all by (repeat constructor).
    rewrite skip_stop; [rewrite IH; [done|cbn [length] in Hf; lia]|].
    intros c Hc. assert (c <> delim); [|set_solver]. subst l. apply Forall_cons in Hl as [Hi' _].
    apply (item_head i'); [done|]. pose proof (print_item_ne delim eq padding pad i' Hi'). cbn [print_items] in Hc.
    destruct l'; [done|]. by destruct (print_item eq pad i').
Qed.
End round_trip.

Lemma items_length delim eq padding pad l : Forall (item_ok delim eq padding) l -> (length l <= length (print_items delim eq pad l))%nat.
Proof.
  induction 1 as [|i l Hi Hl IH]; [done|]. pose proof (print_item_ne delim eq padding pad i Hi) as Hne.
  assert (0 < length (print_item eq pad i))%nat by (destruct (print_item eq pad i); [done|apply Nat.lt_0_succ]).
  destruct l as [|i' l']; [done|].
  change (print_items delim eq pad (i :: i' :: l')) with (print_item eq pad i ++ [delim] ++ print_items delim eq pad (i' :: l')).
  rewrite !length_app. cbn [length] in *. lia.
Qed.

(** The parser of boot parameters.  It ends on every input, and reads back every
    list of parameters that is printed with one separator, whether a parameter is a bare
    flag, a plain value or a quoted value with separators in it, and for every choice of
    separator, equals sign and padding. *)
Theorem parse_impl_round_trip delim eq padding pad :
  (forall str, exists kv, parse_impl delim eq padding str = Ret kv) /\
  (delim <> eq -> delim ∉ padding -> QUOTE ∉ delim :: eq :: padding -> Forall (.∈ padding) pad ->
   forall l, Forall (item_ok delim eq padding) l ->
     parse_impl delim eq padding (print_items delim eq pad l) = Ret (map item_pair l)).
Proof.
  split; [intros str; destruct (parse_impl_ref delim eq padding str) as (kv & _ & E); by exists kv|].
  intros Hde Hdp Hq Hpad l Hl. destruct (parse_impl_ref delim eq padding (print_items delim eq pad l)) as (kv & Er & ->).
  pose proof (items_length delim eq padding pad l Hl).
  rewrite (parse_items delim eq padding pad Hde Hdp Hq Hpad l) in Er; [by injection Er as <-|done|lia].
Qed.

Ltac forall_dec := unfold key_ok; match goal with |- ?P => apply (bool_decide_unpack P) end; vm_compute; exact I.

Lemma parse_impl_round_trip_witness :
  parse_bootconfig (bs "androidboot.slot_suffix = _a") = Ret [(bs "androidboot.slot_suffix", bs "_a")] /\
  parse_cmdline (print_items x20 x3d [] [Flag (bs "rootwait"); Quoted (bs "dm") (bs "system,0 1"); Plain (bs "a") (bs "b=c")]) =
    Ret [(bs "rootwait", []); (bs "dm", bs "system,0 1"); (bs "a", bs "b=c")].
Proof.
  split.
  - apply (proj2 (parse_impl_round_trip x0a x3d [x20] [x20]) ltac:(done) ltac:(set_solver) ltac:(set_solver)
      ltac:(repeat constructor) [Plain (bs "androidboot.slot_suffix") (bs "_a")]).
    apply List.Forall_cons; [|apply List.Forall_nil]. split_and!; [forall_dec|done|forall_dec|].
    intros c [= <-]. set_solver.
  - apply (proj2 (parse_impl_round_trip x20 x3d [] []) ltac:(done) ltac:(set_solver) ltac:(set_solver) ltac:(constructor)).
    apply List.Forall_cons; [split; [forall_dec|done]|].
    apply List.Forall_cons; [split; forall_dec|].
    apply List.Forall_cons; [|apply List.Forall_nil]. split_and!; [forall_dec|done|forall_dec|].
    intros c [= <-]. set_solver.
Defined.

(** The last parameter of [/proc/cmdline] keeps the newline at the end of the file. *)
Example cmdline_newline : parse_cmdline (bs "rootwait skip_initramfs" ++ [x0a]) =
  Ret [(bs "rootwait", []); (bs "skip_initramfs" ++ [x0a], [])].
Proof. vm_compute. reflexivity. Qed.
(** A separator at the beginning is read as an empty parameter. *)
Example cmdline_leading_space : parse_cmdline (bs " rootwait") = Ret [([], []); (bs "rootwait", [])].
Proof. vm_compute. reflexivity. Qed.

(** ** The configuration keeps its buffers terminated *)

Definition text_ok (n : Z) (b : bytes) : Prop := zlen b = n /\ x00 ∈ b.
Definition config_ok (c : BootConfig) : Prop :=
  text_ok 3 (slot c) /\ text_ok 64 (dt_dir c) /\ text_ok 32 (fstab_suffix c) /\ text_ok 32 (hardware c) /\ text_ok 32 (hardware_plat c).

(** What a parameter says of a field; the last parameter that says something wins. *)
Definition says_text (key : bytes) (n : nat) (p : bytes * bytes) : option bytes :=
  if bool_decide (p.1 = key) then Some (take n (cstr p.2)) else None.
Definition says_slot (p : bytes * bytes) : option bytes :=
  if bool_decide (p.1 = bs "androidboot.slot_suffix") then
    if bool_decide (p.2 = bs "normal") then None else Some (take 2 (cstr p.2))
  else if bool_decide (p.1 = bs "androidboot.slot") then Some (x5f :: take 1 (cstr p.2)) else None.
Definition says_force (p : bytes * bytes) : option bool :=
  if bool_decide (p.1 = bs "androidboot.force_normal_boot") then Some (bool_decide (head p.2 = Some x31)) else None.
Definition mentioned (key : bytes) (kv : kv_pairs) : bool := existsb (fun p => bool_decide (p.1 = key)) kv.
Definition says_map (p : bytes * bytes) : kv_pairs :=
  if bool_decide (p.1 = bs "androidboot.partition_map") then
    match parse_partition_map p.2 with Ret kv => kv | _ => [] end
  else [].

(** The effect of a list of parameters. *)
Record config_set (kv : kv_pairs) (c c' : BootConfig) : Prop := ConfigSet {
  cs_slot : cstr (slot c') = last_of says_slot (cstr (slot c)) kv;
  cs_dt : cstr (dt_dir c') = last_of (says_text (bs "androidboot.android_dt_dir") 63) (cstr (dt_dir c)) kv;
  cs_fstab : cstr (fstab_suffix c') = last_of (says_text (bs "androidboot.fstab_suffix") 31) (cstr (fstab_suffix c)) kv;
  cs_hardware : cstr (hardware c') = last_of (says_text (bs "androidboot.hardware") 31) (cstr (hardware c)) kv;
  cs_plat : cstr (hardware_plat c') = last_of (says_text (bs "androidboot.hardware.platform") 31) (cstr (hardware_plat c)) kv;
  cs_skip : skip_initramfs c' = skip_initramfs c || mentioned (bs "skip_initramfs") kv;
  cs_force : force_normal_boot c' = last_of says_force (force_normal_boot c) kv;
  cs_wait : rootwait c' = rootwait c || mentioned (bs "rootwait") kv;
  cs_emulator : emulator c' = emulator c || mentioned (bs "qemu") kv;
  cs_map : partition_map c' = partition_map c ++ kv ≫= says_map }.

Lemma mentioned_app key l1 l2 : mentioned key (l1 ++ l2) = mentioned key l1 || mentioned key l2.
Proof. apply existsb_app. Qed.

Lemma config_set_nil c : config_set [] c c.
Proof. split; try reflexivity; by rewrite ?orb_false_r, ?app_nil_r. Qed.
Lemma config_set_trans kv1 kv2 c c1 c2 : config_set kv1 c c1 -> config_set kv2 c1 c2 -> config_set (kv1 ++ kv2) c c2.
Proof.
  intros H1 H2. split; rewrite ?last_of_app, ?mentioned_app, ?bind_app, ?orb_assoc, ?app_assoc.
  - by rewrite <- (cs_slot _ _ _ H1), (cs_slot _ _ _ H2).
  - by rewrite <- (cs_dt _ _ _ H1), (cs_dt _ _ _ H2).
  - by rewrite <- (cs_fstab _ _ _ H1), (cs_fstab _ _ _ H2).
  - by rewrite <- (cs_hardware _ _ _ H1), (cs_hardware _ _ _ H2).
  - by rewrite <- (cs_plat _ _ _ H1), (cs_plat _ _ _ H2).
  - by rewrite <- (cs_skip _ _ _ H1), (cs_skip _ _ _ H2).
  - by rewrite <- (cs_force _ _ _ H1), (cs_force _ _ _ H2).
  - by rewrite <- (cs_wait _ _ _ H1), (cs_wait _ _ _ H2).
  - by rewrite <- (cs_emulator _ _ _ H1), (cs_emulator _ _ _ H2).
  - by rewrite <- (cs_map _ _ _ H1), (cs_map _ _ _ H2).
Qed.

Lemma copy_value_spec n buf value : text_ok n buf -> 0 < n ->
  exists b, copy_value buf value = Ret b /\ text_ok n b /\ cstr b = take (Z.to_nat n - 1) (cstr value).
Proof.
  intros [Hl H0] Hn. destruct (strscpy_spec buf (cstr value)) as (b & k & E & Hb & Hz & Hc); [apply cstr_no_nul|lia|].
  exists b. unfold copy_value. rewrite E. split; [done|]. split; [split; [lia|done]|]. rewrite Hc. f_equal. unfold zlen in *. lia.
Qed.

(** One parameter. *)
Ltac keys := repeat match goal with
  | |- context [bool_decide (bs ?a = bs ?b)] =>
    let r := eval vm_compute in (bool_decide (bs a = bs b)) in change (bool_decide (bs a = bs b)) with r; cbv iota
  | H : ?k <> ?s |- context [bool_decide (?k = ?s)] => rewrite (bool_decide_eq_false_2 (k = s) H); cbv iota
  end.
Ltac config_fields :=
  split; unfold last_of, mentioned, says_slot, says_text, says_force, says_map;
  cbn [omap list_omap existsb fst snd mbind list_bind slot dt_dir fstab_suffix hardware hardware_plat skip_initramfs force_normal_boot rootwait emulator partition_map
       set_slot set_dt_dir set_fstab_suffix set_hardware set_hardware_plat set_partition_map set_flags];
  keys; cbn [last default id orb app]; rewrite ?orb_false_r, ?orb_true_r, ?app_nil_r; try done.
Ltac copied E H n v :=
  let b := fresh "b" in let Hb := fresh "Hb" in
  destruct (copy_value_spec n _ v H ltac:(lia)) as (b & E & Hb & ?); rewrite E; cbn [obind]; eexists; split; [reflexivity|]; split; [by split_and!|config_fields].

Lemma set_one_spec c k v : config_ok c -> exists c', set_one c k v = Ret c' /\ config_ok c' /\ config_set [(k, v)] c c'.
Proof.
  intros Hc. pose proof Hc as (H1 & H2 & H3 & H4 & H5). unfold set_one.
  destruct (decide (k = bs "androidboot.slot_suffix")) as [->|N1]; keys.
  { case_bool_decide as Hn.
    - exists c. split; [done|]. split; [done|]. config_fields. by rewrite bool_decide_eq_true_2.
    - copied E H1 3 v. }
  destruct (decide (k = bs "androidboot.slot")) as [->|N2]; keys.
  { destruct (slot c) as [|s0 s] eqn:Es; [by destruct H1|]. change (drop 1 (s0 :: s)) with s.
    destruct (strscpy_spec s (cstr v)) as (b & n & E & Hb & Hz & Hcs); [apply cstr_no_nul|destruct H1 as [H1 _]; rewrite zlen_cons in H1; lia|].
    unfold copy_value. rewrite E. cbn [obind]. eexists. split; [reflexivity|]. destruct H1 as [H1 _]. rewrite zlen_cons in H1.
    split; [split_and!; [|done..]; split; [cbn [slot set_slot]; rewrite zlen_cons; lia|set_solver]|].
    config_fields. cbn [cstr]. change (Byte.eqb x5f x00) with false. cbv iota. rewrite Hcs. do 2 f_equal. unfold zlen in *. lia. }
  destruct (decide (k = bs "skip_initramfs")) as [->|N3]; keys; [eexists; split; [reflexivity|]; split; [done|config_fields]|].
  destruct (decide (k = bs "androidboot.force_normal_boot")) as [->|N4]; keys; [eexists; split; [reflexivity|]; split; [done|config_fields]|].
  destruct (decide (k = bs "rootwait")) as [->|N5]; keys; [eexists; split; [reflexivity|]; split; [done|config_fields]|].
  destruct (decide (k = bs "androidboot.android_dt_dir")) as [->|N6]; keys; [copied E H2 64 v|].
  destruct (decide (k = bs "androidboot.hardware")) as [->|N7]; keys; [copied E H4 32 v|].
  destruct (decide (k = bs "androidboot.hardware.platform")) as [->|N8]; keys; [copied E H5 32 v|].
  destruct (decide (k = bs "androidboot.fstab_suffix")) as [->|N9]; keys; [copied E H3 32 v|].
  destruct (decide (k = bs "qemu")) as [->|N10]; keys; [eexists; split; [reflexivity|]; split; [done|config_fields]|].
  destruct (decide (k = bs "androidboot.partition_map")) as [->|N11]; keys; [|exists c; split; [done|]; split; [done|config_fields]].
  unfold parse_partition_map. destruct (parse_impl_ref x3b x2c [] v) as (kv & _ & E). rewrite E. cbn [obind].
  eexists. split; [reflexivity|]. split; [done|config_fields]. unfold parse_partition_map. by rewrite E.
Qed.

Lemma set_config_spec kv : forall c, config_ok c -> exists c', set_config kv c = Ret c' /\ config_ok c' /\ config_set kv c c'.
Proof.
  induction kv as [|[k v] kv IH]; intros c Hc; [exists c; split; [done|]; split; [done|apply config_set_nil]|].
  destruct (set_one_spec c k v Hc) as (c1 & E1 & Hc1 & S1). destruct (IH c1 Hc1) as (c2 & E2 & Hc2 & S2).
  exists c2. cbn [set_config]. rewrite E1. cbn [obind]. split; [done|]. split; [done|]. by apply (config_set_trans [(k, v)] kv c c1 c2).
Qed.

(** ** The key combination *)

Definition usable (d : keydev) : bool := kd_mknod d && kd_open d && kd_volup d.
Definition held_samples (events : list keydev) (i n : nat) : nat :=
  length (filter (fun j => existsb (fun d => kd_held d j) events = true) (seq i n)).

Lemma count_held_spec events n : forall i count, (count < 300)%nat ->
  count_held n i count events = (300 <=? count + held_samples events i n)%nat.
Proof.
  unfold held_samples. induction n as [|n IH]; intros i count Hc; cbn [count_held seq].
  - symmetry. apply Nat.leb_gt. cbn. lia.
  - rewrite filter_cons. destruct (existsb (fun d => kd_held d i) events) eqn:Eh.
    + rewrite decide_True by done. cbn [length]. destruct (Nat.leb_spec 300 (S count)).
      * symmetry. apply Nat.leb_le. lia.
      * rewrite IH by lia. f_equal. lia.
    + rewrite decide_False by done. destruct (Nat.leb_spec 300 count); [lia|]. by apply IH.
Qed.

Lemma check_volume_up_spec devs :
  check_volume_up devs = (300 <=? held_samples (filter (fun d => usable d = true) devs) 0 500)%nat.
Proof.
  unfold check_volume_up. change (filter _ devs) with (filter (fun d => usable d = true) devs) at 1.
  destruct (filter (fun d => usable d = true) devs) as [|d l]; [by vm_compute|]. rewrite count_held_spec by lia. done.
Qed.

(** ** Initialisation *)

(** Some line of the file is [RECOVERYMODE=true]. *)
Definition recovery_mode (content : bytes) : bool :=
  existsb (fun l => bool_decide (prop_of_line (line_view true l) = Some (bs "RECOVERYMODE", bs "true"))) (getlines content).

Lemma recovery_spec content f (c : BootConfig) :
  parse_prop_file content (fun c key value => if bool_decide (key = bs "RECOVERYMODE" /\ value = bs "true") then (f c, false) else (c, true)) c =
  if recovery_mode content then f c else c.
Proof.
  unfold parse_prop_file, file_readline, recovery_mode. induction (getlines content) as [|l ls IH]; [done|].
  cbn [readline_loop existsb]. destruct (prop_of_line (line_view true l)) as [[k v]|] eqn:E.
  - destruct (decide (k = bs "RECOVERYMODE" /\ v = bs "true")) as [Hk|N].
    + rewrite (bool_decide_eq_true_2 (k = _ /\ _) Hk). cbv iota. destruct Hk as [-> ->]. rewrite bool_decide_eq_true_2 by done. done.
    + rewrite (bool_decide_eq_false_2 (k = _ /\ _) N). cbv iota. rewrite bool_decide_eq_false_2; [exact IH|]. intros [= -> ->]. by apply N.
  - rewrite bool_decide_eq_false_2 by done. exact IH.
Qed.

(** The text of a field after the device tree was read. *)
Definition dt_text (files : bytes -> option bytes) (dir name : bytes) (n : nat) (old : bytes) : bytes :=
  match files (take 127 (dir ++ bs "/" ++ name)) with
  | None | Some [] => old
  | Some data => take n (cstr (removelast data))
  end.

Lemma read_dt_spec files c name n buf : text_ok n buf -> 0 < n -> exists b,
  read_dt files c name buf = Ret b /\ text_ok n b /\ cstr b = dt_text files (cstr (dt_dir c)) name (Z.to_nat n - 1) (cstr buf).
Proof.
  intros Hb Hn. unfold read_dt, dt_text. destruct (files _) as [[|x data]|]; [by exists buf| |by exists buf].
  destruct (copy_value_spec n buf (removelast (x :: data)) Hb Hn) as (b & E & H & Hc). by exists b.
Qed.

(** The configuration after the device tree and the recovery mode. *)
Record config_init (files : bytes -> option bytes) (devs : list keydev) (c c' : BootConfig) : Prop := ConfigInit {
  ci_skip : skip_initramfs c' =
    if recovery_mode (default [] (files (bs "/.backup/.magisk")))
    then emulator c || negb (300 <=? held_samples (filter (fun d => usable d = true) devs) 0 500)%nat
    else skip_initramfs c;
  ci_dt : cstr (dt_dir c') = if bool_decide (cstr (dt_dir c) = []) then DEFAULT_DT_DIR else cstr (dt_dir c);
  ci_fstab : cstr (fstab_suffix c') = dt_text files (cstr (dt_dir c')) (bs "fstab_suffix") 31 (cstr (fstab_suffix c));
  ci_hardware : cstr (hardware c') = dt_text files (cstr (dt_dir c')) (bs "hardware") 31 (cstr (hardware c));
  ci_plat : cstr (hardware_plat c') = dt_text files (cstr (dt_dir c')) (bs "hardware.platform") 31 (cstr (hardware_plat c));
  ci_other : (slot c', force_normal_boot c', rootwait c', emulator c', partition_map c') =
             (slot c, force_normal_boot c, rootwait c, emulator c, partition_map c) }.

Lemma default_dt c : config_ok c -> exists b,
  (if bool_decide (head (dt_dir c) = Some x00) then let! b := copy_value (dt_dir c) DEFAULT_DT_DIR in Ret (set_dt_dir b c) else Ret c) = Ret (set_dt_dir b c) /\
  text_ok 64 b /\ cstr b = if bool_decide (cstr (dt_dir c) = []) then DEFAULT_DT_DIR else cstr (dt_dir c).
Proof.
  intros (_ & Hd & _). destruct (dt_dir c) as [|x d] eqn:Ed; [by destruct Hd|].
  destruct (decide (x = x00)) as [->|Nx].
  - rewrite bool_decide_eq_true_2 by done. destruct (copy_value_spec 64 _ DEFAULT_DT_DIR Hd ltac:(lia)) as (b & E & H & Hc).
    exists b. rewrite E. split; [done|]. split; [done|]. rewrite Hc. cbn [cstr]. vm_compute. reflexivity.
  - rewrite bool_decide_eq_false_2 by (cbn; congruence). exists (x :: d). split; [rewrite <- Ed; by destruct c|]. split; [done|].
    cbn [cstr]. by rewrite eqb_false.
Qed.

(** C25: reading the boot configuration.  For every content of the files (whatever the
    kernel or the boot loader put there, however long the values) the initialisation ends
    without a write outside a buffer and leaves every text field terminated.  The text of
    a field is what the last parameter of [/proc/cmdline] and then [/proc/bootconfig]
    gave, cut to the buffer; the device tree overrides three fields; in recovery mode the
    flag depends on the volume key being held in 300 of the 500 samples. *)
Theorem init_config_spec files devs c : config_ok c -> exists kv1 kv2 c1 c',
  parse_cmdline (default [] (files (bs "/proc/cmdline"))) = Ret kv1 /\
  parse_bootconfig (default [] (files (bs "/proc/bootconfig"))) = Ret kv2 /\
  config_set (kv1 ++ kv2) c c1 /\ config_init files devs c1 c' /\
  init_config files devs c = Ret c' /\ config_ok c'.
Proof.
  intros Hc. unfold init_config, parse_cmdline, parse_bootconfig.
  destruct (parse_impl_ref x20 x3d [] (default [] (files (bs "/proc/cmdline")))) as (kv1 & _ & E1).
  destruct (parse_impl_ref x0a x3d [x20] (default [] (files (bs "/proc/bootconfig")))) as (kv2 & _ & E2). rewrite E1, E2. cbn [obind].
  destruct (set_config_spec kv1 c Hc) as (a & Ea & Ha & Sa). destruct (set_config_spec kv2 a Ha) as (c1 & Eb & Hc1 & Sb).
  rewrite Ea. cbn [obind]. rewrite Eb. cbn [obind]. rewrite recovery_spec.
  set (c2 := if recovery_mode _ then _ else _).
  assert (Hc2 : exists sk, sk = (if recovery_mode (default [] (files (bs "/.backup/.magisk")))
      then emulator c1 || negb (300 <=? held_samples (filter (fun d => usable d = true) devs) 0 500)%nat else skip_initramfs c1) /\
    c2 = set_flags sk (force_normal_boot c1) (rootwait c1) (emulator c1) c1).
  { eexists. split; [reflexivity|]. unfold c2. rewrite <- check_volume_up_spec. destruct (recovery_mode _); [done|]. by destruct c1. }
  clearbody c2. destruct Hc2 as (sk & Hskip & ->). destruct (default_dt (set_flags sk (force_normal_boot c1) (rootwait c1) (emulator c1) c1) Hc1) as (b & E & Hb & Hd). rewrite E. cbn [obind].
  destruct Hc1 as (K1 & K2 & K3 & K4 & K5).
  destruct (read_dt_spec files (set_dt_dir b c1) (bs "fstab_suffix") 32 (fstab_suffix c1) K3 ltac:(lia)) as (b3 & E3 & H3 & T3).
  destruct (read_dt_spec files (set_dt_dir b c1) (bs "hardware") 32 (hardware c1) K4 ltac:(lia)) as (b4 & E4 & H4 & T4).
  destruct (read_dt_spec files (set_dt_dir b c1) (bs "hardware.platform") 32 (hardware_plat c1) K5 ltac:(lia)) as (b5 & E5 & H5 & T5).
  unfold read_dt in *. cbn [dt_dir set_dt_dir set_flags fstab_suffix hardware hardware_plat set_fstab_suffix set_hardware] in *.
  rewrite E3. cbn [obind dt_dir set_fstab_suffix hardware]. rewrite E4. cbn [obind dt_dir set_fstab_suffix set_hardware hardware_plat]. rewrite E5. cbn [obind].
  eexists kv1, kv2, c1, _. split; [done|]. split; [done|]. split; [by apply (config_set_trans _ _ _ a)|]. split; [|split; [reflexivity|by split_and!]].
  split; [exact Hskip|exact Hd|exact T3|exact T4|exact T5|reflexivity].
Qed.

Definition sample_files (p : bytes) : option bytes :=
  if bool_decide (p = bs "/proc/cmdline") then Some (bs "androidboot.slot=bcd androidboot.hardware=qcom rootwait")
  else if bool_decide (p = bs "/proc/bootconfig") then Some (bs "androidboot.hardware = " ++ replicate 40 x61)
  else if bool_decide (p = DEFAULT_DT_DIR ++ bs "/fstab_suffix") then Some (bs "emmc" ++ [x00]) else None.

Lemma new_config_ok : config_ok new_config.
Proof. by repeat split; vm_compute; repeat constructor. Qed.

Lemma init_config_spec_witness : exists c', init_config sample_files [] new_config = Ret c' /\ config_ok c' /\
  (cstr (slot c'), cstr (hardware c'), cstr (fstab_suffix c'), rootwait c') = (bs "_b", replicate 31 x61, bs "emmc", true).
Proof.
  destruct (init_config_spec sample_files [] new_config new_config_ok) as (kv1 & kv2 & c1 & c' & _ & _ & _ & _ & E & Hc).
  exists c'. split; [exact E|]. split; [exact Hc|].
  assert (E' : init_config sample_files [] new_config = Ret c') by exact E. vm_compute in E'. injection E' as <-. vm_compute. reflexivity.
Defined.
