(* ===== verification/Su.v ===== *)
(** The superuser client and the shell it asks for: [native/src/core/su/su.cpp] and the
    part of [base/misc.cpp] it uses.  The first part is the command line of [su]
    (with the scan of [getopt_long]), the second the child of the daemon that becomes the
    shell: its streams, mount namespace, environment and identity. *)

From S2P Require Import Prelude Base Files Daemon.

Definition DASH : byte := x2d.
Definition EQUALS : byte := x3d.
Definition DEFAULT_SHELL : bytes := bs "/system/bin/sh".

(** ** The request *)

Record SuRequest := SuReq {
  target_uid : Z;
  target_pid : Z;
  login : bool;
  keep_env : bool;
  shell : bytes;
  command : bytes;
  context : bytes;
  gids : list Z }.

(** [SuRequest::New()]: the defaults of [su/daemon.rs]. *)
Definition new_request : SuRequest := SuReq AID_ROOT (-1) false false DEFAULT_SHELL [] [] [].

Definition set_target_uid v r := SuReq v (target_pid r) (login r) (keep_env r) (shell r) (command r) (context r) (gids r).
Definition set_target_pid v r := SuReq (target_uid r) v (login r) (keep_env r) (shell r) (command r) (context r) (gids r).
Definition set_login v r := SuReq (target_uid r) (target_pid r) v (keep_env r) (shell r) (command r) (context r) (gids r).
Definition set_keep_env v r := SuReq (target_uid r) (target_pid r) (login r) v (shell r) (command r) (context r) (gids r).
Definition set_shell v r := SuReq (target_uid r) (target_pid r) (login r) (keep_env r) v (command r) (context r) (gids r).
Definition set_command v r := SuReq (target_uid r) (target_pid r) (login r) (keep_env r) (shell r) v (context r) (gids r).
Definition set_context v r := SuReq (target_uid r) (target_pid r) (login r) (keep_env r) (shell r) (command r) v (gids r).
Definition set_gids v r := SuReq (target_uid r) (target_pid r) (login r) (keep_env r) (shell r) (command r) (context r) v.

(** ** [getopt_long] *)

(** [(name, takes an argument, value)] *)
Definition long_opts : list (bytes * bool * byte) :=
  [ (bs "command", true, x63); (bs "help", false, x68); (bs "login", false, x6c);
    (bs "preserve-environment", false, x70); (bs "shell", true, x73); (bs "version", false, x76);
    (bs "context", true, x5a); (bs "mount-master", false, x4d); (bs "target", true, x74);
    (bs "group", true, x67); (bs "supp-group", true, x47); (bs "interactive", false, x69) ].
Definition optstring : bytes := bs "c:hlimps:VvuZ:Mt:g:G:".

(** [strchr(options, c)] and whether a colon follows. *)
Fixpoint short_opt (opts : bytes) (c : byte) : option bool :=
  match opts with
  | [] => None
  | o :: t => if Byte.eqb o c then Some (bool_decide (head t = Some x3a)) else short_opt t c
  end.

(** The long option meant by [name]: an exact match, or the only one it is a prefix of. *)
Definition long_match (name : bytes) : option (bytes * bool * byte) :=
  match list_find (fun o : bytes * bool * byte => o.1.1 = name) long_opts with
  | Some (_, o) => Some o
  | None =>
    match filter (fun o : bytes * bool * byte => starts_with name o.1.1 = true) long_opts with
    | [o] => Some o
    | _ => None
    end
  end.

(** The state of a scan: the words that are no options, the rest of a cluster of short
    options, and [argv] from [optind] on. *)
Record scan := Scan { nonopts : list bytes; place : bytes; args : list bytes }.

(** An answer: the option, [optarg], [argv[optind - 1]] and the new state; or the end, with
    the words that are left ([argv] is permuted so that they come last). *)
Inductive answer : Type :=
| AOpt (c : byte) (optarg : option bytes) (prev : bytes) (st : scan)
| AEnd (operands : list bytes).

Definition BAD : byte := x3f.

(** A long option: [text] follows the dashes in the word [word]. *)
Definition parse_long (nonopts : list bytes) (text word : bytes) (rest : list bytes) : answer :=
  let '(name, value) :=
    match find_first_of text [EQUALS] with
    | Some k => (take k text, Some (drop (S k) text))
    | None => (text, None)
    end in
  match long_match name with
  | None => AOpt BAD None word (Scan nonopts [] rest)
  | Some (_, needs, c) =>
    match needs, value with
    | false, Some _ => AOpt BAD None word (Scan nonopts [] rest)
    | false, None => AOpt c None word (Scan nonopts [] rest)
    | true, Some v => AOpt c (Some v) word (Scan nonopts [] rest)
    | true, None =>
      match rest with
      | [] => AOpt BAD None word (Scan nonopts [] rest)
      | v :: rest => AOpt c (Some v) v (Scan nonopts [] rest)
      end
    end
  end.

(** The next short option of a cluster, [place] being what is left of [word]. *)
Definition parse_short (nonopts : list bytes) (place word : bytes) (rest : list bytes) : answer :=
  match place with
  | [] => AOpt BAD None word (Scan nonopts [] rest)
  | c :: place =>
    match (if Byte.eqb c x3a || Byte.eqb c DASH then None else short_opt optstring c) with
    | None => AOpt BAD None word (Scan nonopts [] rest)
    | Some false =>
      match place with
      | [] => AOpt c None word (Scan nonopts [] rest)
      | _ => AOpt c None word (Scan nonopts place (word :: rest))
      end
    | Some true =>
      match place, rest with
      | [], [] => AOpt BAD None word (Scan nonopts [] rest)
      | [], v :: rest => AOpt c (Some v) v (Scan nonopts [] rest)
      | _, _ => AOpt c (Some place) word (Scan nonopts [] rest)
      end
    end
  end.

(** What a word is to the scan. *)
Inductive kind : Type := KEnd | KLong (text : bytes) | KShort (place : bytes) | KWord.
Definition kind_of (word : bytes) : kind :=
  if bool_decide (word = [DASH; DASH]) then KEnd
  else if starts_with [DASH; DASH] word then KLong (drop 2 word)
  else if starts_with [DASH] word && (1 <? zlen word) then KShort (drop 1 word)
  else KWord.

Fixpoint next_word (nonopts args : list bytes) : answer :=
  match args with
  | [] => AEnd nonopts
  | word :: rest =>
    match kind_of word with
    | KEnd => AEnd (nonopts ++ rest)
    | KLong text => parse_long nonopts text word rest
    | KShort place => parse_short nonopts place word rest
    | KWord => next_word (nonopts ++ [word]) rest
    end
  end.

(** One call; a dash inside a cluster starts a long option. *)
Definition getopt_long (st : scan) : answer :=
  match place st, args st with
  | [], args => next_word (nonopts st) args
  | _, [] => AEnd (nonopts st)
  | c :: text, word :: rest =>
    if Byte.eqb c DASH then parse_long (nonopts st) text word rest
    else parse_short (nonopts st) (c :: text) word rest
  end.

(** ** The command line of [su] *)

(** The words rewritten before the scan, wherever they stand. *)
Definition compat_word (w : bytes) : bytes :=
  if bool_decide (w = bs "-cn" \/ w = bs "-z") then bs "-Z"
  else if bool_decide (w = bs "-mm") then bs "-M" else w.

Definition join_words (l : list bytes) : bytes :=
  fold_left (fun cmd w => (match cmd with [] => [] | _ => cmd ++ [x20] end) ++ w) l [].

Definition usage {A} (status : Z) : outcome A := Exit status.
Definition EXIT_SUCCESS : Z := 0.
Definition EXIT_FAILURE : Z := 1.

(** The state of the loop: the request and [interactive]. *)
Definition client : Type := SuRequest * bool.
Definition on_req (f : SuRequest -> SuRequest) (s : client) : client := (f s.1, s.2).

(** [optarg] where the code uses it as a string. *)
Definition arg_of (optarg : option bytes) : outcome bytes := from_option Ret Fault optarg.

(** One option; [prev] is [argv[optind - 1]]. *)
Definition handle_opt (c : byte) (optarg : option bytes) (prev : bytes) (st : scan) (s : client)
  : outcome (scan * client) :=
  match c with
  | x63 => (* c *) Ret (Scan (nonopts st) [] [], on_req (set_command (join_words (prev :: args st))) s)
  | x68 => (* h *) usage EXIT_SUCCESS
  | x69 => (* i *) Ret (st, (s.1, true))
  | x6c => (* l *) Ret (st, on_req (set_login true) s)
  | x6d | x70 => (* m, p *) Ret (st, on_req (set_keep_env true) s)
  | x73 => (* s *) let! a := arg_of optarg in Ret (st, on_req (set_shell a) s)
  | x56 => (* V *) Exit EXIT_SUCCESS
  | x76 => (* v *) Exit EXIT_SUCCESS
  | x5a => (* Z *) let! a := arg_of optarg in Ret (st, on_req (set_context a) s)
  | x4d | x74 => (* M, t *)
    if negb (target_pid s.1 =? -1) then usage EXIT_FAILURE
    else match optarg with
         | None => Ret (st, on_req (set_target_pid 0) s)
         | Some a =>
           let! pid := parse_int a in
           if bool_decide (head a = Some DASH) || (pid =? -1) then usage EXIT_FAILURE
           else Ret (st, on_req (set_target_pid pid) s)
         end
  | x67 | x47 => (* g, G: both insert into an empty vector of their own *)
    let! a := arg_of optarg in
    let! gid := parse_int a in
    if 0 <=? gid then Ret (st, on_req (fun r => set_gids (gids r ++ [gid]) r) s)
    else usage EXIT_FAILURE
  | _ => usage 2
  end.

Fixpoint options_loop (fuel : nat) (st : scan) (s : client) : outcome (list bytes * client) :=
  match fuel with
  | O => Loop
  | S fuel =>
    match getopt_long st with
    | AEnd operands => Ret (operands, s)
    | AOpt c optarg prev st =>
      let! (st, s) := handle_opt c optarg prev st s in options_loop fuel st s
    end
  end.

(** Every round uses up a character of a cluster or a word. *)
Definition words_size (l : list bytes) : nat := list_sum (map (fun w : bytes => S (length w)) l).
Definition scan_size (st : scan) : nat :=
  match place st, args st with
  | (_ :: _) as p, _ :: rest => length p + words_size rest
  | _, l => words_size l
  end.

(** The words after the options: a lone dash, and the user by name ([pwnam] is
    [getpwnam]) or number; what follows is not used. *)
Definition operands_of (pwnam : bytes -> option Z) (operands : list bytes) (r : SuRequest) : outcome SuRequest :=
  let '(operands, r) :=
    match operands with
    | w :: rest => if bool_decide (w = [DASH]) then (rest, set_login true r) else (operands, r)
    | [] => (operands, r)
    end in
  match operands with
  | [] => Ret r
  | user :: _ =>
    match pwnam user with
    | Some uid => Ret (set_target_uid uid r)
    | None => let! uid := parse_int user in Ret (set_target_uid uid r)
    end
  end.

(** [su_client_main] up to the connection: the request and [interactive]; [words] is
    [argv] without [argv[0]]. *)
Definition parse_args (pwnam : bytes -> option Z) (words : list bytes) : outcome client :=
  let st := Scan [] [] (map compat_word words) in
  let! (operands, s) := options_loop (S (scan_size st)) st (new_request, false) in
  let! r := operands_of pwnam operands s.1 in
  Ret (r, s.2 || bool_decide (command r = [])).

Example su_plain : parse_args (fun _ => None) [] = Ret (new_request, true).
Proof. reflexivity. Qed.
Example su_user_command :
  parse_args (fun u => if bool_decide (u = bs "shell") then Some 2000 else None)
    [bs "-lG"; bs "3003"; bs "shell"; bs "-mm"; bs "-c"; bs "id"; bs "-u"] =
  Ret (SuReq 2000 0 true false DEFAULT_SHELL (bs "id -u") [] [3003], false).
Proof. vm_compute. reflexivity. Qed.
(** An attached argument of [-c] is not taken off the option. *)
Example su_attached_command : exists r, parse_args (fun _ => None) [bs "--command=id"] = Ret r /\ command r.1 = bs "--command=id".
Proof. eexists. vm_compute. split; reflexivity. Qed.
(** A word of the command is rewritten. *)
Example su_rewritten_command : exists r, parse_args (fun _ => None) [bs "-c"; bs "ls"; bs "-z"] = Ret r /\ command r.1 = bs "ls -Z".
Proof. eexists. vm_compute. split; reflexivity. Qed.

(** ** The scan ends *)

Lemma parse_int_cases a : parse_int a = Fault \/ exists n, parse_int a = Ret n.
Proof.
  unfold parse_int, parse_num. generalize 0. induction a as [|x a IH]; intros v; cbn [parse_num_from]; [by right; exists v|].
  destruct (_ || _); [by right; exists (-1)|]. destruct (_ && _); [apply IH|by left].
Qed.

Lemma words_size_cons w l : words_size (w :: l) = (S (length w) + words_size l)%nat.
Proof. done. Qed.
Lemma scan_size_plain non l : scan_size (Scan non [] l) = words_size l.
Proof. done. Qed.

Lemma parse_long_size non text word rest c o p st : parse_long non text word rest = AOpt c o p st -> (scan_size st <= words_size rest)%nat.
Proof.
  unfold parse_long. match goal with |- (let '(_, _) := ?x in _) = _ -> _ => destruct x as [name value] end.
  destruct (long_match name) as [[[n needs] v]|]; [|intros [= _ _ _ <-]; done].
  destruct needs, value; [intros [= _ _ _ <-]; done| |intros [= _ _ _ <-]; done..].
  destruct rest as [|w rest]; intros [= _ _ _ <-]; [done|]. rewrite words_size_cons, scan_size_plain. lia.
Qed.

Lemma parse_short_size non pl word rest c o p st : parse_short non pl word rest = AOpt c o p st ->
  (scan_size st <= pred (length pl) + words_size rest)%nat.
Proof.
  unfold parse_short. destruct pl as [|x pl]; [intros [= _ _ _ <-]; rewrite scan_size_plain; lia|].
  match goal with |- match ?x with _ => _ end = _ -> _ => destruct x as [[|]|] end; [| |intros [= _ _ _ <-]; rewrite scan_size_plain; lia].
  - destruct pl as [|y pl]; [destruct rest as [|w rest]|]; intros [= _ _ _ <-]; rewrite scan_size_plain; rewrite ?words_size_cons; lia.
  - destruct pl as [|y pl]; intros [= _ _ _ <-]; [rewrite scan_size_plain; lia|]. unfold scan_size. cbn. lia.
Qed.

Lemma kind_short w pl : kind_of w = KShort pl -> (0 < length pl < length w)%nat /\ w = DASH :: pl.
Proof.
  unfold kind_of. case_bool_decide; [done|]. destruct (starts_with [DASH; DASH] w); [done|]. destruct (starts_with [DASH] w) eqn:E; [|done].
  apply starts_with_spec in E as [t ->]. cbn [app andb]. destruct (Z.ltb_spec 1 (zlen (DASH :: t))) as [Hl|]; [|done].
  intros [= <-]. unfold zlen in Hl. cbn in *. rewrite drop_0. split; [lia|done].
Qed.

Lemma next_word_size l : forall non c o p st, next_word non l = AOpt c o p st -> (scan_size st < words_size l)%nat.
Proof.
  induction l as [|w l IH]; intros non c o p st; [done|]. cbn [next_word]. rewrite words_size_cons. destruct (kind_of w) as [|text|pl|] eqn:Ek.
  - done.
  - intros E%parse_long_size. lia.
  - intros E%parse_short_size. apply kind_short in Ek as [Hk _]. lia.
  - intros E%IH. lia.
Qed.

Lemma getopt_size st c o p st' : getopt_long st = AOpt c o p st' -> (scan_size st' < scan_size st)%nat.
Proof.
  destruct st as [non pl l]. unfold getopt_long, scan_size at 2. cbn [place args nonopts]. destruct pl as [|x pl]; [apply next_word_size|].
  destruct l as [|w l]; [done|]. destruct (Byte.eqb x DASH); [intros E%parse_long_size|intros E%parse_short_size]; cbn [length pred] in *; lia.
Qed.

Lemma handle_size c o p st s st' s' : handle_opt c o p st s = Ret (st', s') -> (scan_size st' <= scan_size st)%nat.
Proof.
  assert (Hz : (scan_size (Scan (nonopts st) [] []) <= scan_size st)%nat) by (rewrite scan_size_plain; apply Nat.le_0_l).
  unfold handle_opt, usage. intros E.
  destruct c; try done; repeat first
    [ injection E as <- <-; first [done | exact Hz]
    | apply bind_Ret_inv in E as (? & _ & E)
    | match type of E with (if ?b then _ else _) = _ => destruct b; try done | match ?x with _ => _ end = _ => destruct x; try done end ].
Qed.

(** The result does not depend on the fuel once there is enough. *)
Lemma options_loop_fuel f1 : forall f2 st s, (scan_size st < f1)%nat -> (scan_size st < f2)%nat ->
  options_loop f1 st s = options_loop f2 st s /\ options_loop f1 st s <> Loop.
Proof.
  induction f1 as [|f1 IH]; intros [|f2] st s H1 H2; [lia..|]. cbn [options_loop].
  destruct (getopt_long st) as [c o p st1|ops] eqn:E; [|done]. apply getopt_size in E.
  destruct (handle_opt c o p st1 s) as [[st2 s2]|code| |] eqn:Eh; [|done..|].
  - apply handle_size in Eh. cbn [obind]. apply IH; lia.
  - exfalso. clear -Eh. assert (Hp : forall a, parse_int a <> Loop) by (intros a; destruct (parse_int_cases a) as [->|[n ->]]; done).
    unfold handle_opt, usage, arg_of in Eh. destruct c; try done;
      repeat first [ done | match type of Eh with
                     | (if ?b then _ else _) = _ => destruct b
                     | match ?x with _ => _ end = _ => destruct x
                     | obind (from_option _ _ ?o) _ = _ => destruct o; cbn [from_option obind] in Eh
                     | obind (parse_int ?a) _ = _ => specialize (Hp a); destruct (parse_int a); cbn [obind] in Eh
                     end ].
Qed.

Definition run (st : scan) (s : client) : outcome (list bytes * client) := options_loop (S (scan_size st)) st s.

Lemma run_step st s : run st s =
  match getopt_long st with
  | AEnd operands => Ret (operands, s)
  | AOpt c optarg prev st => let! (st, s) := handle_opt c optarg prev st s in run st s
  end.
Proof.
  unfold run at 1. cbn [options_loop]. destruct (getopt_long st) as [c o p st1|ops] eqn:E; [|done]. apply getopt_size in E.
  destruct (handle_opt c o p st1 s) as [[st2 s2]|code| |] eqn:Eh; [|done..]. apply handle_size in Eh. cbn [obind].
  apply options_loop_fuel; lia.
Qed.

(** ** What the options mean *)

(** The ways to write an option, a word that is no option, and an unknown option. *)
Inductive oitem : Type :=
| Short (c : byte) (v : option bytes)
| Attached (c : byte) (v : bytes)
| Long (name : bytes) (c : byte) (v : option bytes)
| LongEq (name : bytes) (c : byte) (v : bytes)
| Word (w : bytes)
| Unknown (c : byte).

Definition print_oitem (i : oitem) : list bytes :=
  match i with
  | Short c v => [DASH; c] :: option_list v
  | Attached c v => [DASH :: c :: v]
  | Long name c v => ([DASH; DASH] ++ name) :: option_list v
  | LongEq name c v => [[DASH; DASH] ++ name ++ EQUALS :: v]
  | Word w => [w]
  | Unknown c => [[DASH; c]]
  end.

Definition has_arg {A} (v : option A) : bool := bool_decide (is_Some v).
Definition short_ok (c : byte) (b : bool) : Prop := c <> x3a /\ c <> DASH /\ c <> x63 /\ short_opt optstring c = Some b.
Definition oitem_ok (i : oitem) : Prop :=
  match i with
  | Short c v => short_ok c (has_arg v)
  | Attached c v => short_ok c true /\ v <> []
  | Long name c v => c <> x63 /\ (name, has_arg v, c) ∈ long_opts
  | LongEq name c v => c <> x63 /\ (name, true, c) ∈ long_opts
  | Word w => kind_of w = KWord
  | Unknown c => c <> DASH /\ short_opt optstring c = None
  end.

Definition item_opt (i : oitem) : option (byte * option bytes) :=
  match i with
  | Short c v | Long _ c v => Some (c, v)
  | Attached c v | LongEq _ c v => Some (c, Some v)
  | Word _ => None
  | Unknown _ => Some (BAD, None)
  end.
Definition item_word (i : oitem) : option bytes := match i with Word w => Some w | _ => None end.

(** How a command line ends: with the last item, with a command, or with two dashes. *)
Inductive tail_item : Type := TEnd | TCommand (long : bool) (w : bytes) (ws : list bytes) | TDashes (ws : list bytes).
Definition print_tail (t : tail_item) : list bytes :=
  match t with
  | TEnd => []
  | TCommand long w ws => (if long then bs "--command" else bs "-c") :: w :: ws
  | TDashes ws => [DASH; DASH] :: ws
  end.
Definition tail_words (t : tail_item) : list bytes := match t with TDashes ws => ws | _ => [] end.
Definition tail_ok (t : tail_item) : Prop := match t with TCommand _ w _ => w <> [] | _ => True end.
(** The words of a command, separated by spaces. *)
Definition tail_command (t : tail_item) : option bytes :=
  match t with TCommand _ w ws => Some (w ++ concat (map (cons x20) ws)) | _ => None end.

Definition number_of (a : option bytes) : Z := match parse_int (default [] a) with Ret n => n | _ => -1 end.
Definition pid_ok (a : option bytes) : bool :=
  match a with None => true | Some v => negb (bool_decide (head v = Some DASH)) && negb (number_of a =? -1) end.

(** The status of the first option that ends the program. *)
Fixpoint first_exit (seen : bool) (l : list (byte * option bytes)) : option Z :=
  match l with
  | [] => None
  | (c, a) :: l =>
    match c with
    | x68 | x56 | x76 => Some EXIT_SUCCESS
    | x4d | x74 => if seen || negb (pid_ok a) then Some EXIT_FAILURE else first_exit true l
    | x67 | x47 => if 0 <=? number_of a then first_exit seen l else Some EXIT_FAILURE
    | x69 | x6c | x6d | x70 | x73 | x5a => first_exit seen l
    | _ => Some 2
    end
  end.

Definition given (cs : bytes) (l : list (byte * option bytes)) : bool := existsb (fun p => bool_decide (p.1 ∈ cs)) l.
Definition says_arg (c : byte) (p : byte * option bytes) : option bytes := if bool_decide (p.1 = c) then p.2 else None.
Definition says_pid (p : byte * option bytes) : option Z :=
  if bool_decide (p.1 ∈ [x4d; x74]) then Some (from_option (fun v => number_of (Some v)) 0 p.2) else None.
Definition says_gid (p : byte * option bytes) : option Z := if bool_decide (p.1 ∈ [x67; x47]) then Some (number_of p.2) else None.

(** The request and [interactive] after the options. *)
Definition options_of (s : client) (l : list (byte * option bytes)) : client :=
  (SuReq (target_uid s.1) (last_of says_pid (target_pid s.1) l) (login s.1 || given [x6c] l) (keep_env s.1 || given [x6d; x70] l)
     (last_of (says_arg x73) (shell s.1) l) (command s.1) (last_of (says_arg x5a) (context s.1) l) (gids s.1 ++ omap says_gid l),
   s.2 || given [x69] l).

Lemma long_entry name b c : (name, b, c) ∈ long_opts ->
  long_match name = Some (name, b, c) /\ Forall (.≠ EQUALS) name /\ name <> [].
Proof.
  assert (H : Forall (fun o : bytes * bool * byte => long_match o.1.1 = Some o /\ Forall (.≠ EQUALS) o.1.1 /\ o.1.1 <> []) long_opts)
    by (apply (bool_decide_unpack _); vm_compute; exact I).
  rewrite Forall_forall in H. apply (H (name, b, c)).
Qed.

Lemma kind_long text : text <> [] -> kind_of (DASH :: DASH :: text) = KLong text.
Proof. intros Ht. unfold kind_of. rewrite bool_decide_eq_false_2 by (intros [= ->]; done). done. Qed.
Lemma kind_of_short c pl : c <> DASH -> kind_of (DASH :: c :: pl) = KShort (c :: pl).
Proof.
  intros Hc. unfold kind_of. rewrite bool_decide_eq_false_2 by (intros [= ->]; done).
  assert (starts_with [DASH; DASH] (DASH :: c :: pl) = false) as ->.
  { apply not_true_is_false. intros [t E]%starts_with_spec. by injection E as ->. }
  assert ((1 <? zlen (DASH :: c :: pl)) = true) as ->; [|done]. apply Z.ltb_lt. unfold zlen. cbn [length]. lia.
Qed.

(** The answer for an option, however it is written. *)
Lemma getopt_item non i rest p : oitem_ok i -> item_opt i = Some p -> exists prev,
  getopt_long (Scan non [] (print_oitem i ++ rest)) = AOpt p.1 p.2 prev (Scan non [] rest).
Proof.
  unfold getopt_long. cbn [place args nonopts]. destruct i as [c v|c v|name c v|name c v|w|c]; cbn [oitem_ok item_opt print_oitem]; intros Hi [= <-]; cbn [fst snd].
  - destruct Hi as (H1 & H2 & _ & Hs). cbn [app next_word]. rewrite kind_of_short by done. unfold parse_short.
    rewrite !eqb_false by done. cbn [orb]. rewrite Hs. destruct v as [v|]; eexists; reflexivity.
  - destruct Hi as [(H1 & H2 & _ & Hs) Hv]. cbn [app next_word]. rewrite kind_of_short by done. unfold parse_short.
    rewrite !eqb_false by done. cbn [orb]. rewrite Hs. destruct v as [|x v]; [done|]. eexists; reflexivity.
  - destruct Hi as (_ & (Hm & He & Hn)%long_entry). cbn [app next_word].
    rewrite (kind_long name Hn). unfold parse_long. 
    assert (find_first_of name [EQUALS] = None) as ->.
    { clear -He. induction He as [|x n Hx _ IH]; [done|]. cbn [find_first_of]. unfold is_delim. rewrite bool_decide_eq_false_2 by set_solver. by rewrite IH. }
    rewrite Hm. destruct v as [v|]; eexists; reflexivity.
  - destruct Hi as (_ & (Hm & He & Hn)%long_entry). cbn [app next_word].
    rewrite (kind_long (name ++ EQUALS :: v)) by (by destruct name). unfold parse_long. rewrite find_first_of_app by done.
    rewrite take_app_length. replace (drop (S (length name)) (name ++ EQUALS :: v)) with v.
    + rewrite Hm. eexists; reflexivity.
    + change (EQUALS :: v) with ([EQUALS] ++ v). rewrite app_assoc, drop_app_length'; [done|]. rewrite length_app. cbn. lia.
  - destruct Hi as [H1 Hs]. cbn [app next_word]. rewrite kind_of_short by done. unfold parse_short. rewrite Hs.
    destruct (_ || _); eexists; reflexivity.
Qed.

Lemma run_word non w rest s : kind_of w = KWord -> run (Scan non [] (w :: rest)) s = run (Scan (non ++ [w]) [] rest) s.
Proof. intros Hw. rewrite !run_step. unfold getopt_long. cbn [place args nonopts next_word]. by rewrite Hw. Qed.

(** An option has its argument, and its number fits an [int]. *)
Definition opt_ok (p : byte * option bytes) : Prop :=
  (p.1 ∈ [x73; x5a; x67; x47; x74] -> is_Some p.2) /\ (p.1 = x4d -> p.2 = None) /\
  (p.1 ∈ [x67; x47; x74] -> parse_int (default [] p.2) <> Fault).

Definition seen (s : client) : bool := negb (target_pid s.1 =? -1).

Lemma parse_int_ret a : parse_int a <> Fault -> parse_int a = Ret (number_of (Some a)).
Proof.
  unfold number_of. cbn [default id]. by destruct (parse_int_cases a) as [->|[n ->]].
Qed.

(** One option, as the meaning has it. *)
Lemma handle_one c a prev st s : c <> x63 -> opt_ok (c, a) ->
  handle_opt c a prev st s =
  match first_exit (seen s) [(c, a)] with Some code => Exit code | None => Ret (st, options_of s [(c, a)]) end.
Proof.
  intros Hc (Ha & HM & Hn). cbn [fst snd] in *. destruct s as [[tu tp lg ke sh cm ct gs] it].
  assert (HP : c ∈ [x67; x47; x74] -> exists v, a = Some v /\ parse_int v = Ret (number_of (Some v))).
  { intros H. destruct (Ha ltac:(set_solver)) as [v ->]. exists v. split; [done|]. apply parse_int_ret, Hn, H. }
  assert (HS : c ∈ [x73; x5a] -> exists v, a = Some v) by (intros H; apply Ha; set_solver).
  unfold options_of, last_of, given, says_arg, says_pid, says_gid.
  destruct c; try reflexivity; try done;
    cbn [handle_opt first_exit fst snd omap list_omap existsb last]; unfold usage;
    try (rewrite ?orb_false_r, ?orb_true_r, ?app_nil_r; reflexivity).
  - destruct (HP ltac:(set_solver)) as (v & -> & E). cbn [arg_of from_option obind]. rewrite E. cbn [obind].
    destruct (0 <=? number_of (Some v)); rewrite ?orb_false_r; reflexivity.
  - rewrite HM by done. unfold seen. cbn [fst target_pid]. destruct (tp =? -1); rewrite ?orb_false_r, ?app_nil_r; reflexivity.
  - destruct (HS ltac:(set_solver)) as (v & ->). rewrite ?orb_false_r, ?app_nil_r. reflexivity.
  - destruct (HP ltac:(set_solver)) as (v & -> & E). cbn [arg_of from_option obind]. rewrite E. cbn [obind].
    destruct (0 <=? number_of (Some v)); rewrite ?orb_false_r; reflexivity.
  - destruct (HS ltac:(set_solver)) as (v & ->). rewrite ?orb_false_r, ?app_nil_r. reflexivity.
  - destruct (HP ltac:(set_solver)) as (v & -> & E). unfold seen. cbn [fst target_pid]. destruct (tp =? -1); [|reflexivity]. cbn [negb].
    rewrite E. cbn [obind pid_ok orb]. destruct (bool_decide (head v = Some DASH)), (number_of (Some v) =? -1); cbn [negb orb andb];
      rewrite ?orb_false_r, ?app_nil_r; reflexivity.
Qed.

Lemma options_of_cons s p l : options_of (options_of s [p]) l = options_of s (p :: l).
Proof.
  unfold options_of. cbn [fst snd target_uid target_pid login keep_env shell command context gids]. rewrite !last_of_cons.
  unfold given. cbn [existsb]. rewrite !orb_false_r, !orb_assoc, <- app_assoc. change (p :: l) with ([p] ++ l). by rewrite omap_app.
Qed.

Lemma first_exit_cons s c a l : first_exit (seen s) ((c, a) :: l) =
  match first_exit (seen s) [(c, a)] with Some code => Some code | None => first_exit (seen (options_of s [(c, a)])) l end.
Proof.
  assert (Hpid : pid_ok a = true -> negb (from_option (fun v => number_of (Some v)) 0 a =? -1) = true).
  { destruct a as [v|]; [|done]. cbn [pid_ok from_option]. by intros [_ ?]%andb_true_iff. }
  unfold options_of, last_of, says_pid. destruct c; try reflexivity; cbn [first_exit].
  all: try (destruct (0 <=? number_of a); reflexivity).
  all: destruct (seen s); [reflexivity|]; destruct (pid_ok a); [|reflexivity]; cbn [orb negb]; unfold seen; symmetry; f_equal; apply Hpid; done.
Qed.

Lemma options_of_nil s : options_of s [] = s.
Proof. destruct s as [[] it]. unfold options_of, last_of, given. cbn. by rewrite !orb_false_r, app_nil_r. Qed.

Lemma item_not_command i c a : oitem_ok i -> item_opt i = Some (c, a) -> c <> x63.
Proof.
  destruct i; cbn [oitem_ok item_opt]; intros Hi [= <- <-]; unfold short_ok in Hi; [apply Hi|apply Hi|apply Hi|apply Hi|discriminate].
Qed.

Lemma join_words_spec w ws : w <> [] -> join_words (w :: ws) = w ++ concat (map (cons x20) ws).
Proof.
  unfold join_words. cbn [fold_left app]. revert w. induction ws as [|x ws IH]; intros w Hw; cbn [fold_left map concat]; [by rewrite app_nil_r|].
  destruct w as [|y w]; [done|]. rewrite IH by done. by rewrite <- !app_assoc.
Qed.

Lemma run_tail tl non s : tail_ok tl -> run (Scan non [] (print_tail tl)) s =
  Ret (non ++ tail_words tl, from_option (fun c => on_req (set_command c) s) s (tail_command tl)).
Proof.
  intros Ht. rewrite run_step. unfold getopt_long. cbn [place args nonopts]. destruct tl as [|long w ws|ws]; cbn [print_tail tail_words tail_command from_option].
  - by rewrite app_nil_r.
  - assert (next_word non ((if long then bs "--command" else bs "-c") :: w :: ws) = AOpt x63 (Some w) w (Scan non [] ws)) as -> by (by destruct long).
    cbn [handle_opt obind args nonopts]. rewrite run_step, join_words_spec by done. by rewrite app_nil_r.
  - done.
Qed.

(** The scan of a command line. *)
Lemma run_items tl items : forall non s, Forall oitem_ok items -> tail_ok tl -> Forall opt_ok (omap item_opt items) ->
  run (Scan non [] (concat (map print_oitem items) ++ print_tail tl)) s =
  match first_exit (seen s) (omap item_opt items) with
  | Some code => Exit code
  | None =>
    let s := options_of s (omap item_opt items) in
    Ret (non ++ omap item_word items ++ tail_words tl, from_option (fun c => on_req (set_command c) s) s (tail_command tl))
  end.
Proof.
  induction items as [|i items IH]; intros non s Hi Ht Ho.
  - cbn [map concat app omap list_omap first_exit]. rewrite options_of_nil. by apply run_tail.
  - apply Forall_cons in Hi as [Hi Hitems]. cbn [map concat]. rewrite <- app_assoc. destruct (item_opt i) as [[c a]|] eqn:Ei.
    + change (omap item_opt (i :: items)) with (match item_opt i with Some y => y :: omap item_opt items | None => omap item_opt items end) in *.
      rewrite Ei in *. apply Forall_cons in Ho as [Ho Hopts].
      destruct (getopt_item non i (concat (map print_oitem items) ++ print_tail tl) (c, a) Hi Ei) as [prev E].
      rewrite run_step, E. cbn [fst snd]. rewrite first_exit_cons, handle_one; [|by apply (item_not_command i c a)|done].
      destruct (first_exit (seen s) [(c, a)]); [done|]. cbn [obind]. rewrite IH by done. rewrite options_of_cons.
      assert (omap item_word (i :: items) = omap item_word items) as -> by (by destruct i). done.
    + destruct i as [| | | |w|]; try done. cbn [print_oitem app]. rewrite run_word by done.
      change (omap item_opt (Word w :: items)) with (omap item_opt items) in *. rewrite IH by done.
      change (omap item_word (Word w :: items)) with (w :: omap item_word items). by rewrite <- app_assoc.
Qed.

(** The request of a command line: the last [-s] and [-Z] count, the groups are those of
    all [-g] and [-G] in the order of the command line. *)
Definition request_of (l : list (byte * option bytes)) (cmd : option bytes) : SuRequest :=
  SuReq AID_ROOT (last_of says_pid (-1) l) (given [x6c] l) (given [x6d; x70] l) (last_of (says_arg x73) DEFAULT_SHELL l)
    (default [] cmd) (last_of (says_arg x5a) [] l) (omap says_gid l).

(** C8: the command line of [su].  Reading the arguments ends on every input.  Take a
    command line that, after the rewriting of the compatibility options, has one option per
    word: a short option with its argument in the next word or attached, a long option
    written out with its argument in the next word or after an equals sign, or an unknown
    short option; in any order, with other words between them, and at the end nothing, [-c]
    or [--command] followed by the words of a command, or two dashes and words.  (Clusters of
    short options, abbreviated long options and a command attached to its option are not of
    this form.)  If the numbers fit an [int], the result is either the exit status of the
    first option that ends the program (help and version, a second [-M] or [-t], a bad
    number, an unknown option) or the request that the options describe, the groups in the
    order of [-g] and [-G] on the command line, with the user taken from the words that are
    no options. *)
Theorem su_args_spec pwnam :
  (forall words, parse_args pwnam words <> Loop) /\
  forall words items tl,
    map compat_word words = concat (map print_oitem items) ++ print_tail tl ->
    Forall oitem_ok items -> tail_ok tl -> Forall opt_ok (omap item_opt items) ->
    parse_args pwnam words =
    match first_exit false (omap item_opt items) with
    | Some code => Exit code
    | None =>
      let! r := operands_of pwnam (omap item_word items ++ tail_words tl) (request_of (omap item_opt items) (tail_command tl)) in
      Ret (r, given [x69] (omap item_opt items) || bool_decide (command r = []))
    end.
Proof.
  split.
  - intros words. unfold parse_args. set (st := Scan [] [] _).
    destruct (options_loop_fuel (S (scan_size st)) (S (scan_size st)) st (new_request, false)) as [_ Hl]; [lia..|].
    destruct (options_loop _ _ _) as [[ops s]|code| |]; [|done..]. cbn [obind].
    assert (Hp : operands_of pwnam ops s.1 <> Loop).
    { unfold operands_of. destruct (match ops with [] => _ | _ => _ end) as [ops' r]. destruct ops' as [|u ops']; [done|]. destruct (pwnam u); [done|].
      by destruct (parse_int_cases u) as [->|[n ->]]. }
    by destruct (operands_of pwnam ops s.1).
  - intros words items tl E Hi Ht Ho. unfold parse_args. rewrite E. fold (run (Scan [] [] (concat (map print_oitem items) ++ print_tail tl)) (new_request, false)).
    rewrite run_items by done. change (seen (new_request, false)) with false. destruct (first_exit false _); [done|]. cbn [obind app].
    by destruct (tail_command tl).
Qed.

Lemma su_args_spec_witness : parse_args (fun _ => None)
    [bs "--supp-group=3003"; bs "2000"; bs "-g"; bs "1000"; bs "-s/bin/sh"; bs "--login"; bs "-t"; bs "77"; bs "-c"; bs "id"; bs "-u"] =
  Ret (SuReq 2000 77 true false (bs "/bin/sh") (bs "id -u") [] [3003; 1000], false).
Proof.
  apply (proj2 (su_args_spec (fun _ => None)) _
    [LongEq (bs "supp-group") x47 (bs "3003"); Word (bs "2000"); Short x67 (Some (bs "1000")); Attached x73 (bs "/bin/sh");
     Long (bs "login") x6c None; Short x74 (Some (bs "77"))]
    (TCommand false (bs "id") [bs "-u"])).
  - vm_compute. reflexivity.
  - repeat apply List.Forall_cons; try apply List.Forall_nil; cbn [oitem_ok]; unfold short_ok; split_and?; try done;
      match goal with |- ?P => apply (bool_decide_unpack P) end; vm_compute; exact I.
  - done.
  - repeat apply List.Forall_cons; try apply List.Forall_nil; 
      (split_and!; [match goal with |- ?P => apply (bool_decide_unpack P) end; vm_compute; exact I|done|vm_compute; done]).
Defined.
