(* ===== verification/SuShell.v ===== *)
(** The child of the daemon that becomes the shell of [su]: [exec_root_shell] and
    [set_identity] of [native/src/core/su/su.cpp], [switch_mnt_ns] of [base/misc.cpp], and
    the other end of the stream protocol in [su_client_main].  The child runs with
    [exit_on_error], so a failing system call behind a logging wrapper ends it with
    status -1. *)

From S2P Require Import Prelude Base Files Daemon Su.

Definition fatal {A} : outcome A := Exit (-1).

(** ** Descriptors *)

(** What a descriptor refers to: a stream of the client, the master or the slave of a
    terminal in a directory, or something else. *)
Inductive obj : Type :=
| Stream (n : Z)
| Ptmx (dir : bytes) (num : Z)
| Pts (path : bytes)
| Other (n : Z).

Abbreviation fdtable := (gmap Z obj).

(** The kernel hands out the lowest free number. *)
Definition lowest (t : fdtable) : Z :=
  match list_find (fun i => t !! Z.of_nat i = None) (seq 0 (S (size t))) with
  | Some (_, i) => Z.of_nat i
  | None => 0
  end.
Definition open_fd (o : obj) (t : fdtable) : Z * fdtable := (lowest t, <[lowest t := o]> t).
Definition close_fd (fd : Z) (t : fdtable) : fdtable := delete fd t.
Definition xdup2 (old new : Z) (t : fdtable) : outcome fdtable :=
  match t !! old with Some o => Ret (<[new := o]> t) | None => fatal end.

(** ** The stream protocol *)

Inductive msg : Type := MFd (o : option obj) | MInt (z : Z).

(** What the client sends: a stream that is a terminal of an interactive session is
    replaced by a terminal of the daemon; [su_client_main] lines 226-246. *)
Definition ATTY_IN : Z := 1.
Definition ATTY_OUT : Z := 2.
Definition ATTY_ERR : Z := 4.
Definition atty_of (isatty : Z -> bool) (interactive : bool) : Z :=
  let atty := 0 in
  let atty := if isatty 0 && interactive then Z.lor atty ATTY_IN else atty in
  let atty := if isatty 1 && interactive then Z.lor atty ATTY_OUT else atty in
  if isatty 2 && interactive then Z.lor atty ATTY_ERR else atty.
Definition send_stream (atty bit fd : Z) : msg :=
  MFd (if Z.land atty bit =? 0 then Some (Stream fd) else None).
Definition client_streams (isatty : Z -> bool) (interactive : bool) : list msg :=
  let atty := atty_of isatty interactive in
  [send_stream atty ATTY_IN 0; send_stream atty ATTY_OUT 1; send_stream atty ATTY_ERR 2;
   MInt (if atty =? 0 then 0 else 1)].

(** [recv_fd]: [-1] without a descriptor; [read_int]: [-1] at the end of the stream. *)
Definition recv_fd (l : list msg) (t : fdtable) : Z * list msg * fdtable :=
  match l with
  | MFd (Some o) :: l => let '(fd, t) := open_fd o t in (fd, l, t)
  | MFd None :: l => (-1, l, t)
  | _ => (-1, l, t)
  end.
Definition recv_int (l : list msg) : Z * list msg :=
  match l with MInt z :: l => (z, l) | _ => (-1, l) end.

(** The terminals: whether Magisk has its own directory, the number of a new terminal
    (negative when the kernel does not tell), and which paths can be opened. *)
Record ptys := Ptys {
  magiskpts : bytes;
  has_magiskpts : bool;
  ptmx_opens : bytes -> bool;
  pty_num : bytes -> Z;
  pts_opens : bytes -> bool }.

Definition to_string (z : Z) : bytes := if z <? 0 then DASH :: print_dec (- z) else print_dec z.

Definition xopen_ptmx (p : ptys) (dir ptmx : bytes) (t : fdtable) : outcome (Z * fdtable) :=
  if ptmx_opens p ptmx then Ret (open_fd (Ptmx dir (pty_num p ptmx)) t) else fatal.

(** Getting a terminal: the slave's descriptor, what is sent to the client, the table. *)
Definition get_pty (p : ptys) (t : fdtable) : outcome (Z * msg * fdtable) :=
  let '(pts, ptmx) :=
    if has_magiskpts p then (magiskpts p, magiskpts p ++ bs "/ptmx") else (bs "/dev/pts", bs "/dev/ptmx") in
  let! (ptmx_fd, t) := xopen_ptmx p pts ptmx t in
  let num := pty_num p ptmx in
  let! (pts, num, ptmx_fd, t) :=
    (if num <? 0 then
       let t := close_fd ptmx_fd t in
       let! (ptmx_fd, t) := xopen_ptmx p (bs "/dev/pts") (bs "/dev/ptmx") t in
       Ret (bs "/dev/pts", pty_num p (bs "/dev/ptmx"), ptmx_fd, t)
     else Ret (pts, num, ptmx_fd, t)) in
  let sent := MFd (t !! ptmx_fd) in
  let t := close_fd ptmx_fd t in
  let pts_slave := pts ++ bs "/" ++ to_string num in
  if pts_opens p pts_slave then
    let '(ptsfd, t) := open_fd (Pts pts_slave) t in Ret (ptsfd, sent, t)
  else fatal.

(** The streams of the shell: the table, and what was sent to the client. *)
Definition setup_streams (p : ptys) (client : Z) (l : list msg) (t : fdtable) : outcome (fdtable * list msg) :=
  let '(infd, l, t) := recv_fd l t in
  let '(outfd, l, t) := recv_fd l t in
  let '(errfd, l, t) := recv_fd l t in
  let '(n, l) := recv_int l in
  let! (infd, outfd, errfd, sent, t) :=
    (if n =? 0 then Ret (infd, outfd, errfd, [], t)
     else
       let! (ptsfd, sent, t) := get_pty p t in
       let pick fd := if fd <? 0 then ptsfd else fd in
       Ret (pick infd, pick outfd, pick errfd, [sent], t)) in
  let! t := xdup2 infd 0 t in
  let! t := xdup2 outfd 1 t in
  let! t := xdup2 errfd 2 t in
  Ret (close_fd client (close_fd errfd (close_fd outfd (close_fd infd t))), sent).

(** ** Mount namespaces *)

Inductive mntns : Type := NsDaemon | NsOf (pid : Z) | NsCopy (n : mntns).

(** The ways into the namespace of a process: [pidfd_open] gives a positive descriptor,
    [setns] with it works, [/proc/<pid>/ns/mnt] opens, [setns] with that works. *)
Record nsenv := NsEnv { pidfd_opens : Z -> bool; pidfd_setns : Z -> bool; proc_opens : Z -> bool; proc_setns : Z -> bool }.

Definition switch_mnt_ns (e : nsenv) (pid : Z) (cur : mntns) : outcome (Z * mntns) :=
  if pidfd_opens e pid && pidfd_setns e pid then Ret (0, NsOf pid)
  else if proc_opens e pid then if proc_setns e pid then Ret (0, NsOf pid) else fatal
  else Ret (1, cur).

Definition MNT_GLOBAL : Z := 0.
Definition MNT_REQUESTER : Z := 1.
Definition MNT_ISOLATE : Z := 2.

(** The target and the mode that are used. *)
Definition resolve_mode (pid target mode : Z) : Z * Z :=
  if target =? -1 then (pid, mode)
  else if target =? 0 then (target, MNT_GLOBAL)
  else if mode =? MNT_GLOBAL then (target, MNT_REQUESTER) else (target, mode).

Definition setup_ns (e : nsenv) (pid target mode : Z) (cur : mntns) : outcome mntns :=
  let '(target, mode) := resolve_mode pid target mode in
  if mode =? MNT_REQUESTER then let! (_, n) := switch_mnt_ns e target cur in Ret n
  else if mode =? MNT_ISOLATE then let! (_, n) := switch_mnt_ns e target cur in Ret (NsCopy n)
  else Ret cur.

(** ** The environment *)

Definition environ : Type := list (bytes * bytes).

(** [setenv(name, value, 1)]: in place, or at the end. *)
Fixpoint setenv (name value : bytes) (e : environ) : environ :=
  match e with
  | [] => [(name, value)]
  | (k, v) :: e => if bool_decide (k = name) then (k, value) :: e else (k, v) :: setenv name value e
  end.
(** [putenv]: a string without an equals sign is refused. *)
Definition putenv (s : bytes) (e : environ) : environ :=
  match find_first_of s [EQUALS] with
  | Some k => setenv (take k s) (drop (S k) s) e
  | None => e
  end.

(** The loop over the content of [/proc/<pid>/environ]. *)
Fixpoint environ_loop (fuel : nat) (env : bytes) (pos : nat) (e : environ) : outcome environ :=
  match fuel with
  | O => Loop
  | S fuel =>
    if (pos <? length env)%nat then
      let e := putenv (cstr (drop pos env)) e in
      match find_first_of (drop pos env) [x00] with
      | None => Ret e
      | Some k => environ_loop fuel env (S (pos + k)) e
      end
    else Ret e
  end.

Record passwd := Passwd { pw_name : bytes; pw_dir : bytes }.

Definition setup_env (env : bytes) (pw : option passwd) (req : SuRequest) : outcome environ :=
  let! e := environ_loop (S (length env)) env 0 [] in
  match keep_env req, pw with
  | false, Some pw =>
    let e := setenv (bs "HOME") (pw_dir pw) e in
    let e := setenv (bs "USER") (pw_name pw) e in
    let e := setenv (bs "LOGNAME") (pw_name pw) e in
    Ret (setenv (bs "SHELL") (shell req) e)
  | _, _ => Ret e
  end.

(** ** The identity *)

Record cred := Cred { ruid : Z; euid : Z; suid : Z; rgid : Z; egid : Z; sgid : Z; groups : list Z }.

(** The kernel's rules: with effective user 0 everything is allowed, otherwise only the
    present identities; [(uid_t) -1] leaves an identity as it is. *)
Definition NOCHANGE : Z := 4294967295.
Definition seteuid (u : Z) (c : cred) : option cred :=
  let u := u32 u in
  if negb (u =? NOCHANGE) && (bool_decide (euid c = 0) || bool_decide (u ∈ [ruid c; euid c; suid c]))
  then Some (Cred (ruid c) u (suid c) (rgid c) (egid c) (sgid c) (groups c)) else None.
Definition setgroups (l : list Z) (c : cred) : option cred :=
  if bool_decide (euid c = 0) then Some (Cred (ruid c) (euid c) (suid c) (rgid c) (egid c) (sgid c) l) else None.
Definition id_or (n old : Z) : Z := if n =? NOCHANGE then old else n.
Definition setresgid (g : Z) (c : cred) : option cred :=
  let g := u32 g in
  if bool_decide (euid c = 0) || (g =? NOCHANGE) || bool_decide (g ∈ [rgid c; egid c; sgid c])
  then Some (Cred (ruid c) (euid c) (suid c) (id_or g (rgid c)) (id_or g (egid c)) (id_or g (sgid c)) (groups c)) else None.
Definition setresuid (u : Z) (c : cred) : option cred :=
  let u := u32 u in
  if bool_decide (euid c = 0) || (u =? NOCHANGE) || bool_decide (u ∈ [ruid c; euid c; suid c])
  then Some (Cred (id_or u (ruid c)) (id_or u (euid c)) (id_or u (suid c)) (rgid c) (egid c) (sgid c) (groups c)) else None.

Definition or_fatal {A} (o : option A) : outcome A := from_option Ret fatal o.

Definition set_identity (uid : Z) (gs : list Z) (c : cred) : outcome cred :=
  let! c := or_fatal (seteuid 0 c) in
  let! (gid, c) :=
    match gs with
    | g :: _ => let! c := or_fatal (setgroups gs c) in Ret (g, c)
    | [] => Ret (uid, c)
    end in
  let! c := or_fatal (setresgid gid c) in
  or_fatal (setresuid uid c).

(** ** The whole child *)

(** What the child can see of the system. *)
Record sysenv := SysEnv {
  sys_ptys : ptys;
  sys_ns : nsenv;
  sys_cwd : Z -> option bytes;
  sys_environ : Z -> bytes;
  sys_pwuid : Z -> option passwd;
  sys_attr_opens : bool }.

Record proc := Proc { p_fds : fdtable; p_ns : mntns; p_cwd : bytes; p_cred : cred }.

(** The process at [execvp]; [x_context] is what was written to [/proc/self/attr/exec]. *)
Record shell_exec := ShellExec {
  x_path : bytes;
  x_argv : list bytes;
  x_fds : fdtable;
  x_sent : list msg;
  x_ns : mntns;
  x_cwd : bytes;
  x_umask : Z;
  x_env : environ;
  x_context : bytes;
  x_cred : cred }.

Definition shell_argv (req : SuRequest) : list bytes :=
  (if login req then [DASH] else shell req) ::
  match command req with [] => [] | cmd => [bs "-c"; cmd] end.

Definition exec_root_shell (s : sysenv) (client pid : Z) (req : SuRequest) (mode : Z) (l : list msg) (p : proc) : outcome shell_exec :=
  let! (fds, sent) := setup_streams (sys_ptys s) client l (p_fds p) in
  let! ns := setup_ns (sys_ns s) pid (target_pid req) mode (p_ns p) in
  let cwd := default (p_cwd p) (sys_cwd s pid) in
  let! env := setup_env (sys_environ s pid) (sys_pwuid s (target_uid req)) req in
  let! con := (match context req with
               | [] => Ret []
               | c => if sys_attr_opens s then Ret c else fatal
               end) in
  let! c := set_identity (target_uid req) (gids req) (p_cred p) in
  Ret (ShellExec (shell req) (shell_argv req) fds sent ns cwd 18 env con c).

(** ** Streams *)

Lemma lowest_spec t : t !! lowest t = None /\ 0 <= lowest t.
Proof.
  unfold lowest. destruct (list_find (fun i => t !! Z.of_nat i = None) (seq 0 (S (size t)))) as [[j i]|] eqn:E.
  - apply list_find_Some in E as (_ & H & _). split; [done|lia].
  - exfalso. apply list_find_None in E. rewrite Forall_forall in E.
    assert (Hs : (list_to_set (Z.of_nat <$> seq 0 (S (size t))) : gset Z) ⊆ dom t).
    { intros z Hz. apply elem_of_list_to_set, list_elem_of_fmap in Hz as (i & -> & Hi). apply elem_of_dom.
      destruct (t !! Z.of_nat i) eqn:Ei; [done|]. by destruct (E i Hi). }
    apply subseteq_size in Hs. rewrite (size_dom (D := gset Z) t), size_list_to_set, length_fmap, length_seq in Hs; [by apply Nat.nle_succ_diag_l in Hs|].
    apply NoDup_fmap_2; [intros a b; apply Nat2Z.inj|apply NoDup_seq].
Qed.

(** Moving three descriptors to the standard ones. *)
Lemma swap_streams {A} (f : fdtable -> A) T t a b c oa ob oc :
  (forall i, i ∉ [a; b; c] -> T !! i = t !! i) -> T !! a = Some oa -> T !! b = Some ob -> T !! c = Some oc ->
  (forall i, i ∈ [a; b; c] -> t !! i = None /\ i ∉ [0; 1; 2]) ->
  (let! t := xdup2 a 0 T in let! t := xdup2 b 1 t in let! t := xdup2 c 2 t in Ret (f (close_fd c (close_fd b (close_fd a t))))) =
  Ret (f (<[2 := oc]> (<[1 := ob]> (<[0 := oa]> t)))).
Proof.
  intros HT Ha Hb Hc Hn. destruct (Hn a ltac:(set_solver)) as [Na Da]. destruct (Hn b ltac:(set_solver)) as [Nb Db].
  destruct (Hn c ltac:(set_solver)) as [Nc Dc]. unfold xdup2, close_fd. rewrite Ha. cbn [obind].
  rewrite lookup_insert_ne, Hb by set_solver. cbn [obind]. rewrite !lookup_insert_ne, Hc by set_solver. cbn [obind]. do 2 f_equal.
  apply map_eq. intros i. destruct (decide (i ∈ [a; b; c])) as [Hi|Hi].
  - destruct (Hn i Hi) as [Ni Di]. rewrite !(lookup_insert_ne _ _ i) by set_solver. rewrite Ni.
    destruct (decide (c = i)) as [->|]; [apply lookup_delete_eq|]. rewrite lookup_delete_ne by done.
    destruct (decide (b = i)) as [->|]; [apply lookup_delete_eq|]. rewrite lookup_delete_ne by done.
    destruct (decide (a = i)) as [->|]; [apply lookup_delete_eq|]. set_solver.
  - rewrite !lookup_delete_ne by set_solver. destruct (decide (i = 2)) as [->|]; [by rewrite !lookup_insert_eq|].
    rewrite !(lookup_insert_ne _ 2 i) by done. destruct (decide (i = 1)) as [->|]; [by rewrite !lookup_insert_eq|].
    rewrite !(lookup_insert_ne _ 1 i) by done. destruct (decide (i = 0)) as [->|]; [by rewrite !lookup_insert_eq|].
    rewrite !(lookup_insert_ne _ 0 i) by done. by apply HT.
Qed.

(** The terminal that is used: Magisk's own if it tells its number, or the system's. *)
Definition terminal (p : ptys) : bytes * Z :=
  if has_magiskpts p && (0 <=? pty_num p (magiskpts p ++ bs "/ptmx")) then (magiskpts p, pty_num p (magiskpts p ++ bs "/ptmx"))
  else (bs "/dev/pts", pty_num p (bs "/dev/ptmx")).
Definition slave_path (p : ptys) : bytes := (terminal p).1 ++ bs "/" ++ to_string (terminal p).2.
Definition pty_ok (p : ptys) : Prop :=
  (has_magiskpts p = true -> ptmx_opens p (magiskpts p ++ bs "/ptmx") = true) /\
  ((terminal p).1 = bs "/dev/pts" -> ptmx_opens p (bs "/dev/ptmx") = true) /\ pts_opens p (slave_path p) = true.

Lemma open_close o t : close_fd (lowest t) (<[lowest t := o]> t) = t.
Proof. apply delete_insert_id, lowest_spec. Qed.

Lemma get_pty_spec p t : pty_ok p -> get_pty p t =
  Ret (lowest t, MFd (Some (Ptmx (terminal p).1 (terminal p).2)), <[lowest t := Pts (slave_path p)]> t).
Proof.
  intros (H1 & H2 & H3). unfold get_pty. unfold slave_path in *. unfold terminal in *. destruct (has_magiskpts p) eqn:Eh.
  - unfold xopen_ptmx at 1. rewrite H1 by done. unfold open_fd at 1. cbn [obind].
    destruct (Z.ltb_spec (pty_num p (magiskpts p ++ bs "/ptmx")) 0) as [Hn|Hn].
    + rewrite (proj2 (Z.leb_gt _ _)) in * by lia. cbn [andb fst snd] in *. unfold xopen_ptmx. rewrite H2 by done.
      rewrite open_close. unfold open_fd. cbn [obind]. rewrite lookup_insert_eq, open_close, H3. done.
    + rewrite (proj2 (Z.leb_le _ _)) in * by lia. cbn [andb fst snd obind] in *. rewrite lookup_insert_eq, open_close, H3. done.
  - cbn [andb fst snd] in *. unfold xopen_ptmx at 1. rewrite H2 by done. unfold open_fd at 1. cbn [obind].
    destruct (Z.ltb_spec (pty_num p (bs "/dev/ptmx")) 0) as [Hn|Hn].
    + unfold xopen_ptmx. rewrite H2 by done. rewrite open_close. unfold open_fd. cbn [obind]. rewrite lookup_insert_eq, open_close, H3. done.
    + cbn [obind]. rewrite lookup_insert_eq, open_close, H3. done.
Qed.

(** The stream of the shell that belongs to a stream of the client. *)
Definition shell_stream (p : ptys) (isatty : Z -> bool) (interactive : bool) (i : Z) : obj :=
  if (isatty i && interactive)%bool then Pts (slave_path p) else Stream i.
Definition any_tty (isatty : Z -> bool) (interactive : bool) : bool := (isatty 0 || isatty 1 || isatty 2) && interactive.

Definition fds_ok (client : Z) (t : fdtable) : Prop := (client ∉ [0; 1; 2]) /\ forall i, i ∈ [0; 1; 2; client] -> is_Some (t !! i).

(** A descriptor that is new in a table with the standard ones. *)
Lemma fresh_fd client t t' : fds_ok client t -> t ⊆ t' -> 0 <= lowest t' /\ t !! lowest t' = None /\ t' !! lowest t' = None /\ lowest t' ∉ [0; 1; 2].
Proof.
  intros [_ Hf] Hs. destruct (lowest_spec t') as [Hn Hp]. assert (Ht : t !! lowest t' = None).
  { destruct (t !! lowest t') eqn:E; [|done]. by rewrite (lookup_weaken _ _ _ _ E Hs) in Hn. }
  split_and!; [done..|]. intros Hi. destruct (Hf (lowest t') ltac:(set_solver)) as [o Ho]. congruence.
Qed.

Lemma client_streams_eq isatty interactive : client_streams isatty interactive =
  [MFd (if isatty 0 && interactive then None else Some (Stream 0)); MFd (if isatty 1 && interactive then None else Some (Stream 1));
   MFd (if isatty 2 && interactive then None else Some (Stream 2)); MInt (if any_tty isatty interactive then 1 else 0)].
Proof. unfold client_streams, atty_of, any_tty. destruct (isatty 0), (isatty 1), (isatty 2), interactive; reflexivity. Qed.

(** Receiving a stream or nothing. *)
Lemma recv_stream (b : bool) o l t : recv_fd (MFd (if b then None else Some o) :: l) t =
  (if b then -1 else lowest t, l, if b then t else <[lowest t := o]> t).
Proof. by destruct b. Qed.

(** Three new descriptors in a row. *)
Lemma chain_fds client t x y : fds_ok client t ->
  let a := lowest t in let b := lowest (<[a := x]> t) in let c := lowest (<[b := y]> (<[a := x]> t)) in
  (a <> b /\ a <> c /\ b <> c) /\ forall i, i ∈ [a; b; c] -> t !! i = None /\ i ∉ [0; 1; 2].
Proof.
  intros Hf a b c. assert (Hne : forall i (T : fdtable), is_Some (T !! i) -> i <> lowest T).
  { intros i T [o Ho] ->. destruct (lowest_spec T). congruence. }
  assert (Sb : t ⊆ <[a := x]> t) by (apply insert_subseteq, lowest_spec).
  assert (Sc : t ⊆ <[b := y]> (<[a := x]> t)) by (etransitivity; [exact Sb|apply insert_subseteq, lowest_spec]).
  assert (Hab : a <> b) by (apply Hne; by rewrite lookup_insert_eq). split.
  - split_and!; [done|..]; apply Hne; [rewrite lookup_insert_ne by done|]; by rewrite lookup_insert_eq.
  - intros i Hi. destruct (fresh_fd _ _ t Hf) as (_ & A1 & _ & A2); [done|]. destruct (fresh_fd _ _ _ Hf Sb) as (_ & B1 & _ & B2).
    destruct (fresh_fd _ _ _ Hf Sc) as (_ & C1 & _ & C2).
    apply elem_of_cons in Hi as [->|Hi]; [exact (conj A1 A2)|]. apply elem_of_cons in Hi as [->|Hi]; [exact (conj B1 B2)|].
    apply list_elem_of_singleton in Hi as ->. exact (conj C1 C2).
Qed.

Lemma lowest_pos t : (lowest t <? 0) = false.
Proof. apply Z.ltb_ge, lowest_spec. Qed.

Lemma setup_streams_spec p client isatty interactive t :
  fds_ok client t -> (any_tty isatty interactive = true -> pty_ok p) ->
  setup_streams p client (client_streams isatty interactive) t =
  Ret (let o := shell_stream p isatty interactive in close_fd client (<[2 := o 2]> (<[1 := o 1]> (<[0 := o 0]> t))),
       if any_tty isatty interactive then [MFd (Some (Ptmx (terminal p).1 (terminal p).2))] else []).
Proof.
  intros Hf Hp. rewrite client_streams_eq. unfold setup_streams. rewrite !recv_stream. cbn [recv_int].
  unfold shell_stream. assert (Ha : any_tty isatty interactive = (isatty 0 && interactive) || (isatty 1 && interactive) || (isatty 2 && interactive)).
  { unfold any_tty. destruct (isatty 0), (isatty 1), (isatty 2), interactive; reflexivity. }
  rewrite Ha in *. destruct (isatty 0 && interactive), (isatty 1 && interactive), (isatty 2 && interactive); cbn [orb] in *; change (1 =? 0) with false; change (0 =? 0) with true; cbv iota;
   try (rewrite get_pty_spec by (by apply Hp); cbn [obind]); rewrite ?(proj2 (Z.ltb_lt (-1) 0)) by lia.
  all: cbv zeta; rewrite ?lowest_pos.
  all: match goal with |- _ = Ret (_, ?s) => apply (swap_streams (fun t => (close_fd client t, s))) end.
  all: match type of Hf with fds_ok ?client ?t =>
         match goal with
         | |- context [lowest (<[lowest (<[lowest t := ?x]> t) := ?y]> _)] => destruct (chain_fds client t x y Hf) as [(N1 & N2 & N3) Hc]
         | |- context [lowest (<[lowest t := ?x]> t)] => destruct (chain_fds client t x x Hf) as [(N1 & N2 & N3) Hc]
         | _ => destruct (chain_fds client t (Other 0) (Other 0) Hf) as [(N1 & N2 & N3) Hc]
         end
       end.
  all: try (intros i Hi; apply Hc; set_solver). all: try (intros i Hi; rewrite !lookup_insert_ne by set_solver; reflexivity).
  all: repeat first [rewrite lookup_insert_eq; reflexivity | rewrite lookup_insert_ne by congruence].
Qed.

(** ** The environment *)

Fixpoint getenv (name : bytes) (e : environ) : option bytes :=
  match e with [] => None | (k, v) :: e => if bool_decide (k = name) then Some v else getenv name e end.

Lemma getenv_setenv name n v e : getenv name (setenv n v e) = if bool_decide (n = name) then Some v else getenv name e.
Proof.
  induction e as [|[k w] e IH]; cbn [setenv getenv]; [done|]. destruct (decide (k = n)) as [->|Hk].
  - rewrite (bool_decide_eq_true_2 (n = n)) by done. cbn [getenv]. by case_bool_decide.
  - rewrite (bool_decide_eq_false_2 (k = n)) by done. cbn [getenv]. rewrite IH. case_bool_decide as H1; [|done].
    subst. by rewrite bool_decide_eq_false_2.
Qed.

(** The strings of [/proc/<pid>/environ]. *)
Fixpoint nul_strings (s : bytes) : list bytes :=
  match s with
  | [] => []
  | c :: t =>
    if Byte.eqb c x00 then [] :: nul_strings t
    else match nul_strings t with [] => [[c]] | l :: ls => (c :: l) :: ls end
  end.

Lemma nul_strings_cut s : s <> [] ->
  nul_strings s = cstr s :: match find_first_of s [x00] with Some k => nul_strings (drop (S k) s) | None => [] end.
Proof.
  induction s as [|c s IH]; [done|]. intros _. cbn [nul_strings cstr find_first_of]. unfold is_delim.
  destruct (decide (c = x00)) as [->|Hc].
  - rewrite bool_decide_eq_true_2 by set_solver. done.
  - rewrite eqb_false, bool_decide_eq_false_2 by set_solver. destruct s as [|d s]; [done|]. rewrite IH by done.
    by destruct (find_first_of (d :: s) [x00]).
Qed.

Lemma environ_loop_spec env fuel : forall pos e, (length env - pos < fuel)%nat ->
  environ_loop fuel env pos e = Ret (fold_left (fun e s => putenv s e) (nul_strings (drop pos env)) e).
Proof.
  induction fuel as [|fuel IH]; intros pos e Hf; [lia|]. cbn [environ_loop]. destruct (Nat.ltb_spec pos (length env)) as [Hp|Hp].
  - rewrite nul_strings_cut; [|intros E; apply (f_equal length) in E; rewrite length_drop in E; cbn in E; lia]. cbn [fold_left].
    destruct (find_first_of (drop pos env) [x00]) as [k|]; [|done]. rewrite IH by lia. by rewrite drop_drop, Nat.add_succ_r.
  - by rewrite drop_ge.
Qed.

(** What a string says of a variable. *)
Definition says_var (name s : bytes) : option (option bytes) :=
  match find_first_of s [EQUALS] with
  | Some k => if bool_decide (take k s = name) then Some (Some (drop (S k) s)) else None
  | None => None
  end.

Lemma getenv_strings name l : forall e, getenv name (fold_left (fun e s => putenv s e) l e) = last_of (says_var name) (getenv name e) l.
Proof.
  induction l as [|s l IH]; intros e; [done|]. cbn [fold_left]. rewrite IH, last_of_cons. f_equal. unfold putenv, says_var.
  destruct (find_first_of s [EQUALS]) as [k|]; [|done]. rewrite getenv_setenv. by case_bool_decide.
Qed.

(** The variables the shell gets: those of the user unless the environment is kept, and
    for the others the last value the requester had. *)
Definition shell_var (env : bytes) (pw : option passwd) (req : SuRequest) (name : bytes) : option bytes :=
  let inherited := last_of (says_var name) None (nul_strings env) in
  match keep_env req, pw with
  | false, Some pw =>
    if bool_decide (name = bs "SHELL") then Some (shell req)
    else if bool_decide (name ∈ [bs "LOGNAME"; bs "USER"]) then Some (pw_name pw)
    else if bool_decide (name = bs "HOME") then Some (pw_dir pw) else inherited
  | _, _ => inherited
  end.

Lemma setup_env_spec env pw req : exists e, setup_env env pw req = Ret e /\ forall name, getenv name e = shell_var env pw req name.
Proof.
  unfold setup_env, shell_var. rewrite environ_loop_spec by lia. rewrite drop_0. cbn [obind].
  set (e := fold_left _ _ _). assert (He : forall name, getenv name e = last_of (says_var name) None (nul_strings env)) by (intros; apply getenv_strings).
  destruct (keep_env req), pw as [pw|]; [by exists e..| |by exists e]. eexists. split; [reflexivity|]. intros name. rewrite !getenv_setenv, He.
  assert (Hsym : forall a, bool_decide (a = name) = bool_decide (name = a)) by (intros; by apply bool_decide_ext). rewrite !Hsym.
  destruct (bool_decide (name = bs "SHELL")); [done|]. rewrite (bool_decide_ext (name ∈ _) (name = bs "LOGNAME" \/ name = bs "USER")) by set_solver.
  by repeat case_bool_decide; naive_solver.
Qed.

(** ** Identity and namespace *)

Definition id_ok (n : Z) : Prop := 0 <= n < NOCHANGE.

Lemma id_kept n : id_ok n -> u32 n = n /\ forall old, id_or n old = n.
Proof.
  intros [H1 H2]. unfold NOCHANGE in *. split; [unfold u32; apply Z.mod_small; lia|]. intros old. unfold id_or, NOCHANGE.
  rewrite (proj2 (Z.eqb_neq _ _)); [done|lia].
Qed.
Lemma setresgid_root g c : euid c = 0 -> id_ok g -> setresgid g c = Some (Cred (ruid c) (euid c) (suid c) g g g (groups c)).
Proof. intros He [E Hg]%id_kept. unfold setresgid. rewrite bool_decide_eq_true_2, E, !Hg by done. done. Qed.
Lemma setresuid_root u c : euid c = 0 -> id_ok u -> setresuid u c = Some (Cred u u u (rgid c) (egid c) (sgid c) (groups c)).
Proof. intros He [E Hu]%id_kept. unfold setresuid. rewrite bool_decide_eq_true_2, E, !Hu by done. done. Qed.

Lemma set_identity_spec uid gs c : 0 ∈ [ruid c; euid c; suid c] -> id_ok uid -> Forall id_ok gs ->
  set_identity uid gs c =
  let g := default uid (head gs) in Ret (Cred uid uid uid g g g (match gs with [] => groups c | _ => gs end)).
Proof.
  intros H0 Hu Hg. unfold set_identity.
  assert (seteuid 0 c = Some (Cred (ruid c) 0 (suid c) (rgid c) (egid c) (sgid c) (groups c))) as ->.
  { unfold seteuid. change (u32 0) with 0. by rewrite (bool_decide_eq_true_2 (0 ∈ _)), orb_true_r by done. }
  cbn [or_fatal from_option obind]. destruct gs as [|g gs]; [|apply Forall_cons in Hg as [Hg _]]; cbn [obind head default id].
  - rewrite setresgid_root by done. cbn [or_fatal from_option obind]. by rewrite setresuid_root.
  - unfold setgroups. rewrite bool_decide_eq_true_2 by done. cbn [or_fatal from_option obind ruid euid suid rgid egid sgid].
    rewrite setresgid_root by done. cbn [or_fatal from_option obind]. by rewrite setresuid_root.
Qed.

Definition joinable (e : nsenv) (pid : Z) : bool := (pidfd_opens e pid && pidfd_setns e pid) || (proc_opens e pid && proc_setns e pid).

(** The namespace the request asks for: the daemon's own with target 0, that of the target
    or the requester otherwise; a named target overrides the global mode. *)
Definition target_of (pid target : Z) : Z := if target =? -1 then pid else target.
Definition expected_ns (pid target mode : Z) (cur : mntns) : mntns :=
  if target =? 0 then cur
  else if mode =? MNT_ISOLATE then NsCopy (NsOf (target_of pid target))
  else if (mode =? MNT_REQUESTER) || ((mode =? MNT_GLOBAL) && negb (target =? -1)) then NsOf (target_of pid target) else cur.

Lemma setup_ns_spec e pid target mode cur : joinable e (target_of pid target) = true ->
  setup_ns e pid target mode cur = Ret (expected_ns pid target mode cur).
Proof.
  intros Hj. assert (Hs : switch_mnt_ns e (target_of pid target) cur = Ret (0, NsOf (target_of pid target))).
  { unfold switch_mnt_ns, joinable in *. destruct (pidfd_opens e _ && pidfd_setns e _); [done|]. cbn [orb] in Hj.
    apply andb_true_iff in Hj as [-> ->]. done. }
  unfold setup_ns, resolve_mode, expected_ns, target_of in *. destruct (Z.eqb_spec target (-1)) as [->|N1].
  - change (-1 =? 0) with false. cbv iota. rewrite Hs. cbn [obind negb]. rewrite andb_false_r, orb_false_r.
    unfold MNT_REQUESTER, MNT_ISOLATE. destruct (Z.eqb_spec mode 1) as [->|]; [done|]. by destruct (Z.eqb_spec mode 2).
  - destruct (Z.eqb_spec target 0) as [->|N0]; [done|]. unfold MNT_GLOBAL, MNT_REQUESTER, MNT_ISOLATE.
    destruct (Z.eqb_spec mode 0) as [->|Hm]; [cbn; by rewrite Hs|]. cbn [andb]. rewrite orb_false_r, Hs. cbn [obind].
    destruct (Z.eqb_spec mode 1) as [->|]; [done|]. by destruct (Z.eqb_spec mode 2).
Qed.

(** C7: what a granted request becomes.  Let the client follow the protocol and the
    descriptors 0, 1, 2 and the socket of the child be open, let a terminal be had if one is
    needed, the namespace of the target be enterable, the context attribute be writable if a
    context is given, the daemon be root, and the user and the groups of the request be
    numbers below 2^32 - 1 (the number -1 of an unknown user name is not one of them, and
    such a shell stays root; with a dead target the shell stays in the global namespace).
    Then, for all terminals, modes and other options, the child reaches [execvp] with: each
    stream being the client's, or the slave of one new terminal exactly where the client's is
    a terminal of an interactive session, the client getting that terminal's master; no
    other descriptor left over; the namespace, the environment and the arguments of the
    request; and all three user and group ids those of the request, the first group being
    the primary one. *)
Theorem exec_root_shell_spec s client pid req mode isatty interactive p :
  fds_ok client (p_fds p) -> (any_tty isatty interactive = true -> pty_ok (sys_ptys s)) ->
  joinable (sys_ns s) (target_of pid (target_pid req)) = true -> (context req <> [] -> sys_attr_opens s = true) ->
  0 ∈ [ruid (p_cred p); euid (p_cred p); suid (p_cred p)] -> id_ok (target_uid req) -> Forall id_ok (gids req) ->
  exists x, exec_root_shell s client pid req mode (client_streams isatty interactive) p = Ret x /\
    x_path x = shell req /\ x_argv x = shell_argv req /\ x_context x = context req /\
    x_fds x = (let o := shell_stream (sys_ptys s) isatty interactive in
               delete client (<[2 := o 2]> (<[1 := o 1]> (<[0 := o 0]> (p_fds p))))) /\
    x_sent x = (if any_tty isatty interactive
                then [MFd (Some (Ptmx (terminal (sys_ptys s)).1 (terminal (sys_ptys s)).2))] else []) /\
    x_ns x = expected_ns pid (target_pid req) mode (p_ns p) /\
    (forall name, getenv name (x_env x) = shell_var (sys_environ s pid) (sys_pwuid s (target_uid req)) req name) /\
    x_cred x = (let g := default (target_uid req) (head (gids req)) in
                Cred (target_uid req) (target_uid req) (target_uid req) g g g
                  (match gids req with [] => groups (p_cred p) | _ => gids req end)).
Proof.
  intros Hf Hp Hj Hc H0 Hu Hg. unfold exec_root_shell.
  destruct (setup_env_spec (sys_environ s pid) (sys_pwuid s (target_uid req)) req) as (e & Ee & He).
  rewrite setup_streams_spec by done. cbn [obind]. rewrite setup_ns_spec by done. cbn [obind]. rewrite Ee. cbn [obind].
  assert (match context req with [] => Ret [] | c => if sys_attr_opens s then Ret c else fatal end = Ret (context req)) as ->.
  { destruct (context req); [done|]. by rewrite Hc. }
  cbn [obind]. rewrite set_identity_spec by done. cbn [obind]. eexists. split; [reflexivity|]. by split_and!.
Qed.

Definition sample_sys : sysenv := SysEnv
  (Ptys (bs "/sbin/.magisk/pts") true (fun _ => true) (fun p => if bool_decide (p = bs "/dev/ptmx") then 3 else -1) (fun _ => true))
  (NsEnv (fun _ => false) (fun _ => false) (fun p => p =? 77) (fun _ => true)) (fun _ => Some (bs "/data"))
  (fun _ => bs "PATH=/bin" ++ [x00] ++ bs "HOME=/" ++ [x00]) (fun u => if u =? 2000 then Some (Passwd (bs "shell") (bs "/home")) else None) true.
Definition sample_proc : proc := Proc {[0 := Other 0; 1 := Other 0; 2 := Other 0; 5 := Other 5]} NsDaemon (bs "/") (Cred 0 0 0 0 0 0 []).

Lemma exec_root_shell_spec_witness : exists x,
  exec_root_shell sample_sys 5 77 (SuReq 2000 (-1) false false DEFAULT_SHELL (bs "id") [] [3003]) MNT_REQUESTER
    (client_streams (fun fd => fd =? 1) true) sample_proc = Ret x /\
  x_fds x = {[0 := Stream 0; 1 := Pts (bs "/dev/pts/3"); 2 := Stream 2]} /\ x_ns x = NsOf 77 /\
  getenv (bs "HOME") (x_env x) = Some (bs "/home") /\ x_cred x = Cred 2000 2000 2000 3003 3003 3003 [3003].
Proof.
  destruct (exec_root_shell_spec sample_sys 5 77 (SuReq 2000 (-1) false false DEFAULT_SHELL (bs "id") [] [3003]) MNT_REQUESTER
    (fun fd => fd =? 1) true sample_proc) as (x & E & _ & _ & _ & Hf & _ & Hn & He & Hc).
  - split; [by vm_compute; set_solver|]. intros i Hi. repeat (apply elem_of_cons in Hi as [->|Hi]; [vm_compute; by eexists|]). by apply not_elem_of_nil in Hi.
  - done.
  - done.
  - done.
  - set_solver.
  - done.
  - by repeat constructor.
  - exists x. split; [exact E|]. rewrite Hf, Hn, He, Hc. split_and!; [vm_compute; reflexivity|done..].
Defined.

(** An unknown user name is read as -1, which changes nothing: the shell keeps root. *)
Example unknown_user_is_root : exists r,
  parse_args (fun _ => None) [bs "nobody2"] = Ret r /\ target_uid r.1 = -1 /\
  set_identity (target_uid r.1) [] (Cred 0 0 0 0 0 0 []) = Ret (Cred 0 0 0 0 0 0 []).
Proof. exists (set_target_uid (-1) new_request, true). split_and!; vm_compute; reflexivity. Qed.
(** A target that is gone: the shell silently stays in the daemon's namespace. *)
Example dead_target_is_global : setup_ns (sys_ns sample_sys) 77 4242 MNT_REQUESTER NsDaemon = Ret NsDaemon.
Proof. reflexivity. Qed.
(** [-g] after [-G] does not name the primary group. *)
Example group_order : exists r, parse_args (fun _ => None) [bs "-G"; bs "3003"; bs "-g"; bs "1000"] = Ret r /\ gids r.1 = [3003; 1000].
Proof. eexists. vm_compute. split; reflexivity. Qed.
