(* ===== verification/SuConnect.v ===== *)
(** Talking to the manager app: [native/src/core/su/connect.cpp].  A record of a request is
    passed to the app as extras of a content provider call or, if that fails, of an
    activity; a question is answered through a FIFO. *)

From S2P Require Import Prelude Base Files Daemon Su SuShell.

Definition COLON : byte := x3a.
Definition BACKSLASH : byte := x5c.
Definition COMMA : byte := x2c.

(** ** Extras *)

Inductive evalue : Type :=
| VInt (n : Z)
| VBool (b : bool)
| VString (s : bytes)
| VIntList (l : list Z).

(** [str] is the buffer that holds the text handed out. *)
Record Extra := MkExtra { key : bytes; value : evalue; str : bytes }.
Definition extra (k : bytes) (v : evalue) : Extra := MkExtra k v [].

Definition bool_text (b : bool) : bytes := if b then bs "true" else bs "false".
(** The loop that appends the numbers, each with a comma. *)
Definition append_list (s : bytes) (l : list Z) : bytes := fold_left (fun s i => s ++ to_string i ++ [COMMA]) l s.

Definition add_intent (e : Extra) : list bytes * Extra :=
  match value e with
  | VInt n => ([bs "--ei"; key e; to_string n], MkExtra (key e) (value e) (to_string n))
  | VBool b => ([bs "--ez"; key e; bool_text b], e)
  | VString s => ([bs "--es"; key e; s], e)
  | VIntList l =>
    let s := append_list (str e) l in
    let s := match s with [] => s | _ => removelast s end in
    ([bs "--es"; key e; s], MkExtra (key e) (value e) s)
  end.

Definition add_bind (sdk : Z) (e : Extra) : outcome (list bytes * Extra) :=
  let! s :=
    match value e with
    | VInt n => Ret (key e ++ bs ":i:" ++ to_string n)
    | VBool b => Ret (key e ++ bs ":b:" ++ bool_text b)
    | VString s =>
      if 30 <=? sdk then
        let! tmp := replace_all (S (length s)) s [BACKSLASH] [BACKSLASH; BACKSLASH] in
        let! tmp := replace_all (S (length tmp)) tmp [COLON] [BACKSLASH; COLON] in
        Ret (key e ++ bs ":s:" ++ tmp)
      else Ret (key e ++ bs ":s:" ++ s)
    | VIntList l =>
      let s := append_list (key e ++ bs ":s:") l in
      Ret (if bool_decide (last s = Some COMMA) then removelast s else s)
    end in
  Ret ([bs "--extra"; s], MkExtra (key e) (value e) s).

Fixpoint add_intents (l : list Extra) : list bytes * list Extra :=
  match l with
  | [] => ([], [])
  | e :: l => let '(a, e) := add_intent e in let '(b, l) := add_intents l in (a ++ b, e :: l)
  end.
Fixpoint add_binds (sdk : Z) (l : list Extra) : outcome (list bytes * list Extra) :=
  match l with
  | [] => Ret ([], [])
  | e :: l => let! (a, e) := add_bind sdk e in let! (b, l) := add_binds sdk l in Ret (a ++ b, e :: l)
  end.

(** ** Commands *)

Record SuAppRequest := AppReq { uid : Z; pid : Z; eval_uid : Z; mgr_pkg : bytes; mgr_uid : Z; request : SuRequest }.

(** [fgets] with a buffer of [n + 1] bytes: lines, long ones in pieces. *)
Fixpoint pieces (fuel n : nat) (l : bytes) : list bytes :=
  match fuel, l with
  | _, [] => []
  | O, _ => []
  | S fuel, _ => take n l :: pieces fuel n (drop n l)
  end.
Definition fgets_all (n : nat) (out : bytes) : list bytes := getlines out ≫= (fun l => pieces (length l) n l).

Definition tolower (c : byte) : byte := if isupper c then z2b (b2z c + 32) else c.
Definition starts_error (buf : bytes) : bool := bool_decide (tolower <$> take 5 (cstr buf) = bs "error").
(** [None]: the pipe or the process could not be made, and the stream is null. *)
Definition check_no_error (out : option bytes) : outcome bool :=
  match out with
  | None => Fault
  | Some out => Ret (negb (existsb starts_error (fgets_all 1023 out)))
  end.

Record cmd := Cmd { classpath : bytes; argv : list bytes }.

Definition to_user_id (u : Z) : Z := Z.quot u 100000.
(** [ssprintf] into a buffer of [n] bytes. *)
Definition fit (n : nat) (s : bytes) : bytes := take (n - 1) s.

Definition call_provider (target user action : bytes) : list bytes :=
  [bs "/system/bin/app_process"; bs "/system/bin"; bs "com.android.commands.content.Content";
   bs "call"; bs "--uri"; target; bs "--user"; user; bs "--method"; action].
Definition start_activity (target user action : bytes) : list bytes :=
  [bs "/system/bin/app_process"; bs "/system/bin"; bs "com.android.commands.am.Am";
   bs "start"; bs "-p"; target; bs "--user"; user; bs "-a"; bs "android.intent.action.VIEW";
   bs "-f"; bs "0x18800020"; bs "--es"; bs "action"; action].

(** The commands that are run; [out] is the output of the first. *)
Definition exec_cmd (sdk : Z) (out : option bytes) (action : bytes) (data : list Extra) (info : SuAppRequest) (provider : bool)
  : outcome (list cmd) :=
  let user := fit 4 (to_string (to_user_id (eval_uid info))) in
  let! (first, data, done) :=
    (if provider then
       let target := fit 128 (bs "content://" ++ mgr_pkg info ++ bs ".provider") in
       let! (args, data) := add_binds sdk data in
       let! ok := check_no_error out in
       Ret ([Cmd (bs "/system/framework/content.jar") (call_provider target user action ++ args)], data, ok)
     else Ret ([], data, false)) in
  if done : bool then Ret first
  else
    let target := fit 128 (mgr_pkg info) in
    let '(args, _) := add_intents data in
    Ret (first ++ [Cmd (bs "/system/framework/am.jar") (start_activity target user action ++ args)]).

(** [emplace_back("gids", &info.request.gids)] passes a pointer to a [rust::Vec], which
    only the constructor for [bool] accepts. *)
Definition log_extras (info : SuAppRequest) (policy : Z) (notify : bool) : list Extra :=
  let r := request info in
  [ extra (bs "from.uid") (VInt (uid info)); extra (bs "to.uid") (VInt (target_uid r)); extra (bs "pid") (VInt (pid info));
    extra (bs "policy") (VInt policy); extra (bs "target") (VInt (target_pid r)); extra (bs "context") (VString (cstr (context r)));
    extra (bs "gids") (VBool true);
    extra (bs "command") (VString (cstr (match command r with [] => shell r | c => c end))); extra (bs "notify") (VBool notify) ].
Definition app_log (sdk : Z) (out : option bytes) (info : SuAppRequest) (policy : Z) (notify : bool) : outcome (list cmd) :=
  exec_cmd sdk out (bs "log") (log_extras info policy notify) info true.

Definition notify_extras (info : SuAppRequest) (policy : Z) : list Extra :=
  [extra (bs "from.uid") (VInt (uid info)); extra (bs "pid") (VInt (pid info)); extra (bs "policy") (VInt policy)].
Definition app_notify (sdk : Z) (out : option bytes) (info : SuAppRequest) (policy : Z) : outcome (list cmd) :=
  exec_cmd sdk out (bs "notify") (notify_extras info policy) info true.

(** The question: what happens to the FIFO, the command, and the descriptor that is
    returned ([answer] is the descriptor when there is input within 70 seconds). *)
Inductive fifo_op : Type :=
| MkFifo (path : bytes) (mode : Z)
| Chown (path : bytes) (owner group : Z)
| SetCon (path con : bytes)
| OpenFifo (path : bytes)
| CloseFifo
| Unlink (path : bytes).
Definition MAGISK_FILE_CON : bytes := bs "u:object_r:magisk_file:s0".

Definition request_extras (fifo : bytes) (info : SuAppRequest) : list Extra :=
  [extra (bs "fifo") (VString fifo); extra (bs "uid") (VInt (eval_uid info)); extra (bs "pid") (VInt (pid info))].
Definition app_request (sdk : Z) (magisk_tmp : bytes) (answer : option Z) (info : SuAppRequest) : outcome (list fifo_op * list cmd * Z) :=
  let fifo := fit 64 (magisk_tmp ++ bs "/.magisk/su_request_" ++ to_string (pid info)) in
  let! cmds := exec_cmd sdk None (bs "request") (request_extras fifo info) info false in
  let made := [MkFifo fifo 384; Chown fifo (mgr_uid info) (mgr_uid info); SetCon fifo MAGISK_FILE_CON; OpenFifo fifo] in
  match answer with
  | Some fd => Ret (made ++ [Unlink fifo], cmds, fd)
  | None => Ret (made ++ [CloseFifo; Unlink fifo], cmds, -1)
  end.

(** ** The arguments *)

(** The text of a value, and the letter of its type. *)
Definition value_text (v : evalue) : bytes :=
  match v with
  | VInt n => to_string n
  | VBool b => bool_text b
  | VString s => s
  | VIntList l => removelast (append_list [] l)
  end.
Definition value_type (v : evalue) : bytes := match v with VInt _ => bs "i" | VBool _ => bs "b" | _ => bs "s" end.

(** A string with a backslash before every backslash and every colon. *)
Definition escaped (s : bytes) : bytes :=
  s ≫= (fun c => if bool_decide (c = BACKSLASH \/ c = COLON) then [BACKSLASH; c] else [c]).

(** The text of an extra in a provider call: key, type and value with colons between them,
    strings being escaped from version 30 of the SDK on. *)
Definition bind_text (sdk : Z) (e : Extra) : bytes :=
  key e ++ COLON :: value_type (value e) ++ COLON ::
    match value e with VString s => if 30 <=? sdk then escaped s else s | v => value_text v end.
Definition bind_args (sdk : Z) (e : Extra) : list bytes := [bs "--extra"; bind_text sdk e].

(** The arguments of an extra of an activity. *)
Definition intent_opt (v : evalue) : bytes := match v with VInt _ => bs "--ei" | VBool _ => bs "--ez" | _ => bs "--es" end.
Definition intent_args (e : Extra) : list bytes := [intent_opt (value e); key e; value_text (value e)].

Definition plain_text (s : bytes) : Prop := Forall (fun c => c <> BACKSLASH /\ c <> COLON) s.

(** Taking such a text apart at the colons without a backslash; it shows below that the
    text determines the extra. *)
Fixpoint colon_parts (cur s : bytes) : list bytes :=
  match s with
  | [] => [cur]
  | c :: t =>
    if Byte.eqb c BACKSLASH then match t with [] => [cur] | d :: t => colon_parts (cur ++ [d]) t end
    else if Byte.eqb c COLON then cur :: colon_parts [] t
    else colon_parts (cur ++ [c]) t
  end.

Lemma parts_plain s cur t : plain_text s -> colon_parts cur (s ++ t) = colon_parts (cur ++ s) t.
Proof.
  intros Hs. revert cur. induction Hs as [|c s [H1 H2] _ IH]; intros cur; cbn [app]; [by rewrite app_nil_r|].
  cbn [colon_parts]. rewrite !eqb_false by done. rewrite IH. by rewrite <- app_assoc.
Qed.
Lemma parts_end s cur : plain_text s -> colon_parts cur s = [cur ++ s].
Proof. intros Hs. rewrite <- (app_nil_r s) at 1. by rewrite parts_plain. Qed.
Lemma parts_colon cur t : colon_parts cur (COLON :: t) = cur :: colon_parts [] t.
Proof. done. Qed.

(** The two replacements of the code escape every character once. *)
Lemma escaped_eq s : subst_char COLON [BACKSLASH; COLON] (subst_char BACKSLASH [BACKSLASH; BACKSLASH] s) = escaped s.
Proof.
  unfold subst_char, escaped. induction s as [|c s IH]; [done|]. cbn [mbind list_bind] in *. rewrite bind_app.
  unfold mbind in IH |- *. rewrite IH. f_equal. destruct (decide (c = BACKSLASH)) as [->|N1]; [done|].
  rewrite (bool_decide_eq_false_2 (c = BACKSLASH)) by done. cbn [list_bind app]. rewrite app_nil_r.
  destruct (decide (c = COLON)) as [->|N2]; [done|]. by rewrite !bool_decide_eq_false_2 by tauto.
Qed.

Lemma parts_escaped s cur : colon_parts cur (escaped s) = [cur ++ s].
Proof.
  revert cur. induction s as [|c s IH]; intros cur; [by rewrite app_nil_r|].
  change (escaped (c :: s)) with ((if bool_decide (c = BACKSLASH \/ c = COLON) then [BACKSLASH; c] else [c]) ++ escaped s).
  assert (E : forall d, colon_parts (cur ++ [d]) (escaped s) = [cur ++ d :: s]) by (intros d; rewrite IH; by rewrite <- app_assoc).
  case_bool_decide as Hc; [apply E|]. cbn [app colon_parts]. rewrite !eqb_false by tauto. apply E.
Qed.

Lemma digits_plain fuel z acc : plain_text acc -> plain_text (dec_digits fuel z acc).
Proof.
  revert z acc. induction fuel as [|fuel IH]; intros z acc Ha; [done|]. cbn [dec_digits].
  assert (H : plain_text (z2b (48 + z mod 10) :: acc)).
  { constructor; [|done]. pose proof (Z.mod_pos_bound z 10 ltac:(lia)).
    split; intros E; apply (f_equal b2z) in E; rewrite b2z_z2b_small in E by lia; vm_compute (b2z _) in E; lia. }
  destruct (z / 10 =? 0); [done|by apply IH].
Qed.
Lemma to_string_plain z : plain_text (to_string z).
Proof. unfold to_string, print_dec. destruct (z <? 0); [constructor; [done|]|]; apply digits_plain; constructor. Qed.
Lemma append_plain l : forall s, plain_text s -> plain_text (append_list s l).
Proof.
  induction l as [|i l IH]; intros s Hs; [done|]. cbn. apply IH. unfold plain_text in *. rewrite !Forall_app. split_and!; [done|apply to_string_plain|by repeat constructor].
Qed.

Definition triple (e : Extra) : list bytes := [key e; value_type (value e); value_text (value e)].

Lemma append_list_app l : forall s, append_list s l = s ++ append_list [] l.
Proof.
  induction l as [|i l IH]; intros s; [by rewrite app_nil_r|].
  change (append_list ?s (i :: l)) with (append_list (s ++ to_string i ++ [COMMA]) l). rewrite IH, (IH ([] ++ _)). by rewrite app_nil_l, <- !app_assoc.
Qed.
Lemma append_list_last i l : exists a, append_list [] (i :: l) = a ++ [COMMA].
Proof.
  revert i. induction l as [|j l IH]; intros i; [by exists (to_string i)|]. destruct (IH j) as [a Ha].
  exists (to_string i ++ [COMMA] ++ a). change (append_list [] (i :: j :: l)) with (append_list (to_string i ++ [COMMA]) (j :: l)).
  rewrite append_list_app, Ha. by rewrite <- !app_assoc.
Qed.

(** The list with its last comma taken off, whatever is before it. *)
Lemma bind_list_text s l : last s <> Some COMMA ->
  (let s' := append_list s l in if bool_decide (last s' = Some COMMA) then removelast s' else s') = s ++ value_text (VIntList l).
Proof.
  intros Hs. cbn [value_text]. rewrite append_list_app. destruct l as [|i l].
  - cbn. rewrite app_nil_r. by rewrite bool_decide_eq_false_2.
  - destruct (append_list_last i l) as [a ->]. rewrite app_assoc, last_snoc. cbv zeta. rewrite bool_decide_eq_true_2 by done. by rewrite !removelast_last.
Qed.

Lemma value_text_plain v : match v with VString _ => True | _ => plain_text (value_text v) end.
Proof.
  destruct v as [n|b|s|l]; [apply to_string_plain|by destruct b; repeat constructor|done|]. cbn [value_text].
  destruct l as [|i l]; [constructor|]. destruct (append_list_last i l) as [a Ea]. pose proof (append_plain (i :: l) [] ltac:(constructor)) as Hp.
  rewrite Ea in *. rewrite removelast_last. by apply Forall_app in Hp as [Hp _].
Qed.

(** An escaped text determines key, type and value. *)
Lemma bind_text_parts sdk e : 30 <= sdk -> plain_text (key e) -> colon_parts [] (bind_text sdk e) = triple e.
Proof.
  intros Hsdk Hk. unfold bind_text, triple. rewrite parts_plain by done. rewrite parts_colon.
  assert (Hty : plain_text (value_type (value e))) by (destruct (value e); repeat constructor; done).
  rewrite parts_plain by done. rewrite parts_colon. do 2 f_equal.
  pose proof (value_text_plain (value e)) as Hv. rewrite (proj2 (Z.leb_le 30 sdk)) by done.
  destruct (value e) as [n|b|s|l]; [by apply parts_end..|apply (parts_escaped s [])|by apply parts_end].
Qed.

Lemma add_bind_text sdk e : add_bind sdk e = Ret (bind_args sdk e, MkExtra (key e) (value e) (bind_text sdk e)).
Proof.
  unfold add_bind, bind_args, bind_text. destruct (value e) as [n|b|s|l]; cbn [value_type value_text]; [done..| |].
  - destruct (30 <=? sdk); [|done]. rewrite replace_char. cbn [obind]. rewrite replace_char. cbn [obind]. by rewrite escaped_eq.
  - rewrite bind_list_text by (change (bs ":s:") with ([x3a; x73] ++ [x3a]); by rewrite app_assoc, last_snoc). cbn [obind].
    by rewrite <- app_assoc.
Qed.

(** An extra that was not read before, or whose text is made anew. *)
Definition intent_ok (e : Extra) : Prop := match value e with VIntList _ => str e = [] | _ => True end.

Lemma add_intent_text e : intent_ok e -> (add_intent e).1 = intent_args e.
Proof.
  unfold add_intent, intent_ok, intent_args. destruct e as [k [n|b|s|l] st]; cbn [value key str]; [done..|]. intros ->. cbn.
  by assert (forall s : bytes, match s with [] => s | _ => removelast s end = removelast s) as -> by (by intros [|]).
Qed.

Lemma add_intents_text l : Forall intent_ok l -> (add_intents l).1 = concat (intent_args <$> l).
Proof.
  induction 1 as [|e l He _ IH]; [done|]. cbn [add_intents]. pose proof (add_intent_text e He) as E.
  destruct (add_intent e) as [a e'], (add_intents l) as [b l']. cbn in *. by rewrite E, IH.
Qed.
Lemma add_binds_text sdk l : add_binds sdk l =
  Ret (concat (bind_args sdk <$> l), (fun e => MkExtra (key e) (value e) (bind_text sdk e)) <$> l).
Proof. induction l as [|e l IH]; [done|]. cbn [add_binds]. rewrite add_bind_text. cbn [obind]. rewrite IH. done. Qed.

(** C34: the commands that carry a record to the app, for extras that have not been handed
    out before and of which none is a list when the provider is tried (lists would keep the
    text of the provider call).  The provider is called, if asked for and its output can be
    read, with exactly one "--extra" argument per extra, in order; the activity is started
    with one option, key and value per extra exactly if the provider was not asked or its
    output has a line that begins with "Error".  From SDK 30 on the text of an extra
    determines its key, its type and its value, whatever characters a command or a context
    contains, when keys have no colon and no backslash; before, strings are not escaped. *)
Theorem exec_cmd_calls sdk out action data info provider : Forall intent_ok data ->
  (provider = true -> is_Some out /\ Forall (fun e => match value e with VIntList _ => False | _ => True end) data) ->
  exec_cmd sdk out action data info provider = (
    let user := fit 4 (to_string (to_user_id (eval_uid info))) in
    let target := fit 128 (bs "content://" ++ mgr_pkg info ++ bs ".provider") in
    Ret ((if provider then [Cmd (bs "/system/framework/content.jar")
                              (call_provider target user action ++ concat (bind_args sdk <$> data))] else []) ++
    (if provider && negb (existsb starts_error (fgets_all 1023 (default [] out))) then []
     else [Cmd (bs "/system/framework/am.jar")
             (start_activity (fit 128 (mgr_pkg info)) user action ++ concat (intent_args <$> data))]))) /\
  forall e e', 30 <= sdk -> plain_text (key e) -> plain_text (key e') -> bind_text sdk e = bind_text sdk e' ->
    key e = key e' /\ value_type (value e) = value_type (value e') /\ value_text (value e) = value_text (value e').
Proof.
  intros Hi Hp. split.
  2:{ intros e e' Hsdk Hk Hk' E. apply (f_equal (colon_parts [])) in E. rewrite !bind_text_parts in E by done.
      unfold triple in E. by injection E. }
  unfold exec_cmd. destruct provider.
  - destruct (Hp eq_refl) as [[o ->] Hnl]. rewrite add_binds_text. cbn [obind check_no_error default id andb app].
    set (data' := (fun e => MkExtra (key e) (value e) (bind_text sdk e)) <$> data).
    assert (Hi' : Forall intent_ok data').
    { apply Forall_fmap. eapply Forall_impl; [exact Hnl|]. intros e He. cbv beta in He. unfold intent_ok, compose. cbn [value str]. destruct (value e); [done..|by destruct He]. }
    pose proof (add_intents_text data' Hi') as Hr. destruct (add_intents data') as [a d]. cbn [fst] in Hr.
    assert (intent_args <$> data' = intent_args <$> data) as E by (unfold data'; by rewrite <- list_fmap_compose).
    rewrite Hr, E. by destruct (negb (existsb starts_error (fgets_all 1023 o))).
  - cbn [obind app andb]. pose proof (add_intents_text data Hi) as Hr. destruct (add_intents data) as [a d]. cbn [fst] in Hr. by rewrite Hr.
Qed.

Definition sample_info : SuAppRequest :=
  AppReq 10123 4000 10123 (bs "com.app") 10050 (SuReq 0 (-1) false false DEFAULT_SHELL (bs "a:b") [] [3003]).

Lemma exec_cmd_calls_witness :
  app_log 34 (Some (bs "Error while calling")) sample_info 2 true =
    Ret [Cmd (bs "/system/framework/content.jar") (call_provider (bs "content://com.app.provider") (bs "0") (bs "log") ++
           concat (bind_args 34 <$> log_extras sample_info 2 true));
         Cmd (bs "/system/framework/am.jar") (start_activity (bs "com.app") (bs "0") (bs "log") ++
           concat (intent_args <$> log_extras sample_info 2 true))].
Proof.
  apply (exec_cmd_calls 34 (Some (bs "Error while calling")) (bs "log") (log_extras sample_info 2 true) sample_info true).
  - by repeat constructor.
  - intros _. split; [done|]. by repeat constructor.
Defined.

(** The text of the context of the sample. *)
Example sample_bind : bind_text 34 (extra (bs "command") (VString (bs "a:b\c"))) = bs "command:s:a\:b\\c".
Proof. vm_compute. reflexivity. Qed.

(** A list that was bound and is then put into an intent keeps the text of the binding. *)
Example list_after_bind : exists e, add_bind 34 (extra (bs "gids") (VIntList [10; 20])) = Ret ([bs "--extra"; bs "gids:s:10,20"], e) /\
  (add_intent e).1 = [bs "--es"; bs "gids"; bs "gids:s:10,2010,20"].
Proof. exists (MkExtra (bs "gids") (VIntList [10; 20]) (bs "gids:s:10,20")). split; vm_compute; reflexivity. Qed.
(** A user id of four digits does not fit its buffer. *)
Example user_cut : fit 4 (to_string (to_user_id 123410001)) = bs "123".
Proof. vm_compute. reflexivity. Qed.
