(* ===== verification/InitRc.v ===== *)
(** Patching of the init scripts by magiskinit: [native/src/init/rootdir.cpp].  magiskinit
    is linked with a stdio that does not buffer, so what is printed is in the file at
    once.  The decoder behind [unxz] is a library and a parameter. *)

From S2P Require Import Prelude Base Files.

Definition NL : byte := x0a.
Definition INIT_RC : bytes := bs "init.rc".

(** ** Unpacking *)

Inductive xz_ret : Type := XZ_OK | XZ_STREAM_END | XZ_ERROR.
#[global] Instance xz_ret_eq : EqDecision xz_ret.
Proof. solve_decision. Defined.

(** [xz_dec_run]: given the input that is left and the room in the output, the result, how
    much input was used, the output, and the new state. *)
Class XzDec := {
  xz_state : Type;
  xz_dec_init : xz_state;
  xz_dec_run : xz_state -> bytes -> nat -> xz_ret * nat * bytes * xz_state }.

Section unxz.
Context `{XzDec}.

(** The loop: what has been written so far, and whether it succeeded. *)
Fixpoint unxz_loop (fuel : nat) (dec : xz_state) (input strm : bytes) : outcome (bytes * bool) :=
  match fuel with
  | O => Loop
  | S fuel =>
    let '(ret, used, out, dec) := xz_dec_run dec input (Z.to_nat 8192) in
    if bool_decide (ret = XZ_ERROR) then Ret (strm, false)
    else
      let strm := strm ++ out in
      let input := drop used input in
      match input with [] => Ret (strm, true) | _ => unxz_loop fuel dec input strm end
  end.
Definition unxz (fuel : nat) (input strm : bytes) : outcome (bytes * bool) := unxz_loop fuel xz_dec_init input strm.

(** One archive of [extract_files]: unpacked if it is there, written over the start of a
    file of that name; the result of [unxz] is not looked at. *)
Definition extract_one (fuel : nat) (src dst : bytes) (fs : gmap bytes bytes) : outcome (gmap bytes bytes) :=
  match fs !! src with
  | None => Ret fs
  | Some data =>
    let fs := delete src fs in
    let! (out, _) := unxz fuel data [] in
    Ret (<[dst := out ++ drop (length out) (default [] (fs !! dst))]> fs)
  end.
Definition archives (sbin : bool) : list (bytes * bytes) :=
  let pre := if sbin then bs "/sbin/" else [] in
  [(pre ++ bs "magisk.xz", bs "magisk"); (pre ++ bs "stub.xz", bs "stub.apk"); (pre ++ bs "init-ld.xz", bs "init-ld")].
Fixpoint extract_all (fuel : nat) (l : list (bytes * bytes)) (fs : gmap bytes bytes) : outcome (gmap bytes bytes) :=
  match l with
  | [] => Ret fs
  | (src, dst) :: l => let! fs := extract_one fuel src dst fs in extract_all fuel l fs
  end.
Definition extract_files (fuel : nat) (sbin : bool) (fs : gmap bytes bytes) : outcome (gmap bytes bytes) := extract_all fuel (archives sbin) fs.
End unxz.

(** ** The scripts *)

(** One line of [init.rc], with its end of line. *)
Definition patch_init_line (line : bytes) : bytes :=
  if str_contains line (bs "start vaultkeeper") then []
  else if starts_with (bs "service flash_recovery") line then bs "service flash_recovery /system/bin/true" ++ [NL]
  else if starts_with (bs "on property:persist.sys.zygote.early=") line then bs "on property:persist.sys.zygote.early.xxxxx=true" ++ [NL]
  else line.

Definition MAGISK_PROC_CON : bytes := bs "u:r:magisk:s0".
Definition restart_line (tmp : bytes) : bytes :=
  bs "    onrestart exec " ++ MAGISK_PROC_CON ++ bs " 0 0 -- " ++ tmp ++ bs "/magisk --zygote-restart" ++ [NL].
Definition patch_zygote_line (tmp line : bytes) : bytes :=
  if starts_with (bs "service zygote ") line then line ++ restart_line tmp else line.

(** [file_readline] without trimming, every line printed by the callback. *)
Definition print_lines (f : bytes -> bytes) (content : bytes) : bytes :=
  file_readline false content (fun out line => (out ++ f line, true)) [].

(** The scripts of the modules with their template argument filled in. *)
Fixpoint inject_scripts (tmp : bytes) (rc_list : list bytes) : outcome bytes :=
  match rc_list with
  | [] => Ret []
  | script :: rc_list =>
    let! script := replace_all (S (length script)) script (bs "${MAGISKTMP}") tmp in
    let! rest := inject_scripts tmp rc_list in
    Ret ([NL] ++ cstr script ++ [NL] ++ rest)
  end.

(** [inject_magisk_rc] of [init/rootdir.rs]: a trigger and its command, separated by blank lines. *)
Definition trigger (tmp cond arg : bytes) : bytes :=
  [NL] ++ bs "on " ++ cond ++ [NL] ++ bs "    exec " ++ MAGISK_PROC_CON ++ bs " 0 0 -- " ++ tmp ++ bs "/magisk --" ++ arg ++ [NL].
Definition magisk_rc (tmp : bytes) : bytes :=
  trigger tmp (bs "post-fs-data") (bs "post-fs-data") ++
  trigger tmp (bs "property:vold.decrypt=trigger_restart_framework") (bs "service") ++
  trigger tmp (bs "nonencrypted") (bs "service") ++
  trigger tmp (bs "property:sys.boot_completed=1") (bs "boot-complete") ++
  trigger tmp (bs "property:init.svc.zygote=stopped") (bs "zygote-restart").

(** The text is printed to a stream and the triggers are then written to its descriptor.
    The stream is that of the C library of magiskinit, which is not part of the sources; it is
    taken to write what is printed at once, so that the triggers come last.  (With a stream
    that buffers, the part of the text still in the buffer would follow the triggers.) *)
Definition patch_init_rc (tmp : bytes) (rc_list : list bytes) (content : bytes) : outcome bytes :=
  let! scripts := inject_scripts tmp rc_list in
  Ret (print_lines patch_init_line content ++ [NL] ++ scripts ++ magisk_rc tmp).

(** ** Directories *)

(** A file: its content, and owner, mode and context. *)
Record rcfile := RcFile { content : bytes; attr : Z }.
Abbreviation dir := (gmap bytes rcfile).

(** The two directories of [patch_rc_scripts]: where the scripts are and where the patched
    ones go, the same one if [writable]; [create] tells in which names a file can be made. *)
Record rcdirs := RcDirs { rc_src : dir; rc_dest : dir }.
Definition unlink_src (writable : bool) (name : bytes) (d : rcdirs) : rcdirs :=
  if writable then RcDirs (delete name (rc_src d)) (rc_dest d) else d.
Definition put_dest (writable : bool) (name : bytes) (f : rcfile) (d : rcdirs) : rcdirs :=
  if writable then RcDirs (<[name := f]> (rc_src d)) (rc_dest d) else RcDirs (rc_src d) (<[name := f]> (rc_dest d)).

Definition is_zygote_rc (name : bytes) : bool := starts_with (bs "init.zygote") name && str_ends name (bs ".rc").

(** [names] is what [readdir] returns. *)
Fixpoint patch_zygotes (writable : bool) (create : bytes -> bool) (tmp : bytes) (names : list bytes) (d : rcdirs) : rcdirs :=
  match names with
  | [] => d
  | name :: names =>
    let d :=
      if is_zygote_rc name then
        match rc_src d !! name with
        | None => d
        | Some f =>
          let d := unlink_src writable name d in
          if create name then put_dest writable name (RcFile (print_lines (patch_zygote_line tmp) (content f)) (attr f)) d else d
        end
      else d in
    patch_zygotes writable create tmp names d
  end.

(** Whether to run [patch_fissiond], the directories, and the scripts that are left; [opened]
    tells whether both directories could be opened. *)
Definition patch_rc_scripts (opened writable : bool) (create : bytes -> bool) (names : list bytes) (tmp : bytes)
    (rc_list : list bytes) (d : rcdirs) : outcome (bool * rcdirs * list bytes) :=
  if negb opened then Ret (false, d, rc_list)
  else
  match rc_src d !! INIT_RC with
  | None => Ret (false, d, rc_list)
  | Some f =>
    let d := unlink_src writable INIT_RC d in
    if negb (create INIT_RC) then Ret (false, d, rc_list)
    else
      let! text := patch_init_rc tmp rc_list (content f) in
      let d := put_dest writable INIT_RC (RcFile text (attr f)) d in
      let d := patch_zygotes writable create tmp names d in
      Ret (bool_decide (is_Some (rc_src d !! bs "init.fission_host.rc")), d, [])
  end.

(** ** The overlay *)

(** [load_overlay_rc]: [root name] is [access("/" + name)]; scripts that are no replacement
    are taken out of the overlay. *)
Fixpoint load_overlay_loop (root : bytes -> bool) (names : list bytes) (ovl : dir) (rc_list : list bytes) : dir * list bytes :=
  match names with
  | [] => (ovl, rc_list)
  | name :: names =>
    if negb (str_ends name (bs ".rc")) || root name then load_overlay_loop root names ovl rc_list
    else load_overlay_loop root names (delete name ovl) (rc_list ++ [from_option content [] (ovl !! name)])
  end.
Definition load_overlay_rc (root : bytes -> bool) (names : list bytes) (ovl : option dir) (rc_list : list bytes) : option dir * list bytes :=
  match ovl with
  | None => (None, rc_list)
  | Some ovl => let '(ovl, rc_list) := load_overlay_loop root names (delete INIT_RC ovl) rc_list in (Some ovl, rc_list)
  end.

(** ** [/sbin] *)

Inductive node : Type := Link (target : bytes) | Dir (mode : Z) | Reg (mode : Z).
(** What is put into [/sbin]: a link, or a dummy with the original mounted on it. *)
Inductive sbin_entry : Type := SLink (target : bytes) | SBindDir (mode : Z) (from : bytes) | SBindFile (mode : Z) (from : bytes).
Definition recreate_entry (mirror : bytes) (use_bind_mount : bool) (name : bytes) (n : node) : sbin_entry :=
  match n with
  | Link target => SLink target
  | Dir mode => if use_bind_mount then SBindDir (Z.land mode 511) (mirror ++ bs "/" ++ name) else SLink (mirror ++ bs "/" ++ name)
  | Reg mode => if use_bind_mount then SBindFile (Z.land mode 511) (mirror ++ bs "/" ++ name) else SLink (mirror ++ bs "/" ++ name)
  end.
Definition recreate_sbin (mirror : bytes) (use_bind_mount : bool) (entries : list (bytes * node)) : list (bytes * sbin_entry) :=
  map (fun e => (bs "/sbin/" ++ e.1, recreate_entry mirror use_bind_mount e.1 e.2)) entries.

(** ** Unpacking is complete *)

(** What is documented of the decoder: on a valid stream, with input and room left, it uses
    input or makes output and never fails, and all the data is out before the end of the
    stream is used up. *)
Class XzLaws `{XzDec} := {
  xz_stream : bytes -> bytes -> Prop;
  decodes : xz_state -> bytes -> bytes -> Prop;
  xz_start s p : xz_stream s p -> decodes xz_dec_init s p /\ s <> [];
  xz_progress st i o room : decodes st i o -> i <> [] -> (0 < room)%nat -> exists ret used out st' o',
    xz_dec_run st i room = (ret, used, out, st') /\ ret <> XZ_ERROR /\ o = out ++ o' /\ decodes st' (drop used i) o' /\
    (0 < used \/ 0 < length out)%nat /\ (drop used i = [] -> o' = []) }.

Section unxz_spec.
Context `{XzLaws}.

Lemma unxz_loop_spec fuel : forall dec i o strm, decodes dec i o -> i <> [] -> (length i + length o < fuel)%nat ->
  unxz_loop fuel dec i strm = Ret (strm ++ o, true).
Proof.
  induction fuel as [|fuel IH]; intros dec i o strm Hd Hi Hf; [lia|]. cbn [unxz_loop].
  destruct (xz_progress dec i o (Z.to_nat 8192) Hd Hi) as (ret & used & out & dec' & o' & -> & Hr & -> & Hd' & Hp & He); [lia|].
  rewrite bool_decide_eq_false_2 by done. destruct (drop used i) as [|c t] eqn:Ed; [by rewrite (He eq_refl), app_nil_r|].
  rewrite length_app in Hf. assert (Hl : length (c :: t) = (length i - used)%nat) by (rewrite <- Ed; apply length_drop).
  rewrite (IH dec' (c :: t) o'); [by rewrite <- app_assoc|done|done|]. cbn [length] in *. lia.
Qed.

Lemma unxz_spec s p strm fuel : xz_stream s p -> (length s + length p < fuel)%nat -> unxz fuel s strm = Ret (strm ++ p, true).
Proof. intros [Hd Hn]%xz_start Hf. by apply unxz_loop_spec. Qed.
End unxz_spec.

(** A decoder that satisfies the laws: the data as it is, and an end mark. *)
#[export] Instance plain_dec : XzDec := {|
  xz_state := unit;
  xz_dec_init := tt;
  xz_dec_run _ i room := let n := Nat.min room (length i - 1) in
    if (n =? 0)%nat then (XZ_STREAM_END, 1%nat, [], tt) else (XZ_OK, n, take n i, tt) |}.
#[export] Instance plain_laws : XzLaws.
Proof.
  refine {| xz_stream s p := s = p ++ [x00]; decodes _ i o := i = [] /\ o = [] \/ i = o ++ [x00] |}.
  - intros s p ->. split; [by right|by destruct p].
  - intros [] i o room [[-> _]| ->] Hi Hr; [done|]. cbn [xz_dec_run plain_dec]. rewrite length_app. cbn [length].
    replace (length o + 1 - 1)%nat with (length o) by lia. destruct (Nat.eqb_spec (Nat.min room (length o)) 0) as [E|E].
    + assert (o = []) as -> by (destruct o; [done|cbn in E; lia]). eexists _, _, _, _, []. split_and!; try done; [by left|left; lia].
    + eexists _, _, _, _, (drop (Nat.min room (length o)) o). split_and!; try done.
      * rewrite take_app_le by lia. by rewrite take_drop.
      * right. by rewrite drop_app_le by lia.
      * left. lia.
      * intros Ed. apply (f_equal length) in Ed. rewrite length_drop, length_app in Ed. cbn in Ed. lia.
Defined.

(** ** Lines *)

Fixpoint split_nl (s : bytes) : list bytes :=
  match s with
  | [] => [[]]
  | c :: t => if Byte.eqb c NL then [] :: split_nl t else match split_nl t with [] => [[c]] | l :: ls => (c :: l) :: ls end
  end.
(** The lines of a script that are not empty, without their ends. *)
Definition script_lines (s : bytes) : list bytes := filter (.≠ []) (split_nl s).

Lemma split_nl_ne s : split_nl s <> [].
Proof. destruct s as [|c t]; [done|]. cbn. destruct (Byte.eqb c NL); [done|]. by destruct (split_nl t). Qed.
Lemma split_nl_app a b : split_nl (a ++ NL :: b) = split_nl a ++ split_nl b.
Proof.
  induction a as [|c a IH]; [done|]. cbn [app split_nl]. destruct (Byte.eqb c NL); [by rewrite IH|]. rewrite IH.
  pose proof (split_nl_ne a). by destruct (split_nl a).
Qed.
Lemma split_nl_one b : Forall (.≠ NL) b -> split_nl b = [b].
Proof. induction 1 as [|c b Hc _ IH]; [done|]. cbn [split_nl]. by rewrite eqb_false, IH. Qed.
Lemma script_lines_app a b : script_lines (a ++ NL :: b) = script_lines a ++ script_lines b.
Proof. unfold script_lines. by rewrite split_nl_app, filter_app. Qed.
Lemma script_lines_end a : script_lines (a ++ [NL]) = script_lines a.
Proof. rewrite (script_lines_app a []). apply app_nil_r. Qed.
Lemma script_lines_one b : Forall (.≠ NL) b -> script_lines b = if bool_decide (b = []) then [] else [b].
Proof. intros Hb. unfold script_lines. rewrite split_nl_one by done. by destruct b. Qed.

Lemma cut_line c : Forall (.≠ NL) c \/ exists b t, c = b ++ NL :: t /\ Forall (.≠ NL) b.
Proof.
  induction c as [|x c [IH|(b & t & -> & Hb)]]; [by left| |].
  - destruct (decide (x = NL)) as [->|N]; [right; by exists [], c|left; by constructor].
  - destruct (decide (x = NL)) as [->|N]; right; [by exists [], (b ++ NL :: t)|]. exists (x :: b), t. split; [done|by constructor].
Qed.

Lemma print_lines_eq f c : print_lines f c = concat (map (fun l => f (cstr l)) (getlines c)).
Proof.
  unfold print_lines, file_readline. assert (Hl : forall ls out, readline_loop false (fun out line => (out ++ f line, true)) ls out =
    out ++ concat (map (fun l => f (cstr l)) ls)).
  { induction ls as [|l ls IH]; intros out; cbn [readline_loop map concat line_view]; [by rewrite app_nil_r|]. by rewrite IH, <- app_assoc. }
  apply Hl.
Qed.
Lemma getlines_last b : Forall (.≠ NL) b -> getlines b = match b with [] => [] | _ => [b] end.
Proof. induction 1 as [|c b Hc _ IH]; [done|]. cbn [getlines]. rewrite eqb_false by done. rewrite IH. by destruct b. Qed.

(** A function on lines that keeps them apart: what it makes of a whole line is nothing or
    ends with an end of line, and the lines in it are those of [g]. *)
Record line_fn (f : bytes -> bytes) (g : bytes -> list bytes) : Prop := LineFn {
  lf_whole b : Forall (.≠ NL) b -> f (b ++ [NL]) = [] \/ exists x, f (b ++ [NL]) = x ++ [NL];
  lf_lines b : Forall (.≠ NL) b -> script_lines (f (b ++ [NL])) = g b;
  lf_blank : g [] = [] }.

Lemma bind_script_lines (g : bytes -> list bytes) c : g [] = [] -> (split_nl c ≫= g) = (script_lines c ≫= g).
Proof. intros Hg. unfold script_lines. induction (split_nl c) as [|l ls IH]; [done|]. rewrite filter_cons. case_decide as Hl; cbn; rewrite IH; [done|]. subst l. by rewrite Hg. Qed.

(** The last line has an end, or the function does not need it. *)
Definition ended (f : bytes -> bytes) (g : bytes -> list bytes) (c : bytes) : Prop :=
  (forall b, Forall (.≠ NL) b -> b <> [] -> script_lines (f b) = g b) \/ c = [] \/ last c = Some NL.

Lemma print_lines_lines f g c rest : line_fn f g -> Forall (.≠ x00) c -> ended f g c ->
  script_lines (print_lines f c ++ NL :: rest) = (script_lines c ≫= g) ++ script_lines rest.
Proof.
  intros Hf Hz. rewrite <- bind_script_lines by apply Hf. rewrite print_lines_eq.
  remember (length c) as n eqn:En. revert c Hz En. induction n as [n IH] using lt_wf_ind. intros c Hz -> He.
  destruct (cut_line c) as [Hc|(b & t & -> & Hb)].
  - rewrite getlines_last, split_nl_one by done. destruct c as [|x c]; [cbn; by rewrite (lf_blank _ _ Hf)|]. cbn [map concat]. rewrite app_nil_r, cstr_id by done.
    rewrite script_lines_app. cbn [mbind list_bind]. rewrite app_nil_r. f_equal. destruct He as [He|[He|He]]; [by apply He|done|].
    apply last_Some_elem_of in He. rewrite Forall_forall in Hc. by destruct (Hc NL He).
  - rewrite getlines_line, split_nl_app, split_nl_one, bind_app by done. cbn [map concat mbind list_bind]. rewrite app_nil_r, <- !app_assoc.
    apply Forall_app in Hz as [Hzb Hzt]. apply Forall_cons in Hzt as [_ Hzt].
    rewrite cstr_id by (apply Forall_app; split; [done|by repeat constructor]). rewrite <- (lf_lines _ _ Hf b Hb).
    rewrite <- (IH (length t)); [|rewrite length_app; cbn; lia|done|done|].
    + change (b ++ [x0a]) with (b ++ [NL]). destruct (lf_whole _ _ Hf b Hb) as [->|[x ->]]; [done|].
      rewrite script_lines_end, <- app_assoc. cbn [app]. apply script_lines_app.
    + destruct He as [He|[He|He]]; [by left|by destruct b|right]. rewrite last_app in He. destruct t as [|y t]; [by left|right].
      rewrite last_cons in He. destruct (last (y :: t)) eqn:El; [done|by apply last_None in El].
Qed.

Lemma starts_with_nl p b : NL ∉ p -> starts_with p (b ++ [NL]) = starts_with p b.
Proof.
  revert b. induction p as [|x p IH]; intros b Hp; [done|]. apply not_elem_of_cons in Hp as [Hx Hp]. destruct b as [|y b].
  - cbn. by rewrite eqb_false.
  - cbn [app starts_with]. by rewrite IH.
Qed.
Lemma contains_nl p b : p <> [] -> NL ∉ p -> str_contains (b ++ [NL]) p = str_contains b p.
Proof.
  intros Hn Hp. unfold str_contains. f_equal. apply bool_decide_ext.
  induction b as [|y b IH]; cbn [app memmem].
  - destruct p as [|x p]; [done|]. cbn. rewrite eqb_false; [done|]. intros ->. apply Hp. set_solver.
  - change (starts_with p (y :: b ++ [NL])) with (starts_with p ((y :: b) ++ [NL])). rewrite starts_with_nl by done. destruct (starts_with p (y :: b)); [done|].
    rewrite !fmap_is_Some. exact IH.
Qed.

(** ** What is printed for a line *)

Definition init_line (b : bytes) : list bytes :=
  if bool_decide (b = []) || str_contains b (bs "start vaultkeeper") then []
  else if starts_with (bs "service flash_recovery") b then [bs "service flash_recovery /system/bin/true"]
  else if starts_with (bs "on property:persist.sys.zygote.early=") b then [bs "on property:persist.sys.zygote.early.xxxxx=true"]
  else [b].
Definition restart_text (tmp : bytes) : bytes :=
  bs "    onrestart exec " ++ MAGISK_PROC_CON ++ bs " 0 0 -- " ++ tmp ++ bs "/magisk --zygote-restart".
Definition zygote_line (tmp b : bytes) : list bytes :=
  if bool_decide (b = []) then [] else if starts_with (bs "service zygote ") b then [b; restart_text tmp] else [b].

Lemma no_nl s : bool_decide (NL ∉ bs s) = true -> NL ∉ bs s.
Proof. apply bool_decide_eq_true_1. Qed.

Lemma init_line_ends : line_fn patch_init_line init_line /\ forall c, ended patch_init_line init_line c.
Proof.
  assert (Hl : forall b, Forall (.≠ NL) b -> b <> [] -> script_lines (patch_init_line b) = init_line b).
  { intros b Hb Hn. unfold patch_init_line, init_line. rewrite (bool_decide_eq_false_2 (b = [])) by done. cbn [orb].
    repeat case_match; try (vm_compute; reflexivity). rewrite script_lines_one by done. by rewrite bool_decide_eq_false_2. }
  assert (Hc : forall b, str_contains (b ++ [NL]) (bs "start vaultkeeper") = str_contains b (bs "start vaultkeeper")) by (intros; by apply contains_nl, no_nl).
  assert (Hs : forall b, starts_with (bs "service flash_recovery") (b ++ [NL]) = starts_with (bs "service flash_recovery") b) by (intros; by apply starts_with_nl, no_nl).
  assert (Hp : forall b, starts_with (bs "on property:persist.sys.zygote.early=") (b ++ [NL]) = starts_with (bs "on property:persist.sys.zygote.early=") b)
    by (intros; by apply starts_with_nl, no_nl).
  split; [|intros c; left; exact Hl]. split.
  - intros b Hb. unfold patch_init_line. rewrite Hc, Hs, Hp. repeat case_match; eauto.
  - intros b Hb. destruct (decide (b = [])) as [->|Hn]; [done|]. rewrite <- (Hl b Hb Hn). unfold patch_init_line. rewrite Hc, Hs, Hp.
    repeat case_match; try done. apply script_lines_end.
  - done.
Qed.

Lemma zygote_line_ends tmp : Forall (.≠ NL) tmp -> line_fn (patch_zygote_line tmp) (zygote_line tmp).
Proof.
  intros Ht. assert (Hs : forall b, starts_with (bs "service zygote ") (b ++ [NL]) = starts_with (bs "service zygote ") b) by (intros; by apply starts_with_nl, no_nl).
  assert (Hr : restart_line tmp = restart_text tmp ++ [NL]) by (unfold restart_line, restart_text; by rewrite <- !app_assoc).
  assert (Hn : Forall (.≠ NL) (restart_text tmp)).
  { unfold restart_text. rewrite !Forall_app. split_and!; try done; apply (bool_decide_unpack _); vm_compute; exact I. }
  split.
  - intros b Hb. right. unfold patch_zygote_line. rewrite Hs, Hr. destruct (starts_with _ _); [|eauto]. exists ((b ++ [NL]) ++ restart_text tmp). by rewrite app_assoc.
  - intros b Hb. unfold patch_zygote_line, zygote_line. rewrite Hs, Hr. destruct (decide (b = [])) as [->|Hnb]; [done|].
    rewrite (bool_decide_eq_false_2 (b = [])) by done. destruct (starts_with _ _).
    + rewrite <- app_assoc. cbn [app]. rewrite script_lines_app, script_lines_end, !script_lines_one by done. by rewrite !bool_decide_eq_false_2.
    + rewrite script_lines_end, script_lines_one by done. by rewrite bool_decide_eq_false_2.
  - done.
Qed.

(** ** The injected scripts *)

Definition trigger_lines (tmp cond arg : bytes) : list bytes :=
  [bs "on " ++ cond; bs "    exec " ++ MAGISK_PROC_CON ++ bs " 0 0 -- " ++ tmp ++ bs "/magisk --" ++ arg].
Definition magisk_lines (tmp : bytes) : list bytes :=
  trigger_lines tmp (bs "post-fs-data") (bs "post-fs-data") ++
  trigger_lines tmp (bs "property:vold.decrypt=trigger_restart_framework") (bs "service") ++
  trigger_lines tmp (bs "nonencrypted") (bs "service") ++
  trigger_lines tmp (bs "property:sys.boot_completed=1") (bs "boot-complete") ++
  trigger_lines tmp (bs "property:init.svc.zygote=stopped") (bs "zygote-restart").

Lemma trigger_spec tmp cond arg rest : Forall (.≠ NL) tmp -> Forall (.≠ NL) cond -> Forall (.≠ NL) arg ->
  script_lines (trigger tmp cond arg ++ rest) = trigger_lines tmp cond arg ++ script_lines rest.
Proof.
  intros Ht Hc Ha. unfold trigger, trigger_lines. set (a := bs "on " ++ cond). set (e := bs "    exec " ++ MAGISK_PROC_CON ++ bs " 0 0 -- " ++ tmp ++ bs "/magisk --" ++ arg).
  assert (Hna : Forall (.≠ NL) a) by (apply Forall_app; split; [apply (bool_decide_unpack _); vm_compute; exact I|done]).
  assert (Hne : Forall (.≠ NL) e) by (unfold e; rewrite !Forall_app; split_and!; try done; apply (bool_decide_unpack _); vm_compute; exact I).
  replace (([NL] ++ bs "on " ++ cond ++ [NL] ++ bs "    exec " ++ MAGISK_PROC_CON ++ bs " 0 0 -- " ++ tmp ++ bs "/magisk --" ++ arg ++ [NL]) ++ rest)
    with ([] ++ NL :: (a ++ NL :: (e ++ NL :: rest))) by (unfold a, e; rewrite <- !app_assoc; reflexivity).
  rewrite !script_lines_app, !(script_lines_one a), !(script_lines_one e) by done. done.
Qed.

Lemma magisk_rc_lines tmp : Forall (.≠ NL) tmp -> script_lines (magisk_rc tmp) = magisk_lines tmp.
Proof.
  intros Ht. unfold magisk_rc, magisk_lines. rewrite <- (app_nil_r (trigger tmp (bs "property:init.svc.zygote=stopped") _)).
  rewrite !trigger_spec; try done; try (apply (bool_decide_unpack _); vm_compute; exact I).
Qed.

Lemma inject_scripts_spec tmp rc rest : exists text l, inject_scripts tmp rc = Ret text /\ Forall2 (replaced (bs "${MAGISKTMP}") tmp) rc l /\
  script_lines (text ++ rest) = (l ≫= (fun s => script_lines (cstr s))) ++ script_lines rest.
Proof.
  induction rc as [|s rc (text & l & E & H2 & Hl)]; [by exists [], []|]. cbn [inject_scripts].
  destruct (replace_all_spec (bs "${MAGISKTMP}") tmp s) as (r & -> & Hr); [done|]. cbn [obind]. rewrite E. cbn [obind].
  eexists _, (r :: l). split; [reflexivity|]. split; [by constructor|]. rewrite bind_cons, <- (app_assoc (script_lines (cstr r))), <- Hl, <- !app_assoc.
  rewrite <- (script_lines_app (cstr r) (text ++ rest)). done.
Qed.

(** ** The directories after patching *)

Definition out_dir (writable : bool) (d : rcdirs) : dir := if writable then rc_src d else rc_dest d.

(** One more script in place. *)
Lemma put_lookup writable name f d n :
  out_dir writable (put_dest writable name f (unlink_src writable name d)) !! name = Some f /\
  (n <> name -> rc_src (put_dest writable name f (unlink_src writable name d)) !! n = rc_src d !! n /\
                rc_dest (put_dest writable name f (unlink_src writable name d)) !! n = rc_dest d !! n).
Proof.
  destruct writable; cbn; (split; [apply lookup_insert_eq|]); intros Hn; rewrite lookup_insert_ne by done; [|done].
  split; [by rewrite lookup_delete_ne|done].
Qed.

Definition patched_zygote (tmp : bytes) (f : rcfile) : rcfile := RcFile (print_lines (patch_zygote_line tmp) (content f)) (attr f).

Lemma patch_zygotes_spec writable tmp names : NoDup names -> forall d,
  let d' := patch_zygotes writable (fun _ => true) tmp names d in
  forall n, match (if bool_decide (n ∈ names) && is_zygote_rc n then rc_src d !! n else None) with
            | Some f => out_dir writable d' !! n = Some (patched_zygote tmp f) /\ (writable = false -> rc_src d' !! n = rc_src d !! n)
            | None => rc_src d' !! n = rc_src d !! n /\ rc_dest d' !! n = rc_dest d !! n
            end.
Proof.
  induction 1 as [|name names Hni _ IH]; intros d d' n; [done|]. unfold d'. cbn [patch_zygotes]. clear d'.
  set (d1 := if is_zygote_rc name then _ else d).
  assert (H1 : forall m, m <> name -> rc_src d1 !! m = rc_src d !! m /\ rc_dest d1 !! m = rc_dest d !! m).
  { intros m Hm. unfold d1. destruct (is_zygote_rc name); [|done]. destruct (rc_src d !! name) as [f|]; [|done]. by apply put_lookup. }
  specialize (IH d1 n). cbv zeta in IH. destruct (decide (n = name)) as [->|Hn].
  - rewrite (bool_decide_eq_true_2 (name ∈ name :: names)) by set_solver. rewrite (bool_decide_eq_false_2 (name ∈ names)) in IH by done.
    cbn [andb] in *. destruct IH as [IH1 IH2]. unfold d1 in *. destruct (is_zygote_rc name); [|done].
    destruct (rc_src d !! name) as [f|] eqn:Ef; [|by rewrite Ef in IH1].
    split; [unfold out_dir; destruct writable; [rewrite IH1; apply (put_lookup true name _ d name)|rewrite IH2; apply (put_lookup false name _ d name)]|]. intros ->. rewrite IH1. exact Ef.
  - destruct (H1 n Hn) as [E1 E2]. rewrite E1, E2 in IH. rewrite (bool_decide_ext (n ∈ name :: names) (n ∈ names)) by set_solver.
    match goal with |- match ?x with _ => _ end => destruct x; [|done] end. destruct IH as [IHa IHb]. split; [done|]. intros Hw. by rewrite IHb.
Qed.

(** C24: patching the init scripts.  In the directory the scripts go to (the one they came
    from if it is writable, the overlay otherwise), [init.rc] has the lines of the original
    in order, except that the three kinds of lines are dropped or replaced, then the lines of
    the scripts of the modules with their template filled in, then the triggers of the
    daemon; every zygote script has its lines with one line added after each zygote service;
    owner and mode are kept; no other file changes, and nothing does in a directory that is
    not writable. *)
Theorem patch_rc_scripts_spec writable names tmp rc d f : NoDup names -> Forall (.≠ NL) tmp ->
  rc_src d !! INIT_RC = Some f -> Forall (.≠ x00) (content f) ->
  (forall n z, n ∈ names -> is_zygote_rc n = true -> rc_src d !! n = Some z ->
     Forall (.≠ x00) (content z) /\ (content z = [] \/ last (content z) = Some NL)) ->
  exists b d' g scripts, patch_rc_scripts true writable (fun _ => true) names tmp rc d = Ret (b, d', []) /\
    (out_dir writable d' !! INIT_RC = Some g /\ attr g = attr f /\
     Forall2 (replaced (bs "${MAGISKTMP}") tmp) rc scripts /\
     script_lines (content g) = (script_lines (content f) ≫= init_line) ++ (scripts ≫= (fun s => script_lines (cstr s))) ++ magisk_lines tmp) /\
    (forall n z, n ∈ names -> is_zygote_rc n = true -> rc_src d !! n = Some z ->
       exists g, out_dir writable d' !! n = Some g /\ attr g = attr z /\ script_lines (content g) = script_lines (content z) ≫= zygote_line tmp) /\
    (forall n, n <> INIT_RC -> ~ (n ∈ names /\ is_zygote_rc n = true /\ is_Some (rc_src d !! n)) ->
       rc_src d' !! n = rc_src d !! n /\ rc_dest d' !! n = rc_dest d !! n) /\
    (writable = false -> forall n, rc_src d' !! n = rc_src d !! n).
Proof.
  intros Hnd Ht Hf Hz Hzs. unfold patch_rc_scripts. cbn [negb]. rewrite Hf. unfold patch_init_rc.
  destruct (inject_scripts_spec tmp rc (magisk_rc tmp)) as (text & scripts & -> & H2 & Hl). cbn [obind].
  set (g := RcFile (print_lines patch_init_line (content f) ++ [NL] ++ text ++ magisk_rc tmp) (attr f)).
  set (d1 := put_dest writable INIT_RC g (unlink_src writable INIT_RC d)).
  assert (H1 : forall n, n <> INIT_RC -> rc_src d1 !! n = rc_src d !! n /\ rc_dest d1 !! n = rc_dest d !! n) by (intros n Hn; by apply put_lookup).
  pose proof (patch_zygotes_spec writable tmp names Hnd d1) as Hs. cbv zeta in Hs. set (d' := patch_zygotes _ _ _ _ _) in *.
  assert (Hi : is_zygote_rc INIT_RC = false) by (vm_compute; reflexivity).
  assert (Hin : rc_src d' !! INIT_RC = rc_src d1 !! INIT_RC /\ rc_dest d' !! INIT_RC = rc_dest d1 !! INIT_RC)
    by (specialize (Hs INIT_RC); by rewrite Hi, andb_false_r in Hs).
  eexists _, d', g, scripts. split; [reflexivity|]. split_and!.
  - destruct (put_lookup writable INIT_RC g d INIT_RC) as [<- _]. unfold out_dir. destruct writable; apply Hin.
  - done.
  - exact H2.
  - cbn [g content]. destruct init_line_ends as [Hfn He]. cbn [app].
    rewrite (print_lines_lines _ init_line) by done. by rewrite Hl, magisk_rc_lines.
  - intros n z Hn Hzy Hz'. assert (n <> INIT_RC) as Hne by congruence. specialize (Hs n). destruct (H1 n Hne) as [E1 _]. 
    rewrite bool_decide_eq_true_2, Hzy, E1, Hz' in Hs by done. cbn [andb] in Hs. destruct Hs as [Hs _].
    exists (patched_zygote tmp z). split; [done|]. split; [done|]. destruct (Hzs n z Hn Hzy Hz') as [Hnul Hend]. cbn [patched_zygote content].
    rewrite <- script_lines_end, (print_lines_lines _ (zygote_line tmp)); [apply app_nil_r|by apply zygote_line_ends|done|by right].
  - intros n Hn Hno. specialize (Hs n). destruct (H1 n Hn) as [E1 E2]. rewrite E1, E2 in Hs. destruct (bool_decide (n ∈ names) && is_zygote_rc n) eqn:Eb; [|done].
    apply andb_true_iff in Eb as [En%bool_decide_eq_true Ez]. destruct (rc_src d !! n) eqn:Ed; [|done]. by destruct Hno.
  - intros -> n. specialize (Hs n). destruct (decide (n = INIT_RC)) as [->|Hn]; [by rewrite (proj1 Hin)|]. destruct (H1 n Hn) as [E1 _]. rewrite E1 in Hs.
    match type of Hs with match ?x with _ => _ end => destruct x end; by apply Hs.
Qed.

Definition sample_rc : rcdirs :=
  RcDirs {[INIT_RC := RcFile (bs "on boot" ++ [NL] ++ bs "    start vaultkeeper" ++ [NL] ++ bs "import x") 7;
           bs "init.zygote64.rc" := RcFile (bs "service zygote /system/bin/app" ++ [NL] ++ bs "    class main" ++ [NL]) 8]} ∅.

Lemma patch_rc_scripts_spec_witness : exists b d' g g',
  patch_rc_scripts true false (fun _ => true) [INIT_RC; bs "init.zygote64.rc"] (bs "/sbin") [] sample_rc = Ret (b, d', []) /\
  rc_dest d' !! INIT_RC = Some g /\ attr g = 7 /\
  script_lines (content g) = [bs "on boot"; bs "import x"] ++ magisk_lines (bs "/sbin") /\
  rc_dest d' !! bs "init.zygote64.rc" = Some g' /\
  script_lines (content g') = [bs "service zygote /system/bin/app"; restart_text (bs "/sbin"); bs "    class main"].
Proof.
  destruct (patch_rc_scripts_spec false [INIT_RC; bs "init.zygote64.rc"] (bs "/sbin") [] sample_rc
    (RcFile (bs "on boot" ++ [NL] ++ bs "    start vaultkeeper" ++ [NL] ++ bs "import x") 7)) as (b & d' & g & scripts & E & (Hg & Ha & H2 & Hl) & Hz & _).
  - apply (bool_decide_unpack _). vm_compute. exact I.
  - apply (bool_decide_unpack _). vm_compute. exact I.
  - vm_compute. reflexivity.
  - apply (bool_decide_unpack _). vm_compute. exact I.
  - intros n z Hn Hzy Hs. apply elem_of_cons in Hn as [->|Hn]; [by vm_compute in Hzy|]. apply list_elem_of_singleton in Hn as ->.
    vm_compute in Hs. injection Hs as <-. split; [apply (bool_decide_unpack _); vm_compute; exact I|right; vm_compute; reflexivity].
  - destruct (Hz (bs "init.zygote64.rc") (RcFile (bs "service zygote /system/bin/app" ++ [NL] ++ bs "    class main" ++ [NL]) 8)) as (g' & Hg' & _ & Hl');
      [set_solver|vm_compute; reflexivity|vm_compute; reflexivity|].
    exists b, d', g, g'. split; [exact E|]. split; [exact Hg|]. split; [exact Ha|]. split; [|split; [exact Hg'|rewrite Hl'; vm_compute; reflexivity]].
    apply Forall2_nil_inv_l in H2 as ->. rewrite Hl. reflexivity.
Defined.


(** ** Archives *)

Section extract.
Context `{XzLaws} (data : bytes -> bytes).

Definition archive_ok (fuel : nat) (fs : gmap bytes bytes) (a : bytes * bytes) : Prop :=
  fs !! a.2 = None /\ forall s, fs !! a.1 = Some s -> xz_stream s (data s) /\ (length s + length (data s) < fuel)%nat.

(** What a name holds afterwards. *)
Definition after_extract (l : list (bytes * bytes)) (fs : gmap bytes bytes) (n : bytes) : option bytes :=
  if bool_decide (n ∈ l.*1) then None
  else match list_find (fun a : bytes * bytes => a.2 = n) l with
       | Some (_, a) => data <$> fs !! a.1
       | None => fs !! n
       end.

Lemma extract_one_spec fuel src dst fs : archive_ok fuel fs (src, dst) -> src <> dst -> exists fs',
  extract_one fuel src dst fs = Ret fs' /\
  forall n, fs' !! n = if bool_decide (n = src) then None else if bool_decide (n = dst) then data <$> fs !! src else fs !! n.
Proof.
  intros [Hd Hs] Hne. cbn [fst snd] in *. unfold extract_one. destruct (fs !! src) as [s|] eqn:Es.
  - destruct (Hs s eq_refl) as [Hx Hf]. rewrite (unxz_spec s (data s)) by done. cbn [obind app]. eexists. split; [reflexivity|]. intros n.
    rewrite lookup_delete_ne, Hd by done. cbn [default]. rewrite drop_nil, app_nil_r.
    destruct (decide (n = src)) as [->|Hns]; [rewrite bool_decide_eq_true_2, lookup_insert_ne, lookup_delete_eq by done; done|].
    rewrite (bool_decide_eq_false_2 (n = src)) by done. case_bool_decide as Hn; [subst; apply lookup_insert_eq|].
    by rewrite lookup_insert_ne, lookup_delete_ne by congruence.
  - exists fs. split; [done|]. intros n. case_bool_decide; [by subst|]. case_bool_decide; [by subst|done].
Qed.

Lemma extract_all_spec fuel l : NoDup (l.*1 ++ l.*2) -> forall fs, Forall (archive_ok fuel fs) l -> exists fs',
  extract_all fuel l fs = Ret fs' /\ forall n, fs' !! n = after_extract l fs n.
Proof.
  induction l as [|[src dst] l IH]; intros Hnd fs Hok; [by exists fs|]. apply Forall_cons in Hok as [Ha Hok].
  rewrite fmap_cons, fmap_cons in Hnd. cbn [fst snd app] in Hnd. apply NoDup_cons in Hnd as [Hsrc Hnd].
  rewrite <- Permutation_middle in Hnd. apply NoDup_cons in Hnd as [Hdst Hnd].
  destruct (extract_one_spec fuel src dst fs Ha) as (fs1 & E1 & H1); [intros ->; set_solver|].
  assert (Hkeep : forall n, n ∈ l.*1 ++ l.*2 -> fs1 !! n = fs !! n).
  { intros n Hn. rewrite H1, !bool_decide_eq_false_2; [done|intros ->; set_solver|intros ->; set_solver]. }
  destruct (IH Hnd fs1) as (fs' & E' & H').
  { rewrite Forall_forall in Hok |- *. intros [s d] Hin. destruct (Hok _ Hin) as [O1 O2]. unfold archive_ok. cbn [fst snd] in *.
    rewrite !Hkeep; [by split|apply elem_of_app; left; by apply (list_elem_of_fmap_2 fst _ (s, d))|apply elem_of_app; right; by apply (list_elem_of_fmap_2 snd _ (s, d))]. }
  exists fs'. cbn [extract_all]. rewrite E1. cbn [obind]. split; [done|]. intros n. rewrite H'. unfold after_extract. rewrite fmap_cons. cbn [fst list_find snd].
  assert (Hnone : n ∉ l.*2 -> list_find (fun a : bytes * bytes => a.2 = n) l = None).
  { intros Hn. apply list_find_None, Forall_forall. intros a Hin <-. apply Hn. by apply list_elem_of_fmap_2. }
  rewrite (bool_decide_ext (n ∈ src :: l.*1) (n = src \/ n ∈ l.*1)) by set_solver. destruct (decide (n ∈ l.*1)) as [Hi|Hi].
  { rewrite !bool_decide_eq_true_2 by tauto. done. }
  rewrite (bool_decide_eq_false_2 (n ∈ l.*1)) by done. destruct (decide (n = src)) as [->|Hns].
  { rewrite Hnone by set_solver. rewrite H1, !bool_decide_eq_true_2 by tauto. done. }
  rewrite (bool_decide_eq_false_2 (n = src \/ _)) by tauto. destruct (decide (dst = n)) as [->|Hnd'].
  { rewrite Hnone by set_solver. by rewrite H1, bool_decide_eq_false_2, bool_decide_eq_true_2. }
  destruct (list_find (fun a : bytes * bytes => a.2 = n) l) as [[k a]|] eqn:Ef; cbn.
  - apply list_find_Some in Ef as (Hk & _). apply list_elem_of_lookup_2 in Hk. rewrite Hkeep; [done|]. apply elem_of_app. left. by apply list_elem_of_fmap_2.
  - by rewrite H1, !bool_decide_eq_false_2 by congruence.
Qed.

(** C36: the archives of the ramdisk are unpacked completely.  With a decoder that behaves as
    documented, whatever the size of the data and however the decoder hands it out in
    pieces, every archive that is present is removed and its file holds exactly its
    data, an archive that is missing changes nothing, and no other file is touched. *)
Theorem extract_files_spec fuel sbin fs : Forall (archive_ok fuel fs) (archives sbin) -> exists fs',
  extract_files fuel sbin fs = Ret fs' /\ forall n, fs' !! n = after_extract (archives sbin) fs n.
Proof using All. apply extract_all_spec. destruct sbin; apply (bool_decide_unpack _); vm_compute; exact I. Qed.
End extract.

Lemma extract_files_spec_witness : exists fs',
  extract_files 100 false {[bs "magisk.xz" := bs "elf" ++ [x00]; bs "other" := bs "x"]} = Ret fs' /\
  fs' !! bs "magisk" = Some (bs "elf") /\ fs' !! bs "magisk.xz" = None /\ fs' !! bs "other" = Some (bs "x").
Proof.
  destruct (extract_files_spec (fun s => removelast s) 100 false {[bs "magisk.xz" := bs "elf" ++ [x00]; bs "other" := bs "x"]}) as (fs' & E & Hn).
  - repeat apply List.Forall_cons; try apply List.Forall_nil; (split; [vm_compute; reflexivity|intros s Hs; vm_compute in Hs]).
    + injection Hs as <-. split; [vm_compute; reflexivity|apply (bool_decide_unpack _); vm_compute; exact I].
    + discriminate.
    + discriminate.
  - exists fs'. split; [exact E|]. rewrite !Hn. vm_compute. split_and!; reflexivity.
Defined.

(** ** The overlay *)

Definition taken (root : bytes -> bool) (n : bytes) : bool := str_ends n (bs ".rc") && negb (root n).

Lemma load_overlay_loop_spec root names : NoDup names -> forall ovl rc,
  let '(ovl', rc') := load_overlay_loop root names ovl rc in
  rc' = rc ++ ((fun n => from_option content [] (ovl !! n)) <$> filter (fun n => taken root n = true) names) /\
  forall n, ovl' !! n = if bool_decide (n ∈ names) && taken root n then None else ovl !! n.
Proof.
  unfold taken. induction 1 as [|name names Hni _ IH]; intros ovl rc; [cbn; by rewrite app_nil_r|]. cbn [load_overlay_loop]. rewrite filter_cons.
  destruct (str_ends name (bs ".rc") && negb (root name)) eqn:Et.
  - rewrite <- (negb_involutive (root name)), <- negb_andb, Et. cbn [negb]. rewrite decide_True by done.
    specialize (IH (delete name ovl) (rc ++ [from_option content [] (ovl !! name)])). destruct (load_overlay_loop _ _ _ _) as [ovl' rc']. destruct IH as [-> Ho]. split.
    + rewrite <- app_assoc. f_equal. rewrite fmap_cons. cbn [app]. f_equal. apply list_fmap_ext. intros i n Hn. apply list_elem_of_lookup_2, list_elem_of_filter in Hn as [_ Hn].
      rewrite lookup_delete_ne; [done|]. by intros ->.
    + intros n. rewrite Ho. destruct (decide (n = name)) as [->|Hn].
      * rewrite (bool_decide_eq_true_2 (name ∈ name :: names)) by set_solver. rewrite Et. cbn [andb]. destruct (bool_decide _ && _); [done|apply lookup_delete_eq].
      * rewrite (bool_decide_ext (n ∈ name :: names) (n ∈ names)) by set_solver. by rewrite lookup_delete_ne.
  - rewrite <- (negb_involutive (root name)), <- negb_andb, Et. cbn [negb]. rewrite decide_False by done. specialize (IH ovl rc).
    destruct (load_overlay_loop _ _ _ _) as [ovl' rc']. destruct IH as [-> Ho]. split; [done|]. intros n. rewrite Ho.
    destruct (decide (n = name)) as [->|Hn]; [rewrite Et, !andb_false_r; done|]. by rewrite (bool_decide_ext (n ∈ name :: names) (n ∈ names)) by set_solver.
Qed.

(** The overlay cannot replace [init.rc]; a new script is moved to the list, a script that
    replaces one stays. *)
Lemma load_overlay_rc_spec root names ovl rc : NoDup names -> exists ovl',
  load_overlay_rc root names (Some ovl) rc =
    (Some ovl', rc ++ ((fun n => from_option content [] (delete INIT_RC ovl !! n)) <$> filter (fun n => taken root n = true) names)) /\
  forall n, ovl' !! n = if bool_decide (n = INIT_RC) || bool_decide (n ∈ names) && taken root n then None else ovl !! n.
Proof.
  intros Hnd. unfold load_overlay_rc. pose proof (load_overlay_loop_spec root names Hnd (delete INIT_RC ovl) rc) as H.
  destruct (load_overlay_loop _ _ _ _) as [ovl' rc']. destruct H as [-> Ho]. exists ovl'. split; [done|]. intros n. rewrite Ho.
  destruct (decide (n = INIT_RC)) as [->|Hn]; [rewrite (bool_decide_eq_true_2 (INIT_RC = _)), lookup_delete_eq by done; by destruct (_ && _)|].
  by rewrite (bool_decide_eq_false_2 (n = INIT_RC)), lookup_delete_ne by congruence.
Qed.
