(* ===== verification/ZygiskHook.v ===== *)
(** Function hooks of zygisk: [native/src/core/zygisk/hook.cpp].  Native methods of a Java
    class are replaced and put back through the same array; functions of shared libraries
    are hooked through the library [lsplt]. *)

From S2P Require Import Prelude Base.

(** ** Native methods *)

(** A native method of a class: name, signature and function, 0 being the null pointer. *)
Record JNINativeMethod := Jni { name : bytes; signature : bytes; fnPtr : Z }.
Definition set_fn (f : Z) (m : JNINativeMethod) : JNINativeMethod := Jni (name m) (signature m) f.
Definition jkey (m : JNINativeMethod) : bytes * bytes := (name m, signature m).

(** Two arrays are compared by the names and signatures of their methods. *)
Definition find_key (k : bytes * bytes) (ms : list JNINativeMethod) : option JNINativeMethod :=
  snd <$> list_find (fun m => jkey m = k) ms.
(** A class with the functions of an array. *)
Definition with_methods (ms tbl : list JNINativeMethod) : list JNINativeMethod :=
  (fun t => match find_key (jkey t) ms with Some m => set_fn (fnPtr m) t | None => t end) <$> tbl.

(** What the Java runtime promises of a class: its native methods, in an order that does
    not change ([getNativeMethods]), and [RegisterNatives(clazz, &method, 1)], which
    replaces the function of the method with this name and signature and is an error
    ([None]) when the class has none. *)
Class JavaClass (C : Type) := {
  getNativeMethods : C -> list JNINativeMethod;
  RegisterNatives : C -> JNINativeMethod -> option C;
  native_keys : forall c, NoDup (jkey <$> getNativeMethods c);
  register_found : forall c m c', RegisterNatives c m = Some c' ->
    getNativeMethods c' = with_methods [m] (getNativeMethods c);
  register_error : forall c m, RegisterNatives c m = None <-> jkey m ∉ jkey <$> getNativeMethods c }.

(** The search for the old function: [old] and [new] are the methods before and after. *)
Fixpoint find_old (old new : list JNINativeMethod) (m : JNINativeMethod) : JNINativeMethod :=
  match old, new with
  | o :: old, n :: new =>
    if bool_decide (fnPtr n = fnPtr m /\ name n = name m) then set_fn (fnPtr o) m else find_old old new m
  | _, _ => m
  end.

Section hook.
Context `{JavaClass C}.

(** The loop over the methods: the class and the array afterwards; [old] is what
    [getNativeMethods] said last. *)
Fixpoint hook_loop (clazz : C) (old methods : list JNINativeMethod) : C * list JNINativeMethod :=
  match methods with
  | [] => (clazz, [])
  | method :: methods =>
    if fnPtr method =? 0 then let '(clazz, ms) := hook_loop clazz old methods in (clazz, method :: ms)
    else
      match RegisterNatives clazz method with
      | None => let '(clazz, ms) := hook_loop clazz old methods in (clazz, set_fn 0 method :: ms)
      | Some clazz =>
        let new := getNativeMethods clazz in
        let method := find_old old new method in
        let '(clazz, ms) := hook_loop clazz new methods in (clazz, method :: ms)
      end
  end.

(** [None]: no callbacks, environment or class. *)
Definition hook_jni_methods (clazz : option C) (methods : list JNINativeMethod) : option C * list JNINativeMethod :=
  match clazz with
  | None => (None, map (set_fn 0) methods)
  | Some clazz => let '(clazz, methods) := hook_loop clazz (getNativeMethods clazz) methods in (Some clazz, methods)
  end.

(** [hook_zygote_jni], once the environment of the Java machine is found, and
    [restore_zygote_hook] make the same call, on the same array. *)
Definition hook_zygote_jni (zygote : option C) (zygote_methods : list JNINativeMethod) := hook_jni_methods zygote zygote_methods.
Definition restore_zygote_hook (zygote : option C) (zygote_methods : list JNINativeMethod) := hook_jni_methods zygote zygote_methods.
End hook.

(** ** Hooks of libraries *)

Record MapInfo := Map { path : bytes; dev : Z; inode : Z; offset : Z; is_private : bool; readable : bool }.

(** [lsplt]: whether a hook is accepted, and the old function after the commit (0 if the
    symbol was not found). *)
Record lsplt := Lsplt { accepts : Z -> Z -> bytes -> bool; old_fn : Z -> Z -> bytes -> Z; commits : bool }.
Record plt_hook := PltHook { h_dev : Z; h_inode : Z; h_symbol : bytes }.

Definition register_hook (l : lsplt) (h : plt_hook) (backup : list plt_hook) : list plt_hook :=
  if accepts l (h_dev h) (h_inode h) (h_symbol h) then backup ++ [h] else backup.

(** The last map whose path ends with a name, and the other branch of the search. *)
Fixpoint scan_maps (maps : list MapInfo) (runtime bridge : Z * Z) : (Z * Z) * (Z * Z) :=
  match maps with
  | [] => (runtime, bridge)
  | m :: maps =>
    if str_ends (path m) (bs "/libandroid_runtime.so") then scan_maps maps (dev m, inode m) bridge
    else if str_ends (path m) (bs "/libnativebridge.so") then scan_maps maps runtime (dev m, inode m)
    else scan_maps maps runtime bridge
  end.

Definition hook_plt (l : lsplt) (maps : list MapInfo) : list plt_hook :=
  let '(runtime, bridge) := scan_maps maps (0, 0) (0, 0) in
  let at_bridge s := PltHook bridge.1 bridge.2 s in
  let at_runtime s := PltHook runtime.1 runtime.2 s in
  let backup := register_hook l (at_bridge (bs "dlclose")) [] in
  let backup := register_hook l (at_runtime (bs "fork")) backup in
  let backup := register_hook l (at_runtime (bs "unshare")) backup in
  let backup := register_hook l (at_runtime (bs "selinux_android_setcontext")) backup in
  let backup := register_hook l (at_runtime (bs "strdup")) backup in
  let backup := register_hook l (at_runtime (bs "__android_log_close")) backup in
  filter (fun h => (if commits l then old_fn l (h_dev h) (h_inode h) (h_symbol h) else 0) <> 0) backup.

(** [hook_unloader] adds the hook that unloads the library, in the first map of the runtime. *)
Definition hook_unloader (l : lsplt) (maps : list MapInfo) (backup : list plt_hook) : list plt_hook :=
  let art := match list_find (fun m => str_ends (path m) (bs "/libart.so")) maps with
             | Some (_, m) => (dev m, inode m) | None => (0, 0) end in
  register_hook l (PltHook art.1 art.2 (bs "pthread_attr_destroy")) backup.

(** [restore_plt_hook]: [should_unmap] afterwards. *)
Definition restore_plt_hook (l : lsplt) (backup : list plt_hook) (should_unmap : bool) : bool :=
  let should_unmap := fold_left (fun b h => if accepts l (h_dev h) (h_inode h) (h_symbol h) then b else false) backup should_unmap in
  if commits l then should_unmap else false.

(** ** Hooking and restoring *)

Lemma find_key_in k ms m : NoDup (jkey <$> ms) -> m ∈ ms -> jkey m = k -> find_key k ms = Some m.
Proof.
  unfold find_key. induction ms as [|a ms IH]; intros Hnd Hin Hk; [set_solver|]. rewrite fmap_cons in Hnd. apply NoDup_cons in Hnd as [Ha Hnd].
  cbn [list_find]. apply elem_of_cons in Hin as [->|Hin]; [by rewrite decide_True|].
  rewrite decide_False by (intros E; apply Ha; rewrite E, <- Hk; by apply list_elem_of_fmap_2).
  specialize (IH Hnd Hin Hk). by destruct (list_find _ ms) as [[]|].
Qed.

Lemma find_key_out k ms : k ∉ jkey <$> ms -> find_key k ms = None.
Proof.
  unfold find_key. intros Hk. destruct (list_find _ ms) as [[i m]|] eqn:E; [|done]. apply list_find_Some in E as (Hl & <- & _).
  destruct Hk. apply list_elem_of_fmap_2. by eapply list_elem_of_lookup_2.
Qed.

Lemma find_key_inv k ms m : find_key k ms = Some m -> m ∈ ms /\ jkey m = k.
Proof.
  unfold find_key. destruct (list_find _ ms) as [[i a]|] eqn:E; [|done]. intros [= <-].
  apply list_find_Some in E as (Hl & Hk & _). split; [by eapply list_elem_of_lookup_2|done].
Qed.

Lemma find_key_one k m : find_key k [m] = if bool_decide (jkey m = k) then Some m else None.
Proof. unfold find_key. cbn [list_find]. destruct (decide (jkey m = k)); [by rewrite bool_decide_eq_true_2|by rewrite bool_decide_eq_false_2]. Qed.

Lemma jkey_set_fn f m : jkey (set_fn f m) = jkey m.
Proof. done. Qed.

Lemma with_methods_keys ms tbl : jkey <$> with_methods ms tbl = jkey <$> tbl.
Proof. unfold with_methods. rewrite <- list_fmap_compose. apply list_fmap_ext. intros i t _. cbn. by destruct (find_key _ ms). Qed.

Lemma with_methods_nil tbl : with_methods [] tbl = tbl.
Proof. unfold with_methods. cbn. apply list_fmap_id. Qed.

(** One method after the other is all of them at once. *)
Lemma with_methods_cons m ms tbl : jkey m ∉ jkey <$> ms -> with_methods ms (with_methods [m] tbl) = with_methods (m :: ms) tbl.
Proof.
  intros Hm. unfold with_methods. rewrite <- list_fmap_compose. apply list_fmap_ext. intros i t _. cbn [compose]. rewrite find_key_one.
  unfold find_key at 2. cbn [list_find]. destruct (decide (jkey m = jkey t)) as [E|N].
  - rewrite bool_decide_eq_true_2 by done. cbn. rewrite jkey_set_fn, <- E, find_key_out by done. done.
  - rewrite bool_decide_eq_false_2 by done. unfold find_key. by destruct (list_find _ ms) as [[]|].
Qed.

(** A method the class has not changes nothing. *)
Lemma with_methods_skip m ms tbl : jkey m ∉ jkey <$> tbl -> with_methods (m :: ms) tbl = with_methods ms tbl.
Proof.
  intros Hm. unfold with_methods. apply list_fmap_ext. intros i t Ht. unfold find_key. cbn [list_find].
  rewrite decide_False by (intros E; apply Hm; rewrite E; apply list_elem_of_fmap_2; by eapply list_elem_of_lookup_2).
  by destruct (list_find _ ms) as [[]|].
Qed.

Definition hooked (m : JNINativeMethod) : Prop := fnPtr m <> 0.
Global Instance hooked_dec m : Decision (hooked m).
Proof. unfold hooked. apply _. Defined.

Lemma filter_keys P `{!forall m : JNINativeMethod, Decision (P m)} (ms : list JNINativeMethod) k : k ∉ jkey <$> ms -> k ∉ jkey <$> filter P ms.
Proof. intros Hk (m & -> & Hm)%list_elem_of_fmap. apply Hk. apply list_elem_of_fmap_2. by apply list_elem_of_filter in Hm as [_ ?]. Qed.

Lemma filter_all ms : Forall hooked ms -> filter hooked ms = ms.
Proof. induction 1 as [|m ms Hm _ IH]; [done|]. by rewrite filter_cons_True, IH. Qed.

Section hook_proofs.
Context `{JavaClass C}.
Implicit Types (clazz : C) (ms tbl : list JNINativeMethod).

(** The class after the loop has the functions of the array, whatever was found as old. *)
Lemma hook_loop_class ms : forall clazz old, NoDup (jkey <$> ms) ->
  getNativeMethods (hook_loop clazz old ms).1 = with_methods (filter hooked ms) (getNativeMethods clazz).
Proof.
  induction ms as [|m ms IH]; intros clazz old Hnd; [by rewrite filter_nil, with_methods_nil|].
  rewrite fmap_cons in Hnd. apply NoDup_cons in Hnd as [Hm Hnd]. cbn [hook_loop]. destruct (Z.eqb_spec (fnPtr m) 0) as [E|N].
  - rewrite filter_cons_False by (unfold hooked; lia). rewrite <- (IH clazz old Hnd). by destruct (hook_loop clazz old ms).
  - rewrite filter_cons_True by done. destruct (RegisterNatives clazz m) as [clazz'|] eqn:R.
    + rewrite <- with_methods_cons by by apply filter_keys. rewrite <- (register_found _ _ _ R), <- (IH clazz' (getNativeMethods clazz') Hnd).
      by destruct (hook_loop clazz' _ ms).
    + apply register_error in R. rewrite with_methods_skip by done. rewrite <- (IH clazz old Hnd). by destruct (hook_loop clazz old ms).
Qed.

(** The array after hooking: the function the class had, or null. *)
Definition saved tbl (m : JNINativeMethod) : JNINativeMethod :=
  match find_key (jkey m) tbl with Some t => set_fn (fnPtr t) m | None => set_fn 0 m end.

Lemma saved_other tbl m m' : jkey m <> jkey m' -> saved (with_methods [m] tbl) m' = saved tbl m'.
Proof.
  intros N. unfold saved. enough (find_key (jkey m') (with_methods [m] tbl) = find_key (jkey m') tbl) as -> by done.
  induction tbl as [|t tbl IH]; [done|]. unfold with_methods, find_key in *. rewrite fmap_cons. cbn [list_find].
  destruct (decide (jkey m = jkey t)) as [E|E]; cbn [fmap option_fmap option_map fst snd]; rewrite ?jkey_set_fn.
  - rewrite !decide_False by congruence. destruct (list_find _ (_ <$> tbl)) as [[]|], (list_find _ tbl) as [[]|]; done.
  - destruct (decide (jkey t = jkey m')); [done|]. destruct (list_find _ (_ <$> tbl)) as [[]|], (list_find _ tbl) as [[]|]; done.
Qed.

(** The search finds the method itself, for a function no other method of the class has. *)
Lemma find_old_spec tbl m : NoDup (jkey <$> tbl) -> fnPtr m ∉ fnPtr <$> tbl -> jkey m ∈ jkey <$> tbl ->
  find_old tbl (with_methods [m] tbl) m = saved tbl m.
Proof.
  induction tbl as [|t tbl IH]; intros Hnd Hfn Hin; [set_solver|]. rewrite fmap_cons in *. apply NoDup_cons in Hnd as [Ht Hnd].
  unfold with_methods. rewrite fmap_cons. fold (with_methods [m] tbl). rewrite find_key_one. cbn [find_old]. unfold saved, find_key. cbn [list_find].
  destruct (decide (jkey t = jkey m)) as [E|N].
  - rewrite (bool_decide_eq_true_2 (jkey m = jkey t)) by done. rewrite bool_decide_eq_true_2; [done|]. split; [done|]. by injection E.
  - rewrite (bool_decide_eq_false_2 (jkey m = jkey t)) by congruence. rewrite bool_decide_eq_false_2 by set_solver.
    rewrite IH by set_solver. unfold saved, find_key. by destruct (list_find _ tbl) as [[]|].
Qed.

Lemma hook_loop_array ms : forall clazz, NoDup (jkey <$> ms) -> NoDup (fnPtr <$> ms) -> Forall hooked ms ->
  (forall m, m ∈ ms -> fnPtr m ∉ fnPtr <$> getNativeMethods clazz) ->
  (hook_loop clazz (getNativeMethods clazz) ms).2 = saved (getNativeMethods clazz) <$> ms.
Proof.
  induction ms as [|m ms IH]; intros clazz Hnd Hfn Hh Hfresh; [done|]. rewrite fmap_cons in Hnd. rewrite fmap_cons in Hfn.
  apply NoDup_cons in Hnd as [Hm Hnd]. apply NoDup_cons in Hfn as [Hf Hfn]. apply Forall_cons in Hh as [Hm0 Hh].
  cbn [hook_loop]. rewrite (proj2 (Z.eqb_neq _ _) Hm0). rewrite fmap_cons. destruct (RegisterNatives clazz m) as [clazz'|] eqn:R.
  - pose proof (register_found _ _ _ R) as Hc. assert (jkey m ∈ jkey <$> getNativeMethods clazz) as Hin.
    { destruct (decide (jkey m ∈ jkey <$> getNativeMethods clazz)) as [|Ho]; [done|]. apply register_error in Ho. congruence. }
    assert (find_old (getNativeMethods clazz) (getNativeMethods clazz') m = saved (getNativeMethods clazz) m) as Hfo.
    { rewrite Hc. apply find_old_spec; [apply native_keys|apply Hfresh; set_solver|done]. }
    cbn zeta. rewrite Hfo. specialize (IH clazz' Hnd Hfn Hh).
    destruct (hook_loop clazz' _ ms) as [c2 ms2]. cbn [snd] in *. f_equal. rewrite IH.
    + rewrite Hc. apply list_fmap_ext. intros i x Hx. apply saved_other. intros E. apply Hm. rewrite E. apply list_elem_of_fmap_2. by eapply list_elem_of_lookup_2.
    + intros x Hx. rewrite Hc. intros (t & Et & Ht)%list_elem_of_fmap. apply list_elem_of_fmap in Ht as (t0 & -> & Ht0).
      rewrite find_key_one in Et. case_bool_decide; cbn in Et.
      * apply Hf. rewrite <- Et. by apply list_elem_of_fmap_2.
      * apply (Hfresh x); [set_solver|]. rewrite Et. by apply list_elem_of_fmap_2.
  - apply register_error in R. specialize (IH clazz Hnd Hfn Hh). destruct (hook_loop clazz _ ms) as [c2 ms2]. cbn [snd] in *. f_equal.
    + unfold saved. by rewrite find_key_out.
    + apply IH. intros x Hx. apply Hfresh. set_solver.
Qed.

Lemma saved_keys tbl ms : jkey <$> (saved tbl <$> ms) = jkey <$> ms.
Proof. rewrite <- list_fmap_compose. apply list_fmap_ext. intros i m _. unfold saved. cbn. by destruct (find_key _ tbl). Qed.

(** Putting the saved functions back undoes the hooks. *)
Lemma with_saved ms tbl : NoDup (jkey <$> ms) -> NoDup (jkey <$> tbl) -> Forall hooked tbl ->
  with_methods (filter hooked (saved tbl <$> ms)) (with_methods ms tbl) = tbl.
Proof.
  intros Hnd Ht Hh. unfold with_methods. rewrite <- list_fmap_compose. transitivity (id <$> tbl); [|apply list_fmap_id]. apply list_fmap_ext.
  intros i t Hi. cbn [compose]. apply list_elem_of_lookup_2 in Hi. pose proof (proj1 (Forall_forall _ _) Hh t Hi) as H0.
  assert (NoDup (jkey <$> filter hooked (saved tbl <$> ms))) as Hnd2.
  { eapply sublist_NoDup; [rewrite <- (saved_keys tbl) in Hnd; exact Hnd|]. apply (fmap_sublist jkey), sublist_filter. }
  destruct (find_key (jkey t) ms) as [m|] eqn:E.
  - apply find_key_inv in E as [Hm Hk]. rewrite jkey_set_fn. rewrite (find_key_in _ _ (saved tbl m)); [| done | |].
    + unfold saved. rewrite (find_key_in _ _ t) by done. by destruct t.
    + apply list_elem_of_filter. split; [|by apply list_elem_of_fmap_2]. unfold saved. by rewrite (find_key_in _ _ t).
    + unfold saved. rewrite (find_key_in _ _ t) by done. done.
  - rewrite find_key_out; [done|]. apply filter_keys. rewrite saved_keys. intros (m & Ek & Hm)%list_elem_of_fmap.
    by rewrite (find_key_in _ _ m) in E.
Qed.

(** C27: hooking a class writes the functions of the array into the methods the class has,
    leaves the old ones in the array (null for a method the class has not), and hooking it
    again with that array gives the class its old methods back. *)
Theorem zygote_hook_restore clazz ms :
  NoDup (jkey <$> ms) -> NoDup (fnPtr <$> ms) -> Forall hooked ms -> Forall hooked (getNativeMethods clazz) ->
  (forall m, m ∈ ms -> fnPtr m ∉ fnPtr <$> getNativeMethods clazz) ->
  exists hooked_class restored, let old := saved (getNativeMethods clazz) <$> ms in
    hook_zygote_jni (Some clazz) ms = (Some hooked_class, old) /\
    getNativeMethods hooked_class = with_methods ms (getNativeMethods clazz) /\
    (restore_zygote_hook (Some hooked_class) old).1 = Some restored /\
    getNativeMethods restored = getNativeMethods clazz.
Proof.
  intros Hk Hf Hh Hc Hfresh. unfold hook_zygote_jni, restore_zygote_hook, hook_jni_methods.
  pose proof (hook_loop_class ms clazz (getNativeMethods clazz) Hk) as H1. pose proof (hook_loop_array ms clazz Hk Hf Hh Hfresh) as H2.
  destruct (hook_loop clazz _ ms) as [c1 old]. cbn [fst snd] in H1, H2. subst old.
  rewrite (filter_all ms) in H1 by done.
  exists c1. cbn zeta. pose proof (hook_loop_class (saved (getNativeMethods clazz) <$> ms) c1 (getNativeMethods c1)) as H3.
  rewrite saved_keys in H3. specialize (H3 Hk). destruct (hook_loop c1 _ _) as [c2 a2]. exists c2. repeat split; [done|].
  cbn [fst] in H3. rewrite H3, H1. by apply with_saved; [|apply native_keys|].
Qed.
End hook_proofs.

(** A class as a table without duplicates, the functions being registered in place. *)
Definition table := { tbl : list JNINativeMethod | bool_decide (NoDup (jkey <$> tbl)) }.

Lemma table_register_ok (t : table) m : bool_decide (NoDup (jkey <$> with_methods [m] (`t))).
Proof. apply bool_decide_pack. rewrite with_methods_keys. exact (bool_decide_unpack _ (proj2_sig t)). Qed.

Definition table_register (t : table) (m : JNINativeMethod) : option table :=
  if bool_decide (jkey m ∈ jkey <$> `t) then Some (exist _ (with_methods [m] (`t)) (table_register_ok t m)) else None.

Global Instance table_class : JavaClass table.
Proof.
  refine {| getNativeMethods t := `t; RegisterNatives := table_register |}.
  - intros t. exact (bool_decide_unpack _ (proj2_sig t)).
  - intros t m t'. unfold table_register. case_bool_decide; [|done]. by intros [= <-].
  - intros t m. unfold table_register. case_bool_decide; [|done]. split; [done|]. intros Hn. by destruct Hn.
Defined.

Definition sample_zygote : table :=
  exist _ [Jni (bs "nativeForkAndSpecialize") (bs "(II[II)I") 10; Jni (bs "nativeForkSystemServer") (bs "(II)I") 11;
           Jni (bs "nativeUnmount") (bs "()V") 12] I.
Definition sample_hooks : list JNINativeMethod :=
  [Jni (bs "nativeForkAndSpecialize") (bs "(II)I") 20; Jni (bs "nativeForkAndSpecialize") (bs "(II[II)I") 21;
   Jni (bs "nativeForkSystemServer") (bs "(II)I") 22].

(** Hooking and restoring a class of three methods, one of the hooks being for a signature
    the class has not. *)
Lemma zygote_hook_restore_witness :
  exists h r, hook_zygote_jni (Some sample_zygote) sample_hooks = (Some h, saved (getNativeMethods sample_zygote) <$> sample_hooks) /\
    getNativeMethods h = with_methods sample_hooks (getNativeMethods sample_zygote) /\
    (restore_zygote_hook (Some h) (saved (getNativeMethods sample_zygote) <$> sample_hooks)).1 = Some r /\
    getNativeMethods r = getNativeMethods sample_zygote.
Proof.
  apply (zygote_hook_restore sample_zygote sample_hooks).
  - match goal with |- ?P => apply (bool_decide_unpack P) end; vm_compute; exact I.
  - match goal with |- ?P => apply (bool_decide_unpack P) end; vm_compute; exact I.
  - match goal with |- ?P => apply (bool_decide_unpack P) end; vm_compute; exact I.
  - match goal with |- ?P => apply (bool_decide_unpack P) end; vm_compute; exact I.
  - intros m Hm. cbn in *. repeat (apply elem_of_cons in Hm as [->|Hm]; [cbn; set_solver|]). by apply not_elem_of_nil in Hm.
Defined.

(** The library unloads itself only when every hook was put back and committed. *)
Lemma restore_plt_hook_spec l backup should_unmap :
  restore_plt_hook l backup should_unmap = true <->
  should_unmap = true /\ commits l = true /\ Forall (fun h => accepts l (h_dev h) (h_inode h) (h_symbol h) = true) backup.
Proof.
  unfold restore_plt_hook. revert should_unmap. induction backup as [|h backup IH]; intros b; cbn [fold_left].
  - destruct (commits l); split; [intros ->; repeat split; constructor|tauto|done|tauto].
  - rewrite Forall_cons. destruct (accepts l (h_dev h) (h_inode h) (h_symbol h)); rewrite IH; naive_solver.
Qed.
