(* ===== verification/Zygisk.v ===== *)
(** Zygisk: [native/src/core/zygisk/module.cpp], [module.hpp] and the life of a context in
    [hook.cpp].  The zygote forks; in the child modules are loaded, run before and after the
    process is specialised, and the file descriptors they leave open are closed again. *)

From S2P Require Import Prelude Base ZygiskHook.

(** ** Modules *)

Definition ZYGISK_API_VERSION : Z := 5.

(** [module_abi_v1]: the version and whether the pointers are set. *)
Record module_abi := Abi { api_version : Z; impl : bool; preApp : bool; postApp : bool; preServer : bool; postServer : bool }.

(** The functions that are put into the eight slots of an [ApiTable]; the layouts of the
    versions share the slots. *)
Inductive api_fn :=
| HookJniNativeMethods | PltHookRegisterRegex | PltHookExclude | PltHookCommitRegex | ConnectCompanion | SetOption
| GetModuleDir | GetFlags | PltHookRegisterDev | ExemptFd | PltHookCommitLsplt.
Global Instance api_fn_eq_dec : EqDecision api_fn.
Proof. solve_decision. Defined.
Abbreviation ApiTable := (list (option api_fn)).

(** [FORCE_DENYLIST_UNMOUNT] and [DLCLOSE_MODULE_LIBRARY]. *)
Inductive zygisk_option := FORCE_DENYLIST_UNMOUNT | DLCLOSE_MODULE_LIBRARY.

(** What the code of a module does: it registers itself, calls the API and opens and closes
    descriptors of its own. *)
Inductive step :=
| Register (module : option module_abi)
| CallExemptFd (fd : Z)
| CallSetOption (opt : zygisk_option)
| CallPltHookRegister (regex symbol : option bytes) (fn : Z)
| CallPltHookExclude (regex symbol : option bytes)
| CallPltHookCommit
| CallRegisterDev (dev inode : Z) (symbol : option bytes) (fn : Z)
| OpenFd (fd : Z)
| CloseFd (fd : Z).

(** The structure an app module is called with. *)
Inductive app_args := AppSpecializeArgs_v1 | AppSpecializeArgs_v5.

(** The library of a module: what its functions do. *)
Record library := Library {
  zygisk_module_entry : option (list step);
  preAppSpecialize : app_args -> list step; postAppSpecialize : app_args -> list step;
  preServerSpecialize : list step; postServerSpecialize : list step }.

Record ZygiskModule := Module {
  id : Z; lib : library; unload : bool; registerModule : bool; api : ApiTable; abi : option module_abi }.

Definition new_module (i : Z) (l : library) : ZygiskModule := Module i l false true (replicate 8 None) None.
Definition clearApi (m : ZygiskModule) : ZygiskModule := Module (id m) (lib m) (unload m) false (replicate 8 None) (abi m).

(** The table of a version. *)
Definition fill_v1 (t : ApiTable) : ApiTable :=
  list_inserts 0 [Some HookJniNativeMethods; Some PltHookRegisterRegex; Some PltHookExclude; Some PltHookCommitRegex;
                  Some ConnectCompanion; Some SetOption] t.
Definition fill_v2 (t : ApiTable) : ApiTable := list_inserts 6 [Some GetModuleDir; Some GetFlags] t.
Definition fill_v4 (t : ApiTable) : ApiTable :=
  <[3%nat := Some PltHookCommitLsplt]> (<[1%nat := Some PltHookRegisterDev]> (<[2%nat := Some ExemptFd]> t)).

(** [RegisterModuleImpl]: the module afterwards and the result. *)
Definition RegisterModuleImpl (m : ZygiskModule) (module : option module_abi) : ZygiskModule * bool :=
  match module with
  | None => (m, false)
  | Some a =>
    let v := api_version a in
    if ZYGISK_API_VERSION <? v then (m, false)
    else
      let t := api m in
      let t := if 1 <=? v then fill_v1 t else t in
      let t := if 2 <=? v then fill_v2 t else t in
      let t := if 4 <=? v then fill_v4 t else t in
      (Module (id m) (lib m) (unload m) (registerModule m) t (Some a), true)
  end.

Definition valid (m : ZygiskModule) : bool :=
  match abi m with
  | None => false
  | Some a => (1 <=? api_version a) && (api_version a <=? 5) &&
              (impl a && preApp a && postApp a && preServer a && postServer a)
  end.

(** [call_app]: the arguments of the version; no call for a version there is not. *)
Definition call_app (a : module_abi) (method : app_args -> list step) : list step :=
  let v := api_version a in
  if (1 <=? v) && (v <=? 2) then method AppSpecializeArgs_v1
  else if (3 <=? v) && (v <=? 5) then method AppSpecializeArgs_v5
  else [].

(** ** The context *)

Definition POST_SPECIALIZE : Z := Z.shiftl 1 0.
Definition APP_FORK_AND_SPECIALIZE : Z := Z.shiftl 1 1.
Definition APP_SPECIALIZE : Z := Z.shiftl 1 2.
Definition SERVER_FORK_AND_SPECIALIZE : Z := Z.shiftl 1 3.
Definition DO_REVERT_UNMOUNT : Z := Z.shiftl 1 4.
Definition SKIP_CLOSE_LOG_PIPE : Z := Z.shiftl 1 5.

Definition ProcessGrantedRoot : Z := 0x00000001.
Definition ProcessOnDenyList : Z := 0x00000002.
Definition DenyListEnforced : Z := 0x40000000.
Definition ProcessIsMagiskApp : Z := 0x80000000.
Definition UNMOUNT_MASK : Z := Z.lor ProcessOnDenyList DenyListEnforced.
Definition PRIVATE_MASK : Z := Z.lor DenyListEnforced ProcessIsMagiskApp.

Definition has (flags f : Z) : bool := negb (Z.land flags f =? 0).

(** [RegisterInfo] and [IgnoreInfo]; a regular expression is kept as its text. *)
Record RegisterInfo := RegInfo { r_regex : bytes; r_symbol : bytes; r_callback : Z }.
Record IgnoreInfo := IgnInfo { i_regex : bytes; i_symbol : bytes }.

(** [fds_to_ignore]: [None] for a null pointer to the array, [Some None] for a null array. *)
Record ZygiskContext := Context {
  pid : Z; flags : Z; info_flags : Z; allowed_fds : list bool; exempted_fds : list Z; modules : list ZygiskModule;
  fds_to_ignore : option (option (list Z)); register_info : list RegisterInfo; ignore_info : list IgnoreInfo }.

Definition with_pid p c := Context p (flags c) (info_flags c) (allowed_fds c) (exempted_fds c) (modules c) (fds_to_ignore c) (register_info c) (ignore_info c).
Definition with_flags f c := Context (pid c) f (info_flags c) (allowed_fds c) (exempted_fds c) (modules c) (fds_to_ignore c) (register_info c) (ignore_info c).
Definition with_info f c := Context (pid c) (flags c) f (allowed_fds c) (exempted_fds c) (modules c) (fds_to_ignore c) (register_info c) (ignore_info c).
Definition with_allowed a c := Context (pid c) (flags c) (info_flags c) a (exempted_fds c) (modules c) (fds_to_ignore c) (register_info c) (ignore_info c).
Definition with_exempted e c := Context (pid c) (flags c) (info_flags c) (allowed_fds c) e (modules c) (fds_to_ignore c) (register_info c) (ignore_info c).
Definition with_modules m c := Context (pid c) (flags c) (info_flags c) (allowed_fds c) (exempted_fds c) m (fds_to_ignore c) (register_info c) (ignore_info c).
Definition with_ignore i c := Context (pid c) (flags c) (info_flags c) (allowed_fds c) (exempted_fds c) (modules c) i (register_info c) (ignore_info c).
Definition with_hooks r i c := Context (pid c) (flags c) (info_flags c) (allowed_fds c) (exempted_fds c) (modules c) (fds_to_ignore c) r i.

(** A new context; [fd_max] is the hard limit of open files. *)
Definition new_context (fd_max : nat) (fds : option (option (list Z))) : ZygiskContext :=
  Context (-1) 0 0 (replicate fd_max false) [] [] fds [] [].
Definition is_child (c : ZygiskContext) : bool := pid c <=? 0.

(** The process: its open descriptors, the log pipe (-1 if it is closed), whether
    [SIGCHLD] is blocked, and the hooks handed to [lsplt]. *)
Record proc := Proc { open_fds : gset Z; logd : Z; sigchld_blocked : bool; hooks : list (Z * Z * bytes * Z) }.

Definition close (fd : Z) (p : proc) : proc := Proc (open_fds p ∖ {[fd]}) (logd p) (sigchld_blocked p) (hooks p).
Definition open (fd : Z) (p : proc) : proc := Proc (open_fds p ∪ {[fd]}) (logd p) (sigchld_blocked p) (hooks p).
Definition sigmask (b : bool) (p : proc) : proc := Proc (open_fds p) (logd p) b (hooks p).
Definition RegisterHook (dev inode : Z) (symbol : bytes) (fn : Z) (p : proc) : proc :=
  Proc (open_fds p) (logd p) (sigchld_blocked p) (hooks p ++ [(dev, inode, symbol, fn)]).

Definition zygisk_close_logd (p : proc) : proc := Proc (open_fds p ∖ {[logd p]}) (-1) (sigchld_blocked p) (hooks p).
(** The log pipe is opened again if it is closed; [fd] is the new descriptor, negative on failure. *)
Definition zygisk_get_logd (fd : Z) (p : proc) : Z * proc :=
  if 0 <=? logd p then (logd p, p)
  else if 0 <=? fd then (fd, Proc (open_fds p ∪ {[fd]}) fd (sigchld_blocked p) (hooks p)) else (-1, p).

(** ** Operations *)

Section zygisk.
(** Regular expressions of the C library, the maps of the process, whether a descriptor is
    a regular file and the library [android_dlopen_ext] loads from it. *)
Context (regcomp : bytes -> bool) (regexec : bytes -> bytes -> bool) (maps : list MapInfo).
Context (is_reg : Z -> bool) (dlopen : Z -> option library).

Definition plt_hook_register (regex symbol : option bytes) (fn : Z) (c : ZygiskContext) : ZygiskContext :=
  match regex, symbol with
  | Some regex, Some symbol =>
    if fn =? 0 then c
    else if regcomp regex then with_hooks (register_info c ++ [RegInfo regex symbol fn]) (ignore_info c) c else c
  | _, _ => c
  end.

Definition plt_hook_exclude (regex symbol : option bytes) (c : ZygiskContext) : ZygiskContext :=
  match regex with
  | Some regex =>
    if regcomp regex then with_hooks (register_info c) (ignore_info c ++ [IgnInfo regex (default [] symbol)]) c else c
  | None => c
  end.

(** The loop over the excluded expressions. *)
Fixpoint ignored (ign : list IgnoreInfo) (path symbol : bytes) : bool :=
  match ign with
  | [] => false
  | i :: ign =>
    if negb (regexec (i_regex i) path) then ignored ign path symbol
    else if bool_decide (i_symbol i = []) || bool_decide (i_symbol i = symbol) then true
    else ignored ign path symbol
  end.

Definition process_map (regs : list RegisterInfo) (ign : list IgnoreInfo) (p : proc) (map : MapInfo) : proc :=
  if negb (offset map =? 0) || negb (is_private map) || negb (readable map) then p
  else fold_left (fun p reg =>
    if negb (regexec (r_regex reg) (path map)) then p
    else if ignored ign (path map) (r_symbol reg) then p
    else RegisterHook (dev map) (inode map) (r_symbol reg) (r_callback reg) p) regs p.

Definition plt_hook_process_regex (c : ZygiskContext) (p : proc) : proc :=
  if bool_decide (register_info c = []) then p
  else fold_left (process_map (register_info c) (ignore_info c)) maps p.

Definition plt_hook_commit (c : ZygiskContext) (p : proc) : ZygiskContext * proc :=
  (with_hooks [] [] c, plt_hook_process_regex c p).

Definition can_exempt_fd (c : ZygiskContext) : bool :=
  has (flags c) APP_FORK_AND_SPECIALIZE && match fds_to_ignore c with Some _ => true | None => false end.

Definition exempt_fd (fd : Z) (c : ZygiskContext) : ZygiskContext * bool :=
  if has (flags c) POST_SPECIALIZE || has (flags c) SKIP_CLOSE_LOG_PIPE then (c, true)
  else if negb (can_exempt_fd c) then (c, false)
  else (with_exempted (exempted_fds c ++ [fd]) c, true).

Definition setOption (opt : zygisk_option) (c : ZygiskContext) (m : ZygiskModule) : ZygiskContext * ZygiskModule :=
  match opt with
  | FORCE_DENYLIST_UNMOUNT => (with_flags (Z.lor (flags c) DO_REVERT_UNMOUNT) c, m)
  | DLCLOSE_MODULE_LIBRARY => (c, Module (id m) (lib m) true (registerModule m) (api m) (abi m))
  end.

(** [getFlags]: without a context no flag is set. *)
Definition getFlags (g_ctx : option ZygiskContext) : Z :=
  match g_ctx with Some c => Z.land (info_flags c) (Z.lxor PRIVATE_MASK (Z.ones 32)) | None => 0 end.

(** A step of a module; [None] is a call of a function the table of the module has not. *)
Definition in_table (m : ZygiskModule) (f : api_fn) : bool := bool_decide (Some f ∈ api m).

Definition run_step (s : step) (st : ZygiskContext * proc * ZygiskModule) : option (ZygiskContext * proc * ZygiskModule) :=
  let '(c, p, m) := st in
  match s with
  | Register a => if registerModule m then Some (c, p, (RegisterModuleImpl m a).1) else None
  | CallExemptFd fd => if in_table m ExemptFd then Some ((exempt_fd fd c).1, p, m) else None
  | CallSetOption o => if in_table m SetOption then let '(c, m) := setOption o c m in Some (c, p, m) else None
  | CallPltHookRegister r s fn => if in_table m PltHookRegisterRegex then Some (plt_hook_register r s fn c, p, m) else None
  | CallPltHookExclude r s => if in_table m PltHookExclude then Some (plt_hook_exclude r s c, p, m) else None
  | CallPltHookCommit =>
    if in_table m PltHookCommitRegex then let '(c, p) := plt_hook_commit c p in Some (c, p, m)
    else if in_table m PltHookCommitLsplt then Some (c, p, m) else None
  | CallRegisterDev dev inode symbol fn =>
    if in_table m PltHookRegisterDev then
      match symbol with
      | Some symbol => Some (c, if (dev =? 0) || (inode =? 0) || (fn =? 0) then p else RegisterHook dev inode symbol fn p, m)
      | None => Some (c, p, m)
      end
    else None
  | OpenFd fd => Some (c, open fd p, m)
  | CloseFd fd => Some (c, close fd p, m)
  end.

Fixpoint run_steps (ss : list step) (st : ZygiskContext * proc * ZygiskModule) : option (ZygiskContext * proc * ZygiskModule) :=
  match ss with
  | [] => Some st
  | s :: ss => run_step s st ≫= run_steps ss
  end.

(** The first loop of [run_modules_pre] from index [i]: the modules that are loaded and the
    descriptors afterwards, -1 for a module that failed. *)
Fixpoint load_modules (server : bool) (i : Z) (fds : list Z) (p : proc) : list ZygiskModule * list Z * proc :=
  match fds with
  | [] => ([], [], p)
  | fd :: fds =>
    let '(ms, fd') :=
      if negb (is_reg fd) then ([], -1)
      else match dlopen fd with
           | Some l => (match zygisk_module_entry l with Some _ => [new_module i l] | None => [] end, fd)
           | None => ([], if server then -1 else fd)
           end in
    let '(ms', fds, p) := load_modules server (i + 1) fds (close fd p) in
    (ms ++ ms', fd' :: fds, p)
  end.

(** The second loop: modules that are not valid after [onLoad] are removed. *)
Fixpoint on_load (ms : list ZygiskModule) (c : ZygiskContext) (p : proc) : option (ZygiskContext * proc * list ZygiskModule) :=
  match ms with
  | [] => Some (c, p, [])
  | m :: ms =>
    '(c, p, m) ← run_steps (default [] (zygisk_module_entry (lib m))) (c, p, m);
    '(c, p, ms) ← on_load ms c p;
    Some (c, p, if valid m then m :: ms else ms)
  end.

(** What a module does before and after the process is specialised. *)
Definition module_pre (c : ZygiskContext) (m : ZygiskModule) : list step :=
  match abi m with
  | Some a => if has (flags c) APP_SPECIALIZE then call_app a (preAppSpecialize (lib m))
              else if has (flags c) SERVER_FORK_AND_SPECIALIZE then preServerSpecialize (lib m) else []
  | None => []
  end.
Definition module_post (c : ZygiskContext) (m : ZygiskModule) : list step :=
  match abi m with
  | Some a => if has (flags c) APP_SPECIALIZE then call_app a (postAppSpecialize (lib m))
              else if has (flags c) SERVER_FORK_AND_SPECIALIZE then postServerSpecialize (lib m) else []
  | None => []
  end.

Fixpoint run_each (what : ZygiskContext -> ZygiskModule -> list step) (ms : list ZygiskModule) (c : ZygiskContext) (p : proc)
  : option (ZygiskContext * proc * list ZygiskModule) :=
  match ms with
  | [] => Some (c, p, [])
  | m :: ms =>
    '(c, p, m) ← run_steps (what c m) (c, p, m);
    '(c, p, ms) ← run_each what ms c p;
    Some (c, p, m :: ms)
  end.

Definition run_modules_pre (fds : list Z) (c : ZygiskContext) (p : proc) : option (ZygiskContext * proc * list Z) :=
  let '(ms, fds, p) := load_modules (has (flags c) SERVER_FORK_AND_SPECIALIZE) 0 fds p in
  '(c, p, ms) ← on_load (modules c ++ ms) c p;
  '(c, p, ms) ← run_each module_pre ms c p;
  Some (with_modules ms c, p, fds).

(** [run_modules_post]: [tryUnload] closes the library of a module that asked for it. *)
Definition run_modules_post (c : ZygiskContext) (p : proc) : option (ZygiskContext * proc * list Z) :=
  let c := with_flags (Z.lor (flags c) POST_SPECIALIZE) c in
  '(c, p, ms) ← run_each module_post (modules c) c p;
  Some (with_modules ms c, p, id <$> filter (fun m => unload m = true) ms).

(** What the daemon answers to a request for a process: its socket, the flags and, if the
    modules are to be loaded, their descriptors. *)
Record answer := Answer { sock : Z; a_flags : Z; a_fds : list Z }.
Definition zygisk_should_load_module (f : Z) : bool :=
  negb (Z.land f UNMOUNT_MASK =? UNMOUNT_MASK) && (Z.land f ProcessIsMagiskApp =? 0).

(** [get_module_info]: the socket (-1 if the daemon is not there) and the descriptors. *)
Definition get_module_info (a : option answer) (c : ZygiskContext) (p : proc) : Z * list Z * ZygiskContext * proc :=
  match a with
  | Some a =>
    let c := with_info (a_flags a) c in
    let p := open (sock a) p in
    let fds := if zygisk_should_load_module (a_flags a) then a_fds a else [] in
    (sock a, fds, c, fold_left (fun p fd => open fd p) fds p)
  | None => (-1, [], c, p)
  end.
(** The owner of a descriptor closes it, unless it is negative. *)
Definition drop_fd (fd : Z) (p : proc) : proc := if 0 <=? fd then close fd p else p.

Definition app_specialize_pre (a : option answer) (c : ZygiskContext) (p : proc) : option (ZygiskContext * proc) :=
  let c := with_flags (Z.lor (flags c) APP_SPECIALIZE) c in
  let '(fd, fds, c, p) := get_module_info a c p in
  if Z.land (info_flags c) UNMOUNT_MASK =? UNMOUNT_MASK then
    Some (with_flags (Z.lor (flags c) DO_REVERT_UNMOUNT) c, drop_fd fd p)
  else if 0 <=? fd then '(c, p, _) ← run_modules_pre fds c p; Some (c, drop_fd fd p)
  else Some (c, p).

(** The indices of the modules that failed. *)
Fixpoint failed_ids (i : Z) (fds : list Z) : list Z :=
  match fds with
  | [] => []
  | fd :: fds => if fd <? 0 then i :: failed_ids (i + 1) fds else failed_ids (i + 1) fds
  end.

(** [server_specialize_pre]: also the integers written to the daemon. *)
Definition server_specialize_pre (a : option answer) (c : ZygiskContext) (p : proc) : option (ZygiskContext * proc * list Z) :=
  let '(fd, fds, c, p) := get_module_info a c p in
  if 0 <=? fd then
    match fds with
    | [] => Some (c, drop_fd fd p, [0])
    | _ =>
      '(c, p, fds) ← run_modules_pre fds c p;
      let failed := failed_ids 0 fds in
      Some (c, drop_fd fd p, Z.of_nat (length failed) :: failed)
    end
  else Some (c, p, []).

(** ** Descriptors *)

Definition allow (fds : list bool) (fd : Z) : list bool :=
  if (0 <=? fd) && (fd <? Z.of_nat (length fds)) then <[Z.to_nat fd := true]> fds else fds.
Definition allowed (fds : list bool) (fd : Z) : bool :=
  (0 <=? fd) && (fd <? Z.of_nat (length fds)) && default false (fds !! Z.to_nat fd).
(** [allowed_fds[fd] = false]; out of range it is undefined. *)
Definition forbid (fds : list bool) (fd : Z) : option (list bool) :=
  if (0 <=? fd) && (fd <? Z.of_nat (length fds)) then Some (<[Z.to_nat fd := false]> fds) else None.

(** The answers of the kernel: the result of [fork], the descriptors that are given to
    [/proc/self/fd] when it is opened, to the log pipe, and whether an array can be made. *)
Record kernel := Kernel { forked : Z; dir_fd : Z; log_fd : Z; dir_fd2 : Z; new_array : bool }.

(** The directory lists what is open, itself too. *)
Definition record_fd (st : list bool * proc) (fd : Z) : list bool * proc :=
  let '(a, p) := st in
  if (fd <? 0) || (Z.of_nat (length a) <=? fd) then (a, close fd p) else (<[Z.to_nat fd := true]> a, p).

Definition fork_pre (k : kernel) (c : ZygiskContext) (p : proc) : option (ZygiskContext * proc) :=
  let p := sigmask true p in
  let c := with_pid (forked k) c in
  if negb (is_child c) then Some (c, p)
  else
    let p := open (dir_fd k) p in
    let '(a, p) := fold_left record_fd (elements (open_fds p)) (allowed_fds c, p) in
    a ← forbid a (dir_fd k);
    let '(fd, p) := zygisk_get_logd (log_fd k) p in
    a ← (if 0 <=? fd then forbid a fd else Some a);
    Some (with_allowed a c, close (dir_fd k) p).

Definition fork_post (p : proc) : proc := sigmask false p.

(** [update_fd_array]: the array gets the exempted descriptors at its end. *)
Definition update_fd_array (k : kernel) (old : list Z) (c : ZygiskContext) : ZygiskContext :=
  if new_array k then with_ignore (Some (Some (old ++ exempted_fds c))) (with_allowed (fold_left allow (exempted_fds c) (allowed_fds c)) c)
  else c.

Definition sanitize_fds (k : kernel) (c : ZygiskContext) (p : proc) : ZygiskContext * proc :=
  let p := zygisk_close_logd p in
  if negb (is_child c) then (c, p)
  else
    let c :=
      if can_exempt_fd c && negb (bool_decide (exempted_fds c = [])) then
        match fds_to_ignore c with
        | Some (Some arr) => update_fd_array k arr (with_allowed (fold_left allow arr (allowed_fds c)) c)
        | _ => update_fd_array k [] c
        end
      else c in
    let p := open (dir_fd2 k) p in
    let p := fold_left (fun p fd => if negb (allowed (allowed_fds c) fd) && negb (fd =? dir_fd2 k) then close fd p else p)
               (elements (open_fds p)) p in
    (c, close (dir_fd2 k) p).

(** ** The hooked methods *)

Definition nativeForkAndSpecialize_pre (k : kernel) (a : option answer) (c : ZygiskContext) (p : proc) : option (ZygiskContext * proc) :=
  let c := with_flags (Z.lor (flags c) APP_FORK_AND_SPECIALIZE) c in
  '(c, p) ← fork_pre k c p;
  '(c, p) ← (if is_child c then app_specialize_pre a c p else Some (c, p));
  Some (sanitize_fds k c p).

Definition nativeForkSystemServer_pre (k : kernel) (a : option answer) (c : ZygiskContext) (p : proc) : option (ZygiskContext * proc * list Z) :=
  let c := with_flags (Z.lor (flags c) SERVER_FORK_AND_SPECIALIZE) c in
  '(c, p) ← fork_pre k c p;
  '(c, p, w) ← (if is_child c then server_specialize_pre a c p else Some (c, p, []));
  Some (sanitize_fds k c p, w).

Definition nativeSpecializeAppProcess_pre (a : option answer) (c : ZygiskContext) (p : proc) : option (ZygiskContext * proc) :=
  app_specialize_pre a (with_flags (Z.lor (flags c) SKIP_CLOSE_LOG_PIPE) c) p.

(** The methods afterwards: also the modules that are unloaded and whether
    [ZYGISK_ENABLED] is set. *)
Definition app_specialize_post (c : ZygiskContext) (p : proc) : option (ZygiskContext * proc * list Z * bool) :=
  '(c, p, u) ← run_modules_post c p;
  Some (c, p, u, has (info_flags c) ProcessIsMagiskApp).
Definition nativeForkAndSpecialize_post (c : ZygiskContext) (p : proc) : option (ZygiskContext * proc * list Z * bool) :=
  '(c, p, u, e) ← (if is_child c then app_specialize_post c p else Some (c, p, [], false));
  Some (c, fork_post p, u, e).
Definition nativeForkSystemServer_post (c : ZygiskContext) (p : proc) : option (ZygiskContext * proc * list Z) :=
  '(c, p, u) ← (if is_child c then run_modules_post c p else Some (c, p, []));
  Some (c, fork_post p, u).
Definition nativeSpecializeAppProcess_post := app_specialize_post.
End zygisk.

(** The destructor: the modules lose their functions. *)
Definition destroy_context (c : ZygiskContext) (p : proc) : ZygiskContext * proc :=
  if negb (is_child c) then (c, p) else (with_modules (clearApi <$> modules c) c, zygisk_close_logd p).

(** ** Hooked functions *)

(** [new_fork]: the process of the context, or the original [fork]. *)
Definition new_fork (g_ctx : option ZygiskContext) (old_fork : Z) : Z :=
  match g_ctx with Some c => if 0 <=? pid c then pid c else old_fork | None => old_fork end.

Definition CLONE_NEWNS : Z := 0x00020000.
(** [new_unshare]: whether the mounts are reverted; [res] is the result of [unshare]. *)
Definition new_unshare (g_ctx : option ZygiskContext) (f res : Z) : bool :=
  match g_ctx with
  | Some c => negb (Z.land f CLONE_NEWNS =? 0) && (res =? 0) && has (flags c) DO_REVERT_UNMOUNT
  | None => false
  end.

Definition new_android_log_close (g_ctx : option ZygiskContext) (p : proc) : proc :=
  match g_ctx with
  | Some c => if has (flags c) SKIP_CLOSE_LOG_PIPE then p else zygisk_close_logd p
  | None => zygisk_close_logd p
  end.

(** ** What is allowed *)

Definition in_range (n : nat) (fd : Z) : Prop := 0 <= fd < Z.of_nat n.
Global Instance in_range_dec n fd : Decision (in_range n fd).
Proof. unfold in_range. apply _. Defined.

Lemma allow_length a fd : length (allow a fd) = length a.
Proof. unfold allow. case_match; [apply length_insert|done]. Qed.

Lemma allowed_range a fd : allowed a fd = true -> in_range (length a) fd.
Proof. unfold allowed, in_range. intros ?. lia. Qed.

Lemma allowed_insert a fd b x : in_range (length a) fd ->
  allowed (<[Z.to_nat fd := b]> a) x = if decide (x = fd) then b else allowed a x.
Proof.
  unfold allowed, in_range. intros Hr. rewrite length_insert. destruct (decide (x = fd)) as [->|N].
  - rewrite list_lookup_insert_eq by lia. cbn. by rewrite (proj2 (Z.leb_le 0 fd)), (proj2 (Z.ltb_lt fd _)) by lia.
  - destruct (0 <=? x) eqn:E; [|done]. rewrite list_lookup_insert_ne by lia. done.
Qed.

Lemma allowed_allow a fd x : allowed (allow a fd) x = true <-> allowed a x = true \/ (x = fd /\ in_range (length a) fd).
Proof.
  unfold allow. destruct ((0 <=? fd) && (fd <? Z.of_nat (length a))) eqn:E.
  - rewrite allowed_insert by (unfold in_range; lia). destruct (decide (x = fd)); [|naive_solver]. split; [|done]. intros _. right. unfold in_range. split; [done|lia].
  - split; [auto|]. intros [?|[-> Hr]]; [done|]. unfold in_range in Hr. lia.
Qed.

Lemma allow_all l : forall a, length (fold_left allow l a) = length a /\
  forall x, allowed (fold_left allow l a) x = true <-> allowed a x = true \/ (x ∈ l /\ in_range (length a) x).
Proof.
  induction l as [|fd l IH]; intros a; cbn [fold_left]; [split; [done|]; set_solver|].
  destruct (IH (allow a fd)) as [Hl Hx]. rewrite allow_length in Hl, Hx. split; [done|]. intros x.
  rewrite Hx, allowed_allow, elem_of_cons. naive_solver.
Qed.

Lemma forbid_spec a fd : in_range (length a) fd -> exists a', forbid a fd = Some a' /\ length a' = length a /\
  forall x, allowed a' x = true <-> allowed a x = true /\ x <> fd.
Proof.
  intros Hr. exists (<[Z.to_nat fd := false]> a). unfold forbid. unfold in_range in *.
  rewrite (proj2 (Z.leb_le 0 fd)), (proj2 (Z.ltb_lt fd _)) by lia. repeat split; [apply length_insert|..].
  all: rewrite allowed_insert in * by (unfold in_range; lia); destruct (decide (x = fd)); naive_solver.
Qed.

Lemma record_all l : forall a p, exists a' p', fold_left record_fd l (a, p) = (a', p') /\ length a' = length a /\ logd p' = logd p /\
  sigchld_blocked p' = sigchld_blocked p /\
  (forall x, allowed a' x = true <-> allowed a x = true \/ (x ∈ l /\ in_range (length a) x)) /\
  (forall x, x ∈ open_fds p' <-> x ∈ open_fds p /\ (x ∈ l -> in_range (length a) x)).
Proof.
  induction l as [|fd l IH]; intros a p; cbn [fold_left]; [exists a, p; repeat split; set_solver|].
  unfold record_fd at 2. destruct ((fd <? 0) || (Z.of_nat (length a) <=? fd)) eqn:E.
  - assert (~ in_range (length a) fd) as Hn by (unfold in_range; lia).
    destruct (IH a (close fd p)) as (a' & p' & -> & Hl & Hg & Hs & Ha & Ho). exists a', p'. repeat (split; [done|]).
    split; intros x; [rewrite Ha|rewrite Ho; cbn]; set_solver.
  - assert (in_range (length a) fd) as Hr by (unfold in_range; lia).
    destruct (IH (<[Z.to_nat fd := true]> a) p) as (a' & p' & -> & Hl & Hg & Hs & Ha & Ho). exists a', p'. rewrite length_insert in *.
    repeat (split; [done|]). split; intros x.
    + rewrite Ha, allowed_insert, elem_of_cons by done. destruct (decide (x = fd)) as [->|]; naive_solver.
    + rewrite Ho. set_solver.
Qed.

Lemma get_logd_spec new p : exists fd p', zygisk_get_logd new p = (fd, p') /\ (logd p' = fd \/ fd < 0 /\ logd p' < 0) /\
  sigchld_blocked p' = sigchld_blocked p /\ fd <= Z.max (Z.max new (logd p)) (-1) /\ (forall x, x ∈ open_fds p -> x ∈ open_fds p').
Proof.
  unfold zygisk_get_logd. destruct (0 <=? logd p) eqn:E; [exists (logd p), p; repeat split; auto; lia|].
  destruct (0 <=? new); [eexists _, _|exists (-1), p]; repeat split; cbn; try (lia || done || set_solver).
Qed.

(** What [fork_pre] leaves in the child: exactly what was open, but the log pipe, is allowed. *)
Lemma fork_pre_child k c p : forked k <= 0 -> (forall fd, allowed (allowed_fds c) fd = false) -> dir_fd k ∉ open_fds p ->
  in_range (length (allowed_fds c)) (dir_fd k) -> logd p < Z.of_nat (length (allowed_fds c)) ->
  log_fd k < Z.of_nat (length (allowed_fds c)) ->
  exists a p', fork_pre k c p = Some (with_allowed a (with_pid (forked k) c), p') /\ length a = length (allowed_fds c) /\
    sigchld_blocked p' = true /\
    (forall fd, allowed a fd = true <-> fd ∈ open_fds p /\ in_range (length a) fd /\ fd <> logd p') /\
    (forall fd, allowed a fd = true -> fd ∈ open_fds p').
Proof.
  intros Hf Hnone Hd Hdr Hlr Hgr. unfold fork_pre, is_child. cbn [pid with_pid]. rewrite (proj2 (Z.leb_le _ _) Hf). cbn [negb].
  destruct (record_all (elements (open_fds (open (dir_fd k) (sigmask true p)))) (allowed_fds (with_pid (forked k) c)) (open (dir_fd k) (sigmask true p)))
    as (a & q & -> & Hl & Hg & Hs & Ha & Ho). cbn [allowed_fds with_pid] in *. cbn [open sigmask open_fds logd sigchld_blocked] in *.
  destruct (forbid_spec a (dir_fd k)) as (a1 & E1 & Hl1 & Ha1); [by rewrite Hl|]. rewrite E1. cbn [mbind option_bind].
  destruct (get_logd_spec (log_fd k) q) as (fd & q' & -> & Hq & Hsq & Hfd & Hoq).
  assert (exists a2, (if 0 <=? fd then forbid a1 fd else Some a1) = Some a2 /\ length a2 = length a1 /\
            forall x, allowed a2 x = true <-> allowed a1 x = true /\ x <> logd q') as (a2 & -> & Hl2 & Ha2).
  { destruct (0 <=? fd) eqn:E.
    - destruct (forbid_spec a1 fd) as (a2 & -> & Hl2 & Ha2); [unfold in_range; lia|]. exists a2. repeat split; [done|..]; naive_solver lia.
    - exists a1. repeat split; try done; [|naive_solver]. intros ->. apply allowed_range in H as []. lia. }
  cbn [mbind option_bind]. exists a2, (close (dir_fd k) q'). split; [done|]. cbn [close sigchld_blocked logd open_fds]. split; [lia|]. split; [congruence|].
  assert (forall x, allowed a2 x = true <-> x ∈ open_fds p /\ in_range (length a2) x /\ x <> logd q') as Hfin.
  { intros x. rewrite Ha2, Ha1, Ha, Hnone, elem_of_elements, Hl2, Hl1, Hl. set_solver. }
  split; [done|]. intros x Hx. apply Hfin in Hx as (Hx & Hr & Hn). apply elem_of_difference. split; [|set_solver]. apply Hoq, Ho. rewrite Hl2, Hl1, Hl in Hr. set_solver.
Qed.

(** The descriptors of modules that stay open: those the zygote was told to ignore and those
    that were exempted, if there are any. *)
Definition passed_fds (k : kernel) (ign : option (option (list Z))) (exempted : list Z) : list Z :=
  match ign with
  | Some arr => if bool_decide (exempted = []) then [] else default [] arr ++ (if new_array k then exempted else [])
  | None => []
  end.

Lemma close_all (f : Z -> bool) d l : forall p, let p' := fold_left (fun p fd => if negb (f fd) && negb (fd =? d) then close fd p else p) l p in
  logd p' = logd p /\ forall x, x ∈ open_fds p' <-> x ∈ open_fds p /\ (x ∈ l -> f x = true \/ x = d).
Proof.
  induction l as [|fd l IH]; intros p; cbn [fold_left]; [split; [done|]; set_solver|].
  destruct (negb (f fd) && negb (fd =? d)) eqn:E.
  - destruct (IH (close fd p)) as [Hl Ho]. split; [done|]. intros x. rewrite Ho. cbn [close open_fds].
    assert (~ (f fd = true \/ fd = d)) by (destruct (f fd); lia). set_solver.
  - destruct (IH p) as [Hl Ho]. split; [done|]. intros x. rewrite Ho. assert (f fd = true \/ fd = d) by (destruct (f fd); [auto|right; lia]). set_solver.
Qed.

(** After [sanitize_fds] the child has open what was allowed or passed on. *)
Lemma sanitize_child k c p : pid c <= 0 -> let '(c', p') := sanitize_fds k c p in
  logd p' = -1 /\
  (forall fd, fd ∈ open_fds p' <-> fd ∈ open_fds p /\ fd <> logd p /\ fd <> dir_fd2 k /\
     (allowed (allowed_fds c) fd = true \/
      (has (flags c) APP_FORK_AND_SPECIALIZE = true /\ fd ∈ passed_fds k (fds_to_ignore c) (exempted_fds c) /\ in_range (length (allowed_fds c)) fd))).
Proof.
  intros Hp. unfold sanitize_fds, is_child. rewrite (proj2 (Z.leb_le _ _) Hp). cbn [negb].
  set (c1 := if _ && _ then _ else c).
  assert (forall x, allowed (allowed_fds c1) x = true <-> allowed (allowed_fds c) x = true \/
      (has (flags c) APP_FORK_AND_SPECIALIZE = true /\ x ∈ passed_fds k (fds_to_ignore c) (exempted_fds c) /\ in_range (length (allowed_fds c)) x)) as Ha.
  { intros x. unfold c1, can_exempt_fd, passed_fds. destruct (has (flags c) _); cbn [andb]; [|naive_solver].
    destruct (fds_to_ignore c) as [ign|]; cbn [andb]; [|set_solver]. destruct (decide (exempted_fds c = [])) as [->|N]; [cbn; set_solver|].
    rewrite bool_decide_eq_false_2 by done. cbn [negb]. unfold update_fd_array.
    destruct ign as [arr|]; destruct (new_array k); cbn [with_ignore with_allowed allowed_fds exempted_fds default];
      rewrite ?(proj2 (allow_all _ _)), ?(proj1 (allow_all _ _)); set_solver. }
  destruct (close_all (allowed (allowed_fds c1)) (dir_fd2 k) (elements (open_fds (open (dir_fd2 k) (zygisk_close_logd p)))) (open (dir_fd2 k) (zygisk_close_logd p))) as [Hl Ho].
  cbn zeta in *. split; [done|]. intros fd. cbn [close open_fds]. rewrite elem_of_difference, Ho, elem_of_elements, <- Ha.
  cbn [open zygisk_close_logd open_fds]. set_solver.
Qed.

Section frame.
Context (regcomp : bytes -> bool) (regexec : bytes -> bytes -> bool) (maps : list MapInfo).
Context (is_reg : Z -> bool) (dlopen : Z -> option library).

(** What modules cannot change: the process, what is allowed, the array to ignore, and the
    flags but the one that reverts the mounts. *)
Definition frame (c c' : ZygiskContext) : Prop :=
  pid c' = pid c /\ info_flags c' = info_flags c /\ allowed_fds c' = allowed_fds c /\ fds_to_ignore c' = fds_to_ignore c /\
  (flags c' = flags c \/ flags c' = Z.lor (flags c) DO_REVERT_UNMOUNT).

Lemma frame_refl c : frame c c.
Proof. repeat split; auto. Qed.

Lemma frame_trans c1 c2 c3 : frame c1 c2 -> frame c2 c3 -> frame c1 c3.
Proof.
  intros (H1 & H2 & H3 & H4 & H5) (G1 & G2 & G3 & G4 & G5). repeat split; try congruence.
  destruct H5 as [H5|H5], G5 as [G5|G5]; rewrite G5, H5; auto. right. by rewrite <- Z.lor_assoc, Z.lor_diag.
Qed.

Lemma run_step_frame s c p m c' p' m' : run_step regcomp regexec maps s (c, p, m) = Some (c', p', m') -> frame c c' /\ id m' = id m /\ lib m' = lib m.
Proof.
  destruct s as [[a|]|fd|[]|r sy fn|r sy| |d i [sy|] fn|fd|fd]; cbn [run_step RegisterModuleImpl setOption plt_hook_commit fst snd];
    unfold exempt_fd, plt_hook_register, plt_hook_exclude; repeat case_match; intros [= <- <- <-]; repeat split; auto.
Qed.

Lemma run_steps_frame ss : forall c p m c' p' m', run_steps regcomp regexec maps ss (c, p, m) = Some (c', p', m') -> frame c c' /\ id m' = id m /\ lib m' = lib m.
Proof.
  induction ss as [|s ss IH]; intros c p m c' p' m'; cbn [run_steps].
  - intros [= <- <- <-]. auto using frame_refl.
  - destruct (run_step _ _ _ s _) as [[[c1 p1] m1]|] eqn:E; cbn [mbind option_bind]; [|done]. intros H.
    apply run_step_frame in E as (F & I1 & L1). apply IH in H as (G & I2 & L2). split; [by eapply frame_trans|]. split; congruence.
Qed.

Lemma on_load_frame ms : forall c p c' p' ms', on_load regcomp regexec maps ms c p = Some (c', p', ms') -> frame c c'.
Proof.
  induction ms as [|m ms IH]; intros c p c' p' ms'; cbn [on_load]; [intros [= <- <- <-]; apply frame_refl|].
  destruct (run_steps _ _ _ _ _) as [[[c1 p1] m1]|] eqn:E; cbn; [|done].
  destruct (on_load _ _ _ ms c1 p1) as [[[c2 p2] ms2]|] eqn:G; cbn; [|done]. intros [= <- <- <-].
  apply run_steps_frame in E as [F _]. by eapply frame_trans; [|eapply IH].
Qed.

Lemma run_each_frame what ms : forall c p c' p' ms', run_each regcomp regexec maps what ms c p = Some (c', p', ms') -> frame c c'.
Proof.
  induction ms as [|m ms IH]; intros c p c' p' ms'; cbn [run_each]; [intros [= <- <- <-]; apply frame_refl|].
  destruct (run_steps _ _ _ _ _) as [[[c1 p1] m1]|] eqn:E; cbn; [|done].
  destruct (run_each _ _ _ what ms c1 p1) as [[[c2 p2] ms2]|] eqn:G; cbn; [|done]. intros [= <- <- <-].
  apply run_steps_frame in E as [F _]. by eapply frame_trans; [|eapply IH].
Qed.

Lemma run_modules_pre_frame fds c p c' p' fds' : run_modules_pre regcomp regexec maps is_reg dlopen fds c p = Some (c', p', fds') -> frame c c'.
Proof.
  unfold run_modules_pre. destruct (load_modules _ _ _ _ _ _) as [[ms fds1] p1].
  destruct (on_load _ _ _ _ c p1) as [[[c1 p2] ms1]|] eqn:E; cbn; [|done].
  destruct (run_each _ _ _ _ ms1 c1 p2) as [[[c2 p3] ms2]|] eqn:G; cbn; [|done]. intros [= <- <- <-].
  eapply frame_trans; [by eapply on_load_frame|]. by apply run_each_frame in G.
Qed.
End frame.

(** ** The descriptors of a forked app *)

Lemma has_lor f g x : has f x = true -> has (Z.lor f g) x = true.
Proof. unfold has. rewrite Z.land_lor_distr_l. intros H. destruct (Z.eqb_spec (Z.lor (Z.land f x) (Z.land g x)) 0) as [E|]; [|done]. apply Z.lor_eq_0_iff in E as [E _]. by rewrite E in H. Qed.

Lemma has_own f x : x <> 0 -> has (Z.lor f x) x = true.
Proof. unfold has. rewrite Z.land_comm, Z.lor_comm. replace (Z.land x (Z.lor x f)) with x; [intros H; by destruct (Z.eqb_spec x 0)|]. symmetry. apply Z.bits_inj'. intros n. rewrite Z.land_spec, Z.lor_spec. by destruct (Z.testbit x n). Qed.

Section child.
Context (regcomp : bytes -> bool) (regexec : bytes -> bytes -> bool) (maps : list MapInfo).
Context (is_reg : Z -> bool) (dlopen : Z -> option library).

Lemma app_specialize_keeps a c p c' p' : app_specialize_pre regcomp regexec maps is_reg dlopen a c p = Some (c', p') ->
  pid c' = pid c /\ allowed_fds c' = allowed_fds c /\ fds_to_ignore c' = fds_to_ignore c /\
  forall x, has (flags c) x = true -> has (flags c') x = true.
Proof.
  unfold app_specialize_pre. destruct a as [a|]; cbn [get_module_info].
  - case_match; [intros [= <- <-]; repeat split; intros; by repeat apply has_lor|]. case_match.
    + destruct (run_modules_pre _ _ _ _ _ _ _ _) as [[[c1 p1] f1]|] eqn:E; cbn; [|done]. intros [= <- <-].
      apply run_modules_pre_frame in E as (H1 & _ & H3 & H4 & H5). cbn in *. repeat split; try done.
      intros x Hx. destruct H5 as [-> | ->]; by repeat apply has_lor.
    + intros [= <- <-]. repeat split. intros. by repeat apply has_lor.
  - case_match; [intros [= <- <-]; repeat split; intros; by repeat apply has_lor|]. cbn. intros [= <- <-]. repeat split. intros. by apply has_lor.
Qed.

(** C10: in the child of a forked app, whatever the modules did with descriptors, those that
    are left open are exactly the ones still open among those the zygote had open at the
    fork (but the log pipe), those the zygote was told to ignore and those the modules
    exempted; all are below the limit of open files. *)
Theorem child_descriptors k a fd_max ign p :
  forked k <= 0 -> dir_fd k ∉ open_fds p -> in_range fd_max (dir_fd k) -> logd p < Z.of_nat fd_max -> log_fd k < Z.of_nat fd_max ->
  let c := new_context fd_max ign in
  exists c1 p1, fork_pre k (with_flags APP_FORK_AND_SPECIALIZE c) p = Some (c1, p1) /\
  forall c2 p2, app_specialize_pre regcomp regexec maps is_reg dlopen a c1 p1 = Some (c2, p2) ->
  exists c' p', nativeForkAndSpecialize_pre regcomp regexec maps is_reg dlopen k a c p = Some (c', p') /\ logd p' = -1 /\
    forall fd, fd ∈ open_fds p' <->
      fd ∈ open_fds p2 /\ fd <> logd p2 /\ fd <> dir_fd2 k /\ in_range fd_max fd /\
      ((fd ∈ open_fds p /\ fd <> logd p1) \/ fd ∈ passed_fds k ign (exempted_fds c2)).
Proof.
  intros Hf Hd Hdr Hl Hg c. destruct (fork_pre_child k (with_flags APP_FORK_AND_SPECIALIZE c) p) as (al & p1 & E & Hlen & _ & Hal & _); try done.
  { intros fd. cbn. unfold allowed. destruct (replicate fd_max false !! Z.to_nat fd) as [b|] eqn:R; [apply lookup_replicate in R as [-> _]|]; apply andb_false_r. }
  1-3: cbn; rewrite length_replicate; done.
  cbn in Hlen. rewrite length_replicate in Hlen. rewrite E. eexists _, p1. split; [done|]. intros c2 p2 G.
  destruct (app_specialize_keeps _ _ _ _ _ G) as (Kp & Ka & Ki & Kf). cbn in Kp, Ka, Ki, Kf.
  unfold nativeForkAndSpecialize_pre. change (Z.lor (flags c) APP_FORK_AND_SPECIALIZE) with APP_FORK_AND_SPECIALIZE. rewrite E. cbn [mbind option_bind].
  unfold is_child at 1. cbn [pid with_allowed with_pid]. rewrite (proj2 (Z.leb_le _ _) Hf), G. cbn [mbind option_bind].
  pose proof (sanitize_child k c2 p2 ltac:(lia)) as S. destruct (sanitize_fds k c2 p2) as [c' p']. exists c', p'. split; [done|].
  destruct S as [S1 S2]. split; [done|]. intros fd. rewrite S2, Ka, Ki, Hal, Hlen, (Kf APP_FORK_AND_SPECIALIZE) by done. tauto.
Qed.
End child.

(** A module of version 5 that opens two descriptors and exempts one of them. *)
Definition sample_abi (v : Z) : module_abi := Abi v true true true true true.
Definition sample_library : library :=
  Library (Some [Register (Some (sample_abi 5)); OpenFd 40]) (fun _ => [OpenFd 41; CallExemptFd 41; CallSetOption DLCLOSE_MODULE_LIBRARY])
    (fun _ => []) [CallExemptFd 41] [].
Definition sample_dlopen (fd : Z) : option library := if fd =? 30 then Some sample_library else None.
Definition sample_kernel : kernel := Kernel 0 20 21 22 true.
Definition sample_proc : proc := Proc {[0; 1; 2; 7; 100]} 7 false [].
Definition sample_child : option (ZygiskContext * proc) :=
  nativeForkAndSpecialize_pre (fun _ => true) (fun _ _ => false) [] (fun fd => fd =? 30) sample_dlopen sample_kernel
    (Some (Answer 29 0 [30; 31])) (new_context 64 (Some (Some [5]))) sample_proc.

(** The module's exempted descriptor stays open, its other one and the log pipe do not. *)
Lemma child_descriptors_witness : exists c' p', sample_child = Some (c', p') /\ logd p' = -1 /\ (41 ∈ open_fds p') /\ (40 ∉ open_fds p') /\ (7 ∉ open_fds p').
Proof.
  destruct (child_descriptors (fun _ => true) (fun _ _ => false) [] (fun fd => fd =? 30) sample_dlopen sample_kernel
    (Some (Answer 29 0 [30; 31])) 64 (Some (Some [5])) sample_proc) as (c1 & p1 & E & H).
  1,4,5: cbn; lia.
  1: match goal with |- ?P => apply (bool_decide_unpack P) end; vm_compute; exact I.
  1: unfold in_range; cbn; lia.
  assert (is_Some (fork_pre sample_kernel (with_flags APP_FORK_AND_SPECIALIZE (new_context 64 (Some (Some [5])))) sample_proc ≫= fun '(c, p) =>
    app_specialize_pre (fun _ => true) (fun _ _ => false) [] (fun fd => fd =? 30) sample_dlopen (Some (Answer 29 0 [30; 31])) c p)) as [[c2 p2] G].
  { match goal with |- ?P => apply (bool_decide_unpack P) end; vm_compute; exact I. }
  rewrite E in G. cbn [mbind option_bind] in G. destruct (H c2 p2 G) as (c' & p' & S & L & _). exists c', p'. fold sample_child in S. split; [exact S|]. split; [exact L|].
  assert (option_map (fun x => (bool_decide (41 ∈ open_fds x.2), bool_decide (40 ∈ open_fds x.2), bool_decide (7 ∈ open_fds x.2))) sample_child = Some (true, false, false)) as V
    by (vm_compute; reflexivity).
  rewrite S in V. cbn [option_map snd] in V. injection V as V1 V2 V3. apply bool_decide_eq_true in V1. apply bool_decide_eq_false in V2, V3. auto.
Defined.

(** ** The deny list *)

Section deny.
Context (regcomp : bytes -> bool) (regexec : bytes -> bytes -> bool) (maps : list MapInfo).
Context (is_reg : Z -> bool) (dlopen : Z -> option library).

Lemma drop_open fd p : 0 <= fd -> fd ∉ open_fds p -> drop_fd fd (open fd p) = p.
Proof.
  intros H0 Hn. unfold drop_fd. rewrite (proj2 (Z.leb_le _ _) H0). destruct p as [o l b h]. unfold close, open. cbn in *. f_equal. set_solver.
Qed.

(** An app for which the daemon answers that it is on the enforced deny list gets no
    modules, no hooks and no descriptors, and its next new mount namespace is cleaned. *)
Theorem deny_list_reverts a c p : 0 <= sock a -> sock a ∉ open_fds p -> Z.land (a_flags a) UNMOUNT_MASK = UNMOUNT_MASK ->
  exists c', app_specialize_pre regcomp regexec maps is_reg dlopen (Some a) c p = Some (c', p) /\ modules c' = modules c /\
    exempted_fds c' = exempted_fds c /\ allowed_fds c' = allowed_fds c /\
    forall f res, new_unshare (Some c') f res = negb (Z.land f CLONE_NEWNS =? 0) && (res =? 0).
Proof.
  intros Hs Ho Hm. unfold app_specialize_pre, get_module_info, zygisk_should_load_module. rewrite Hm, Z.eqb_refl. cbn [negb andb fold_left].
  cbn [info_flags with_info]. rewrite Hm, Z.eqb_refl, drop_open by done. eexists. split; [done|]. repeat split. intros f res. cbn [new_unshare].
  cbn [flags with_flags]. rewrite has_own by done. apply andb_true_r.
Qed.
End deny.

(** The flags the daemon answers with: [update_deny_flags] has an empty body. *)
Definition update_deny_flags (flags : Z) : Z := flags.
Definition get_process_flags (is_manager granted : bool) : Z :=
  let flags := update_deny_flags 0 in
  let flags := if is_manager then Z.lor flags ProcessIsMagiskApp else flags in
  if granted then Z.lor flags ProcessGrantedRoot else flags.

(** The daemon never answers that a process is on the deny list, whatever the list holds:
    a module is not told and the branch that reverts the mounts is not taken. *)
Lemma never_on_deny_list is_manager granted c : let f := get_process_flags is_manager granted in
  (Z.land f UNMOUNT_MASK =? UNMOUNT_MASK) = false /\ Z.land (getFlags (Some (with_info f c))) ProcessOnDenyList = 0.
Proof. by destruct is_manager, granted. Qed.

(** ** Loading modules *)

(** The calls a module of version [v] can make after it has registered itself. *)
Definition supported (v : Z) (s : step) : bool :=
  match s with
  | Register _ => false
  | CallExemptFd _ | CallRegisterDev _ _ _ _ => (4 <=? v) && (v <=? 5)
  | CallPltHookRegister _ _ _ | CallPltHookExclude _ _ => (1 <=? v) && (v <=? 3)
  | CallSetOption _ | CallPltHookCommit => (1 <=? v) && (v <=? 5)
  | OpenFd _ | CloseFd _ => true
  end.

(** A module that registers itself first and then keeps to the functions of its version. *)
Definition well_behaved (l : library) : Prop :=
  match zygisk_module_entry l with
  | None => True
  | Some ss => exists a ss', ss = Register (Some a) :: ss' /\ let ok := forallb (supported (api_version a)) in
      ok ss' = true /\ ok (preAppSpecialize l AppSpecializeArgs_v1) = true /\ ok (preAppSpecialize l AppSpecializeArgs_v5) = true /\
      ok (preServerSpecialize l) = true
  end.

(** Whether the module of a library is kept: it registers a version there is and all of its
    functions are set. *)
Definition accepted (l : library) : bool :=
  match zygisk_module_entry l with
  | Some (Register (Some a) :: _) =>
    (1 <=? api_version a) && (api_version a <=? 5) && (impl a && preApp a && postApp a && preServer a && postServer a)
  | _ => false
  end.

Section loading.
Context (regcomp : bytes -> bool) (regexec : bytes -> bytes -> bool) (maps : list MapInfo).
Context (is_reg : Z -> bool) (dlopen : Z -> option library).

(** The module has the table of version [v]. *)
Definition has_table (v : Z) (m : ZygiskModule) : Prop := forall s, supported v s = true ->
  match s with
  | CallExemptFd _ => in_table m ExemptFd
  | CallRegisterDev _ _ _ _ => in_table m PltHookRegisterDev
  | CallPltHookRegister _ _ _ => in_table m PltHookRegisterRegex
  | CallPltHookExclude _ _ => in_table m PltHookExclude
  | CallSetOption _ => in_table m SetOption
  | CallPltHookCommit => in_table m PltHookCommitRegex || in_table m PltHookCommitLsplt
  | _ => true
  end = true.

Lemma registered_table i l a : has_table (api_version a) (RegisterModuleImpl (new_module i l) (Some a)).1.
Proof.
  intros s Hs. unfold RegisterModuleImpl, ZYGISK_API_VERSION. set (v := api_version a) in *.
  assert (v < 1 \/ v = 1 \/ v = 2 \/ v = 3 \/ v = 4 \/ v = 5 \/ 5 < v) as Hv by lia.
  destruct Hv as [Hv|[Hv|[Hv|[Hv|[Hv|[Hv|Hv]]]]]]; [|rewrite Hv in *; by destruct s..|].
  all: destruct s; cbn [supported] in Hs; (done || lia).
Qed.

Lemma run_step_ok v s c p m : supported v s = true -> has_table v m -> exists c' p' m',
  run_step regcomp regexec maps s (c, p, m) = Some (c', p', m') /\ api m' = api m /\ abi m' = abi m.
Proof.
  intros Hs Ht. specialize (Ht s Hs). destruct s as [a|fd|[]|r sy fn|r sy| |d i [sy|] fn|fd|fd]; cbn [run_step supported] in *; try done; try rewrite Ht; eauto 10.
  - destruct (in_table m PltHookCommitRegex); cbn in *; [eauto 10|]. rewrite Ht. eauto 10.
Qed.

Lemma has_table_api v m m' : api m' = api m -> has_table v m -> has_table v m'.
Proof. unfold has_table, in_table. by intros ->. Qed.

Lemma run_steps_ok v ss : forall c p m, forallb (supported v) ss = true -> has_table v m -> exists c' p' m',
  run_steps regcomp regexec maps ss (c, p, m) = Some (c', p', m') /\ api m' = api m /\ abi m' = abi m.
Proof.
  induction ss as [|s ss IH]; intros c p m Hs Ht; cbn [run_steps forallb] in *; [eauto 10|]. apply andb_true_iff in Hs as [Hs Hss].
  destruct (run_step_ok v s c p m Hs Ht) as (c1 & p1 & m1 & -> & Ha & Hb). cbn [mbind option_bind].
  destruct (IH c1 p1 m1 Hss (has_table_api _ _ _ Ha Ht)) as (c2 & p2 & m2 & -> & Ha2 & Hb2). eexists _, _, _. split; [done|]. split; congruence.
Qed.

(** A module that was loaded: it can be run before the process is specialised. *)
Definition loaded (m : ZygiskModule) : Prop := well_behaved (lib m) /\ exists a ss, zygisk_module_entry (lib m) = Some (Register (Some a) :: ss) /\
  has_table (api_version a) m /\ (valid m = true -> abi m = Some a).

Lemma on_load_ok ms : forall c p, Forall (fun m => exists i l, m = new_module i l /\ well_behaved l /\ zygisk_module_entry l <> None) ms ->
  exists c' p' ms', on_load regcomp regexec maps ms c p = Some (c', p', ms') /\ Forall (fun m => loaded m /\ valid m = true) ms' /\
    id <$> ms' = id <$> filter (fun m => accepted (lib m) = true) ms.
Proof.
  induction ms as [|m ms IH]; intros c p Hms; cbn [on_load]; [eexists _, _, _; repeat split; constructor|].
  apply Forall_cons in Hms as [(i & l & -> & Hw & He) Hms]. change (lib (new_module i l)) with l. pose proof Hw as Hw'. unfold well_behaved in Hw'.
  destruct (zygisk_module_entry l) as [ss|] eqn:El; [|done]. destruct Hw' as (a & ss' & -> & Hok & Hrest). cbn [default Datatypes.id run_steps].
  change (run_step _ _ _ (Register (Some a)) (c, p, new_module i l)) with (Some (c, p, (RegisterModuleImpl (new_module i l) (Some a)).1)). cbn [mbind option_bind].
  destruct (run_steps_ok (api_version a) ss' c p (RegisterModuleImpl (new_module i l) (Some a)).1 Hok (registered_table i l a)) as (c1 & p1 & m1 & E & Ha & Hb).
  rewrite E. cbn [mbind option_bind].
  destruct (IH c1 p1 Hms) as (c2 & p2 & ms2 & -> & Hf & Hi). cbn [mbind option_bind].
  apply run_steps_frame in E as (_ & Hid & Hlib).
  assert (id m1 = i /\ lib m1 = l) as [Hid' Hlib'] by (rewrite Hid, Hlib; unfold RegisterModuleImpl; by case_match).
  assert (valid m1 = accepted l) as Hv.
  { unfold valid, accepted. rewrite Hb, El. unfold RegisterModuleImpl, ZYGISK_API_VERSION. destruct (5 <? api_version a) eqn:E5; cbn; [|done].
    destruct (api_version a <=? 5) eqn:E6; [lia|]. by rewrite andb_false_r. }
  eexists _, _, _. split; [done|]. rewrite Hv. destruct (accepted l) eqn:Eacc.
  - rewrite filter_cons_True by done. rewrite !fmap_cons, Hi, Hid'. split; [|done]. constructor; [|done]. split; [|done].
    split; [by rewrite Hlib'|]. exists a, ss'. rewrite Hlib'. split; [done|]. split; [by eapply has_table_api; [|apply registered_table]|].
    intros _. rewrite Hb. unfold RegisterModuleImpl. case_match eqn:E5; [|done]. unfold accepted in Eacc. rewrite El in Eacc. unfold ZYGISK_API_VERSION in E5. lia.
  - by rewrite filter_cons_False by (cbn; congruence).
Qed.

Lemma module_pre_supported c m a ss : well_behaved (lib m) -> zygisk_module_entry (lib m) = Some (Register (Some a) :: ss) -> abi m = Some a ->
  forallb (supported (api_version a)) (module_pre c m) = true.
Proof.
  unfold well_behaved, module_pre, call_app. intros Hw El ->. rewrite El in Hw. destruct Hw as (a' & ss' & [= <- <-] & _ & H1 & H5 & Hs).
  by repeat case_match.
Qed.

Lemma run_each_ok ms : forall c p, Forall (fun m => loaded m /\ valid m = true) ms ->
  exists c' p' ms', run_each regcomp regexec maps module_pre ms c p = Some (c', p', ms') /\ id <$> ms' = id <$> ms.
Proof.
  induction ms as [|m ms IH]; intros c p Hms; cbn [run_each]; [eauto 10|]. apply Forall_cons in Hms as [[(Hw & a & ss & El & Ht & Hab) Hv] Hms].
  destruct (run_steps_ok (api_version a) (module_pre c m) c p m) as (c1 & p1 & m1 & E & _ & _); [by eapply module_pre_supported; auto|done|].
  rewrite E. cbn [mbind option_bind]. destruct (IH c1 p1 Hms) as (c2 & p2 & ms2 & -> & Hi). eexists _, _, _. split; [done|].
  apply run_steps_frame in E as (_ & Hid & _). by rewrite !fmap_cons, Hid, Hi.
Qed.

(** The libraries that are loaded, and the indices of the descriptors with a property. *)
Definition loadable (fd : Z) : option library := if is_reg fd then dlopen fd else None.
Fixpoint indices (f : Z -> bool) (i : Z) (fds : list Z) : list Z :=
  match fds with [] => [] | fd :: fds => (if f fd then [i] else []) ++ indices f (i + 1) fds end.
Definition keeps (fd : Z) : bool := match loadable fd with Some l => accepted l | None => false end.
Definition fails (fd : Z) : bool := match loadable fd with Some _ => false | None => true end.

Hypothesis behaved : forall fd l, dlopen fd = Some l -> well_behaved l.

Lemma load_modules_ok server fds : forall i p, exists ms fds' p', load_modules is_reg dlopen server i fds p = (ms, fds', p') /\
  Forall (fun m => exists i l, m = new_module i l /\ well_behaved l /\ zygisk_module_entry l <> None) ms /\
  id <$> filter (fun m => accepted (lib m) = true) ms = indices keeps i fds /\
  (server = true -> Forall (fun fd => 0 <= fd) fds -> forall j, failed_ids j fds' = indices fails j fds) /\
  (forall x, x ∈ open_fds p' <-> x ∈ open_fds p /\ x ∉ fds).
Proof.
  induction fds as [|fd fds IH]; intros i p; cbn [load_modules]; [eexists [], [], p; repeat split; [constructor|..]; set_solver|].
  destruct (IH (i + 1) (close fd p)) as (ms & fds' & p' & -> & Hm & Hi & Hf & Ho). cbn [indices]. unfold keeps, fails, loadable.
  assert (forall x, x ∈ open_fds p' <-> x ∈ open_fds p /\ x ∉ fd :: fds) as Ho' by (intros x; rewrite Ho; cbn; set_solver).
  destruct (is_reg fd); cbn [negb]; [destruct (dlopen fd) as [l|] eqn:El; [destruct (zygisk_module_entry l) as [ss|] eqn:Ee|]|].
  - eexists _, _, p'. split; [done|]. split; [constructor; [exists i, l; rewrite Ee; by eauto|done]|]. cbn [app].
    split; [|split; [|done]].
    + destruct (accepted l) eqn:Eacc; [by rewrite filter_cons_True, fmap_cons, Hi|]. by rewrite filter_cons_False, Hi by (cbn; congruence).
    + intros Hs [H0 H1]%Forall_cons j. cbn [failed_ids]. destruct (Z.ltb_spec fd 0); [lia|]. cbn. auto.
  - eexists _, _, p'. split; [done|]. split; [done|]. unfold accepted. rewrite Ee. split; [done|]. split; [|done].
    intros Hs [H0 H1]%Forall_cons j. cbn [failed_ids]. destruct (Z.ltb_spec fd 0); [lia|]. cbn. auto.
  - eexists _, _, p'. split; [done|]. split; [done|]. split; [done|]. split; [|done]. intros -> [H0 H1]%Forall_cons j. cbn. by rewrite Hf.
  - eexists _, _, p'. split; [done|]. split; [done|]. split; [done|]. split; [|done]. intros Hs [H0 H1]%Forall_cons j. cbn. by rewrite Hf.
Qed.

(** C28: in the system server every module whose library is loaded, registers a version
    there is and sets all of its functions is kept and run, in order; the daemon is told
    exactly the indices of the descriptors no library could be loaded from. *)
Theorem server_modules a c p : 0 <= sock a -> zygisk_should_load_module (a_flags a) = true -> a_fds a <> [] -> Forall (fun fd => 0 <= fd) (a_fds a) ->
  modules c = [] -> has (flags c) SERVER_FORK_AND_SPECIALIZE = true ->
  let failed := indices fails 0 (a_fds a) in
  exists c' p', server_specialize_pre regcomp regexec maps is_reg dlopen (Some a) c p = Some (c', p', Z.of_nat (length failed) :: failed) /\
    id <$> modules c' = indices keeps 0 (a_fds a).
Proof.
  intros Hs Hl Hne Hpos Hm Hfl. cbn zeta. unfold server_specialize_pre, get_module_info. rewrite Hl, (proj2 (Z.leb_le _ _) Hs).
  destruct (a_fds a) as [|fd fds] eqn:Ea; [done|]. rewrite <- Ea in *. unfold run_modules_pre. cbn [flags with_info modules]. rewrite Hfl, Hm.
  destruct (load_modules_ok true (a_fds a) 0 (fold_left (fun p fd => open fd p) (a_fds a) (open (sock a) p))) as (ms & fds' & p' & -> & Hms & Hi & Hf & _).
  cbn [app]. destruct (on_load_ok ms (with_info (a_flags a) c) p' Hms) as (c1 & p1 & ms1 & -> & Hms1 & Hi1). cbn [mbind option_bind].
  destruct (run_each_ok ms1 c1 p1 Hms1) as (c2 & p2 & ms2 & -> & Hi2). cbn [mbind option_bind]. eexists _, _. split.
  - rewrite (Hf eq_refl Hpos 0). done.
  - cbn [modules with_modules]. by rewrite Hi2, Hi1, Hi.
Qed.
End loading.

(** Three descriptors: a directory, the sample module and a file that is no library. *)
Lemma server_modules_witness : exists c' p',
  server_specialize_pre (fun _ => true) (fun _ _ => false) [] (fun fd => 30 <=? fd) sample_dlopen (Some (Answer 29 0 [1; 30; 31]))
    (with_flags SERVER_FORK_AND_SPECIALIZE (new_context 64 None)) sample_proc = Some (c', p', [2; 0; 2]) /\ id <$> modules c' = [1].
Proof.
  apply (server_modules (fun _ => true) (fun _ _ => false) [] (fun fd => 30 <=? fd) sample_dlopen).
  - intros fd l. unfold sample_dlopen. case_match; [|done]. intros [= <-]. exists (sample_abi 5), [OpenFd 40]. repeat split.
  - cbn. lia.
  - reflexivity.
  - discriminate.
  - cbn. repeat constructor; lia.
  - reflexivity.
  - reflexivity.
Defined.

(** When [fork] fails the zygote itself takes the place of the child: it loads and runs the
    modules, and the hooked [fork] then forks again. *)
Example fork_failure_loads_modules :
  option_map (fun x => (id <$> modules x.1, new_fork (Some x.1) 77))
    (nativeForkAndSpecialize_pre (fun _ => true) (fun _ _ => false) [] (fun fd => fd =? 30) sample_dlopen (Kernel (-1) 20 21 22 true)
       (Some (Answer 29 0 [30; 31])) (new_context 64 (Some (Some [5]))) sample_proc) = Some ([0], 77).
Proof. vm_compute. reflexivity. Qed.

(** ** Hooks by regular expression *)

Section commit.
Context (regexec : bytes -> bytes -> bool).

(** The hooks of a map: of its start, private and readable, for the expressions that match
    its path and are not excluded. *)
Definition is_ignored (ign : list IgnoreInfo) (path symbol : bytes) : Prop :=
  Exists (fun i => regexec (i_regex i) path = true /\ (i_symbol i = [] \/ i_symbol i = symbol)) ign.
Global Instance is_ignored_dec ign path symbol : Decision (is_ignored ign path symbol).
Proof. unfold is_ignored. apply _. Defined.
Definition hooks_of (regs : list RegisterInfo) (ign : list IgnoreInfo) (m : MapInfo) : list (Z * Z * bytes * Z) :=
  if bool_decide (offset m = 0 /\ is_private m = true /\ readable m = true) then
    (fun r => (dev m, inode m, r_symbol r, r_callback r)) <$>
      filter (fun r => regexec (r_regex r) (path m) = true /\ ~ is_ignored ign (path m) (r_symbol r)) regs
  else [].

Lemma ignored_spec ign path symbol : ignored regexec ign path symbol = bool_decide (is_ignored ign path symbol).
Proof.
  unfold is_ignored. induction ign as [|i ign IH]; [by rewrite bool_decide_eq_false_2 by (by intros ?%Exists_nil)|]. cbn [ignored].
  rewrite (bool_decide_ext _ _ (Exists_cons _ i ign)), IH.
  destruct (regexec (i_regex i) path) eqn:E; cbn [negb].
  - destruct (bool_decide (i_symbol i = []) || bool_decide (i_symbol i = symbol)) eqn:D.
    + symmetry. apply bool_decide_eq_true_2. left. split; [done|]. apply orb_true_iff in D as [D|D]; apply bool_decide_eq_true in D; auto.
    + apply orb_false_iff in D as [D1 D2]. apply bool_decide_eq_false in D1, D2. apply bool_decide_ext. naive_solver.
  - apply bool_decide_ext. naive_solver.
Qed.

Lemma process_map_spec regs ign p m : process_map regexec regs ign p m = Proc (open_fds p) (logd p) (sigchld_blocked p) (hooks p ++ hooks_of regs ign m).
Proof.
  unfold process_map, hooks_of. destruct (negb (offset m =? 0) || negb (is_private m) || negb (readable m)) eqn:E.
  - rewrite bool_decide_eq_false_2 by (intros (? & Hp & Hr); rewrite Hp, Hr in E; lia). rewrite app_nil_r. by destruct p.
  - rewrite bool_decide_eq_true_2; [|destruct (is_private m), (readable m); lia || (split; [lia|done])].
    clear E. revert p. induction regs as [|r regs IH]; intros p; cbn [fold_left]; [rewrite filter_nil, app_nil_r; by destruct p|].
    rewrite IH, ignored_spec. destruct (regexec (r_regex r) (path m)) eqn:E; cbn [negb].
    + case_bool_decide; [by rewrite filter_cons_False by naive_solver|]. rewrite filter_cons_True by done. cbn [RegisterHook hooks open_fds logd sigchld_blocked].
      by rewrite fmap_cons, <- app_assoc.
    + by rewrite filter_cons_False by (rewrite E; naive_solver).
Qed.

(** C30: a commit hands exactly the hooks that were registered, and not excluded, to the
    hook library, for every map whose path matches, in the order of the maps; what was
    registered and excluded is forgotten, so that a second commit adds nothing. *)
Theorem plt_hook_commit_spec maps c p : let '(c', p') := plt_hook_commit regexec maps c p in
  hooks p' = hooks p ++ (maps ≫= hooks_of (register_info c) (ignore_info c)) /\ open_fds p' = open_fds p /\
  register_info c' = [] /\ ignore_info c' = [] /\ plt_hook_commit regexec maps c' p' = (c', p').
Proof.
  unfold plt_hook_commit, plt_hook_process_regex. cbn [register_info ignore_info with_hooks]. rewrite (bool_decide_eq_true_2 ([] = [])) by done.
  enough (let q := fold_left (process_map regexec (register_info c) (ignore_info c)) maps p in
    hooks q = hooks p ++ (maps ≫= hooks_of (register_info c) (ignore_info c)) /\ open_fds q = open_fds p) as [E1 E2].
  { case_bool_decide as Hr; [|by repeat split]. repeat split. rewrite Hr. rewrite <- (app_nil_r (hooks p)) at 1. f_equal. symmetry. clear E1 E2.
    induction maps as [|m maps IH]; [done|]. rewrite bind_cons, IH, app_nil_r. unfold hooks_of. by case_bool_decide. }
  cbn zeta. revert p. induction maps as [|m maps IH]; intros p; cbn [fold_left]; [by rewrite app_nil_r|].
  destruct (IH (process_map regexec (register_info c) (ignore_info c) p m)) as [H1 H2]. rewrite H1, H2, process_map_spec. cbn [hooks open_fds].
  by rewrite bind_cons, <- app_assoc.
Qed.
End commit.

(** ** The companion daemon: [zygisk/entry.cpp] *)

Section zygiskd.
(** The companion function of a module, if its library can be loaded and has one. *)
Context {entry_fn : Type} (is_reg : Z -> bool) (companion_entry : Z -> option entry_fn).

Definition load_companions (module_fds : list Z) : list (option entry_fn) :=
  (fun fd => if is_reg fd then companion_entry fd else None) <$> module_fds.

(** A round of the loop: what [poll] says, the client that is received and the module it
    asks for. *)
Record request := Request { revents : Z; client : Z; module_id : Z }.
Definition POLLIN : Z := 1.
Inductive action := RunEntry (client : Z) (entry : entry_fn) | CloseClient (client : Z) | Exit.

Definition zygiskd_round (modules : list (option entry_fn)) (r : request) : action :=
  if negb (revents r =? 0) && (Z.land (revents r) POLLIN =? 0) then Exit
  else if client r <? 0 then Exit
  else if (0 <=? module_id r) && (module_id r <? Z.of_nat (length modules)) then
    match modules !! Z.to_nat (module_id r) with
    | Some (Some entry) => RunEntry (client r) entry
    | _ => CloseClient (client r)
    end
  else CloseClient (client r).

Fixpoint zygiskd_loop (modules : list (option entry_fn)) (rs : list request) : list action :=
  match rs with
  | [] => []
  | r :: rs => match zygiskd_round modules r with Exit => [Exit] | a => a :: zygiskd_loop modules rs end
  end.

(** [zygiskd] writes 0 to the daemon once the modules are loaded; [None] is an early exit. *)
Definition zygiskd (uid : Z) (socket_ok : bool) (module_fds : list Z) (rs : list request) : option (list action) :=
  if negb (uid =? 0) || negb socket_ok then None else Some (zygiskd_loop (load_companions module_fds) rs).

(** The client is closed after its function ran unless the descriptor is another file by then. *)
Definition close_after (s1 : Z * Z) (s2 : option (Z * Z)) : bool :=
  match s2 with Some s2 => bool_decide (s1.1 = s2.1) && bool_decide (s1.2 = s2.2) | None => false end.

(** Every client the companion daemon receives before the connection breaks is either
    handed to the companion of the module it names, or closed when that module has none. *)
Theorem zygiskd_serves module_fds rs :
  Forall (fun r => 0 <= client r /\ (revents r = 0 \/ Z.land (revents r) POLLIN <> 0)) rs ->
  zygiskd 0 true module_fds rs = Some ((fun r =>
    match (if bool_decide (0 <= module_id r) then module_fds !! Z.to_nat (module_id r) else None) ≫= fun fd => if is_reg fd then companion_entry fd else None with
    | Some entry => RunEntry (client r) entry
    | None => CloseClient (client r)
    end) <$> rs).
Proof.
  intros Hrs. unfold zygiskd. cbn. f_equal. induction Hrs as [|r rs [Hc Hr] _ IH]; [done|]. cbn [zygiskd_loop]. rewrite fmap_cons, IH. clear IH.
  assert (negb (revents r =? 0) && (Z.land (revents r) POLLIN =? 0) = false) as Hp by (destruct Hr; lia).
  unfold zygiskd_round. rewrite Hp, (proj2 (Z.ltb_ge _ _) Hc). unfold load_companions. rewrite length_fmap, list_lookup_fmap.
  destruct (Z.leb_spec 0 (module_id r)) as [H0|H0]; [rewrite bool_decide_eq_true_2 by done|by rewrite bool_decide_eq_false_2 by lia].
  destruct (module_fds !! Z.to_nat (module_id r)) as [fd|] eqn:E; cbn.
  - apply lookup_lt_Some in E. rewrite (proj2 (Z.ltb_lt _ _)) by lia. by destruct (is_reg fd); [destruct (companion_entry fd)|].
  - by destruct (module_id r <? Z.of_nat (length module_fds)).
Qed.
End zygiskd.

Lemma zygiskd_serves_witness :
  zygiskd (fun fd => fd =? 30) (fun fd => Some fd) 0 true [30; 1] [Request 1 50 0; Request 1 51 1; Request 1 52 (-1)] =
  Some [RunEntry 50 30; CloseClient 51; CloseClient 52].
Proof.
  apply (zygiskd_serves (fun fd => fd =? 30) (fun fd => Some fd) [30; 1] [Request 1 50 0; Request 1 51 1; Request 1 52 (-1)]).
  repeat (apply Forall_cons; split; [split; [cbn; lia|right; done]|]). constructor.
Defined.

(** [restore_zygisk_prop]: the value the native bridge gets back. *)
Definition restore_zygisk_prop (native_bridge : bytes) : bytes :=
  let ldr := bs "libzygisk.so" in
  if zlen ldr <? zlen native_bridge then drop (length ldr) native_bridge else bs "0".
