(* ===== verification/Monitor.v ===== *)
(** The process monitor of the deny list: [native/src/core/deny/logcat.cpp], which follows
    the system log for processes that start, and the unmounting of
    [native/src/core/deny/revert.cpp]. *)

From S2P Require Import Prelude Base OrdMap BootHdr Denylist.

(** ** Unmounting *)

Record mount_info := Mount { m_root : bytes; m_source : bytes; m_target : bytes }.

(** A path is at or below another one. *)
Definition below (s t : bytes) : bool := bool_decide (t = s) || starts_with (s ++ bs "/") t.

(** The mounts of a namespace are listed in the order in which they were made.  A mount
    point is on top when nothing was mounted later on it or on a directory above it: then the
    path leads to the mount, and it is the only one at that path. *)
Definition on_top (l : list mount_info) (s : bytes) : Prop :=
  forall pre m post, l = pre ++ m :: post -> m_target m = s -> Forall (fun x => below (m_target x) s = false) post.

(** What the kernel promises of a mount namespace: [umount2] with [MNT_DETACH] removes the
    mount that a path leads to, and nothing that is not at or below it. *)
Class MountNs (NS : Type) := {
  mounts : NS -> list mount_info;
  umount2 : NS -> bytes -> NS;
  umount_sublist : forall n s, mounts (umount2 n s) `sublist_of` mounts n;
  umount_gone : forall n s, on_top (mounts n) s -> s ∉ m_target <$> mounts (umount2 n s);
  umount_other : forall n s m, m ∈ mounts n -> below s (m_target m) = false -> m ∈ mounts (umount2 n s) }.

Definition EARLYMNTNAME : bytes := bs "early-mount.d/v2".

Section revert.
Context {NS : Type} `{MountNs NS}.

Definition lazy_unmount (n : NS) (s : bytes) : NS := umount2 n s.

(** A pass over the mounts: the targets are a sorted set, gone through backwards. *)
Definition pass_targets (f : mount_info -> bool) (l : list mount_info) : list bytes :=
  fold_left (fun t info => if f info then oemplace (fun s => s) (m_target info) t else t) l [].
Definition unmount_pass (f : mount_info -> bool) (n : NS) : NS := fold_left lazy_unmount (reverse (pass_targets f (mounts n))) n.

Definition is_magisk (info : mount_info) : bool := bool_decide (m_source info = bs "magisk").
Definition is_worker (info : mount_info) : bool := bool_decide (m_source info = bs "worker").
Definition is_module (info : mount_info) : bool :=
  starts_with (bs "/adb/modules") (m_root info) || starts_with (bs "/data/adb/modules") (m_target info).
Definition is_early (info : mount_info) : bool := bool_decide (m_source info = EARLYMNTNAME).

(** [revert_unmount] in the namespace it has entered. *)
Definition revert_mounts (n : NS) : NS :=
  let n := unmount_pass is_magisk n in
  let n := unmount_pass is_worker n in
  let n := unmount_pass is_module n in
  fold_left (fun n info => if is_early info then lazy_unmount n (m_target info) else n) (mounts n) n.

(** [switched] is the result of [switch_mnt_ns]. *)
Definition revert_unmount (pid : Z) (switched : Z) (n : NS) : NS :=
  if (0 <? pid) && negb (switched =? 0) then n else revert_mounts n.

(** *** What is left *)

Lemma unmounts_sublist l : forall n, mounts (fold_left lazy_unmount l n) `sublist_of` mounts n.
Proof. induction l as [|s l IH]; intros n; cbn [fold_left]; [done|]. etransitivity; [apply IH|apply umount_sublist]. Qed.

Lemma sublist_on_top l k s : l `sublist_of` k -> on_top k s -> on_top l s.
Proof.
  intros Hs Hk pre m post -> E. apply sublist_app_l in Hs as (k1 & k2 & -> & _ & Hs). apply sublist_cons_l in Hs as (k3 & k4 & -> & Hs).
  specialize (Hk (k1 ++ k3) m k4). rewrite <- app_assoc in Hk. specialize (Hk eq_refl E). rewrite Forall_forall in Hk |- *.
  intros x Hx. apply Hk. by eapply sublist_subseteq.
Qed.

Lemma sublist_in (l k : list mount_info) m : l `sublist_of` k -> m ∈ l -> m ∈ k.
Proof. intros Hs Hm. by eapply sublist_subseteq. Qed.

Lemma unmounts_gone l s : forall n, on_top (mounts n) s -> s ∈ l -> s ∉ m_target <$> mounts (fold_left lazy_unmount l n).
Proof.
  induction l as [|x l IH]; intros n Hn Hs; [set_solver|]. cbn [fold_left]. apply elem_of_cons in Hs as [->|Hs].
  - intros (m & -> & Hm)%list_elem_of_fmap. eapply (umount_gone n); [done|]. apply list_elem_of_fmap_2. eapply sublist_in; [apply unmounts_sublist|exact Hm].
  - apply IH; [|done]. eapply sublist_on_top; [apply umount_sublist|done].
Qed.

Lemma unmounts_other l m : forall n, m ∈ mounts n -> (forall s, s ∈ l -> below s (m_target m) = false) -> m ∈ mounts (fold_left lazy_unmount l n).
Proof.
  induction l as [|x l IH]; intros n Hm Hl; [done|]. cbn [fold_left]. apply IH; [|set_solver]. apply umount_other; [done|]. apply Hl. set_solver.
Qed.

Lemma oemplace_in s (v : bytes) l : s ∈ oemplace (fun s => s) v l <-> s = v \/ s ∈ l.
Proof.
  induction l as [|w l IH]; cbn [oemplace]; [set_solver|]. case_bool_decide; [set_solver|]. case_match; [set_solver|]. rewrite elem_of_cons, IH. set_solver.
Qed.

Lemma targets_in (f : mount_info -> bool) l s : forall t, s ∈ fold_left (fun t info => if f info then oemplace (fun s => s) (m_target info) t else t) l t <->
  s ∈ t \/ exists m, m ∈ l /\ f m = true /\ m_target m = s.
Proof.
  induction l as [|m l IH]; intros t; cbn [fold_left]; [set_solver|]. rewrite IH. setoid_rewrite elem_of_cons. destruct (f m) eqn:E; rewrite ?oemplace_in; naive_solver congruence.
Qed.

Lemma unmount_pass_sublist f n : mounts (unmount_pass f n) `sublist_of` mounts n.
Proof. apply unmounts_sublist. Qed.

Lemma unmount_pass_gone f n m : on_top (mounts n) (m_target m) -> m ∈ mounts (unmount_pass f n) -> f m = false.
Proof.
  intros Hn Hm. destruct (f m) eqn:E; [|done]. destruct (unmounts_gone (reverse (pass_targets f (mounts n))) (m_target m) n Hn).
  - apply elem_of_reverse, targets_in. right. exists m. split; [|done]. eapply sublist_in; [apply unmounts_sublist|exact Hm].
  - by apply list_elem_of_fmap_2.
Qed.

Lemma unmount_pass_other f n m : m ∈ mounts n -> (forall x, x ∈ mounts n -> f x = true -> below (m_target x) (m_target m) = false) -> m ∈ mounts (unmount_pass f n).
Proof.
  intros Hm Hx. apply unmounts_other; [done|]. intros s [[]%not_elem_of_nil|(x & Hin & Hf & <-)]%elem_of_reverse%targets_in. by apply Hx.
Qed.

Lemma early_pass l : forall n : NS, fold_left (fun n info => if is_early info then lazy_unmount n (m_target info) else n) l n =
  fold_left lazy_unmount (m_target <$> filter (fun m => is_early m = true) l) n.
Proof.
  induction l as [|m l IH]; intros n; cbn [fold_left]; [done|]. destruct (is_early m) eqn:E; [rewrite filter_cons_True by done|rewrite filter_cons_False by congruence]; apply IH.
Qed.

(** The mounts the root solution makes. *)
Definition ours (m : mount_info) : bool := is_magisk m || is_worker m || is_module m || is_early m.


(** A mount is taken down before the mount it is below. *)
Lemma pass_ordered f l : ordered (fun s => s) (pass_targets f l).
Proof.
  unfold pass_targets. assert (forall t, ordered (fun s => s) t -> ordered (fun s => s) (fold_left (fun t info => if f info then oemplace (fun s => s) (m_target info) t else t) l t)) as Hg.
  { induction l as [|m l IH]; intros t Ht; cbn [fold_left]; [done|]. apply IH. case_match; [by apply oemplace_ordered|done]. }
  apply Hg. constructor.
Qed.

Lemma below_lt s t : below s t = true -> s <> t -> sv_lt s t = true.
Proof.
  unfold below. intros [E%bool_decide_eq_true|E]%orb_true_iff N; [congruence|]. clear N. apply starts_with_spec in E as [r ->]. rewrite <- app_assoc.
  induction s as [|c s IH]; [done|]. cbn [app sv_lt]. by rewrite Z.eqb_refl.
Qed.

Lemma ordered_lookup l : ordered (fun s => s) l -> forall (i j : nat) (s t : bytes), (i < j)%nat -> l !! i = Some s -> l !! j = Some t -> sv_lt s t = true.
Proof.
  unfold ordered. induction 1 as [|x l _ IH Hx]; intros i j s t Hij Hi Hj; [done|]. destruct j as [|j]; [lia|]. destruct i as [|i].
  - injection Hi as ->. cbn in Hj. by apply (proj1 (Forall_lookup _ _) Hx j t).
  - apply (IH i j); [lia|done|done].
Qed.

Lemma children_first f l i j s t : reverse (pass_targets f l) !! i = Some s -> reverse (pass_targets f l) !! j = Some t ->
  below s t = true -> s <> t -> (j < i)%nat.
Proof.
  intros Hi Hj Hb Hn. pose proof (below_lt _ _ Hb Hn) as Hlt. pose proof (pass_ordered f l) as Ho.
  pose proof (lookup_lt_Some _ _ _ Hi) as Li. pose proof (lookup_lt_Some _ _ _ Hj) as Lj. rewrite length_reverse in Li, Lj.
  rewrite reverse_lookup in Hi, Hj by done. destruct (Nat.lt_trichotomy j i) as [?|[->|Hlt']]; [done|congruence|].
  assert (sv_lt t s = true) as Hts by (eapply (ordered_lookup _ Ho); [|exact Hj|exact Hi]; lia).
  pose proof (sv_lt_trans _ _ _ Hlt Hts) as Hss. by rewrite sv_lt_irrefl in Hss.
Qed.
End revert.

(** The table of mounts as a list, a detached mount taking what is below it along. *)
Global Instance list_mounts : MountNs (list mount_info).
Proof.
  refine {| mounts l := l; umount2 l s := filter (fun m => below s (m_target m) = false) l |}.
  - intros l s. apply sublist_filter.
  - intros l s _ (m & -> & [E _]%list_elem_of_filter)%list_elem_of_fmap. unfold below in E. by rewrite bool_decide_eq_true_2 in E.
  - intros l s m Hm Hb. by apply list_elem_of_filter.
Defined.

Definition sample_mounts : list mount_info :=
  [Mount (bs "/") (bs "/dev/root") (bs "/"); Mount (bs "/") (bs "magisk") (bs "/sbin"); Mount (bs "/") (bs "worker") (bs "/system/bin");
   Mount (bs "/adb/modules/m/app_process") (bs "/dev/data") (bs "/system/bin/app_process"); Mount (bs "/") (bs "/dev/data") (bs "/data")].

(** Mounts with different targets, the outer ones first, are all on top. *)
Definition on_topb (l : list mount_info) : bool :=
  (fix go l := match l with [] => true | m :: post => forallb (fun x => negb (below (m_target x) (m_target m))) post && go post end) l.

Lemma on_topb_spec l s : on_topb l = true -> on_top l s.
Proof.
  intros Hb pre m post -> <-. induction pre as [|x pre IH]; cbn in Hb; apply andb_true_iff in Hb as [Hf Hb]; [|by apply IH].
  apply Forall_forall. intros y Hy. rewrite forallb_forall in Hf. by apply negb_true_iff, Hf, list_elem_of_In.
Qed.


(** ** The log *)

(** A [log_msg]: the [logger_entry] header and the payload behind it. *)
Definition msg_hdr_size (msg : bytes) : outcome Z := let! b := rd msg 2 2 in Ret (le_dec b).
Definition msg_pid (msg : bytes) : outcome Z := let! b := rd msg 4 4 in Ret (s32 (le_dec b)).
Definition msg_lid (msg : bytes) : outcome Z := let! b := rd msg 20 4 in Ret (le_dec b).
Definition msg_uid (msg : bytes) : outcome Z := let! b := rd msg 24 4 in Ret (le_dec b).

Definition LOG_ID_MAIN : Z := 0.
Definition LOG_ID_EVENTS : Z := 2.
Definition AM_PROC_START : Z := 30014.
Definition AMS_READY : Z := 3040.

Definition rd_i32 (m : bytes) (off : Z) : outcome Z := let! b := rd m off 4 in Ret (s32 (le_dec b)).

(** The fields of [android_event_am_proc_start] that are read; the structures are packed. *)
Record proc_start := ProcStart { ps_pid : Z; ps_uid : Z; ps_name : bytes }.
Definition read_proc_start (msg : bytes) (event : Z) : outcome proc_start :=
  let! pid := rd_i32 msg (event + 12) in
  let! uid := rd_i32 msg (event + 17) in
  let! len := rd_i32 msg (event + 22) in
  let! name := rd msg (event + 26) len in
  Ret (ProcStart pid uid name).

(** *** Processes *)

(** [parse_ppid]: ["%*d %*s %*c %d"]; the result is not set when the text does not match. *)
Definition scan_ppid (stat : bytes) : outcome Z :=
  let! (_, s) := scan_int stat in
  let s := drop_while (fun c => negb (isspace c)) (drop_while isspace s) in
  match drop_while isspace s with
  | [] => Fault
  | _ :: s => let! (ppid, _) := scan_int s in Ret ppid
  end.
Definition parse_ppid (stat : option bytes) : outcome Z := match stat with None => Ret (-1) | Some s => scan_ppid s end.

(** What [/proc] says of a process: its owner, its context, its [stat] file and the inode of
    its mount namespace. *)
Record proc_dir := ProcDir { pd_name : bytes; pd_uid : option Z; pd_context : option bytes; pd_stat : option bytes; pd_ns : option Z }.

Definition proc_context_match (context : option bytes) (prefix : bytes) : bool :=
  match context with Some c => str_starts c prefix | None => false end.

(** [check_zygote]: from process to namespace; [None] when [/proc] cannot be opened. *)
Fixpoint scan_zygotes (dirs : list proc_dir) (map : gmap Z Z) : outcome (gmap Z Z) :=
  match dirs with
  | [] => Ret map
  | d :: dirs =>
    let! pid := parse_int (pd_name d) in
    if pid <=? 0 then scan_zygotes dirs map
    else if negb (bool_decide (pd_uid d = Some 0)) then scan_zygotes dirs map
    else if proc_context_match (pd_context d) (bs "u:r:zygote:s0") then
      let! ppid := parse_ppid (pd_stat d) in
      match pd_ns d with
      | Some ns => scan_zygotes dirs (if ppid =? 1 then <[pid := ns]> map else map)
      | None => scan_zygotes dirs map
      end
    else scan_zygotes dirs map
  end.
Definition check_zygote (proc : option (list proc_dir)) : outcome (gmap Z Z) :=
  match proc with None => Ret ∅ | Some dirs => scan_zygotes dirs ∅ end.

(** *** Starting processes *)

(** An observation of the loop that waits for the process to leave the namespace of the
    zygote: the namespace and the owner of the process. *)
Record observation := Obs { o_ns : option Z; o_uid : option Z }.
Inductive waited := Isolated | NotIsolated | Waiting.

Fixpoint wait_isolated (zygote_ns : Z) (obs : list observation) : waited :=
  match obs with
  | [] => Waiting
  | o :: obs =>
    if bool_decide (o_ns o = Some zygote_ns) then
      if bool_decide (o_uid o = Some 0) then wait_isolated zygote_ns obs else NotIsolated
    else Isolated
  end.

(** What the monitor does: signals, and a process of its own that reverts the mounts. *)
Inductive mon_action := Stop (pid : Z) | Revert (pid : Z) | Continue (pid : Z).

(** The process forked for a start: [self] is its own number, [entered] whether it could
    join the namespaces of the process through a [pidfd]. *)
Definition follow_start (zygote_map : gmap Z Z) (self : Z) (entered : bool) (stat : option bytes) (obs : list observation) (pid : Z) : outcome (list mon_action) :=
  let! ppid := parse_ppid stat in
  match zygote_map !! ppid with
  | None => Ret []
  | Some ns => Ret (match wait_isolated ns obs with Isolated => [Revert (if entered then self else pid)] | _ => [] end)
  end.

Section monitor.
Context {D : Type} `{DenyDb D}.

(** The monitor: [ready] of [process_main_buffer], the zygotes and the deny list. *)
Record monitor := Monitor { ready : bool; zygote_map : gmap Z Z; deny_state : deny D }.

(** What the system answers while a message is handled. *)
Record answers := Answers {
  an_self : Z; an_entered : bool; an_stat : option bytes; an_obs : list observation; an_proc : option (list proc_dir);
  an_context : option bytes; an_cmdline : option bytes }.

Definition process_events_buffer (w : world) (manager : bytes) (a : answers) (msg : bytes) (m : monitor) : outcome (monitor * list mon_action) :=
  let! uid := msg_uid msg in
  if negb (uid =? 1000) then Ret (m, [])
  else
    let! event := msg_hdr_size msg in
    let! tag := rd_i32 msg event in
    if tag =? AM_PROC_START then
      let! ps := read_proc_start msg event in
      let! (d, target) := is_deny_target w manager (ps_uid ps) (ps_name ps) 0 (deny_state m) in
      let m := Monitor (ready m) (zygote_map m) d in
      if target then
        let! acts := follow_start (zygote_map m) (an_self a) (an_entered a) (an_stat a) (an_obs a) (ps_pid ps) in Ret (m, acts)
      else Ret (m, [])
    else if tag =? AMS_READY then let! map := check_zygote (an_proc a) in Ret (Monitor (ready m) map (deny_state m), [])
    else Ret (m, []).

(** The parsed entry of the main buffer: owner, tag and message. *)
Record log_entry := LogEntry { le_uid : Z; le_tag : bytes; le_message : bytes }.

(** [fgets] into the buffer of 1024 bytes, as a string: an empty file leaves the path. *)
Definition read_cmdline (path contents : bytes) : bytes :=
  match contents with
  | [] => path
  | _ => let line := take 1023 (match list_find (fun c => c = x0a) contents with Some (i, _) => take (S i) contents | None => contents end) in
         cstr line
  end.

Definition process_main_buffer (w : world) (manager : bytes) (a : answers) (msg : bytes) (entry : option log_entry) (m : monitor)
  : outcome (monitor * list mon_action) :=
  match entry with
  | None => Ret (m, [])
  | Some e =>
    if bool_decide (le_tag e = bs "AppZygote") then
      if negb (le_uid e =? 1000) then Ret (m, [])
      else Ret (Monitor (match le_message e with x53 :: _ => true | _ => false end) (zygote_map m) (deny_state m), [])
    else if negb (ready m) || negb (bool_decide (le_tag e = bs "AppZygoteInit")) then Ret (m, [])
    else if negb (proc_context_match (an_context a) (bs "u:r:app_zygote:s0")) then Ret (m, [])
    else
      let m := Monitor false (zygote_map m) (deny_state m) in
      let! pid := msg_pid msg in
      match an_cmdline a with
      | None => Ret (m, [])
      | Some contents =>
        let! (d, target) := is_deny_target w manager (le_uid e) (read_cmdline (bs "/proc/" ++ print_dec pid ++ bs "/cmdline") contents) 0 (deny_state m) in
        Ret (Monitor (ready m) (zygote_map m) d, if target then [Stop pid; Revert pid; Continue pid] else [])
      end
  end.

(** *** The loop *)

(** A round of the inner loop of [run]: whether the list is enforced, the message that is
    read ([None] when reading fails), its entry in the main buffer, and whether the list is
    still enforced after a failure. *)
Record round := Round { rn_enforced : bool; rn_msg : option bytes; rn_entry : option log_entry; rn_again : bool; rn_answers : answers }.

(** [run]: the actions, and whether the thread has ended. *)
Fixpoint run (w : world) (manager : bytes) (rounds : list round) (m : monitor) : outcome (monitor * list mon_action * bool) :=
  match rounds with
  | [] => Ret (m, [], false)
  | r :: rounds =>
    if negb (rn_enforced r) then Ret (m, [], true)
    else
      match rn_msg r with
      | None => if negb (rn_again r) then Ret (m, [], true) else run w manager rounds m
      | Some msg =>
        let! lid := msg_lid msg in
        let! (m, acts) :=
          if lid =? LOG_ID_EVENTS then process_events_buffer w manager (rn_answers r) msg m
          else if lid =? LOG_ID_MAIN then process_main_buffer w manager (rn_answers r) msg (rn_entry r) m
          else Ret (m, []) in
        let! (m, acts', ended) := run w manager rounds m in Ret (m, acts ++ acts', ended)
      end
  end.

(** [logcat] *)
Definition logcat (w : world) (manager : bytes) (proc : option (list proc_dir)) (rounds : list round) (d : deny D)
  : outcome (monitor * list mon_action * bool) :=
  let! map := check_zygote proc in run w manager rounds (Monitor false map d).
End monitor.

(** ** What the monitor does *)

(** The message the system server logs when a process starts: the header, the tag and a
    list of the user, the process, its owner and its name. *)
Definition start_head (len sys_pid tid sec nsec : Z) : bytes :=
  le_enc 2 len ++ le_enc 2 28 ++ le_enc 4 sys_pid ++ le_enc 4 tid ++ le_enc 4 sec ++ le_enc 4 nsec.
Definition start_msg (len sys_pid tid sec nsec user pid uid : Z) (name rest : bytes) : bytes :=
  start_head len sys_pid tid sec nsec ++ le_enc 4 LOG_ID_EVENTS ++ le_enc 4 1000 ++ le_enc 4 AM_PROC_START ++ [x03; x06] ++
  (x00 :: le_enc 4 user) ++ (x00 :: le_enc 4 pid) ++ (x00 :: le_enc 4 uid) ++ (x02 :: le_enc 4 (zlen name)) ++ name ++ rest.

Lemma s32_le_enc z : - 2 ^ 31 <= z < 2 ^ 31 -> s32 (le_dec (le_enc 4 z)) = z.
Proof. intros Hz. rewrite le_dec_enc. unfold s32. rewrite Zplus_mod_idemp_l. fold (s32 z). by apply s32_id. Qed.


Lemma start_msg_fields len sys_pid tid sec nsec user pid uid name rest : let msg := start_msg len sys_pid tid sec nsec user pid uid name rest in
  - 2 ^ 31 <= pid < 2 ^ 31 -> - 2 ^ 31 <= uid < 2 ^ 31 -> zlen name < 2 ^ 31 ->
  msg_lid msg = Ret LOG_ID_EVENTS /\ msg_uid msg = Ret 1000 /\ msg_hdr_size msg = Ret 28 /\ rd_i32 msg 28 = Ret AM_PROC_START /\
  read_proc_start msg 28 = Ret (ProcStart pid uid name).
Proof.
  intros msg Hp Hu Hl. pose proof (zlen_nonneg name) as Hl0. subst msg. unfold msg_lid, msg_uid, msg_hdr_size, rd_i32, read_proc_start, start_msg.
  set (h := start_head len sys_pid tid sec nsec). assert (zlen h = 20) as Hh by (unfold h, start_head; rewrite ?zlen_app, ?zlen_le_enc; done).
  pose proof (s32_le_enc pid Hp) as Ep. pose proof (s32_le_enc uid Hu) as Eu. pose proof (s32_le_enc (zlen name) ltac:(lia)) as El.
  split_and!.
  - rewrite rd_mid by done. reflexivity.
  - rewrite (app_assoc h), rd_mid by (rewrite ?zlen_app, ?zlen_le_enc, ?Hh; done). reflexivity.
  - unfold h, start_head. rewrite <- !app_assoc, rd_mid by done. reflexivity.
  - rewrite (app_assoc h), (app_assoc (h ++ _)), rd_mid by (rewrite ?zlen_app, ?zlen_le_enc, ?Hh; done). reflexivity.
  - set (t := le_enc 4 LOG_ID_EVENTS ++ le_enc 4 1000 ++ le_enc 4 AM_PROC_START ++ [x03; x06] ++ (x00 :: le_enc 4 user)).
    set (a1 := h ++ t ++ [x00]). set (a2 := a1 ++ le_enc 4 pid ++ [x00]). set (a3 := a2 ++ le_enc 4 uid ++ [x02]). set (a4 := a3 ++ le_enc 4 (zlen name)).
    set (msg := h ++ le_enc 4 LOG_ID_EVENTS ++ _).
    assert (zlen a1 = 40 /\ zlen a2 = 45 /\ zlen a3 = 50 /\ zlen a4 = 54) as (L1 & L2 & L3 & L4).
    { unfold a4, a3, a2, a1, t. rewrite ?zlen_app, ?zlen_cons, ?zlen_app, ?zlen_cons, ?zlen_nil, ?zlen_le_enc, ?Hh. cbn. done. }
    assert (msg = a1 ++ le_enc 4 pid ++ (x00 :: le_enc 4 uid) ++ (x02 :: le_enc 4 (zlen name)) ++ name ++ rest /\
            msg = a2 ++ le_enc 4 uid ++ (x02 :: le_enc 4 (zlen name)) ++ name ++ rest /\
            msg = a3 ++ le_enc 4 (zlen name) ++ name ++ rest /\ msg = a4 ++ name ++ rest) as (M1 & M2 & M3 & M4).
    { unfold msg, a4, a3, a2, a1, t. rewrite <- !app_assoc. cbn [app]. rewrite <- ?app_assoc. repeat split. }
    unfold rd_i32. assert (rd msg (28 + 12) 4 = Ret (le_enc 4 pid)) as -> by (rewrite M1; by apply rd_mid).
    assert (rd msg (28 + 17) 4 = Ret (le_enc 4 uid)) as -> by (rewrite M2; by apply rd_mid).
    assert (rd msg (28 + 22) 4 = Ret (le_enc 4 (zlen name))) as -> by (rewrite M3; by apply rd_mid).
    cbn [obind]. rewrite El. assert (rd msg (28 + 26) (zlen name) = Ret name) as -> by (rewrite M4; by apply rd_mid).
    cbn [obind]. by rewrite Ep, Eu.
Qed.

(** The process was in the namespace of the zygote, as root, until it left it. *)
Definition in_zygote (ns : Z) (o : observation) : Prop := o_ns o = Some ns /\ o_uid o = Some 0.

Lemma wait_isolated_spec ns obs : wait_isolated ns obs = Isolated <->
  exists before o after, obs = before ++ o :: after /\ Forall (in_zygote ns) before /\ o_ns o <> Some ns.
Proof.
  induction obs as [|o obs IH]; cbn [wait_isolated]; [split; [done|by intros ([] & ? & ? & ? & _)]|].
  case_bool_decide as Hn; [case_bool_decide as Hu; [rewrite IH|]|]; split.
  - intros (b & x & a & -> & Hb & Hx). exists (o :: b), x, a. split; [done|]. split; [|done]. by constructor.
  - intros ([|y b] & x & a & E & Hb & Hx); [by injection E as <- _|]. injection E as <- ->. apply Forall_cons in Hb as [_ Hb]. eauto 10.
  - done.
  - intros ([|y b] & x & a & E & Hb & Hx); injection E as <- E'; [done|]. apply Forall_cons in Hb as [[_ Hy] _]. done.
  - intros _. exists [], o, obs. repeat split; [constructor|done].
  - done.
Qed.

Section monitor_proofs.
Context {D : Type} `{DenyDb D}.
Implicit Types (m : monitor (D := D)) (d : deny D).

(** Why the mounts of [p] are taken down when a process starts: the system server said so,
    the process is a target of the list, its parent is a zygote, and after it was seen in
    the namespace of that zygote, as root, it was seen in another one or its namespace could
    not be read.  [p] is the process itself, or the child that has joined its namespace. *)
Definition start_reverts (w : world) (manager : bytes) (a : answers) (msg : bytes) m (p : Z) : Prop :=
  exists event ps d' ppid ns before o after,
    msg_uid msg = Ret 1000 /\ msg_hdr_size msg = Ret event /\ rd_i32 msg event = Ret AM_PROC_START /\
    read_proc_start msg event = Ret ps /\
    is_deny_target w manager (ps_uid ps) (ps_name ps) 0 (deny_state m) = Ret (d', true) /\
    parse_ppid (an_stat a) = Ret ppid /\ zygote_map m !! ppid = Some ns /\
    an_obs a = before ++ o :: after /\ Forall (in_zygote ns) before /\ o_ns o <> Some ns /\
    p = (if an_entered a then an_self a else ps_pid ps).

(** Why they are taken down for an app zygote: the system server has announced one, the
    process that logged the message runs in the context of app zygotes, and it is a target
    of the list by its command line.  Neither its parent nor its namespace is looked at. *)
Definition app_zygote_reverts (w : world) (manager : bytes) (a : answers) (msg : bytes) (entry : option log_entry) m (p : Z) : Prop :=
  exists e contents d', entry = Some e /\ ready m = true /\ le_tag e = bs "AppZygoteInit" /\
    proc_context_match (an_context a) (bs "u:r:app_zygote:s0") = true /\ msg_pid msg = Ret p /\
    an_cmdline a = Some contents /\
    is_deny_target w manager (le_uid e) (read_cmdline (bs "/proc/" ++ print_dec p ++ bs "/cmdline") contents) 0 (deny_state m) = Ret (d', true).

Lemma events_reverts w manager a msg m m' acts p :
  process_events_buffer w manager a msg m = Ret (m', acts) -> Revert p ∈ acts -> start_reverts w manager a msg m p.
Proof.
  unfold process_events_buffer. intros Hr Hp. apply bind_Ret_inv in Hr as (uid & Eu & Hr). destruct (Z.eqb_spec uid 1000) as [->|]; cbn [negb] in Hr; [|injection Hr as <- <-; set_solver].
  apply bind_Ret_inv in Hr as (event & Ee & Hr). apply bind_Ret_inv in Hr as (tag & Et & Hr). destruct (Z.eqb_spec tag AM_PROC_START) as [->|].
  - apply bind_Ret_inv in Hr as (ps & Es & Hr). apply bind_Ret_inv in Hr as ([d' target] & Ed & Hr). destruct target; [|injection Hr as <- <-; set_solver].
    apply bind_Ret_inv in Hr as (acts' & Ef & Hr). injection Hr as <- <-. unfold follow_start in Ef. apply bind_Ret_inv in Ef as (ppid & Epp & Ef).
    cbn [zygote_map] in Ef. destruct (zygote_map m !! ppid) as [ns|] eqn:En; [|injection Ef as <-; set_solver].
    destruct (wait_isolated ns (an_obs a)) eqn:Ew; injection Ef as <-; [|set_solver..].
    apply wait_isolated_spec in Ew as (before & o & after & Eo & Hb & Ho). exists event, ps, d', ppid, ns, before, o, after. repeat (split; [done|]). set_solver.
  - destruct (tag =? AMS_READY); [apply bind_Ret_inv in Hr as (mp & _ & Hr)|]; injection Hr as <- <-; set_solver.
Qed.

Lemma main_reverts w manager a msg entry m m' acts p :
  process_main_buffer w manager a msg entry m = Ret (m', acts) -> Revert p ∈ acts ->
  app_zygote_reverts w manager a msg entry m p /\ acts = [Stop p; Revert p; Continue p].
Proof.
  unfold process_main_buffer. intros Hr Hp. destruct entry as [e|]; [|injection Hr as <- <-; set_solver].
  case_bool_decide; [destruct (negb (le_uid e =? 1000)); injection Hr as <- <-; set_solver|].
  destruct (ready m) eqn:Er; cbn [negb orb] in Hr; [|injection Hr as <- <-; set_solver].
  case_bool_decide as Et; cbn [negb] in Hr; [|injection Hr as <- <-; set_solver].
  destruct (proc_context_match _ _) eqn:Ec; cbn [negb] in Hr; [|injection Hr as <- <-; set_solver].
  apply bind_Ret_inv in Hr as (pid & Ep & Hr). destruct (an_cmdline a) as [contents|] eqn:El; [|injection Hr as <- <-; set_solver].
  apply bind_Ret_inv in Hr as ([d' target] & Ed & Hr). destruct target; injection Hr as <- <-; [|set_solver].
  assert (p = pid) as -> by set_solver. split; [|done]. exists e, contents, d'. done.
Qed.

(** C11: the monitor, over all of its loop and both buffers, takes mounts down only for a
    process of the deny list.  Either the system server logged its start, a zygote is its
    parent and after it was seen in the namespace of that zygote, as root, it was seen in
    another one (or its namespace could not be read): the namespace of the zygote, in which
    every app starts, is not touched.  Or an app zygote was announced by the system server
    and the process that then logs its start is in the context of app zygotes, in which
    case it is stopped before and continued after. *)
Theorem revert_only_isolated w manager rounds m m' acts ended p :
  run w manager rounds m = Ret (m', acts, ended) -> Revert p ∈ acts ->
  exists r1 r r2 m0 acts0 msg acts1 acts2,
    rounds = r1 ++ r :: r2 /\ run w manager r1 m = Ret (m0, acts0, false) /\
    rn_enforced r = true /\ rn_msg r = Some msg /\ acts = acts0 ++ acts1 ++ acts2 /\ Revert p ∈ acts1 /\
    (msg_lid msg = Ret LOG_ID_EVENTS /\ start_reverts w manager (rn_answers r) msg m0 p \/
     msg_lid msg = Ret LOG_ID_MAIN /\ app_zygote_reverts w manager (rn_answers r) msg (rn_entry r) m0 p /\
       acts1 = [Stop p; Revert p; Continue p]).
Proof.
  revert m m' acts ended. induction rounds as [|r rounds IH]; intros m m' acts ended; cbn [run].
  { intros [= <- <- <-] Hp. set_solver. }
  destruct (rn_enforced r) eqn:Een; cbn [negb]; [|intros [= <- <- <-] Hp; set_solver].
  destruct (rn_msg r) as [msg|] eqn:Em.
  2:{ destruct (rn_again r) eqn:Eag; cbn [negb]; [|intros [= <- <- <-] Hp; set_solver]. intros Hr Hp.
      destruct (IH _ _ _ _ Hr Hp) as (r1 & x & r2 & m0 & a0 & msg & a1 & a2 & -> & Hr1 & Hrest).
      exists (r :: r1), x, r2, m0, a0, msg, a1, a2. split; [done|]. split; [|done]. cbn [run]. by rewrite Een, Em, Eag. }
  intros Hall Hp. apply bind_Ret_inv in Hall as (lid & El & Hall). apply bind_Ret_inv in Hall as ([m1 acts1] & Em1 & Hall).
  apply bind_Ret_inv in Hall as ([[m2 acts2] ended'] & Hr & Hret). injection Hret as <- <- <-.
  apply elem_of_app in Hp as [Hin|Hp].
  - exists [], r, rounds, m, [], msg, acts1, acts2. repeat (split; [done|]).
    destruct (Z.eqb_spec lid LOG_ID_EVENTS) as [->|_]; [left; split; [done|by eapply events_reverts]|].
    destruct (Z.eqb_spec lid LOG_ID_MAIN) as [->|_]; [right; split; [done|by eapply main_reverts]|].
    injection Em1 as <- <-. set_solver.
  - destruct (IH _ _ _ _ Hr Hp) as (r1 & x & r2 & m0 & a0 & msg' & a1 & a2 & -> & Hr1 & He & Hmsg & -> & Hrest).
    exists (r :: r1), x, r2, m0, (acts1 ++ a0), msg', a1, a2. split; [done|]. split.
    { cbn [run]. rewrite Een, Em. cbn [negb]. rewrite El. cbn [obind]. rewrite Em1. cbn [obind]. rewrite Hr1. done. }
    repeat (split; [done|]). split; [by rewrite <- app_assoc|done].
Qed.

(** C12: a process that was added to the deny list is followed.  Let the package be
    installed with an app id below 90000, the world and the views of the list be well formed,
    the numbers fit an [int], and the process have a parent that can be read from its stat
    file (its command has no blank) and that is a zygote whose namespace is known.  While
    the list is enforced, when the system server logs the start of the process and it is then seen in a namespace that is
    not that of the zygote, or in one that cannot be read, its mounts are taken down. *)
Theorem added_process_is_reverted w manager pkg proc d d' uid pid len sys tid sec nsec user rest a ppid ns before o after m :
  world_ok w -> views_ok w d -> add_list w manager pkg proc d = Ret (d', D_OK) ->
  app_of w pkg = Some (to_app_id uid) -> 0 <= to_app_id uid < 90000 ->
  let name := match proc with [] => pkg | _ => proc end in
  - 2 ^ 31 <= uid < 2 ^ 31 -> - 2 ^ 31 <= pid < 2 ^ 31 -> zlen name < 2 ^ 31 ->
  deny_state m = d' -> parse_ppid (an_stat a) = Ret ppid -> zygote_map m !! ppid = Some ns ->
  an_obs a = before ++ o :: after -> Forall (in_zygote ns) before -> o_ns o <> Some ns ->
  exists m', run w manager [Round true (Some (start_msg len sys tid sec nsec user pid uid name rest)) None true a] m =
    Ret (m', [Revert (if an_entered a then an_self a else pid)], false).
Proof.
  intros Hw Hv Ha Happ Hid name Hu Hp Hl Hd Hpp Hz Ho Hb Hi.
  destruct (add_list_targets w manager pkg proc d d' uid 0 Hw Hv Ha Happ Hid) as [d2 E]. fold name in E.
  destruct (start_msg_fields len sys tid sec nsec user pid uid name rest Hp Hu Hl) as (F1 & F2 & F3 & F4 & F5).
  cbn [run rn_enforced rn_msg negb]. rewrite F1. cbn [obind]. change (LOG_ID_EVENTS =? LOG_ID_EVENTS) with true. cbn beta iota.
  unfold process_events_buffer. cbn [rn_answers]. rewrite F2. cbn [obind]. change (negb (1000 =? 1000)) with false. cbn beta iota. rewrite F3. cbn [obind]. rewrite F4. cbn [obind].
  change (AM_PROC_START =? AM_PROC_START) with true. cbn beta iota. rewrite F5. cbn [obind ps_uid ps_name ps_pid]. rewrite Hd, E. cbn [obind zygote_map].
  unfold follow_start. rewrite Hpp. cbn [obind]. rewrite Hz.
  rewrite (proj2 (wait_isolated_spec ns (an_obs a))) by (exists before, o, after; done). cbn [obind app]. eauto.
Qed.
End monitor_proofs.

(** A process forked from the zygote 77 that gets a namespace of its own. *)
Definition sample_answers : answers :=
  Answers 900 true (Some (bs "1234 (main) S 77 77 0 0")) [Obs (Some 5) (Some 0); Obs (Some 6) (Some 0)] None None None.
Definition sample_start : bytes := start_msg 60 500 500 0 0 0 1234 10100 (bs "com.app:x") (bs "activity").

Lemma added_process_is_reverted_witness : exists d m', add_list world0 JAVA_PACKAGE_NAME (bs "com.app") (bs "com.app:x") deny0 = Ret (d, D_OK) /\
  run world0 JAVA_PACKAGE_NAME [Round true (Some sample_start) None true sample_answers] (Monitor false {[77 := 5]} d) = Ret (m', [Revert 900], false).
Proof.
  destruct app_added as ([d r] & E & Hr%Z.eqb_eq). cbn in Hr. subst r. exists d.
  destruct (added_process_is_reverted world0 JAVA_PACKAGE_NAME (bs "com.app") (bs "com.app:x") deny0 d 10100 1234 60 500 500 0 0 0 (bs "activity")
    sample_answers 77 5 [Obs (Some 5) (Some 0)] (Obs (Some 6) (Some 0)) [] (Monitor false {[77 := 5]} d)) as [m' R].
  - exact world0_ok.
  - exact (deny0_ok world0).
  - exact E.
  - reflexivity.
  - vm_compute. split; [discriminate|reflexivity].
  - lia.
  - lia.
  - vm_compute. reflexivity.
  - reflexivity.
  - vm_compute. reflexivity.
  - vm_compute. reflexivity.
  - reflexivity.
  - repeat constructor.
  - discriminate.
  - exists m'. split; [exact E|exact R].
Defined.

Definition is_revert (acts : list mon_action) : bool := match acts with [Revert p] => p =? 900 | _ => false end.
Lemma sample_revert : exists x, (let! (d, _) := add_list world0 JAVA_PACKAGE_NAME (bs "com.app") (bs "com.app:x") deny0 in
  run world0 JAVA_PACKAGE_NAME [Round true (Some sample_start) None true sample_answers] (Monitor false {[77 := 5]} d)) = Ret x /\ is_revert x.1.2 = true.
Proof. apply Ret_check. vm_compute. reflexivity. Qed.

Lemma revert_only_isolated_witness : exists d m' ended,
  run world0 JAVA_PACKAGE_NAME [Round true (Some sample_start) None true sample_answers] (Monitor false {[77 := 5]} d) = Ret (m', [Revert 900], ended) /\
  exists msg m0, start_reverts world0 JAVA_PACKAGE_NAME sample_answers msg m0 900.
Proof.
  destruct sample_revert as ([[m' acts] ended] & E & Hr). apply bind_Ret_inv in E as ([d r] & _ & E). exists d, m', ended.
  assert (acts = [Revert 900]) as -> by (cbn in Hr; destruct acts as [|[?|p|?] []]; try done; cbn in Hr; apply Z.eqb_eq in Hr; by rewrite Hr).
  split; [exact E|].
  destruct (revert_only_isolated world0 JAVA_PACKAGE_NAME [Round true (Some sample_start) None true sample_answers]
    (Monitor false {[77 := 5]} d) m' [Revert 900] ended 900 E ltac:(set_solver))
    as (r1 & x & r2 & m0 & a0 & msg & a1 & a2 & Er & _ & _ & Hmsg & _ & _ & [(_ & Hs)|(Hl & _)]).
  - exists msg, m0. destruct r1 as [|y [|z r1]]; [|discriminate Er|discriminate Er]. injection Er as <- _. exact Hs.
  - exfalso. destruct r1 as [|y [|z r1]]; [|discriminate Er|discriminate Er]. injection Er as <- _.
    injection Hmsg as <-. vm_compute in Hl. discriminate Hl.
Defined.

(** A command with a space in its name: the parent is not read. *)
Example spaced_comm : parse_ppid (Some (bs "1234 (my app) S 77 77 0 0")) = Fault.
Proof. reflexivity. Qed.
