(* ===== verification/Ptrace.v ===== *)
(** The process monitor of the deny list that traces the zygotes:
    [native/src/core/deny/ptrace.cpp].  A stop of a traced process that [waitpid] reports is
    one step of a state machine; what [/proc] says is a snapshot for the step. *)

From S2P Require Import Prelude Base Denylist SuConnect Monitor.
From S2P Require Import BootHdr.

(** ** Processes *)

(** What [/proc] says of a process: owner, device and inode of its directory; command line,
    context, [stat] and [status] files; device and inode of its mount namespace. *)
Record pview := PView {
  v_stat : option (Z * (Z * Z)); v_cmdline : option bytes; v_context : option bytes; v_pstat : option bytes;
  v_status : option bytes; v_ns : option (Z * Z) }.

(** [bitset<PID_MAX>] indexed from 1: an index outside is undefined. *)
Definition PID_MAX : Z := 32768.
Definition pid_ok (pid : Z) : bool := (1 <=? pid) && (pid <=? PID_MAX).
Definition pid_get (s : gset Z) (pid : Z) : outcome bool := if pid_ok pid then Ret (bool_decide (pid ∈ s)) else Fault.
Definition pid_set (s : gset Z) (pid : Z) (b : bool) : outcome (gset Z) :=
  if pid_ok pid then Ret (if b then {[pid]} ∪ s else s ∖ {[pid]}) else Fault.

(** [read_file] into a buffer of 1024 bytes that is then read as a string: what the file
    does not fill is not initialised. *)
Definition read_file (contents : bytes) : outcome bytes :=
  let b := take 1024 contents in if bool_decide (x00 ∈ b) then Ret (cstr b) else Fault.

(** The word at the beginning of a text. *)
Fixpoint first_word (s : bytes) : bytes :=
  match s with [] => [] | c :: s => if isspace c then [] else c :: first_word s end.

(** What the tracer asks of the kernel, and the processes it starts to change mounts. *)
Inductive op :=
| Attach (pid : Z) | SetOptions (pid : Z) (options : Z) | Cont (pid signal : Z) | Syscall (pid signal : Z) | Detach (pid signal : Z)
| GetEventMsg (pid : Z) | KillStop (pid : Z) | MountMagisk (pid : Z) | RevertDaemon (pid client : Z) | StopTimer.

Definition SIGTRAP : Z := 5.
Definition SIGSTOP : Z := 19.
Definition PTRACE_EVENT_FORK : Z := 1.
Definition PTRACE_EVENT_VFORK : Z := 2.
Definition PTRACE_EVENT_EXIT : Z := 6.
Definition O_TRACESYSGOOD : Z := 0x1.
Definition O_TRACEFORK : Z := 0x2.
Definition O_TRACEVFORK : Z := 0x4.
Definition O_TRACEEXIT : Z := 0x40.

(** [WIFSTOPPED], [WSTOPSIG], [WEVENT] *)
Definition WIFSTOPPED (s : Z) : bool := Z.land s 0xff =? 0x7f.
Definition WSTOPSIG (s : Z) : Z := Z.shiftr (Z.land s 0xff00) 8.
Definition WEVENT (s : Z) : Z := Z.shiftr (Z.land s 0xffff0000) 16.

Section tracer.
Context {D : Type} `{DenyDb D}.
(** The installed apps, the manager, whether SELinux is enabled, whether there are 32 bit
    processes beside 64 bit ones, and the snapshot. *)
Context (w : world) (manager : bytes) (selinux : bool) (zygote_count : nat) (sys : Z -> pview).

Record tracer := Tracer { zygotes : gmap Z (Z * Z); attaches : gset Z; allowed : gset Z; checked : gset Z; tdeny : deny D }.

Definition detach_pid (pid signal : Z) (t : tracer) : outcome (tracer * list op) :=
  let! att := pid_set (attaches t) pid false in
  let! all := pid_set (allowed t) pid false in
  let! chk := pid_set (checked t) pid false in
  Ret (Tracer (zygotes t) att all chk (tdeny t), [Detach pid signal]).

Definition is_zygote_done (t : tracer) : bool := (zygote_count <=? size (zygotes t))%nat.

(** [check_process] without the branch for the executable, which no caller asks for. *)
Definition check_process (pid : Z) (process : bytes) (context : option bytes) : outcome bool :=
  match v_cmdline (sys pid) with
  | None => Ret false
  | Some c =>
    let! s := read_file c in
    if negb (bool_decide (s = process)) then Ret false
    else match context with
         | None => Ret true
         | Some ctx =>
           match v_context (sys pid) with
           | None => Ret false
           | Some c => let! s := read_file c in Ret (str_contains s ctx)
           end
         end
  end.

Definition is_zygote (pid : Z) : outcome bool :=
  let context := if selinux then Some (bs "u:r:zygote:s0") else None in
  let! a := check_process pid (bs "zygote") context in
  if a then Ret true
  else
    let! b := check_process pid (bs "zygote64") context in
    if b then Ret true else check_process pid (bs "zygote32") context.

(** The loop of [is_process]: [key] is what the last line that was not blank begins with. *)
Fixpoint find_tgid (pid : Z) (key : option bytes) (lines : list bytes) : outcome bool :=
  match lines with
  | [] => Ret false
  | l :: lines =>
    let token := first_word (drop_while isspace (cstr l)) in
    if (32 <=? length token)%nat then Fault
    else
      let key := match token with [] => key | _ => Some token end in
      match key with
      | None => Fault
      | Some k =>
        if bool_decide (k = bs "Tgid:") then
          let! (tgid, _) := scan_int (drop_while (fun c => negb (isspace c)) (drop_while isspace (cstr l))) in Ret (tgid =? pid)
        else find_tgid pid (Some k) lines
      end
  end.
Definition is_process (pid uid : Z) : outcome bool :=
  match v_stat (sys pid) with
  | Some (u, _) =>
    if negb (u =? uid) then Ret false
    else match v_status (sys pid) with
         | None => Ret false
         | Some text => find_tgid pid None (fgets_all 127 text)
         end
  | None => Ret false
  end.

(** [new_zygote]: [attached] is whether [PTRACE_ATTACH] succeeds. *)
Definition new_zygote (attached : Z -> bool) (pid : Z) (t : tracer) : tracer * list op :=
  match v_ns (sys pid), v_ns (sys 1) with
  | Some st, Some init_st =>
    if bool_decide (st = init_st) then (t, [])
    else
      let with_zygote := Tracer (<[pid := st]> (zygotes t)) (attaches t) (allowed t) (checked t) (tdeny t) in
      match zygotes t !! pid with
      | Some _ => (with_zygote, [])
      | None =>
        if negb (attached pid) then (t, [Attach pid])
        else (with_zygote, [Attach pid] ++ (if sulist (tdeny t) then [RevertDaemon pid (-2)] else []) ++
                           [SetOptions pid (Z.lor O_TRACEFORK (Z.lor O_TRACEVFORK O_TRACEEXIT)); Cont pid 0])
      end
  | _, _ => (t, [])
  end.

(** The processes of [check_zygote]: the zygotes, and whether the system server runs. *)
Fixpoint crawl_zygotes (pids : list Z) : outcome (list Z * bool) :=
  match pids with
  | [] => Ret ([], false)
  | pid :: pids =>
    let! p := is_process pid 0 in
    let! z := if p then is_zygote pid else Ret false in
    let! ppid := if z then parse_ppid (v_pstat (sys pid)) else Ret 0 in
    if z && (ppid =? 1) then let! (l, s) := crawl_zygotes pids in Ret (pid :: l, s)
    else
      let! p := is_process pid 1000 in
      let! server := if p then (let! ppid := parse_ppid (v_pstat (sys pid)) in is_zygote ppid) else Ret false in
      let! (l, s) := crawl_zygotes pids in Ret (l, server || s)
  end.

Fixpoint new_zygotes (attached : Z -> bool) (l : list Z) (t : tracer) : tracer * list op :=
  match l with
  | [] => (t, [])
  | pid :: l => let '(t, o) := new_zygote attached pid t in let '(t, o') := new_zygotes attached l t in (t, o ++ o')
  end.

Definition check_zygote (su_bin_fd : Z) (attached : Z -> bool) (pids : list Z) (t : tracer) : outcome (tracer * list op) :=
  if su_bin_fd <? 0 then Ret (t, [])
  else
    let! (l, started) := crawl_zygotes pids in
    let '(t, o) := if started then new_zygotes attached l t else (t, []) in
    Ret (t, o ++ if is_zygote_done t then [StopTimer] else []).

(** [umount_all_zygote] *)
Fixpoint umount_all_zygote (pids : list Z) : outcome (list op) :=
  match pids with
  | [] => Ret []
  | pid :: pids =>
    let! p := is_process pid 0 in
    let! z := if p then is_zygote pid else Ret false in
    let! ppid := if z then parse_ppid (v_pstat (sys pid)) else Ret 0 in
    let! o := umount_all_zygote pids in
    Ret ((if z && (ppid =? 1) then [RevertDaemon pid (-2)] else []) ++ o)
  end.

(** ** A process that runs *)

Definition still_zygote (cmdline : bytes) : bool :=
  bool_decide (cmdline ∈ [bs "zygote"; bs "zygote32"; bs "zygote64"; bs "usap32"; bs "usap64"; bs "<pre-initialized>"]).

(** [check_pid]: also whether the process was detached. *)
Definition check_pid (pid : Z) (t : tracer) : outcome (tracer * list op * bool) :=
  let not_target (t : tracer) (o : list op) := let! (t, o') := detach_pid pid 0 t in Ret (t, o ++ o', true) in
  match v_stat (sys pid) with
  | None => not_target t []
  | Some (uid, dir) =>
    if uid =? 0 then Ret (t, [], false)
    else
      match v_cmdline (sys pid) with
      | None => not_target t []
      | Some c =>
        let! cmdline := read_file c in
        if still_zygote cmdline then Ret (t, [], false)
        else
          let! (d, target) := is_deny_target w manager uid cmdline 95 (tdeny t) in
          let t := Tracer (zygotes t) (attaches t) (allowed t) (checked t) d in
          if negb target then not_target t []
          else
            let! ppid := parse_ppid (v_pstat (sys pid)) in
            let ns := default dir (v_ns (sys pid)) in
            match v_ns (sys ppid) with
            | None => Fault
            | Some parent_ns =>
              if bool_decide (ns = parent_ns) then not_target t []
              else
                let! (t, o) := detach_pid pid 0 t in
                not_target t (o ++ [KillStop pid; if sulist (tdeny t) then MountMagisk pid else RevertDaemon pid (-1)])
            end
      end
  end.

(** [get_content]: an empty file leaves the path in the buffer. *)
Definition get_content (pid : Z) (file : bytes) (contents : option bytes) : bytes :=
  match contents with
  | None => []
  | Some c => read_cmdline (bs "/proc/" ++ print_dec pid ++ bs "/" ++ file) c
  end.

(** An app zygote, or a process that is not specialised yet, is allowed from then on. *)
Definition note_allowed (pid : Z) (t : tracer) : outcome tracer :=
  let! a := pid_get (allowed t) pid in
  if negb a && (str_contains (get_content pid (bs "attr/current") (v_context (sys pid))) (bs "u:r:app_zygote:s0") ||
                bool_decide (get_content pid (bs "cmdline") (v_cmdline (sys pid)) = bs "<pre-initialized>"))
  then let! all := pid_set (allowed t) pid true in Ret (Tracer (zygotes t) (attaches t) all (checked t) (tdeny t))
  else Ret t.

(** The stop of a system call: [true] if the process was detached. *)
Definition check_proc (pid : Z) (t : tracer) : outcome (tracer * list op * bool) :=
  let! chk := pid_set (checked t) pid true in
  let! t := note_allowed pid (Tracer (zygotes t) (attaches t) (allowed t) chk (tdeny t)) in
  let! a := pid_get (allowed t) pid in
  if negb a then Ret (t, [], false) else check_pid pid t.

Definition syscall_stop (pid : Z) (t : tracer) : outcome (tracer * list op * bool) :=
  let! c := pid_get (checked t) pid in
  if c then check_proc pid t
  else
    let uid := from_option fst 0 (v_stat (sys pid)) in
    if uid =? 0 then Ret (t, [], false)
    else
      let detached := let! (t, o) := detach_pid pid 0 t in Ret (t, o, true) in
      if 90000 <=? uid mod 100000 then if sulist (tdeny t) then detached else check_proc pid t
      else
        let! on_list := is_uid_on_list uid (tdeny t) in
        if on_list then check_proc pid t else detached.

(** A round of the loop of [proc_monitor] for a process that [waitpid] returned; [msg] is
    the message of the event. *)
Definition proc_event (pid status msg : Z) (t : tracer) : outcome (tracer * list op) :=
  if negb (WIFSTOPPED status) then detach_pid pid 0 t
  else
    let event := WEVENT status in
    let signal := WSTOPSIG status in
    let is_zyg := bool_decide (is_Some (zygotes t !! pid)) in
    if (signal =? SIGTRAP) && negb (Z.land (if is_zyg then 1 else 0) event =? 0) then
      if (event =? PTRACE_EVENT_FORK) || (event =? PTRACE_EVENT_VFORK) then
        let! att := pid_set (attaches t) msg true in
        Ret (Tracer (zygotes t) att (allowed t) (checked t) (tdeny t), [GetEventMsg pid; Cont pid 0])
      else
        let! (t, o) := detach_pid pid 0 (Tracer (delete pid (zygotes t)) (attaches t) (allowed t) (checked t) (tdeny t)) in
        Ret (t, GetEventMsg pid :: o)
    else if signal =? Z.lor SIGTRAP 0x80 then
      let! (t, o, detached) := syscall_stop pid t in
      Ret (t, o ++ if detached then [] else [Syscall pid 0])
    else if signal =? SIGSTOP then
      let! a := pid_get (attaches t) pid in
      let! a := if a then Ret true else is_process pid 0 in
      let! att := pid_set (attaches t) pid a in
      let t := Tracer (zygotes t) att (allowed t) (checked t) (tdeny t) in
      if a then Ret (t, [SetOptions pid O_TRACESYSGOOD; Syscall pid 0]) else detach_pid pid 0 t
    else
      let! a := (if is_zyg then Ret false else pid_get (attaches t) pid) in
      Ret (t, [if a then Syscall pid signal else Cont pid signal]).

(** [term_thread] *)
Definition term_thread (t : tracer) : tracer := Tracer ∅ ∅ ∅ ∅ (tdeny t).
End tracer.

(** ** Every stop is answered *)

Definition resumes (pid : Z) (o : op) : bool :=
  match o with Cont p _ | Syscall p _ | Detach p _ => p =? pid | _ => false end.

Section tracer_proofs.
Context {D : Type} `{DenyDb D}.
Context (w : world) (manager : bytes) (selinux : bool) (zygote_count : nat) (sys : Z -> pview).
Implicit Types (t : tracer (D := D)).

(** Only processes that were checked are allowed, the list is loaded and its views are
    valid. *)
Definition tracer_ok t : Prop := allowed t ⊆ checked t /\ views_ok w (tdeny t) /\ loaded (tdeny t) = true.
(** Nothing is remembered of a process. *)
Definition forgotten (pid : Z) t : Prop := (pid ∉ attaches t) /\ (pid ∉ allowed t) /\ (pid ∉ checked t).

(** The files of a process can be read: its command line ends, its parent and the namespace
    of the parent are there, its [status] file has the line that is looked for. *)
Definition sane (pid : Z) : Prop :=
  (forall c, v_cmdline (sys pid) = Some c -> x00 ∈ take 1024 c) /\
  (exists ppid ns, parse_ppid (v_pstat (sys pid)) = Ret ppid /\ v_ns (sys ppid) = Some ns) /\
  (exists b, is_process sys pid 0 = Ret b).

Lemma pid_set_ok s pid b : pid_ok pid = true -> pid_set s pid b = Ret (if b then {[pid]} ∪ s else s ∖ {[pid]}).
Proof. unfold pid_set. by intros ->. Qed.
Lemma pid_get_ok s pid : pid_ok pid = true -> pid_get s pid = Ret (bool_decide (pid ∈ s)).
Proof. unfold pid_get. by intros ->. Qed.

Lemma detach_ok pid s t : pid_ok pid = true -> tracer_ok t ->
  exists t', detach_pid pid s t = Ret (t', [Detach pid s]) /\ tracer_ok t' /\ forgotten pid t' /\ tdeny t' = tdeny t /\ zygotes t' = zygotes t.
Proof.
  intros Hp [Ha Hv]. unfold detach_pid. rewrite !pid_set_ok by done. cbn [obind]. eexists. split; [done|]. unfold tracer_ok, forgotten. cbn. set_solver.
Qed.

(** What the checks of a stopped process leave. *)
Definition checked_stop (pid : Z) t' (o : list op) (detached : bool) : Prop :=
  tracer_ok t' /\ if detached then Detach pid 0 ∈ o /\ forgotten pid t' else o = [].

Lemma detached_ok pid t o : pid_ok pid = true -> tracer_ok t ->
  exists t' o', (let! (t, o') := detach_pid pid 0 t in Ret (t, o ++ o', true)) = Ret (t', o', true) /\ checked_stop pid t' o' true /\ o' = o ++ [Detach pid 0].
Proof.
  intros Hp Ht. destruct (detach_ok pid 0 t Hp Ht) as (t' & -> & Ht' & Hf & _). cbn [obind]. eexists _, _. split; [done|]. split; [|done].
  split; [done|]. split; [set_solver|done].
Qed.

Lemma check_pid_ok pid t : world_ok w -> sane pid -> pid_ok pid = true -> tracer_ok t ->
  exists t' o d, check_pid w manager sys pid t = Ret (t', o, d) /\ checked_stop pid t' o d.
Proof.
  intros Hw (Hc & (ppid & ns & Hpp & Hns) & _) Hp Ht. unfold check_pid.
  assert (forall t o, tracer_ok t -> exists t' o' d, (let! (t, o') := detach_pid pid 0 t in Ret (t, o ++ o', true)) = Ret (t', o', d) /\ checked_stop pid t' o' d) as Hnt.
  { intros t1 o1 Ht1. destruct (detached_ok pid t1 o1 Hp Ht1) as (t' & o' & E & Hs & _). eauto 10. }
  destruct (v_stat (sys pid)) as [[uid dir]|]; [|by apply Hnt]. destruct (uid =? 0); [by eexists _, _, _|].
  destruct (v_cmdline (sys pid)) as [c|] eqn:Ec; [|by apply Hnt]. unfold read_file. rewrite bool_decide_eq_true_2 by by apply Hc. cbn [obind].
  destruct (still_zygote _); [by eexists _, _, _|].
  destruct Ht as (Ha & Hviews & Hld).
  destruct (is_deny_target_safe w manager uid (cstr (take 1024 c)) 95 (tdeny t) Hw Hviews) as (d & target & Ed & Hv).
  pose proof (is_deny_target_loaded _ _ _ _ _ _ _ _ Hw Hviews Hld Ed) as Hld'. rewrite Ed. cbn [obind].
  set (t1 := Tracer _ _ _ _ d). assert (tracer_ok t1) as Ht1 by (by split_and!). destruct target; cbn [negb]; [|by apply Hnt].
  rewrite Hpp. cbn [obind]. rewrite Hns. case_bool_decide; [by apply Hnt|]. destruct (detach_ok pid 0 t1 Hp Ht1) as (t2 & -> & Ht2 & _). cbn [obind]. by apply Hnt.
Qed.

Lemma note_allowed_ok pid t : pid_ok pid = true -> pid ∈ checked t -> tracer_ok t -> exists t', note_allowed sys pid t = Ret t' /\ tracer_ok t'.
Proof.
  intros Hp Hc [Ha Hv]. unfold note_allowed. rewrite pid_get_ok by done. cbn [obind]. case_match; [|by eexists].
  rewrite pid_set_ok by done. cbn [obind]. eexists. split; [done|]. split; [cbn; set_solver|done].
Qed.

Lemma check_proc_ok pid t : world_ok w -> sane pid -> pid_ok pid = true -> tracer_ok t ->
  exists t' o d, check_proc w manager sys pid t = Ret (t', o, d) /\ checked_stop pid t' o d.
Proof.
  intros Hw Hs Hp Ht. unfold check_proc. rewrite pid_set_ok by done. cbn [obind].
  destruct (note_allowed_ok pid (Tracer (zygotes t) (attaches t) (allowed t) ({[pid]} ∪ checked t) (tdeny t))) as (t1 & -> & Ht1); [done|set_solver| |].
  { destruct Ht as [Ha Hv]. split; [cbn; set_solver|done]. }
  cbn [obind]. rewrite pid_get_ok by done. cbn [obind]. case_bool_decide; cbn [negb]; [by apply check_pid_ok|by eexists _, _, _].
Qed.

Lemma syscall_stop_ok pid t : world_ok w -> sane pid -> pid_ok pid = true -> tracer_ok t ->
  exists t' o d, syscall_stop w manager sys pid t = Ret (t', o, d) /\ checked_stop pid t' o d.
Proof.
  intros Hw Hs Hp Ht. unfold syscall_stop. rewrite pid_get_ok by done. cbn [obind]. case_bool_decide; [by apply check_proc_ok|].
  destruct (_ =? 0); [by eexists _, _, _|].
  assert (exists t' o d, (let! (t, o) := detach_pid pid 0 t in Ret (t, o, true)) = Ret (t', o, d) /\ checked_stop pid t' o d) as Hd.
  { destruct (detached_ok pid t [] Hp Ht) as (t' & o' & E & Hc & _). cbn [app] in E. eauto 10. }
  destruct (90000 <=? _); [destruct (sulist (tdeny t)); [done|by apply check_proc_ok]|].
  destruct (is_uid_on_list_safe w (from_option fst 0 (v_stat (sys pid))) (tdeny t) (proj1 (proj2 Ht)) (proj2 (proj2 Ht))) as (b & ->). cbn [obind].
  destruct b; [by apply check_proc_ok|done].
Qed.

Definition answered (pid : Z) t' (o : list op) : Prop :=
  existsb (resumes pid) o = true /\ tracer_ok t' /\ forall s, Detach pid s ∈ o -> forgotten pid t'.

Lemma detach_answered pid s t : pid_ok pid = true -> tracer_ok t -> exists t' o, detach_pid pid s t = Ret (t', o) /\ answered pid t' o.
Proof.
  intros Hp Ht. destruct (detach_ok pid s t Hp Ht) as (t' & -> & Ht' & Hf & _). eexists _, _. split; [done|]. unfold answered. cbn. by rewrite Z.eqb_refl.
Qed.


(** *** Whose mounts are changed *)

Definition changes_mounts (o : op) : bool := match o with MountMagisk _ | RevertDaemon _ _ => true | _ => false end.

Lemma detach_inv pid s t t' o : detach_pid pid s t = Ret (t', o) -> o = [Detach pid s] /\ tdeny t' = tdeny t.
Proof.
  unfold detach_pid. intros E. apply bind_Ret_inv in E as (a & _ & E). apply bind_Ret_inv in E as (b & _ & E). apply bind_Ret_inv in E as (c & _ & E). by injection E as <- <-.
Qed.

(** A target: not root, on the list, and in a mount namespace of its own. *)
Definition is_target (pid : Z) t : Prop := exists uid dir c cmdline d ppid parent_ns,
  v_stat (sys pid) = Some (uid, dir) /\ uid <> 0 /\ v_cmdline (sys pid) = Some c /\ read_file c = Ret cmdline /\
  is_deny_target w manager uid cmdline 95 (tdeny t) = Ret (d, true) /\
  parse_ppid (v_pstat (sys pid)) = Ret ppid /\ v_ns (sys ppid) = Some parent_ns /\ default dir (v_ns (sys pid)) <> parent_ns.

Lemma check_pid_changes pid t t' o d : check_pid w manager sys pid t = Ret (t', o, d) -> existsb changes_mounts o = true ->
  is_target pid t /\ d = true /\ o = [Detach pid 0; KillStop pid; if sulist (tdeny t') then MountMagisk pid else RevertDaemon pid (-1); Detach pid 0].
Proof.
  intros E Hc. unfold check_pid in E.
  assert (forall t1 t2 o1 o2 d2, (let! (t, o') := detach_pid pid 0 t1 in Ret (t, o1 ++ o', true)) = Ret (t2, o2, d2) -> o2 = o1 ++ [Detach pid 0] /\ d2 = true /\ tdeny t2 = tdeny t1) as Hnt.
  { intros t1 t2 o1 o2 d2 E1. apply bind_Ret_inv in E1 as ([t3 o3] & E2 & E1). apply detach_inv in E2 as [-> Ht]. by injection E1 as <- <- <-. }
  destruct (v_stat (sys pid)) as [[uid dir]|] eqn:Es; [|by apply Hnt in E as (-> & _)]. destruct (Z.eqb_spec uid 0) as [|Hu]; [injection E as _ <- _; done|].
  destruct (v_cmdline (sys pid)) as [c|] eqn:Ec; [|by apply Hnt in E as (-> & _)]. apply bind_Ret_inv in E as (cmdline & Er & E).
  destruct (still_zygote cmdline); [injection E as _ <- _; done|]. apply bind_Ret_inv in E as ([dd target] & Ed & E).
  destruct target; cbn [negb] in E; [|by apply Hnt in E as (-> & _)]. apply bind_Ret_inv in E as (ppid & Ep & E).
  destruct (v_ns (sys ppid)) as [pns|] eqn:En; [|done]. case_bool_decide as Hn; [by apply Hnt in E as (-> & _)|].
  apply bind_Ret_inv in E as ([t1 o1] & E1 & E). apply detach_inv in E1 as [-> _]. apply Hnt in E as (-> & -> & ->). split; [|done].
  exists uid, dir, c, cmdline, dd, ppid, pns. done.
Qed.

Lemma syscall_stop_changes pid t t' o d : syscall_stop w manager sys pid t = Ret (t', o, d) -> existsb changes_mounts o = true ->
  is_target pid t /\ d = true /\ o = [Detach pid 0; KillStop pid; if sulist (tdeny t') then MountMagisk pid else RevertDaemon pid (-1); Detach pid 0].
Proof.
  assert (forall t t' o d, check_proc w manager sys pid t = Ret (t', o, d) -> existsb changes_mounts o = true ->
    is_target pid t /\ d = true /\ o = [Detach pid 0; KillStop pid; if sulist (tdeny t') then MountMagisk pid else RevertDaemon pid (-1); Detach pid 0]) as Hcp.
  { intros t1 t2 o2 d2 E Hc. unfold check_proc in E. apply bind_Ret_inv in E as (chk & _ & E). apply bind_Ret_inv in E as (t3 & E3 & E).
    apply bind_Ret_inv in E as (a & _ & E). destruct a; cbn [negb] in E; [|injection E as _ <- _; done].
    assert (tdeny t3 = tdeny t1) as Hd3.
    { unfold note_allowed in E3. apply bind_Ret_inv in E3 as (b & _ & E3). destruct (_ && _); [apply bind_Ret_inv in E3 as (x & _ & E3)|]; by injection E3 as <-. }
    destruct (check_pid_changes pid t3 t2 o2 d2 E Hc) as [Ht Ho]. split; [|done]. unfold is_target in *. by rewrite Hd3 in Ht. }
  unfold syscall_stop. intros E Hc. apply bind_Ret_inv in E as (c & _ & E). destruct c; [by eapply Hcp|]. destruct (_ =? 0); [injection E as _ <- _; done|].
  assert ((let! (t, o) := detach_pid pid 0 t in Ret (t, o, true)) = Ret (t', o, d) -> existsb changes_mounts o = true -> False) as Hdet.
  { intros E1 H1. apply bind_Ret_inv in E1 as ([t1 o1] & E2 & E1). apply detach_inv in E2 as [-> _]. injection E1 as _ <- _. done. }
  destruct (90000 <=? _); [destruct (sulist (tdeny t)); [by destruct (Hdet E Hc)|by eapply Hcp]|].
  apply bind_Ret_inv in E as (b & _ & E). destruct b; [by eapply Hcp|by destruct (Hdet E Hc)].
Qed.

Lemma proc_event_changes pid status msg t t' o : proc_event w manager sys pid status msg t = Ret (t', o) -> existsb changes_mounts o = true ->
  is_target pid t /\ o = [Detach pid 0; KillStop pid; if sulist (tdeny t') then MountMagisk pid else RevertDaemon pid (-1); Detach pid 0].
Proof.
  unfold proc_event. intros E Hc. destruct (WIFSTOPPED status); cbn [negb] in E; [|by apply detach_inv in E as [-> _]].
  destruct ((WSTOPSIG status =? SIGTRAP) && _); [destruct (_ || _)|destruct (_ =? Z.lor SIGTRAP 0x80); [|destruct (_ =? SIGSTOP)]].
  - apply bind_Ret_inv in E as (a & _ & E). injection E as _ <-. done.
  - apply bind_Ret_inv in E as ([t1 o1] & E1 & E). apply detach_inv in E1 as [-> _]. injection E as _ <-. done.
  - apply bind_Ret_inv in E as ([[t1 o1] d1] & E1 & E). injection E as <- <-. rewrite existsb_app in Hc. destruct d1.
    + cbn [existsb] in Hc. rewrite orb_false_r in Hc. rewrite app_nil_r. destruct (syscall_stop_changes pid t t1 o1 true E1 Hc) as (Ht & _ & Ho). done.
    + cbn [existsb changes_mounts orb] in Hc. rewrite orb_false_r in Hc. by destruct (syscall_stop_changes pid t t1 o1 false E1 Hc) as (_ & [=] & _).
  - apply bind_Ret_inv in E as (a & _ & E). apply bind_Ret_inv in E as (b & _ & E). apply bind_Ret_inv in E as (c & _ & E).
    destruct b; [injection E as _ <-; done|]. by apply detach_inv in E as [-> _].
  - apply bind_Ret_inv in E as (a & _ & E). injection E as _ <-. by destruct a.
Qed.

(** A zygote: a process of root, not a thread, with the name and context of a zygote, whose
    parent is init. *)
Definition root_zygote (pid : Z) : Prop :=
  is_process sys pid 0 = Ret true /\ is_zygote selinux sys pid = Ret true /\ parse_ppid (v_pstat (sys pid)) = Ret 1.

Lemma new_zygote_changes attached pid t t' o x : new_zygote sys attached pid t = (t', o) -> x ∈ o -> changes_mounts x = true ->
  x = RevertDaemon pid (-2) /\ sulist (tdeny t) = true /\ attached pid = true.
Proof.
  unfold new_zygote. intros E Hx Hc.
  destruct (v_ns (sys pid)) as [st|]; [|injection E as _ <-; set_solver]. destruct (v_ns (sys 1)) as [ist|]; [|injection E as _ <-; set_solver].
  case_bool_decide; [injection E as _ <-; set_solver|]. destruct (zygotes t !! pid); [injection E as _ <-; set_solver|].
  destruct (attached pid) eqn:Ea; cbn [negb] in E; injection E as _ <-.
  - destruct (sulist (tdeny t)); cbn [app] in Hx; rewrite ?elem_of_cons in Hx;
      destruct_or! Hx; subst; try done; by apply not_elem_of_nil in Hx.
  - apply list_elem_of_singleton in Hx as ->. done.
Qed.

Lemma new_zygote_deny attached pid t t' o : new_zygote sys attached pid t = (t', o) -> tdeny t' = tdeny t.
Proof. unfold new_zygote. intros E. repeat case_match; by injection E as <- _. Qed.

Lemma new_zygotes_changes attached l : forall t t' o x, new_zygotes sys attached l t = (t', o) -> x ∈ o -> changes_mounts x = true ->
  exists pid, pid ∈ l /\ x = RevertDaemon pid (-2) /\ sulist (tdeny t) = true /\ attached pid = true.
Proof.
  induction l as [|pid l IH]; intros t t' o x E Hx Hc; cbn [new_zygotes] in E; [injection E as _ <-; set_solver|].
  destruct (new_zygote sys attached pid t) as [t1 o1] eqn:E1. destruct (new_zygotes sys attached l t1) as [t2 o2] eqn:E2.
  injection E as _ <-. apply elem_of_app in Hx as [Hx|Hx].
  - destruct (new_zygote_changes _ _ _ _ _ _ E1 Hx Hc) as (? & ? & ?). exists pid. set_solver.
  - destruct (IH _ _ _ _ E2 Hx Hc) as (p & Hp & ? & ? & ?). exists p. rewrite <- (new_zygote_deny _ _ _ _ _ E1). set_solver.
Qed.

(** The test for a zygote of the crawls. *)
Lemma zygote_test pid z ppid : (let! p := is_process sys pid 0 in if p then is_zygote selinux sys pid else Ret false) = Ret z ->
  (if z : bool then parse_ppid (v_pstat (sys pid)) else Ret 0) = Ret ppid -> z && (ppid =? 1) = true -> root_zygote pid.
Proof.
  intros Ez Ep [Hz Hp%Z.eqb_eq]%andb_true_iff. subst z. subst ppid. apply bind_Ret_inv in Ez as (p & E & Ez). destruct p; [|done]. done.
Qed.

Lemma crawl_zygotes_root pids : forall l s, crawl_zygotes selinux sys pids = Ret (l, s) -> Forall root_zygote l.
Proof.
  induction pids as [|pid pids IH]; intros l s E; cbn [crawl_zygotes] in E; [injection E as <- _; constructor|].
  apply bind_Ret_inv in E as (p & Ep & E). apply bind_Ret_inv in E as (z & Ez & E). apply bind_Ret_inv in E as (ppid & Epp & E).
  destruct (z && (ppid =? 1)) eqn:Et.
  - apply bind_Ret_inv in E as ([l1 s1] & E1 & E). injection E as <- _. constructor; [|by eapply IH].
    eapply zygote_test; [|exact Epp|exact Et]. rewrite Ep. exact Ez.
  - apply bind_Ret_inv in E as (p' & _ & E). apply bind_Ret_inv in E as (sv & _ & E). apply bind_Ret_inv in E as ([l1 s1] & E1 & E).
    injection E as <- _. by eapply IH.
Qed.

Lemma check_zygote_changes su_bin_fd attached pids t t' o x :
  check_zygote selinux zygote_count sys su_bin_fd attached pids t = Ret (t', o) -> x ∈ o -> changes_mounts x = true ->
  exists pid, root_zygote pid /\ x = RevertDaemon pid (-2) /\ sulist (tdeny t) = true /\ attached pid = true.
Proof.
  unfold check_zygote. intros E Hx Hc. destruct (su_bin_fd <? 0); [injection E as _ <-; set_solver|].
  apply bind_Ret_inv in E as ([l started] & El & E). apply crawl_zygotes_root in El.
  destruct (if started then new_zygotes sys attached l t else (t, [])) as [t1 o1] eqn:E1. injection E as _ <-.
  apply elem_of_app in Hx as [Hx|Hx].
  - destruct started; [|injection E1 as _ <-; set_solver]. destruct (new_zygotes_changes _ _ _ _ _ _ E1 Hx Hc) as (pid & Hp & ?).
    rewrite Forall_forall in El. exists pid. split; [by apply El|done].
  - destruct (is_zygote_done _ _); [apply list_elem_of_singleton in Hx as ->; done|set_solver].
Qed.

Lemma umount_all_changes pids : forall o x, umount_all_zygote selinux sys pids = Ret o -> x ∈ o ->
  exists pid, pid ∈ pids /\ root_zygote pid /\ x = RevertDaemon pid (-2).
Proof.
  induction pids as [|pid pids IH]; intros o x E Hx; cbn [umount_all_zygote] in E; [injection E as <-; set_solver|].
  apply bind_Ret_inv in E as (p & Ep & E). apply bind_Ret_inv in E as (z & Ez & E). apply bind_Ret_inv in E as (ppid & Epp & E).
  apply bind_Ret_inv in E as (o1 & E1 & E). injection E as <-. apply elem_of_app in Hx as [Hx|Hx].
  - destruct (z && (ppid =? 1)) eqn:Et; [|set_solver]. apply list_elem_of_singleton in Hx as ->. exists pid. split; [set_solver|].
    split; [|done]. eapply zygote_test; [|exact Epp|exact Et]. rewrite Ep. exact Ez.
  - destruct (IH _ _ E1 Hx) as (q & Hq & ?). exists q. split; [set_solver|done].
Qed.

(** C14: whose mounts the tracer changes.  At the stop of a traced process, only those of a
    process that is not root, is a target of the list and is not in the mount namespace of
    its parent (a namespace that cannot be read is taken to be another one); it is then
    detached and stopped first, so that it runs only after the change.  When it looks for
    zygotes, only those of a zygote (a process of root whose parent is init, by name and
    context), in sulist mode, after it was attached; and when the mounts are taken from all
    zygotes, only those of zygotes. *)
Theorem proc_event_targets :
  (forall pid status msg t t' o, proc_event w manager sys pid status msg t = Ret (t', o) -> existsb changes_mounts o = true ->
     is_target pid t /\ o = [Detach pid 0; KillStop pid; if sulist (tdeny t') then MountMagisk pid else RevertDaemon pid (-1); Detach pid 0]) /\
  (forall su_bin_fd attached pids t t' o x,
     check_zygote selinux zygote_count sys su_bin_fd attached pids t = Ret (t', o) -> x ∈ o -> changes_mounts x = true ->
     exists pid, root_zygote pid /\ x = RevertDaemon pid (-2) /\ sulist (tdeny t) = true /\ attached pid = true) /\
  (forall pids o x, umount_all_zygote selinux sys pids = Ret o -> x ∈ o ->
     exists pid, pid ∈ pids /\ root_zygote pid /\ x = RevertDaemon pid (-2)).
Proof.
  split; [apply proc_event_changes|]. split; [apply check_zygote_changes|apply umount_all_changes].
Qed.

(** [zygote_map.count(pid) & event] is a bitwise test: of the events that are asked for only
    the fork has an odd number, so the exit of a zygote and a [vfork] of it are taken for
    signals, and the zygote stays in the map. *)
Lemma zygote_exit_unnoticed pid status msg t : WIFSTOPPED status = true -> WSTOPSIG status = SIGTRAP -> is_Some (zygotes t !! pid) ->
  WEVENT status = PTRACE_EVENT_EXIT \/ WEVENT status = PTRACE_EVENT_VFORK ->
  proc_event w manager sys pid status msg t = Ret (t, [Cont pid SIGTRAP]).
Proof.
  intros Hst Hsig Hz He. unfold proc_event. rewrite Hst, Hsig, (bool_decide_eq_true_2 _ Hz). by destruct He as [-> | ->].
Qed.
End tracer_proofs.

(** ** A process of an app *)

Definition sample_sys (pid : Z) : pview :=
  if pid =? 1234 then PView (Some (10100, (1, 9))) (Some (bs "com.app:x" ++ [x00])) (Some (bs "u:r:untrusted_app:s0" ++ [x00]))
    (Some (bs "1234 (main) S 77 77 0")) (Some (bs "Name:	main" ++ [x0a] ++ bs "Tgid:	1234" ++ [x0a])) (Some (4, 6))
  else PView (Some (0, (1, 8))) (Some (bs "zygote64" ++ [x00])) (Some (bs "u:r:zygote:s0" ++ [x00]))
    (Some (bs "77 (main) S 1 1 0")) (Some (bs "Tgid:	77" ++ [x0a])) (Some (4, 5)).
(** The stop at a system call. *)
Definition sample_status : Z := 0x857f.
Definition sample_tracer (d : deny two_lists) : tracer := Tracer ∅ {[1234]} {[1234]} {[1234]} d.


Lemma sample_change : exists x, (let! (d, _) := add_list world0 JAVA_PACKAGE_NAME (bs "com.app") (bs "com.app:x") deny0 in
  proc_event world0 JAVA_PACKAGE_NAME sample_sys 1234 sample_status 1 (sample_tracer d)) = Ret x /\ existsb changes_mounts x.2 = true.
Proof. apply Ret_check. vm_compute. reflexivity. Qed.

Lemma proc_event_targets_witness : exists d t' o, proc_event world0 JAVA_PACKAGE_NAME sample_sys 1234 sample_status 1 (sample_tracer d) = Ret (t', o) /\
  is_target world0 JAVA_PACKAGE_NAME sample_sys 1234 (sample_tracer d) /\ KillStop 1234 ∈ o.
Proof.
  destruct sample_change as ([t' o] & E & Hc). apply bind_Ret_inv in E as ([d r] & _ & E). exists d, t', o. split; [exact E|].
  destruct (proj1 (proc_event_targets world0 JAVA_PACKAGE_NAME true 1 sample_sys) 1234 sample_status 1 (sample_tracer d) t' o E Hc) as [Ht Ho].
  split; [exact Ht|]. rewrite Ho. set_solver.
Defined.

(** The command line of a kernel thread is empty: the buffer is read uninitialised. *)
Example empty_command_line : check_process (fun _ => PView None (Some []) None None None None) 2 (bs "zygote") None = Fault.
Proof. reflexivity. Qed.
