(* ===== verification/InitMount.v ===== *)
(** Block devices and the first mounts of magiskinit: [native/src/init/mount.cpp]. *)

From S2P Require Import Prelude Base Files BootConfig.

(** ** Block devices *)

(** [devinfo]: the four buffers as the strings they hold. *)
Record devinfo := Dev { major : Z; minor : Z; devname : bytes; partname : bytes; dmname : bytes; devpath : bytes }.

(** [strscpy] into a buffer of 32 bytes. *)
Definition copy32 (s : bytes) : bytes := take 31 (cstr s).

(** A line of the [uevent] file of a device. *)
Definition device_line (st : outcome devinfo) (key value : bytes) : outcome devinfo * bool :=
  (let! dev := st in
   if bool_decide (key = bs "MAJOR") then
     let! n := parse_int value in Ret (Dev n (minor dev) (devname dev) (partname dev) (dmname dev) (devpath dev))
   else if bool_decide (key = bs "MINOR") then
     let! n := parse_int value in Ret (Dev (major dev) n (devname dev) (partname dev) (dmname dev) (devpath dev))
   else if bool_decide (key = bs "DEVNAME") then Ret (Dev (major dev) (minor dev) (copy32 value) (partname dev) (dmname dev) (devpath dev))
   else if bool_decide (key = bs "PARTNAME") then Ret (Dev (major dev) (minor dev) (devname dev) (copy32 value) (dmname dev) (devpath dev))
   else Ret dev, true).

(** [parse_device]: the numbers are not reset; [None] is a file that cannot be opened. *)
Definition parse_device (dev : devinfo) (uevent : option bytes) : outcome devinfo :=
  let dev := Ret (Dev (major dev) (minor dev) [] [] [] []) in
  match uevent with Some text => parse_prop_file text device_line dev | None => dev end.

(** An entry of [/sys/dev/block]: its [uevent] and [dm/name] files and its real path. *)
Record block_entry := Entry { be_uevent : option bytes; be_dm : option bytes; be_path : bytes }.

(** The loop of [collect_devices]; [dev] is the record that is used for all entries. *)
Fixpoint collect_devices (partition_map : kv_pairs) (dev : devinfo) (entries : list block_entry) : outcome (list devinfo) :=
  match entries with
  | [] => Ret []
  | e :: entries =>
    let! dev := parse_device dev (be_uevent e) in
    let dm := match be_dm e with Some name => copy32 (rtrim name) | None => dmname dev end in
    let part := match partname dev with
                | [] => match list_find (fun i => i.1 = devname dev) partition_map with Some (_, i) => copy32 i.2 | None => [] end
                | p => p
                end in
    let dev := Dev (major dev) (minor dev) (devname dev) part dm (be_path e) in
    let! rest := collect_devices partition_map dev entries in
    Ret (dev :: rest)
  end.

(** [strcasecmp] *)
Definition lower (c : byte) : byte := if isupper c then z2b (b2z c + 32) else c.
Definition strcasecmp (a b : bytes) : bool := bool_decide (lower <$> a = lower <$> b).

(** The tests of [find_block] on a device. *)
Definition is_block (name : bytes) (dev : devinfo) : bool :=
  strcasecmp (partname dev) name || strcasecmp (dmname dev) name || strcasecmp (devname dev) name || str_ends (devpath dev) (bs "/" ++ name).

(** [makedev] *)
Definition makedev (maj min : Z) : Z :=
  Z.lor (Z.lor (Z.shiftl (Z.land (u32 maj) 0xfffff000) 32) (Z.shiftl (Z.land (u32 maj) 0xfff) 8))
        (Z.lor (Z.shiftl (Z.land (u32 min) 0xffffff00) 12) (Z.land (u32 min) 0xff)).
Definition dev_number (dev : devinfo) : Z := makedev (major dev) (minor dev).

Section blocks.
(** The devices each scan of [/sys/dev/block] finds. *)
Context (scans : nat -> list devinfo).

(** [dev_list] and the number of scans that were made. *)
Record blocks := Blocks { dev_list : list devinfo; scanned : nat }.

Fixpoint find_loop (tries : nat) (name : bytes) (b : blocks) : Z * blocks :=
  match tries with
  | O => (0, b)
  | S tries =>
    match list_find (fun dev => is_block name dev = true) (dev_list b) with
    | Some (_, dev) => (dev_number dev, b)
    | None => find_loop tries name (Blocks (scans (scanned b)) (S (scanned b)))
    end
  end.

Definition find_block (name : bytes) (b : blocks) : Z * blocks :=
  let b := match dev_list b with [] => Blocks (scans (scanned b)) (S (scanned b)) | _ => b end in
  find_loop 3 name b.

(** ** The root partition *)

(** The names that are tried in a round, until one has a number above 0. *)
Fixpoint try_names (names : list bytes) (b : blocks) : Z * blocks :=
  match names with
  | [] => (0, b)
  | name :: names => let '(dev, b) := find_block name b in if 0 <? dev then (dev, b) else try_names names b
  end.

Definition root_names (slot : bytes) : list bytes := [bs "vroot"; bs "APP"; bs "system" ++ slot].

(** The loop of [mount_system_root]. *)
Fixpoint find_root (fuel : nat) (rootwait : bool) (slot : bytes) (b : blocks) : outcome (Z * blocks) :=
  match fuel with
  | O => Loop
  | S fuel =>
    let '(dev, b) := try_names (root_names slot) b in
    if 0 <? dev then Ret (dev, b) else if rootwait then find_root fuel rootwait slot b else Exit 1
  end.

(** Calls of the kernel; [ok] is whether a mount succeeded. *)
Inductive call :=
| Mknod (path : bytes) (mode dev : Z) | Mkdir (path : bytes)
| MountFs (src dst fs : bytes) (rdonly ok : bool) | MountBind (src dst : bytes) | MountTmpfs (src dst opts : bytes) | Umount (path : bytes)
| SwitchRoot (path : bytes).

Definition MIRRDIR : bytes := bs ".magisk/mirror".
Definition PREINITMIRR : bytes := bs ".magisk/preinit".
Definition PREINITDEV : bytes := bs ".magisk/device/preinit".
Definition S_IFBLK : Z := 0x6000.

(** [mount_system_root]: the calls, whether the boot has two stages and whether the
    emulator's hack applies. *)
Definition mount_system_root (fuel : nat) (c : BootConfig) (ext4 erofs init_there : bool) (b : blocks) : outcome (list call * bool * bool * blocks) :=
  let! (dev, b) := find_root fuel (rootwait c) (cstr (slot c)) b in
  let node := [Mkdir (bs "/dev"); Mknod (bs "/dev/root") (Z.lor S_IFBLK 0x180) dev; Mkdir (bs "/system_root")] in
  let mnt fs ok := MountFs (bs "/dev/root") (bs "/system_root") fs true ok in
  let! mounts := (if ext4 then Ret [mnt (bs "ext4") true]
                  else if erofs then Ret [mnt (bs "ext4") false; mnt (bs "erofs") true] else Exit 1) in
  let after := [SwitchRoot (bs "/system_root"); MountTmpfs (bs "tmpfs") (bs "/dev") (bs "mode=755")] in
  if negb init_there && emulator c then
    let '(vendor, b) := find_block (bs "vendor") b in
    Ret (node ++ mounts ++ after ++ [Mkdir (bs "/dev/block"); Mknod (bs "/dev/block/vde1") (Z.lor S_IFBLK 0x180) vendor;
                                     MountFs (bs "/dev/block/vde1") (bs "/vendor") (bs "ext4") true true], false, true, b)
  else Ret (node ++ mounts ++ after, init_there, false, b).

(** [mount_preinit_dir]: [mounted] is where the device is mounted already, [access] whether
    a file exists once it is. *)
Definition mount_preinit_dir (preinit_dev : bytes) (mounted : option bytes) (ext4 f2fs : bool) (access : bytes -> bool) (b : blocks) : list call * blocks :=
  match preinit_dev with
  | [] => ([], b)
  | _ =>
    let '(dev, b) := find_block preinit_dev b in
    if dev =? 0 then ([], b)
    else
      let first := [Mknod PREINITDEV (Z.lor S_IFBLK 0x180) dev; Mkdir MIRRDIR] in
      let '(mnt, ok) :=
        match mounted with
        | Some p => ([MountBind p MIRRDIR], true)
        | None => if ext4 then ([MountFs PREINITDEV MIRRDIR (bs "ext4") true true], true)
                  else ([MountFs PREINITDEV MIRRDIR (bs "ext4") true false; MountFs PREINITDEV MIRRDIR (bs "f2fs") true f2fs], f2fs)
        end in
      if ok then
        let preinit_dir := resolve_preinit_dir access MIRRDIR in
        (first ++ mnt ++ [Mkdir PREINITMIRR] ++ (if access preinit_dir then [MountBind preinit_dir PREINITMIRR] else []) ++ [Umount MIRRDIR], b)
      else (first ++ mnt, b)
  end.
End blocks.

(** ** Searching *)

Section search.
Context (scans : nat -> list devinfo).
Implicit Types (b : blocks).

Definition first_match (name : bytes) (l : list devinfo) : option devinfo := snd <$> list_find (fun dev => is_block name dev = true) l.

Lemma first_match_app name l1 l2 : first_match name (l1 ++ l2) = match first_match name l1 with Some d => Some d | None => first_match name l2 end.
Proof.
  unfold first_match. induction l1 as [|d l1 IH]; [done|]. cbn [app list_find]. destruct (decide _); [done|].
  destruct (list_find _ (l1 ++ l2)) as [[]|], (list_find _ l1) as [[]|]; cbn in *; done.
Qed.

(** The lists that are searched. *)
Fixpoint searched (tries : nat) b : list devinfo :=
  match tries with O => [] | S tries => dev_list b ++ searched tries (Blocks (scans (scanned b)) (S (scanned b))) end.

Lemma find_loop_spec tries name : forall b, (find_loop scans tries name b).1 = from_option dev_number 0 (first_match name (searched tries b)).
Proof.
  induction tries as [|tries IH]; intros b; [done|]. cbn [find_loop searched]. rewrite first_match_app. unfold first_match at 1.
  destruct (list_find _ (dev_list b)) as [[i d]|]; [done|]. apply IH.
Qed.

(** A partition is the first device that has the name, in up to three scans. *)
Lemma find_block_spec name b :
  (find_block scans name b).1 = from_option dev_number 0 (first_match name
    (match dev_list b with
     | [] => scans (scanned b) ++ scans (S (scanned b)) ++ scans (S (S (scanned b)))
     | l => l ++ scans (scanned b) ++ scans (S (scanned b))
     end)).
Proof.
  unfold find_block. rewrite find_loop_spec. cbn [searched]. destruct (dev_list b) eqn:E; cbn [dev_list scanned]; rewrite ?E, app_nil_r; done.
Qed.

(** Every device of the name, of the current list and of all scans, has a number. *)
Definition numbered (name : bytes) b : Prop :=
  (forall dev, dev ∈ dev_list b -> is_block name dev = true -> 0 < dev_number dev) /\
  forall k dev, dev ∈ scans k -> is_block name dev = true -> 0 < dev_number dev.

Lemma numbered_scan name b k j : numbered name b -> numbered name (Blocks (scans k) j).
Proof. intros [_ Hs]. split; [apply Hs|exact Hs]. Qed.

Lemma first_match_in name l d : first_match name l = Some d -> d ∈ l /\ is_block name d = true.
Proof.
  unfold first_match. destruct (list_find _ l) as [[i x]|] eqn:E; [|done]. intros [= <-]. apply list_find_Some in E as (E & Hb & _).
  split; [by eapply list_elem_of_lookup_2|done].
Qed.

(** Searching for a name [x] keeps the list or replaces it by a scan. *)
Lemma find_loop_keeps tries x name : forall b, numbered name b -> let r := find_loop scans tries x b in
  numbered name r.2 /\ (scanned b <= scanned r.2)%nat /\ (x = name -> 0 < r.1 \/ (scanned r.2 = scanned b + tries)%nat).
Proof.
  induction tries as [|tries IH]; intros b Hb; cbn [find_loop]; [cbn; split_and!; [done|lia|intros _; right; lia]|].
  destruct (list_find _ (dev_list b)) as [[i d]|] eqn:E; cbn [fst snd].
  - split_and!; [done|lia|]. intros ->. left. apply list_find_Some in E as (E & Hd & _). apply Hb; [by eapply list_elem_of_lookup_2|done].
  - destruct (IH (Blocks (scans (scanned b)) (S (scanned b)))) as (H1 & H2 & H3); [by eapply numbered_scan|]. cbn [scanned] in H2, H3.
    split_and!; [done|lia|]. intros Ex. destruct (H3 Ex); [auto|right; lia].
Qed.

Lemma find_block_keeps x name b : numbered name b -> let r := find_block scans x b in
  numbered name r.2 /\ (scanned b <= scanned r.2)%nat /\ (x = name -> 0 < r.1 \/ (scanned b + 3 <= scanned r.2)%nat).
Proof.
  intros Hb. unfold find_block. destruct (dev_list b) eqn:E.
  - destruct (find_loop_keeps 3 x name (Blocks (scans (scanned b)) (S (scanned b)))) as (H1 & H2 & H3); [by eapply numbered_scan|]. cbn [scanned] in H2, H3.
    split_and!; [done|lia|]. intros Ex. destruct (H3 Ex); [auto|right; lia].
  - destruct (find_loop_keeps 3 x name b Hb) as (H1 & H2 & H3). split_and!; [done|lia|]. intros Ex. destruct (H3 Ex); [auto|right; lia].
Qed.

(** The scans from [n] on have the partition. *)
Definition appears (n : nat) (name : bytes) : Prop := forall k, (n <= k)%nat -> exists dev, dev ∈ scans k /\ is_block name dev = true.

Lemma find_block_hits n name b : appears n name -> numbered name b -> (n <= scanned b)%nat -> 0 < (find_block scans name b).1.
Proof.
  intros Ha [Hb Hs] Hn. rewrite find_block_spec.
  set (l := match dev_list b with [] => _ | _ => _ end).
  assert (exists dev, dev ∈ l /\ is_block name dev = true) as (dev & Hin & Hd).
  { destruct (Ha (scanned b) Hn) as (dev & Hin & Hd). exists dev. split; [|done]. unfold l. destruct (dev_list b); set_solver. }
  assert (forall d, d ∈ l -> is_block name d = true -> 0 < dev_number d) as Hl.
  { intros d. unfold l. destruct (dev_list b); rewrite !elem_of_app; intros [Hd'|[Hd'|Hd']]; eauto. }
  destruct (first_match name l) as [d|] eqn:E; [cbn; by apply first_match_in in E as [??]; apply Hl|]. exfalso. unfold first_match in E.
  destruct (list_find _ l) as [[]|] eqn:F; [done|]. apply list_find_None in F. rewrite Forall_forall in F. by apply (F dev).
Qed.

(** A round that searches for the name finds a device, or three more scans were made. *)
Lemma try_names_keeps name names : forall b, numbered name b -> let r := try_names scans names b in
  numbered name r.2 /\ (scanned b <= scanned r.2)%nat /\ (name ∈ names -> 0 < r.1 \/ (scanned b + 3 <= scanned r.2)%nat).
Proof.
  induction names as [|x names IH]; intros b Hb; cbn [try_names]; [cbn; split_and!; [done|lia|set_solver]|].
  pose proof (find_block_keeps x name b Hb) as (H1 & H2 & H3). destruct (find_block scans x b) as [dev b1]. cbn [fst snd] in *.
  destruct (Z.ltb_spec 0 dev); cbn [fst snd]; [split_and!; [done|done|auto]|]. destruct (IH b1 H1) as (H4 & H5 & H6).
  split_and!; [done|lia|]. intros [<-|Hin]%elem_of_cons; [destruct (H3 eq_refl); [lia|right; lia]|]. destruct (H6 Hin); [auto|right; lia].
Qed.

Lemma try_names_hits n name names : forall b, appears n name -> name ∈ names -> numbered name b -> (n <= scanned b)%nat -> 0 < (try_names scans names b).1.
Proof.
  induction names as [|x names IH]; intros b Ha Hin Hb Hn; [set_solver|]. cbn [try_names].
  pose proof (find_block_keeps x name b Hb) as (H1 & H2 & _). apply elem_of_cons in Hin as [<-|Hin].
  - pose proof (find_block_hits n name b Ha Hb Hn) as H3. destruct (find_block scans name b) as [dev b1]. cbn in *. by rewrite (proj2 (Z.ltb_lt 0 dev)).
  - destruct (find_block scans x b) as [dev b1]. cbn [fst snd] in *. destruct (Z.ltb_spec 0 dev); [done|]. apply IH; [done|done|done|lia].
Qed.

(** C17: waiting for the root partition ends: let a partition with one of the names be there
    to stay, from the scan [n] on, and let no device of that name have the number 0 (as the
    first device of a scan has whose uevent file cannot be read; such a device counts as not
    found); then the loop returns a device after at most [n + 1] rounds, whatever the other
    devices are.  Without [rootwait] there is
    one round, and magiskinit exits if it finds nothing. *)
Theorem find_root_terminates n name slot b : appears n name -> name ∈ root_names slot -> numbered name b ->
  (exists dev b', find_root scans (S n) true slot b = Ret (dev, b') /\ 0 < dev) /\
  (forall fuel, find_root scans (S fuel) false slot b = let '(dev, b') := try_names scans (root_names slot) b in if 0 <? dev then Ret (dev, b') else Exit 1).
Proof.
  intros Ha Hin Hb. split; [|intros fuel; cbn [find_root]; by destruct (try_names _ _ b)].
  assert (forall fuel b, numbered name b -> (n <= scanned b + fuel)%nat -> exists dev b', find_root scans (S fuel) true slot b = Ret (dev, b') /\ 0 < dev) as Hg; [|apply Hg; [done|lia]].
  clear b Hb. induction fuel as [|fuel IH]; intros b Hb Hn.
  - pose proof (try_names_hits n name (root_names slot) b Ha Hin Hb ltac:(lia)) as Ht. cbn [find_root]. destruct (try_names scans _ b) as [dev b1]. cbn in Ht.
    rewrite (proj2 (Z.ltb_lt 0 dev)) by done. eauto.
  - remember (S fuel) as f eqn:Ef. cbn [find_root]. pose proof (try_names_keeps name (root_names slot) b Hb) as (H1 & _ & H3).
    destruct (try_names scans _ b) as [dev b1]. cbn [fst snd] in *. destruct (Z.ltb_spec 0 dev); [eauto|]. subst f.
    apply IH; [done|]. destruct (H3 Hin) as [?|?]; lia.
Qed.
End search.

(** A system partition that is there from the third scan on, under its name with the slot. *)
Definition sample_scans (k : nat) : list devinfo :=
  Dev 8 1 (bs "sda1") (bs "boot") [] (bs "/devices/sda1") ::
  (if (2 <=? k)%nat then [Dev 8 2 (bs "sda2") (bs "SYSTEM_A") [] (bs "/devices/sda2")] else []).

Lemma sample_numbers k dev : dev ∈ sample_scans k -> 0 < dev_number dev.
Proof. unfold sample_scans. destruct (2 <=? k)%nat; intros Hd; set_unfold in Hd; naive_solver (by vm_compute). Qed.

Lemma find_root_terminates_witness : exists dev b', find_root sample_scans 3 true (bs "_a") (Blocks [] 0) = Ret (dev, b') /\ 0 < dev.
Proof.
  apply (find_root_terminates sample_scans 2 (bs "system_a") (bs "_a") (Blocks [] 0)).
  - intros k Hk. exists (Dev 8 2 (bs "sda2") (bs "SYSTEM_A") [] (bs "/devices/sda2")). unfold sample_scans.
    rewrite (proj2 (Nat.leb_le 2 k)) by exact Hk. split; [set_solver|vm_compute; reflexivity].
  - set_solver.
  - split; [intros dev Hd; by apply not_elem_of_nil in Hd|]. intros k dev Hd _. by apply (sample_numbers k).
Defined.

(** ** What is mounted *)

(** Whether the mirror is mounted after the calls. *)
Fixpoint mirror_mounted (l : list call) (m : bool) : bool :=
  match l with
  | [] => m
  | MountFs _ dst _ _ ok :: l => mirror_mounted l (m || (ok && bool_decide (dst = MIRRDIR)))
  | MountBind _ dst :: l => mirror_mounted l (m || bool_decide (dst = MIRRDIR))
  | Umount p :: l => mirror_mounted l (if bool_decide (p = MIRRDIR) then false else m)
  | _ :: l => mirror_mounted l m
  end.
Definition read_only (c : call) : bool := match c with MountFs _ _ _ rdonly _ => rdonly | _ => true end.

(** Block devices are only mounted read-only, and the temporary mount is taken down. *)
Lemma preinit_mounts scans dev mounted ext4 f2fs access b : let '(calls, _) := mount_preinit_dir scans dev mounted ext4 f2fs access b in
  forallb read_only calls = true /\ mirror_mounted calls false = false.
Proof.
  unfold mount_preinit_dir. destruct dev as [|c dev]; [done|]. destruct (find_block scans (c :: dev) b) as [n b1]. destruct (n =? 0); [done|].
  destruct mounted as [p|]; [|destruct ext4; [|destruct f2fs]]; cbn [forallb app]; try destruct (access _); done.
Qed.

(** The numbers of a device without a [uevent] file are those of the device before it. *)
Example stale_numbers : collect_devices [] (Dev 0 0 [] [] [] [])
  [Entry (Some (bs "MAJOR=8" ++ [x0a] ++ bs "MINOR=2" ++ [x0a] ++ bs "DEVNAME=sda2" ++ [x0a])) None (bs "/devices/sda2");
   Entry None (Some (bs "system")) (bs "/devices/dm-0")] =
  Ret [Dev 8 2 (bs "sda2") [] [] (bs "/devices/sda2"); Dev 8 2 [] [] (bs "system") (bs "/devices/dm-0")].
Proof. vm_compute. reflexivity. Qed.
