(* ===== verification/Scripts.v ===== *)
(** Boot stage scripts: [native/src/core/scripting.cpp].  Time is counted in nanoseconds of
    [CLOCK_MONOTONIC]; a script is described by what it does when it is started, and the
    phases return when every script was started and when the daemon went on. *)

From S2P Require Import Prelude Base SuShell.

(** ** Time *)

Record timespec := Ts { tv_sec : Z; tv_nsec : Z }.

(** [operator>] *)
Definition ts_gt (a b : timespec) : bool :=
  if negb (tv_sec a =? tv_sec b) then tv_sec b <? tv_sec a else tv_nsec b <? tv_nsec a.

Definition NSEC : Z := 1000000000.
Definition ts_ns (t : timespec) : Z := tv_sec t * NSEC + tv_nsec t.
(** [clock_gettime] at the time [now]. *)
Definition clock_gettime (now : Z) : timespec := Ts (now / NSEC) (now mod NSEC).

Definition POST_FS_DATA_WAIT_TIME : Z := 40.
Definition POST_FS_DATA_SCRIPT_MAX_TIME : Z := 35.

(** ** Running of scripts *)

(** What starting a script does: whether the process is made, how long it runs ([None]:
    it does not end), and whether [waitpid] reports it first when the timer ends at the
    same time. *)
Record run := Run { forks : bool; time : option Z; first : bool }.

Section scripts.
Context (prog : bytes -> run).

(** The process that runs the scripts: its time, [timer_pid] ([Some t] when it is positive,
    the timer ending at [t]) and the scripts that were started. *)
Record runner := Runner { now : Z; timer : option Z; started : list (bytes * Z) }.

(** [waitpid(-1)] with the script and the timer as children: when it returns, and whether
    it is the timer that ended. *)
Definition wait_any (r : run) (now t : Z) : Z * bool :=
  let t := Z.max now t in
  match forks r, time r with
  | true, Some d => if now + d <? t then (now + d, false) else if t <? now + d then (t, true) else (t, negb (first r))
  | _, _ => (t, true)
  end.

(** [exec_command] and [PFS_WAIT]. *)
Definition run_script (pfs : bool) (st : runner) (path : bytes) : runner :=
  let r := prog path in
  let log := started st ++ (if forks r then [(path, now st)] else []) in
  if pfs then
    match timer st with
    | None => Runner (now st) None log
    | Some t => let '(n, out) := wait_any r (now st) t in Runner n (if out then None else Some t) log
    end
  else Runner (now st) (timer st) log.

(** What a stage did: the scripts it started, when its caller went on, and whether it
    killed its timer. *)
Record phase := Phase { ph_started : list (bytes * Z); ph_end : Z; ph_killed : bool }.

(** [PFS_SETUP], the loop and [PFS_DONE]; [parent] and [tfork] are the results of the two
    forks.  Without [pfs] nothing is waited for. *)
Definition run_phase (pfs parent tfork : bool) (timeout : timespec) (paths : list bytes) (t0 : Z) : phase :=
  if pfs then
    if parent then
      let st := foldl (run_script true) (Runner t0 (if tfork then Some (ts_ns timeout) else None) []) paths in
      Phase (started st) (now st) (bool_decide (is_Some (timer st)))
    else Phase [] t0 false
  else Phase (started (foldl (run_script false) (Runner t0 None []) paths)) t0 false.

(** An entry of the directory of scripts. *)
Record script_entry := Scr { s_name : bytes; s_reg : bool; s_exec : bool }.

Definition common_paths (stage : bytes) (dir : list script_entry) : list bytes :=
  (fun e => bs "/data/adb/" ++ stage ++ bs ".d/" ++ s_name e) <$> filter (fun e => s_reg e && s_exec e = true) dir.

(** [faccessat] and [access] are asked when the loop reaches a script; [s_exec] and [there]
    are their answers at that time. *)

(** [exec_common_scripts]: [dir] is [None] when the directory cannot be opened.  Returns
    [pfs_timeout] too. *)
Definition exec_common_scripts (stage : bytes) (dir : option (list script_entry)) (parent tfork : bool) (t0 : Z) (timeout : timespec) : timespec * phase :=
  match dir with
  | None => (timeout, Phase [] t0 false)
  | Some dir =>
    let pfs := bool_decide (stage = bs "post-fs-data") in
    let timeout := if pfs then let t := clock_gettime t0 in Ts (tv_sec t + POST_FS_DATA_SCRIPT_MAX_TIME) (tv_nsec t) else timeout in
    (timeout, run_phase pfs parent tfork timeout (common_paths stage dir) t0)
  end.

Definition module_paths (stage : bytes) (modules : list bytes) (there : bytes -> bool) : list bytes :=
  filter (fun p => there p = true) ((fun m => bs "/data/adb/modules/" ++ m ++ bs "/" ++ stage ++ bs ".sh") <$> modules).

(** [exec_module_scripts]: once the time is over the stage is run like a service. *)
Definition exec_module_scripts (stage : bytes) (modules : list bytes) (there : bytes -> bool) (parent tfork : bool) (t0 : Z) (timeout : timespec) : phase :=
  match modules with
  | [] => Phase [] t0 false
  | _ =>
    let pfs := bool_decide (stage = bs "post-fs-data") && negb (ts_gt (clock_gettime t0) timeout) in
    run_phase pfs parent tfork timeout (module_paths stage modules there) t0
  end.
End scripts.

(** ** Command texts *)

(** [bbpath] *)
Definition bbpath (access : bytes -> bool) (tmp : bytes) : bytes :=
  let path := tmp ++ bs "/.magisk/busybox/busybox" in if access path then path else bs "/data/adb/magisk/busybox".

(** [set_script_env]: the variables that are set; [None] is an unset [PATH]. *)
Definition set_script_env (path : option bytes) (tmp : bytes) (zygisk : bool) : outcome (list (bytes * bytes)) :=
  match path with
  | None => Fault
  | Some path => Ret ([(bs "ASH_STANDALONE", bs "1"); (bs "PATH", take 4095 (path ++ bs ":" ++ tmp))] ++ if zygisk then [(bs "ZYGISK_ENABLED", bs "1")] else [])
  end.

Definition lines (l : list bytes) : bytes := concat ((fun s => s ++ [x0a]) <$> l).
Definition quote : bytes := [x22].

Definition install_script (apk pkg : bytes) : bytes := x0a :: lines
  [bs "APK=" ++ apk;
   bs "log -t Magisk " ++ quote ++ bs "pm_install: $APK" ++ quote;
   bs "log -t Magisk " ++ quote ++ bs "pm_install: $(pm install -g -r $APK 2>&1)" ++ quote;
   bs "appops set " ++ pkg ++ bs " REQUEST_INSTALL_PACKAGES allow";
   bs "rm -f $APK"].
Definition uninstall_script (pkg : bytes) : bytes := x0a :: lines
  [bs "PKG=" ++ pkg;
   bs "log -t Magisk " ++ quote ++ bs "pm_uninstall: $PKG" ++ quote;
   bs "log -t Magisk " ++ quote ++ bs "pm_uninstall: $(pm uninstall $PKG 2>&1)" ++ quote].
Definition clear_script (pkg user : bytes) : bytes := x0a :: lines
  [bs "PKG=" ++ pkg;
   bs "USER=" ++ user;
   bs "log -t Magisk " ++ quote ++ bs "pm_clear: $PKG (user=$USER)" ++ quote;
   bs "log -t Magisk " ++ quote ++ bs "pm_clear: $(pm clear --user $USER $PKG 2>&1)" ++ quote].

(** The size of the literal with its NUL: a [%s] or [%d] stands where an argument goes. *)
Definition literal_size (text : bytes) : Z := zlen text + 1.

(** [ssprintf] into a buffer of [size] bytes, read back as the argument of the shell. *)
Definition shell_text (text : bytes) (size : Z) : outcome bytes :=
  let! (buf, _) := vssprintf (zeros size) text size in Ret (cstr buf).

Definition JAVA_PACKAGE_NAME : bytes := bs "io.github.huskydg.magisk".
Definition sh_command (cmds : bytes) : list bytes := [bs "/system/bin/sh"; bs "-c"; cmds].

Definition install_apk (apk : bytes) : outcome (list bytes) :=
  let! cmds := shell_text (install_script apk JAVA_PACKAGE_NAME) (literal_size (install_script (bs "%s") (bs "%s")) + 4096) in Ret (sh_command cmds).
Definition uninstall_pkg (pkg : bytes) : outcome (list bytes) :=
  let! cmds := shell_text (uninstall_script pkg) (literal_size (uninstall_script (bs "%s")) + 256) in Ret (sh_command cmds).
Definition clear_pkg (pkg : bytes) (user_id : Z) : outcome (list bytes) :=
  let! cmds := shell_text (clear_script pkg (to_string user_id)) (literal_size (clear_script (bs "%s") (bs "%d")) + 288) in Ret (sh_command cmds).

(** ** The environment of the scripts *)

Inductive fsop := RmRf (p : bytes) | CpAfc (src dst : bytes) | Chmod (p : bytes) (mode : Z) | MkDir (p : bytes) | Restorecon | ExecAsync (argv : list bytes).

Definition DATABIN : bytes := bs "/data/adb/magisk".

(** [setup_magisk_env] of [core/daemon.cpp]: what is done to the files, and the result.
    [access] and [exec] are the answers when they are asked for. *)
Definition setup_magisk_env (sdk : Z) (access exec : bytes -> bool) (tmp : bytes) : list fsop * bool :=
  let buf := take 4095 ((if 24 <=? sdk then bs "/data/user_de" else bs "/data/user") ++ bs "/0/" ++ JAVA_PACKAGE_NAME ++ bs "/install") in
  let alts := filter (fun alt => access alt = true) [bs "/cache/data_adb/magisk"; bs "/data/magisk"; buf] in
  let base := (alt ← alts; [RmRf DATABIN; CpAfc alt DATABIN; RmRf alt]) ++ [RmRf (bs "/cache/data_adb"); Chmod (bs "/data/adb") 0x1c0;
    MkDir DATABIN; MkDir (bs "/data/adb/modules"); MkDir (bs "/data/adb/post-fs-data.d"); MkDir (bs "/data/adb/service.d"); Restorecon] in
  if negb (exec (DATABIN ++ bs "/busybox")) then (base, false)
  else
    let dir := tmp ++ bs "/.magisk/busybox" in
    let tool name := if exec (DATABIN ++ bs "/" ++ name) then [CpAfc (DATABIN ++ bs "/" ++ name) (tmp ++ bs "/" ++ name)] else [] in
    (base ++ [MkDir dir; CpAfc (DATABIN ++ bs "/busybox") (dir ++ bs "/busybox"); ExecAsync [dir ++ bs "/busybox"; bs "--install"; bs "-s"; dir]]
          ++ tool (bs "magisk32") ++ tool (bs "magiskpolicy"), true).

(** ** The clock *)

Lemma ts_gt_ns a b : 0 <= tv_nsec a < NSEC -> 0 <= tv_nsec b < NSEC -> ts_gt a b = (ts_ns b <? ts_ns a).
Proof.
  intros Ha Hb. unfold ts_gt, ts_ns, NSEC in *. destruct (Z.eqb_spec (tv_sec a) (tv_sec b)) as [E|E]; cbn [negb].
  - rewrite E. apply eq_true_iff_eq. rewrite !Z.ltb_lt. lia.
  - apply eq_true_iff_eq. rewrite !Z.ltb_lt. lia.
Qed.

Lemma clock_ns t : ts_ns (clock_gettime t) = t /\ 0 <= tv_nsec (clock_gettime t) < NSEC.
Proof. unfold ts_ns, clock_gettime, NSEC. cbn. pose proof (Z.div_mod t 1000000000 ltac:(lia)). pose proof (Z.mod_pos_bound t 1000000000 ltac:(lia)). lia. Qed.

(** ** The blocking phase *)

Section blocking.
Context (prog : bytes -> run).
Implicit Types (l : list (bytes * Z)).

(** The script that was started at [tp] has ended by [t]. *)
Definition ended (p : bytes * Z) (t : Z) : Prop := exists d, time (prog p.1) = Some d /\ p.2 + d <= t.

(** Whatever is started before [T] is started after the scripts before it have ended. *)
Definition one_by_one (T : Z) l : Prop := ForallOrdPairs (fun p q => q.2 < T -> ended p q.2) l.

Lemma one_by_one_snoc T l q : one_by_one T l -> (q.2 < T -> Forall (fun p => ended p q.2) l) -> one_by_one T (l ++ [q]).
Proof.
  unfold one_by_one. intros H Hq. induction H as [|p l Hp H IH]; cbn [app]; [repeat constructor|]. constructor.
  - rewrite Forall_app, Forall_singleton. split; [done|]. intros Ht. by apply Hq, Forall_cons in Ht as [? _].
  - apply IH. intros Ht. by apply Hq, Forall_cons in Ht as [_ ?].
Qed.

Definition runnable (paths : list bytes) : list bytes := filter (fun p => forks (prog p) = true) paths.

Definition run_inv (T t0 : Z) (st : runner) : Prop :=
  t0 <= now st /\ now st <= Z.max t0 T /\ one_by_one T (started st) /\
  (timer st = Some T /\ Forall (fun p => ended p (now st)) (started st) \/ timer st = None /\ T <= now st).

Hypothesis durations : forall p d, time (prog p) = Some d -> 0 <= d.

Lemma wait_any_spec r now t n out : wait_any r now t = (n, out) -> (forall d, time r = Some d -> 0 <= d) ->
  now <= n <= Z.max now t /\ (if out then n = Z.max now t else exists d, forks r = true /\ time r = Some d /\ n = now + d).
Proof.
  unfold wait_any. intros E Hd. destruct (forks r), (time r) as [d|]; [|injection E as <- <-; split; [lia|done]..].
  specialize (Hd d eq_refl). destruct (Z.ltb_spec (now + d) (Z.max now t)); [injection E as <- <-; split; [lia|eauto]|].
  destruct (Z.ltb_spec (Z.max now t) (now + d)); [injection E as <- <-; split; [lia|done]|].
  injection E as <- <-. split; [lia|]. destruct (first r); cbn [negb]; [|done]. exists d. split_and!; [done..|lia].
Qed.

Lemma ended_mono l t t' : t <= t' -> Forall (fun p => ended p t) l -> Forall (fun p => ended p t') l.
Proof. intros Ht H. eapply Forall_impl; [done|]. intros p (d & ? & ?). exists d. split; [done|lia]. Qed.

Lemma run_script_inv T t0 st p : run_inv T t0 st -> run_inv T t0 (run_script prog true st p).
Proof.
  intros (H0 & H1 & H2 & H3). unfold run_script.
  set (log := started st ++ _).
  assert (one_by_one T log) as Hlog.
  { unfold log. destruct (forks (prog p)); [|by rewrite app_nil_r]. apply one_by_one_snoc; [done|]. cbn. intros Ht. destruct H3 as [[_ ?]|[_ ?]]; [done|lia]. }
  destruct H3 as [[-> H3]|[-> H3]]; [|split_and!; cbn; [lia|lia|done|auto]].
  destruct (wait_any (prog p) (now st) T) as [n out] eqn:Ew. apply wait_any_spec in Ew as [Hn Hout]; [|apply durations].
  split_and!; cbn; [lia|lia|done|]. destruct out; [right; split; [done|lia]|]. left. split; [done|].
  destruct Hout as (d & Hf & Hd & ->). unfold log. rewrite Hf, Forall_app, Forall_singleton. split; [by eapply ended_mono; [|done]; lia|].
  exists d. split; [done|cbn; lia].
Qed.

Lemma run_scripts_inv T t0 paths : forall st, run_inv T t0 st -> run_inv T t0 (foldl (run_script prog true) st paths).
Proof. induction paths as [|p paths IH]; intros st H; cbn [foldl]; [done|]. by apply IH, run_script_inv. Qed.

Lemma started_all pfs paths : forall st, (started (foldl (run_script prog pfs) st paths)).*1 = (started st).*1 ++ runnable paths.
Proof.
  induction paths as [|p paths IH]; intros st; cbn [foldl]; [by rewrite app_nil_r|]. rewrite IH.
  assert ((started (run_script prog pfs st p)).*1 = (started st).*1 ++ if forks (prog p) then [p] else []) as ->.
  { unfold run_script. destruct pfs, (timer st); [destruct (wait_any _ _ _)|..]; cbn [started]; rewrite fmap_app; by destruct (forks (prog p)). }
  rewrite <- app_assoc. f_equal. unfold runnable. rewrite filter_cons. destruct (forks (prog p)) eqn:E; [by rewrite decide_True|by rewrite decide_False].
Qed.

Lemma service_times paths : forall st, Forall (fun p => p.2 = now st) (started st) ->
  let st' := foldl (run_script prog false) st paths in now st' = now st /\ Forall (fun p => p.2 = now st) (started st').
Proof.
  induction paths as [|p paths IH]; intros st H; cbn [foldl]; [done|].
  apply (IH (run_script prog false st p)). cbn. apply Forall_app. split; [done|]. destruct (forks _); by repeat constructor.
Qed.

(** What one stage does while it blocks. *)
Lemma run_phase_blocking timeout paths t0 : let T := ts_ns timeout in let r := run_phase prog true true true timeout paths t0 in
  (ph_started r).*1 = runnable paths /\ one_by_one T (ph_started r) /\ t0 <= ph_end r <= Z.max t0 T /\ (ph_killed r = false -> T <= ph_end r).
Proof.
  cbn. rewrite started_all. cbn. split; [done|].
  pose proof (run_scripts_inv (ts_ns timeout) t0 paths (Runner t0 (Some (ts_ns timeout)) [])) as H.
  destruct H as (H0 & H1 & H2 & H3); [split_and!; cbn; [lia|lia|constructor|auto]|]. split_and!; [done..|].
  case_bool_decide as E; [done|]. intros _. destruct H3 as [[H3 _]|[_ ?]]; [|done]. destruct E. by rewrite H3.
Qed.

(** The stage run like a service: all scripts are started and none is waited for. *)
Lemma run_phase_service parent tfork timeout paths t0 : let r := run_phase prog false parent tfork timeout paths t0 in
  (ph_started r).*1 = runnable paths /\ Forall (fun p => p.2 = t0) (ph_started r) /\ ph_end r = t0.
Proof.
  cbn. rewrite started_all. cbn. split; [done|]. split; [|done]. by destruct (service_times paths (Runner t0 None [])) as [_ ?]; [constructor|].
Qed.

Lemma late_one_by_one T t l : T <= t -> Forall (fun p => p.2 = t) l -> one_by_one T l.
Proof.
  intros Ht H. unfold one_by_one. induction H as [|p l Hp H IH]; [constructor|]. constructor; [|done].
  eapply Forall_impl; [done|]. cbn. intros q Hq. lia.
Qed.

(** C15: the post-fs-data stage: both groups of scripts share one deadline, 35 seconds after
    the first began.  Every executable script is started exactly once and in order; before
    the deadline a script is started only when the ones before it have ended; the daemon
    goes on by the deadline (or at once, when it is already over), whatever the scripts do;
    and a timer that was not killed had ended. *)
Theorem post_fs_data_blocking dir m modules there t0 delay timeout : 0 <= delay ->
  let stage := bs "post-fs-data" in
  let '(timeout, c) := exec_common_scripts prog stage (Some dir) true true t0 timeout in
  let t1 := ph_end c + delay in
  let r := exec_module_scripts prog stage (m :: modules) there true true t1 timeout in
  let T := t0 + POST_FS_DATA_SCRIPT_MAX_TIME * NSEC in
  (ph_started c).*1 = runnable (common_paths stage dir) /\ one_by_one T (ph_started c) /\ t0 <= ph_end c <= T /\ (ph_killed c = false -> T <= ph_end c) /\
  (ph_started r).*1 = runnable (module_paths stage (m :: modules) there) /\ one_by_one T (ph_started r) /\ t1 <= ph_end r <= Z.max t1 T /\
  (ph_killed r = false -> T <= ph_end r).
Proof.
  intros Hdelay stage. unfold exec_common_scripts. rewrite bool_decide_true by done.
  destruct (clock_ns t0) as [Hc Hn]. set (T := Ts _ _). cbv zeta.
  assert (ts_ns T = t0 + POST_FS_DATA_SCRIPT_MAX_TIME * NSEC) as HT by (unfold T, ts_ns in *; cbn [tv_sec tv_nsec]; lia).
  assert (t0 <= ts_ns T) as HT0 by (rewrite HT; unfold POST_FS_DATA_SCRIPT_MAX_TIME, NSEC; lia).
  rewrite <- HT. clear HT. pose proof (run_phase_blocking T (common_paths stage dir) t0) as (C1 & C2 & C3 & C4).
  set (c := run_phase prog true true true T _ t0) in *. refine (conj C1 (conj C2 (conj _ (conj C4 _)))); [lia|]. clear C1 C2 C4.
  destruct (clock_ns (ph_end c + delay)) as [Hc' Hn']. unfold exec_module_scripts. rewrite bool_decide_true by done. cbn [andb].
  rewrite ts_gt_ns, Hc' by done. destruct (Z.ltb_spec (ts_ns T) (ph_end c + delay)) as [Ht|Ht]; cbn [negb].
  - destruct (run_phase_service true true T (module_paths stage (m :: modules) there) (ph_end c + delay)) as (S1 & S2 & S3).
    split_and!; [done|eapply late_one_by_one; [|done]; lia|lia|lia|intros _; lia].
  - destruct (run_phase_blocking T (module_paths stage (m :: modules) there) (ph_end c + delay)) as (S1 & S2 & S3 & S4).
    split_and!; [done|done|lia|lia|done].
Qed.
End blocking.

(** Two common scripts, one of two seconds and one that never ends, and one of a module. *)
Definition sample_prog (p : bytes) : run := if bool_decide (p = bs "/data/adb/post-fs-data.d/b.sh") then Run true None true else Run true (Some (2 * NSEC)) true.
Definition sample_dir : list script_entry := [Scr (bs "a.sh") true true; Scr (bs "README") true false; Scr (bs "b.sh") true true].
Definition sample_common : timespec * phase := exec_common_scripts sample_prog (bs "post-fs-data") (Some sample_dir) true true (10 * NSEC) (Ts 0 0).
Example sample_common_eq : sample_common =
  (Ts 45 0, Phase [(bs "/data/adb/post-fs-data.d/a.sh", 10 * NSEC); (bs "/data/adb/post-fs-data.d/b.sh", 12 * NSEC)] (45 * NSEC) false).
Proof. vm_compute. reflexivity. Qed.

Lemma post_fs_data_blocking_witness :
  let r := exec_module_scripts sample_prog (bs "post-fs-data") [bs "m"] (fun _ => true) true true (ph_end sample_common.2 + 1) sample_common.1 in
  ph_end sample_common.2 <= 45 * NSEC /\ (ph_started r).*1 = [bs "/data/adb/modules/m/post-fs-data.sh"] /\ ph_end r <= 45 * NSEC + 1.
Proof.
  assert (forall p d, time (sample_prog p) = Some d -> 0 <= d) as Hd.
  { intros p d. unfold sample_prog. case_bool_decide; [done|]. intros [= <-]. unfold NSEC. lia. }
  pose proof (post_fs_data_blocking sample_prog Hd sample_dir (bs "m") [] (fun _ => true) (10 * NSEC) 1 (Ts 0 0) ltac:(lia)) as H.
  clear Hd. cbv zeta in H. fold sample_common in H. cbv zeta. rewrite sample_common_eq in *. cbn [fst snd ph_end] in *.
  destruct H as (_ & _ & H0 & _ & H1 & _ & H2 & _). split_and!; [apply H0|etransitivity; [exact H1|vm_compute; reflexivity]|].
  etransitivity; [apply H2|]. vm_compute. discriminate.
Defined.

(** Without the directory of the common scripts the deadline is never set, and the scripts
    of the modules are not waited for. *)
Theorem no_directory_no_wait prog modules there parent tfork t0 : 0 < t0 ->
  let '(timeout, c) := exec_common_scripts prog (bs "post-fs-data") None parent tfork t0 (Ts 0 0) in
  let r := exec_module_scripts prog (bs "post-fs-data") modules there parent tfork t0 timeout in
  Forall (fun p => p.2 = t0) (ph_started r) /\ ph_end r = t0.
Proof.
  intros H. cbn [exec_common_scripts]. unfold exec_module_scripts. destruct modules as [|m modules]; [split; [constructor|done]|].
  destruct (clock_ns t0) as [Hc Hn]. rewrite bool_decide_true by done. cbn [andb]. rewrite (ts_gt_ns _ _ Hn), Hc by (cbn; unfold NSEC; lia).
  change (ts_ns (Ts 0 0)) with 0. rewrite (proj2 (Z.ltb_lt 0 t0)) by lia. by destruct (run_phase_service prog parent tfork (Ts 0 0) (module_paths (bs "post-fs-data") (m :: modules) there) t0) as (_ & ? & ?).
Qed.

(** A script whose process cannot be made holds the stage until the deadline. *)
Example failed_fork_blocks :
  ph_end (exec_common_scripts (fun _ => Run false None true) (bs "post-fs-data") (Some [Scr (bs "a.sh") true true]) true true 0 (Ts 0 0)).2 = 35 * NSEC.
Proof. vm_compute. reflexivity. Qed.

(** ** Command texts *)

Lemma cstr_stop text l : Forall (.≠ x00) text -> cstr (text ++ x00 :: l) = text.
Proof. intros H. induction H as [|c text Hc _ IH]; [done|]. cbn. rewrite eqb_false by done. by rewrite IH. Qed.

Lemma shell_text_fits text size : Forall (.≠ x00) text -> zlen text < size -> shell_text text size = Ret text.
Proof.
  intros Ht Hs. unfold shell_text, vssprintf. pose proof (zlen_nonneg text). rewrite (proj2 (Z.ltb_lt 0 size)) by lia.
  rewrite Z.min_l, sub_full by lia. assert (zlen (zeros size) = size) as Hz by (apply zlen_zeros; lia).
  rewrite wr_ok by (rewrite ?Hz, ?zlen_app; change (zlen [x00]) with 1; lia). cbn [obind].
  unfold upd. cbn [Z.to_nat take app]. rewrite <- app_assoc. f_equal. by apply cstr_stop.
Qed.

Lemma zlen_lines l : zlen (lines l) = foldr (fun s n => zlen s + 1 + n) 0 l.
Proof. unfold lines. induction l as [|s l IH]; [done|]. cbn [fmap list_fmap concat foldr]. rewrite !zlen_app, IH. done. Qed.
Lemma lines_no_nul l : Forall (Forall (.≠ x00)) l -> Forall (.≠ x00) (lines l).
Proof. unfold lines. intros H. induction H as [|s l Hs _ IH]; [constructor|]. cbn [fmap list_fmap concat]. apply Forall_app. split; [|done]. apply Forall_app. split; [done|]. by repeat constructor. Qed.

(** Whether a text without arguments is free of NULs is computed. *)
Ltac no_nul := repeat first [assumption | apply Forall_cons; split | exact I | apply Forall_nil | apply Forall_app; split | apply lines_no_nul | discriminate
  | match goal with |- Forall ?P (bs ?s) => apply (bool_decide_unpack (Forall P (bs s))); vm_compute; exact I end ].
Ltac text_size := unfold literal_size; rewrite ?zlen_cons, ?zlen_lines; cbn [foldr]; rewrite ?zlen_app; repeat match goal with |- context [zlen (bs ?s)] => let n := eval vm_compute in (zlen (bs s)) in change (zlen (bs s)) with n end; change (zlen quote) with 1.

Lemma digits_no_nul fuel : forall z acc, Forall (.≠ x00) acc -> Forall (.≠ x00) (dec_digits fuel z acc).
Proof.
  induction fuel as [|fuel IH]; intros z acc Ha; [done|]. cbn [dec_digits].
  assert (Forall (.≠ x00) (z2b (48 + z mod 10) :: acc)) as H.
  { constructor; [|done]. pose proof (Z.mod_pos_bound z 10 ltac:(lia)). intros E. apply (f_equal b2z) in E. rewrite b2z_z2b_small in E by lia. change (b2z x00) with 0 in E. lia. }
  destruct (z / 10 =? 0); [done|by apply IH].
Qed.
Lemma to_string_no_nul z : Forall (.≠ x00) (to_string z).
Proof. unfold to_string, print_dec. destruct (z <? 0); [constructor; [done|]|]; apply digits_no_nul; constructor. Qed.

(** The shell gets the whole command, with the arguments in their places, whenever they
    fit the room that the buffers leave for them: 4076 bytes for the path of an apk, 257 for
    a package that is removed, 291 for a package and a user. *)
Lemma package_commands apk pkg user : Forall (.≠ x00) apk -> Forall (.≠ x00) pkg ->
  (zlen apk <= 4076 -> install_apk apk = Ret (sh_command (install_script apk JAVA_PACKAGE_NAME))) /\
  (zlen pkg <= 257 -> uninstall_pkg pkg = Ret (sh_command (uninstall_script pkg))) /\
  (zlen pkg + zlen (to_string user) <= 291 -> clear_pkg pkg user = Ret (sh_command (clear_script pkg (to_string user)))).
Proof.
  intros Ha Hp.
  pose proof (to_string_no_nul user) as Hu. unfold install_apk, uninstall_pkg, clear_pkg, install_script, uninstall_script, clear_script, JAVA_PACKAGE_NAME.
  split_and!; intros H; (rewrite shell_text_fits; [done|no_nul|]).
  - text_size. lia.
  - text_size. lia.
  - text_size. lia.
Qed.

(** ** Installing a module *)

(** [install_module]: the environment and the arguments of the shell it becomes; [access]
    asks for existence, [exec] for the right to execute, [real] is [realpath].  A variable
    with [false] is only set when it is not there. *)
Definition install_module_script : bytes := x0a :: lines [bs ". /data/adb/magisk/util_functions.sh"; bs "install_module"; bs "exit 0"].
Definition install_module (uid : Z) (access exec : bytes -> bool) (tmp : bytes) (real : bytes -> bytes) (file : bytes)
  : outcome (list (bytes * bytes * bool) * list bytes) :=
  if negb (uid =? 0) then Exit 1
  else if negb (access (bs "/data/adb/magisk")) || negb (exec (bbpath exec tmp)) || negb (access (bs "/data/adb/magisk/util_functions.sh")) then Exit 1
  else if negb (access file) then Exit 1
  else Ret ([(bs "OUTFD", bs "1", true); (bs "ZIPFILE", real file, true); (bs "ASH_STANDALONE", bs "1", true); (bs "MAGISKTMP", tmp, false)],
            [bbpath exec tmp; bs "sh"; bs "-c"; install_module_script]).

(** The shell is only reached as root, with the tools and the file there. *)
Lemma install_module_spec uid access exec tmp real file env argv : install_module uid access exec tmp real file = Ret (env, argv) ->
  uid = 0 /\ access file = true /\ argv = [bbpath exec tmp; bs "sh"; bs "-c"; install_module_script] /\ exec (bbpath exec tmp) = true /\
  (bs "ZIPFILE", real file, true) ∈ env.
Proof.
  unfold install_module. destruct (Z.eqb_spec uid 0) as [->|]; [|done]. cbn [negb].
  destruct (access (bs "/data/adb/magisk")), (exec (bbpath exec tmp)) eqn:Ee, (access (bs "/data/adb/magisk/util_functions.sh")); cbn [negb orb]; try done.
  destruct (access file) eqn:Ea; [|done]. intros [= <- <-]. split_and!; try done. set_solver.
Qed.

(** The binaries that are kept are those of the last alternative that exists, and the
    directories of both stages are made in any case. *)
Definition databin_from (l : list fsop) : option bytes :=
  foldl (fun r o => match o with CpAfc src dst => if bool_decide (dst = DATABIN) then Some src else r | RmRf p => if bool_decide (p = DATABIN) then None else r | _ => r end) None l.

Lemma setup_magisk_env_spec sdk access exec tmp : let buf := take 4095 ((if 24 <=? sdk then bs "/data/user_de" else bs "/data/user") ++ bs "/0/" ++ JAVA_PACKAGE_NAME ++ bs "/install") in
  let '(ops, ok) := setup_magisk_env sdk access exec tmp in
  ok = exec (DATABIN ++ bs "/busybox") /\ MkDir (bs "/data/adb/post-fs-data.d") ∈ ops /\ MkDir (bs "/data/adb/service.d") ∈ ops /\
  (ok = false -> databin_from ops = if access buf then Some buf else if access (bs "/data/magisk") then Some (bs "/data/magisk")
     else if access (bs "/cache/data_adb/magisk") then Some (bs "/cache/data_adb/magisk") else None).
Proof.
  cbv zeta. unfold setup_magisk_env. set (buf := take 4095 _). assert (buf <> DATABIN) as Hne by (unfold buf; by destruct (24 <=? sdk)). clearbody buf.
  destruct (exec (DATABIN ++ bs "/busybox")) eqn:Eb; cbn [negb].
  - split; [done|]. split; [|split; [|done]]; rewrite !elem_of_app; left; right; set_solver.
  - split; [done|]. split; [rewrite !elem_of_app; right; set_solver|]. split; [rewrite !elem_of_app; right; set_solver|]. intros _.
    unfold databin_from. rewrite !filter_cons, filter_nil.
    destruct (access (bs "/cache/data_adb/magisk")), (access (bs "/data/magisk")), (access buf);
      repeat first [rewrite decide_True by done|rewrite decide_False by done]; cbn [mbind list_bind app foldl];
      rewrite ?(bool_decide_false (buf = DATABIN)) by done; reflexivity.
Qed.
