(* ===== verification/Applets.v ===== *)
(** The command line of the daemon's binary: [native/src/core/applets.cpp] and
    [native/src/core/magisk.cpp], up to the daemon that answers. *)

From S2P Require Import Prelude Base SuShell Daemon Db Scripts.

(** ** Dispatch *)

(** [basename] of libgen: the last component, without the slashes after it. *)
Definition SLASH : byte := x2f.
Fixpoint drop_slashes (l : bytes) : bytes :=
  match l with c :: l' => if Byte.eqb c SLASH then drop_slashes l' else l | [] => [] end.
Fixpoint until_slash (l : bytes) : bytes :=
  match l with c :: l => if Byte.eqb c SLASH then [] else c :: until_slash l | [] => [] end.
Definition basename (path : bytes) : bytes :=
  match path with
  | [] => bs "."
  | _ => match rev (until_slash (drop_slashes (rev path))) with [] => bs "/" | n => n end
  end.

Inductive applet := Su | ResetProp | MagiskHide | ZygiskApp | MagiskMain.
#[export] Instance applet_eq : EqDecision applet.
Proof. solve_decision. Defined.

Definition applets : list (bytes * applet) := [(bs "su", Su); (bs "resetprop", ResetProp); (bs "magiskhide", MagiskHide)].
Definition private_applets : list (bytes * applet) := [(bs "zygisk", ZygiskApp)].
Definition applet_names : list bytes := [bs "su"; bs "resetprop"].

(** The end of [main]: a status or the call of an applet with its arguments. *)
Inductive dispatch := Status (code : Z) | Call (fn : applet) (argv : list bytes).

Definition find_applet (l : list (bytes * applet)) (name : bytes) (argv : list bytes) : dispatch :=
  match list_find (fun a => a.1 = name) l with Some (_, a) => Call a.2 argv | None => Status 1 end.

Definition main (argv : list bytes) : dispatch :=
  match argv with
  | [] => Status 1
  | [] :: args => match args with [] => Status 1 | name :: _ => find_applet private_applets name args end
  | arg0 :: args =>
    let argv0 := basename arg0 in
    if bool_decide (argv0 ∈ [bs "magisk"; bs "magisk32"; bs "magisk64"]) then
      match args with
      | name :: _ => if bool_decide (head name = Some x2d) then Call MagiskMain argv else find_applet applets name args
      | [] => Call MagiskMain argv
      end
    else find_applet applets argv0 argv
  end.

(** ** The options of magisk *)

(** What the command does besides talking to the daemon. *)
Inductive effect :=
| Print (b : bytes) | Request (code : Z) (create : bool) (payload : bytes) | PollFor (ms : Z)
| UnlockBlocks | Restorecon | CloneAttr (src dst : bytes) | CpAfc (src dst : bytes).

(** How it ends: with a status, in [denylist_cli] with its arguments, or as a shell. *)
Inductive ending := Returns (code : Z) | DenylistCli (argv : list bytes) | Becomes (env : list (bytes * bytes * bool)) (argv : list bytes).

Section magisk.
(** The macros of the build, [get_magisk_tmp] and [find_preinit_device]. *)
Context (version : bytes) (ver_code : Z) (debug : bool) (tmp preinit : bytes).
(** The user and the files, for [install_module]. *)
Context (uid : Z) (access exec : bytes -> bool) (real : bytes -> bytes).
(** [connect_daemon]: what can be read after the answer, or [None] for a descriptor of -1.
    The daemon reads the code and the payload. *)
Context (connect : Z -> bytes -> option bytes).

(** Reading from a descriptor of -1 fails as at the end of the data. *)
Definition conn (code : Z) (payload : bytes) : bytes := match connect code payload with Some s => s | None => [] end.

(** [magisk_main]; [usage] exits with 1. *)
Definition magisk_main (argv : list bytes) : outcome (list effect * ending) :=
  match argv with
  | _ :: opt :: args =>
    if bool_decide (opt = bs "-c") then
      Ret ([Print (version ++ (if debug then bs ":MAGISK:D (" else bs ":MAGISK:R (") ++ to_string ver_code ++ bs ")" ++ [x0a])], Returns 0)
    else if bool_decide (opt = bs "-v") then
      let! (v, _, _) := read_string (conn CHECK_VERSION []) in
      Ret ([Request CHECK_VERSION false []; Print (cstr v ++ [x0a])], Returns 0)
    else if bool_decide (opt = bs "-V") then
      Ret ([Request CHECK_VERSION_CODE false []; Print (to_string (read_int (conn CHECK_VERSION_CODE [])).1 ++ [x0a])], Returns 0)
    else if bool_decide (opt = bs "--list") then Ret ((fun n => Print (n ++ [x0a])) <$> applet_names, Returns 0)
    else if bool_decide (opt = bs "--unlock-blocks") then Ret ([UnlockBlocks], Returns 0)
    else if bool_decide (opt = bs "--restorecon") then Ret ([Restorecon], Returns 0)
    else if (2 <=? zlen args) && bool_decide (opt = bs "--clone-attr") then Ret ([CloneAttr (nth 0 args []) (nth 1 args [])], Returns 0)
    else if (2 <=? zlen args) && bool_decide (opt = bs "--clone") then Ret ([CpAfc (nth 0 args []) (nth 1 args [])], Returns 0)
    else if bool_decide (opt = bs "--daemon") then Ret ([Request START_DAEMON true []], Returns 0)
    else if bool_decide (opt = bs "--stop") then Ret ([Request STOP_DAEMON false []], Returns (read_int (conn STOP_DAEMON [])).1)
    else if bool_decide (opt = bs "--post-fs-data") then Ret ([Request POST_FS_DATA true []; PollFor (1000 * POST_FS_DATA_WAIT_TIME)], Returns 0)
    else if bool_decide (opt = bs "--service") then Ret ([Request LATE_START true []], Returns 0)
    else if bool_decide (opt = bs "--boot-complete") then Ret ([Request BOOT_COMPLETE false []], Returns 0)
    else if bool_decide (opt = bs "--zygote-restart") then Ret ([Request ZYGOTE_RESTART false []], Returns 0)
    else if bool_decide (opt = bs "--denylist") then Ret ([], DenylistCli (opt :: args))
    else if (1 <=? zlen args) && bool_decide (opt = bs "--sqlite") then
      let payload := write_string (nth 0 args []) in
      let s := conn SQLITE_CMD payload in
      let! rows := sqlite_cmd (S (length s)) s in
      Ret (Request SQLITE_CMD false payload :: ((fun r => Print (r ++ [x0a])) <$> rows), Returns 0)
    else if bool_decide (opt = bs "--remove-modules") then
      let! do_reboot := (if (zlen args =? 1) && bool_decide (nth 0 args [] = bs "-n") then Ret 0 else if zlen args =? 0 then Ret 1 else Exit 1) in
      Ret ([Request REMOVE_MODULES false (write_int do_reboot)], Returns (read_int (conn REMOVE_MODULES (write_int do_reboot))).1)
    else if bool_decide (opt = bs "--path") then match tmp with [] => Ret ([], Returns 1) | _ => Ret ([Print (tmp ++ [x0a])], Returns 0) end
    else if (1 <=? zlen args) && bool_decide (opt = bs "--install-module") then
      let! (env, argv) := install_module uid access exec tmp real (nth 0 args []) in Ret ([], Becomes env argv)
    else if bool_decide (opt = bs "--preinit-device") then match preinit with [] => Ret ([], Returns 1) | _ => Ret ([Print (cstr preinit ++ [x0a])], Returns 0) end
    else Exit 1
  | _ => Exit 1
  end.
End magisk.

(** ** Dispatch by name *)

Lemma drop_slashes_id l : Forall (.≠ SLASH) l -> drop_slashes l = l.
Proof. intros [|c l' Hc _]; [done|]. cbn. by rewrite eqb_false. Qed.
Lemma until_slash_app a b : Forall (.≠ SLASH) a -> until_slash (a ++ SLASH :: b) = a.
Proof. intros H. induction H as [|c a Hc _ IH]; [done|]. cbn. rewrite eqb_false by done. by rewrite IH. Qed.
Lemma until_slash_id a : Forall (.≠ SLASH) a -> until_slash a = a.
Proof. intros H. induction H as [|c a Hc _ IH]; [done|]. cbn. rewrite eqb_false by done. by rewrite IH. Qed.

(** A name, alone or in any directory. *)
Definition names_file (path name : bytes) : Prop := path = name \/ exists dir, path = dir ++ SLASH :: name.

Lemma basename_file path name : name <> [] -> Forall (.≠ SLASH) name -> names_file path name -> basename path = name /\ path <> [].
Proof.
  intros Hn Hs Hp. assert (path <> []) as Hne by (destruct Hp as [->|(dir & ->)]; [done|by destruct dir]).
  split; [|done]. unfold basename. destruct path as [|c path]; [done|]. apply List.Forall_rev in Hs.
  assert (rev (until_slash (drop_slashes (rev (c :: path)))) = name) as ->.
  { destruct Hp as [->|(dir & ->)].
    - rewrite drop_slashes_id, until_slash_id by done. apply rev_involutive.
    - rewrite rev_app_distr. cbn [rev]. rewrite <- app_assoc. cbn [app].
      destruct (rev name) as [|x l] eqn:E; [by apply (f_equal (@rev _)) in E; rewrite rev_involutive in E|].
      apply Forall_cons in Hs as [Hx Hs]. cbn [app drop_slashes]. rewrite eqb_false by done.
      change (x :: l ++ SLASH :: rev dir) with ((x :: l) ++ SLASH :: rev dir). rewrite until_slash_app by (by constructor). rewrite <- E. apply rev_involutive. }
  by destruct name.
Qed.

Lemma main_named path name args : basename path = name -> path <> [] -> name ∉ [bs "magisk"; bs "magisk32"; bs "magisk64"] ->
  main (path :: args) = find_applet applets name (path :: args).
Proof. intros Hb Hp Hn. unfold main. destruct path; [done|]. rewrite Hb. by rewrite bool_decide_false. Qed.

Lemma main_magisk path arg args : basename path ∈ [bs "magisk"; bs "magisk32"; bs "magisk64"] -> path <> [] -> head arg <> Some x2d ->
  main (path :: arg :: args) = find_applet applets arg (arg :: args).
Proof. intros Hb Hp Hn. unfold main. destruct path; [done|]. rewrite bool_decide_true by done. by rewrite bool_decide_false. Qed.

Lemma find_applet_spec l name argv fn : NoDup l.*1 -> (name, fn) ∈ l -> find_applet l name argv = Call fn argv.
Proof.
  intros Hn Hin. unfold find_applet. destruct (list_find _ l) as [[i [n f]]|] eqn:E.
  - apply list_find_Some in E as (E & En & _). cbn in En. subst n. apply list_elem_of_lookup in Hin as (j & Hj).
    assert (i = j) as ->. { eapply NoDup_lookup; [done|rewrite list_lookup_fmap, E; done|by rewrite list_lookup_fmap, Hj]. } by simplify_eq.
  - apply list_find_None in E. rewrite Forall_forall in E. by destruct (E _ Hin).
Qed.

Lemma applet_name name fn : (name, fn) ∈ applets ->
  name <> [] /\ Forall (.≠ SLASH) name /\ head name <> Some x2d /\ name ∉ [bs "magisk"; bs "magisk32"; bs "magisk64"].
Proof.
  unfold applets. rewrite !elem_of_cons, elem_of_nil. intros [[= -> _]|[[= -> _]|[[= -> _]|[]]]].
  all: match goal with |- ?P => apply (bool_decide_unpack P) end; vm_compute; exact I.
Qed.

(** An applet is found by its name: as a link to the binary in any directory, or as the
    first argument of magisk; both ways call the same function, with the arguments that
    follow.  The applet of zygisk is only reached when the program has an empty name. *)
Theorem applet_dispatch path magisk name fn args : (name, fn) ∈ applets -> names_file path name ->
  (exists m, m ∈ [bs "magisk"; bs "magisk32"; bs "magisk64"] /\ names_file magisk m) ->
  main (path :: args) = Call fn (path :: args) /\ main (magisk :: name :: args) = Call fn (name :: args) /\
  main ([] :: bs "zygisk" :: args) = Call ZygiskApp (bs "zygisk" :: args) /\ (forall argv l, main argv = Call ZygiskApp l -> head argv = Some []).
Proof.
  intros Hin Hp (m & Hm & Hf). pose proof (applet_name name fn Hin) as (N1 & N2 & N3 & N4).
  assert (NoDup applets.*1) as Hd by (apply (bool_decide_unpack (NoDup _)); vm_compute; exact I).
  assert (m <> [] /\ Forall (.≠ SLASH) m) as [M1 M2].
  { rewrite !elem_of_cons, elem_of_nil in Hm. destruct Hm as [->|[->|[->|[]]]]; match goal with |- ?P => apply (bool_decide_unpack P) end; vm_compute; exact I. }
  destruct (basename_file path name N1 N2 Hp) as [B1 B2]. destruct (basename_file magisk m M1 M2 Hf) as [B3 B4].
  split_and!.
  - rewrite (main_named path name) by done. by apply find_applet_spec.
  - rewrite main_magisk; [by apply find_applet_spec|by rewrite B3|done|done].
  - reflexivity.
  - assert (forall n argv l, find_applet applets n argv <> Call ZygiskApp l) as Hz.
    { intros n argv l. unfold find_applet. destruct (list_find _ applets) as [[i a]|] eqn:E; [|done]. apply list_find_Some in E as [E _].
      apply list_elem_of_lookup_2 in E. unfold applets in E. rewrite !elem_of_cons, elem_of_nil in E. by destruct E as [->|[->|[->|[]]]]. }
    intros [|[|c p] as_] l; [done|done|]. unfold main. case_bool_decide; [|by intros ?%Hz].
    destruct as_ as [|a as_]; [done|]. case_bool_decide; [done|by intros ?%Hz].
Qed.

Lemma applet_dispatch_witness : main [bs "/sbin/su"; bs "-c"; bs "id"] = Call Su [bs "/sbin/su"; bs "-c"; bs "id"] /\
  main [bs "/debug_ramdisk/magisk"; bs "su"; bs "-c"; bs "id"] = Call Su [bs "su"; bs "-c"; bs "id"].
Proof.
  destruct (applet_dispatch (bs "/sbin/su") (bs "/debug_ramdisk/magisk") (bs "su") Su [bs "-c"; bs "id"]) as (H1 & H2 & _).
  - unfold applets. set_solver.
  - right. exists (bs "/sbin"). reflexivity.
  - exists (bs "magisk"). split; [set_solver|]. right. exists (bs "/debug_ramdisk"). reflexivity.
  - by split.
Defined.

(** The list of applets leaves one out. *)
Example magiskhide_not_listed : (bs "magiskhide" ∉ applet_names) /\ main [bs "magisk"; bs "magiskhide"] = Call MagiskHide [bs "magiskhide"].
Proof. split; [apply (bool_decide_unpack (bs "magiskhide" ∉ applet_names)); vm_compute; exact I|reflexivity]. Qed.

(** ** The command and the daemon *)

Section client.
Context (version : bytes) (ver_code : Z) (debug : bool) (tmp preinit : bytes).
Context (uid : Z) (access exec : bytes -> bool) (real : bytes -> bytes) (is_client : Z -> bool).
(** The rows a statement returns. *)
Context (rows : bytes -> list bytes).

(** What the actions of the daemon send; [payload] is what the client sends after the code. *)
Definition sent (payload : bytes) (a : action) : bytes :=
  match a with
  | Send b => b
  | DbExec => match read_string payload with Ret (sql, _, _) => concat (map write_string (rows sql)) ++ write_int 0 | _ => [] end
  | _ => []
  end.

(** The daemon behind [connect_daemon]: its answer, as the client takes it, and what its
    handler sends. *)
Definition serve (c : sock_cred) (code : Z) (payload : bytes) : option bytes :=
  let v := handle_request is_client (Some c) (write_int code ++ payload) in
  if response_ok (read_int (reply v)).1 then
    match v with
    | HandleSync code => match handle_request_sync version ver_code debug code with Ret l => Some (concat (map (sent payload) l)) | _ => None end
    | HandleAsync code => match handle_request_async code payload with Ret l => Some (concat (map (sent payload) l)) | _ => None end
    | _ => Some []
    end
  else None.

Definition magisk (c : sock_cred) (args : list bytes) : outcome (list effect * ending) :=
  magisk_main version ver_code debug tmp preinit uid access exec real (serve c) (bs "magisk" :: args).

(** The answer for a known code is the permission switch's. *)
Lemma serve_eq c code payload : is_root c || is_client (cr_pid c) = true -> valid_code code ->
  serve c code payload = match check_permission c code with
    | Some _ => None
    | None => if code <? SYNC_BARRIER then match handle_request_sync version ver_code debug code with Ret l => Some (concat (map (sent payload) l)) | _ => None end
              else if code <? STAGE_BARRIER then match handle_request_async code payload with Ret l => Some (concat (map (sent payload) l)) | _ => None end
              else Some []
    end.
Proof.
  intros Hc Hv. unfold serve, handle_request.
  assert (negb (is_root c) && negb (is_zygote c) && negb (is_client (cr_pid c)) = false) as ->.
  { apply orb_true_iff in Hc as [->| ->]; [done|]. by rewrite andb_false_r. }
  assert (0 <= code < 15) as Hr.
  { apply valid_code_range in Hv. rewrite !orb_false_iff, Z.ltb_ge, Z.leb_gt in Hv. unfold REQ_END in Hv. lia. }
  rewrite read_write_int by lia. rewrite (proj1 (valid_code_range code) Hv).
  destruct (check_permission c code) as [r|] eqn:Ep.
  - assert (r = ROOT_REQUIRED \/ r = ACCESS_DENIED) as [-> | ->]; [|reflexivity..].
    unfold check_permission in Ep. repeat case_match; naive_solver.
  - destruct (code <? SYNC_BARRIER); [reflexivity|]. by destruct (code <? STAGE_BARRIER).
Qed.

Ltac known := apply (bool_decide_unpack (_ ∈ _)); vm_compute; exact I.

Definition version_text : bytes := version ++ if debug then bs ":MAGISK:D" else bs ":MAGISK:R".

(** Evaluates the comparison of options. *)
Ltac pick := unfold magisk, magisk_main; repeat (match goal with
  |- context [bool_decide (bs ?a = bs ?b)] => let v := eval vm_compute in (bool_decide (bs a = bs b)) in change (bool_decide (bs a = bs b)) with v; rewrite ?andb_false_r; cbv iota end).

Lemma serve_version c : is_root c || is_client (cr_pid c) = true ->
  serve c CHECK_VERSION [] = Some (write_string version_text) /\ serve c CHECK_VERSION_CODE [] = Some (write_int ver_code).
Proof. intros Hc. split; (rewrite serve_eq; [|done|known]); cbn -[write_string write_int]; by rewrite app_nil_r. Qed.

Lemma serve_root_only c code payload : is_root c || is_client (cr_pid c) = true -> code ∈ root_codes ->
  is_root c = false -> serve c code payload = None.
Proof.
  intros Hc Hr Hn. rewrite serve_eq; [|done|].
  - unfold check_permission. by rewrite bool_decide_true, Hn.
  - revert Hr. unfold root_codes. rewrite !elem_of_cons, elem_of_nil. intros [->|[->|[->|[->|[->|[->|[->|[]]]]]]]]; known.
Qed.

Lemma serve_stop c : is_root c = true -> serve c STOP_DAEMON [] = Some (write_int 0).
Proof. intros Hc. rewrite serve_eq; [|by rewrite Hc|known]. unfold check_permission. by rewrite Hc. Qed.

Lemma serve_remove c payload : is_root c || is_client (cr_pid c) = true ->
  serve c REMOVE_MODULES payload = if is_root c || (cr_uid c =? AID_SHELL) then Some (write_int 0) else None.
Proof.
  intros Hc. rewrite serve_eq; [|done|known]. unfold check_permission. cbn -[write_int].
  destruct (is_root c || (cr_uid c =? AID_SHELL)); [|done]. by destruct ((read_int payload).1 =? 0).
Qed.

Lemma serve_sql c sql : is_root c = true -> zlen sql < 2 ^ 31 ->
  serve c SQLITE_CMD (write_string sql) = Some (concat (map write_string (rows sql)) ++ write_int 0).
Proof.
  intros Hc Hs. rewrite serve_eq; [|by rewrite Hc|known]. unfold check_permission. rewrite Hc. cbn -[write_string write_int read_string].
  rewrite <- (app_nil_r (write_string sql)), read_string_write by done. by rewrite app_nil_r.
Qed.

Lemma sqlite_cmd_more f : forall s l g, sqlite_cmd f s = Ret l -> (f <= g)%nat -> sqlite_cmd g s = Ret l.
Proof.
  induction f as [|f IH]; intros s l g H Hg; [done|]. destruct g as [|g]; [lia|]. cbn [sqlite_cmd] in *.
  destruct (read_string s) as [[[res b] s']| | |]; cbn [obind] in *; try done. destruct res; [done|].
  destruct (sqlite_cmd f s') eqn:E; cbn [obind] in *; try done. rewrite (IH _ _ g E) by lia. done.
Qed.

Lemma sqlite_lines l : Forall (fun t => t <> [] /\ zlen t < 2 ^ 31) l ->
  let s := concat (map write_string l) ++ write_int 0 in sqlite_cmd (S (length s)) s = Ret (map cstr l).
Proof.
  intros Hl s. eapply sqlite_cmd_more; [by apply sqlite_cmd_lines|]. unfold s. rewrite length_app. clear.
  induction l as [|t l IH]; cbn [map concat length] in *; [lia|]. rewrite length_app. unfold write_string at 1. rewrite length_app.
  unfold write_int at 1. rewrite length_le_enc. lia.
Qed.

(** C16: the command and the daemon together.  Every client is told the version; root stops
    the daemon, runs statements and sees every row of the answer in order; root and the
    shell remove modules.  Anyone else gets -1, but from [--sqlite] a crash. *)
Theorem magisk_and_daemon c sql : is_root c || is_client (cr_pid c) = true -> zlen version_text < 2 ^ 31 -> Forall (.≠ x00) version_text ->
  - 2 ^ 31 <= ver_code < 2 ^ 31 -> zlen sql < 2 ^ 31 -> Forall (fun t => t <> [] /\ zlen t < 2 ^ 31) (rows sql) ->
  magisk c [bs "-v"] = Ret ([Request CHECK_VERSION false []; Print (version_text ++ [x0a])], Returns 0) /\
  magisk c [bs "-V"] = Ret ([Request CHECK_VERSION_CODE false []; Print (to_string ver_code ++ [x0a])], Returns 0) /\
  magisk c [bs "--stop"] = Ret ([Request STOP_DAEMON false []], Returns (if is_root c then 0 else -1)) /\
  magisk c [bs "--remove-modules"; bs "-n"] =
    Ret ([Request REMOVE_MODULES false (write_int 0)], Returns (if is_root c || (cr_uid c =? AID_SHELL) then 0 else -1)) /\
  magisk c [bs "--sqlite"; sql] = (if is_root c
    then Ret (Request SQLITE_CMD false (write_string sql) :: ((fun t => Print (cstr t ++ [x0a])) <$> rows sql), Returns 0) else Fault).
Proof.
  intros Hc Hv Hn Hr Hs Hl. destruct (serve_version c Hc) as [V1 V2]. split_and!.
  - pick. unfold conn. rewrite V1. cbv iota. rewrite <- (app_nil_r (write_string _)), read_string_write by done. cbn [obind]. by rewrite cstr_id.
  - pick. unfold conn. rewrite V2. cbv iota. by rewrite <- (app_nil_r (write_int _)), read_write_int.
  - pick. unfold conn. destruct (is_root c) eqn:E; [by rewrite serve_stop|]. rewrite (serve_root_only c) by (done || by rewrite E || known). done.
  - pick. cbn [nth]. pick. change (zlen [bs "-n"] =? 1) with true. cbn [andb obind]. unfold conn. rewrite (serve_remove c _ Hc). destruct (is_root c || (cr_uid c =? AID_SHELL)); reflexivity.
  - pick. cbn [nth zlen]. unfold conn. destruct (is_root c) eqn:E.
    + rewrite serve_sql by done. cbv iota. change (1 <=? zlen [sql]) with true. cbn [andb]. cbv zeta. rewrite sqlite_lines by done. cbn [obind]. by rewrite <- list_fmap_compose.
    + rewrite (serve_root_only c) by (done || by rewrite E || known). done.
Qed.
End client.

(** Root asks for the settings. *)
Definition sample_rows (sql : bytes) : list bytes := [bs "key=zygisk|value=1"; bs "key=mnt_ns|value=2"].
Lemma magisk_and_daemon_witness :
  magisk (bs "28.1") 28100 false [] [] 0 (fun _ => true) (fun _ => true) (fun p => p) (fun _ => false) sample_rows
    (SockCred 0 42 (bs "u:r:magisk:s0")) [bs "--sqlite"; bs "SELECT * FROM settings"] =
  Ret ([Request SQLITE_CMD false (write_string (bs "SELECT * FROM settings")); Print (bs "key=zygisk|value=1" ++ [x0a]); Print (bs "key=mnt_ns|value=2" ++ [x0a])], Returns 0).
Proof.
  destruct (magisk_and_daemon (bs "28.1") 28100 false [] [] 0 (fun _ => true) (fun _ => true) (fun p => p) (fun _ => false) sample_rows
    (SockCred 0 42 (bs "u:r:magisk:s0")) (bs "SELECT * FROM settings")) as (_ & _ & _ & _ & H).
  - reflexivity.
  - vm_compute. reflexivity.
  - apply (bool_decide_unpack (Forall _ _)). vm_compute. exact I.
  - lia.
  - vm_compute. reflexivity.
  - repeat constructor; (discriminate || (vm_compute; reflexivity)).
  - etransitivity; [exact H|]. reflexivity.
Defined.
